(* ===== verification/_CoqProject ===== *)
-Q . S2P
Prelude.v
RustStr.v
RustNum.v
Models.v
Serial.v
Gateway.v
Identity.v
Logs.v
ObservedHistory.v
Evidence.v
Redaction.v
Publication.v
Graph.v
RuntimeTopology.v
Findings.v
Scheduler.v
ComposeBinding.v
Fixtures.v
Assembly.v
Cache.v
CacheSystem.v
PublishedText.v
Utf8.v
Paths.v
Compose.v
ComposePlan.v
Boundary.v
Order.v
DockerCollector.v
LogSources.v
GatewayServer.v
DaemonApi.v
ComposeApi.v
Router.v
Providers.v
Words.v
Processes.v
HostFiles.v
Cron.v
RustFloat.v
Systemd.v
NetworkProviders.v
Npm.v
Collection.v
Fairness.v
Daemon.v
Workers.v
Refresh.v
Wire.v
EndToEnd.v
