(* ===== verification/Prelude.v ===== *)
(** * DockerMap: a verification library for the Rust daemon and its core

    DockerMap shows what runs on one Docker host. A daemon reads Docker's inventory every two
    seconds through a filtering gateway, joins it with what bounded, read-only providers observe
    of the host, and serves one coherent, redacted model over HTTP. This library models the Rust
    workspace [crates/]: what the three crates compute is a definition here, what they call
    outside their source is a parameter.

    ** How the program fits together

    - [dockermap-docker-gateway] sits between the collector and the raw Docker socket and lets four
      kinds of reads through: the lists of containers, networks and volumes, and bounded logs.
    - [dockermap-core] holds the contract types, identities, the log cursors, the projections of a
      Docker snapshot (images, graph, runtime map), the advisory findings, and the bounded Compose
      reader with its correlation and edit plans.
    - [dockermap-daemon] keeps one cache behind a lock. The refresh loop reads Docker (or falls
      back to sample data), publishes, and claims due provider slots; each claimed slot has a task
      that waits for one blocking worker and applies its outcome; the routes publish the cache
      through the redaction boundary.

    ** Where each part is

    Foundations: [Prelude] (notations, tactics, list and count lemmas), [RustStr] (strings as
    scalar values), [RustNum] (machine integers and their text), [RustFloat] (binary64), [Utf8],
    [Words] (whitespace and words), [Paths] (Unix paths), [HostFiles] (files as providers read
    them), [Order] (chained comparisons), [Models] (core/src/models.rs, the data), [Serial]
    ([serde_json::to_string] as a canonical key).

    Core:
    - [Identity]: identity.rs. [Logs]: logs.rs. [ObservedHistory]: observed_history.rs, the
      history of cache_refresh.rs and its wire checks in models.rs.
    - [Evidence]: the versioned evidence shapes and finding summary of models.rs; [Wire]: the
      checked decoding of references and edges.
    - [Graph] and [RuntimeTopology]: snapshot_runtime.rs. [Findings]: findings.rs.
    - [Compose] and [ComposePlan]: compose.rs. [ComposeBinding]: compose_runtime_binding.rs.
    - [Fixtures]: fixtures.rs (its log entries are in [LogSources]).

    Gateway: [Gateway], the policy and the handler of lib.rs; [GatewayServer], the configuration of
    main.rs and the start and connections of [serve].

    Daemon:
    - [Boundary]: config.rs, auth.rs, docker_config.rs, pid_namespace.rs, process_runner.rs and
      the choice of what to start in main.rs.
    - [DockerCollector] and [LogSources]: docker_collector.rs.
    - [Redaction] and [Publication]: publication.rs, on text and on records.
    - [Providers] (provider_contract.rs, listeners, tmux, pm2, the host node), [Processes],
      [Cron], [Systemd], [NetworkProviders], [Npm]: providers/*.rs; [Collection]:
      runtime_collection.rs with the guards of cache_refresh.rs.
    - [Scheduler], [Assembly], [Cache]: the slot table, the published map and the cache of
      cache_refresh.rs, one definition per operation that takes the lock.
    - [CacheSystem]: the runs of those operations in any order; [Fairness]: claims and completions
      in sequence; [Workers]: claims, guards and blocking workers; [Daemon]: the runs whose
      outcomes are those of the collectors; [Refresh]: the cached Docker client, the read, the
      Compose projection, and the whole state of the daemon.
    - [DaemonApi]: the handlers of daemon_api.rs that publish the cache, and its log query.
      [ComposeApi]: compose_api.rs and the command line of main.rs. [Router]: [daemon_router], every
      route of both with the methods, the fallback and the bearer layer of auth.rs.
      [PublishedText]: what the strings of published bodies are.

    Across the crates: [EndToEnd], the collector's reads through the handler of the gateway, and
    the daemon of [Refresh] on top of them.

    A [struct] is a [Record] and an [enum] an [Inductive] with the source's names (fields carry
    a prefix). A function is the [Definition] or [Fixpoint] of its name; a loop that is not
    structural in its data has a measure or fuel. [Result] is a sum with the success on the left,
    [Option] is [option]; where a [None] stands for a panic ([expect], an index, an [unreachable!])
    the file says so, and theorems show which panics can happen. The lock of the cache makes each
    operation atomic; what a task carries across an [await] is part of the state of a system, and
    the step relations let tasks reach the lock in any order.

    ** What the theorems show

    - The whole daemon. [Refresh.published_inventory_observed]: a Docker inventory that is published
      is what a client of the validated gateway returned.
      [EndToEnd.observation_through_gateway] and [EndToEnd.published_inventory_from_docker]: with one
      environment for the daemon and the gateway it is what Docker itself replied to the measured
      targets, and with two label filters nothing of Docker gets through. [Wire.published_map_readable]: what is
      published decodes with the contract types. [Daemon.published_states_documented]: the states
      of the slots are the documented ones.
    - The cache. [CacheSystem]: every reachable cache is one coherent publication, revisions identify
      what they stamp, a change of source retires the workers of the old one, no operation panics
      while its counters last. [Assembly], [Scheduler]: what a published map consists of, how
      outcomes change a slot, and which evidence its binder mints.
    - Scheduling. [Workers.worker_pool_bounded]: two collecting slots, at most three blocking workers,
      and two more per change of the source.
      [Fairness.due_slot_claimed]: no due slot is passed over within a window of ten seconds (and
      [Fairness.later_slots_starve]: beyond it later slots can be).
      [Collection.slot_collection_spec]: every outcome of a collection.
    - The edges. [Gateway] and [GatewayServer]: exactly which requests reach Docker, and what a run
      of the gateway does to the file system and answers on its connections. [Boundary]: remote requests are
      authenticated, and a provider command ends at the first poll that settles it, with each
      outcome exactly under its condition. [DaemonApi.logs_query_spec]: which log queries are accepted.
      [ComposeApi.compose_requests_confined]: exactly when the Compose routes and the command line
      succeed, on which files, and how they refuse. [Router.daemon_response_spec]: the status, the
      source and the strings of what a reachable daemon answers to any request.
    - Publication. [Redaction] and [Publication]: published text is normalised and free of the
      sensitive patterns; published topology has no dangling edge.
    - Derived models. [Graph], [RuntimeTopology], [Findings], [Compose], [ComposePlan],
      [DockerCollector]: what each projection contains, on every branch.
    - Logs and history. Cursors read every matching entry once, also over live pages; history events
      are the differences of two inventories, and their wire form is accepted.
    - Providers. Each collector publishes the well-formed part of what the host answered, bounded,
      with the identities and markers its contract names.

    Statements are proved over the class of each parameter. A theorem with hypotheses has a
    witness, a closed lemma that applies it to a concrete input.

    ** Bounds and fuel

    - [Npm.DISCOVERY_FUEL] is one more than [MAX_DISCOVERY_DIRS] (4096), the number of
      directories the walk visits at most; that it suffices is proved with the walk.
    - [Boundary.wait_loop] is structural in the polls and [read_loop] in the chunks a pipe delivers;
      that the loop ends at the first settling poll, and that polls 25 ms apart reach one, is
      part of [Boundary.provider_command_spec].
    - [DaemonApi.decode_component] has the length of its input as fuel, which its specification
      shows to be enough; [Logs.load_older] and [LogSources.load_older_live] count pages, and the
      theorems on logs say how many suffice.
    - [u64], [u32] and [u16] arithmetic is written with its width ([checked_add],
      [saturating_add], [saturating_sub] of [RustNum]); an overflowing revision is a panic, and
      [CacheSystem.operations_total] says when none happens.
    - [Duration]s are nanoseconds in [N]; wall clocks are milliseconds.

    ** What is a parameter

    [Sha256] (a 32-byte digest, no injectivity), [Json] (an injective text of a value), [Yaml] and
    [JsonValues] (parsed values and their accessors), [FormUrlencoded], [Bollard] and
    [DockerClient] (the Docker client and its three lists), [DockerHttp] (the requests that client
    sends, as docs/architecture/DOCKER_AUTHORITY_BOUNDARY.md measures them, and its reading of
    replies), [SocketHost] and [Exchange] (the file system and the peers of the gateway), [Host], [HostPaths], [HostView],
    [CronFiles] and [NpmFiles] (what files, directories, commands and the environment answer),
    [DebugTables] (printable characters outside ASCII), random bytes, clocks, and which waits run
    out. Each class states only documented behaviour, and each has an instance in the file that
    uses it first.

    ** Not modelled

    - How axum matches a path to a route: [Router] starts from the matched route, with its parameter
      decoded (a parameter that is not UTF-8 is refused by axum itself). That a route of [get] answers
      [HEAD] without a body and any other method with 405 is axum's documented behaviour.
    - The HTTP parsing of axum and hyper on a connection, the listener of the daemon, and signal
      handling: input and output around the handlers. The gateway's listener and accept loop are
      in [GatewayServer].
    - [bench_timing.rs]: durations for a test harness, never read back. [schema_baseline.rs],
      [generate-contract-schemas.rs] and [build.rs]: run when the program is built.
    - The text of JSON and YAML; only that the former determines its value is used.
    - Paths that are not UTF-8, and the [cfg(not(unix))] variants.
    - Tokio's scheduler: tasks interleave freely, except that [Fairness] looks at one source
      generation.
    - The web application, the API server and the contracts in TypeScript ([apps/], [packages/]).

    ** Limits of the composition

    [Refresh] has the refresh loop, the cached client and the provider tasks of the whole daemon in
    one state; [Workers] has claims, guards and blocking workers in another, and they are not one
    relation. A finished worker claims first and reads the source generation afterwards: [Refresh]
    has that as two steps, [Workers] as one, so the bounds of [Workers] are of runs in which the source
    does not change between the two. [Fairness] holds within one source generation, as a change
    of source resets the table of slots. *)

From Stdlib Require Export Bool NArith ZArith Lia.
From stdpp Require Export sorting countable gmap fin_maps.
From stdpp Require Export base tactics option list numbers sets fin_maps gmap.

(** ** Scope and notations *)

Declare Scope dm_scope.
Delimit Scope dm_scope with dm.
Open Scope dm_scope.

(** Rust's [==] and [!=] on types with [PartialEq, Eq]. *)
Notation "x == y" := (bool_decide (x = y)) (at level 70, no associativity) : dm_scope.
Notation "x != y" := (negb (bool_decide (x = y))) (at level 70, no associativity) : dm_scope.

(** Membership of a value among the alternatives of a Rust [matches!]. *)
Definition one_of {A} `{EqDecision A} (x : A) (l : list A) : bool := bool_decide (x ∈ l).

(** ** Tactics *)

Create HintDb dockermap.

(** Split every boolean connective and every [bool_decide] in the context. *)
Ltac bool_unfold :=
  repeat match goal with
  | H : Is_true _ |- _ => apply Is_true_eq_true in H
  | H : (_ && _) = true |- _ => apply andb_prop in H; destruct H
  | H : (_ || _) = false |- _ => apply orb_false_elim in H; destruct H
  | H : negb _ = true |- _ => apply negb_true_iff in H
  | H : negb _ = false |- _ => apply negb_false_iff in H
  | H : bool_decide _ = true |- _ => apply bool_decide_eq_true in H
  | H : bool_decide _ = false |- _ => apply bool_decide_eq_false in H
  end.

(** Case analysis on every [if] and [match] of a hypothesis. *)
Ltac break_match_in H :=
  repeat match type of H with
  | context [match ?x with _ => _ end] => destruct x eqn:?; try discriminate H
  end.

(** Case analysis on the condition of the outermost [if] on the left of an equation. *)
Ltac case_if E :=
  match goal with
  | |- (if ?b then _ else _) = _ => destruct b eqn:E
  | |- (if ?b then _ else _) = _ → _ => destruct b eqn:E
  | |- context [if ?b then _ else _] => destruct b eqn:E
  end.

(** Refute a decidable closed proposition by computation. *)
Ltac refute H :=
  let P := type of H in
  let E := fresh in
  assert (E : bool_decide P = true) by (apply bool_decide_eq_true; exact H);
  vm_compute in E; discriminate E.

(** Prove a decidable closed proposition by computation. *)
Ltac decided :=
  match goal with |- ?P => apply (bool_decide_eq_true_1 P); vm_compute; reflexivity end.

Ltac solve_bool := bool_unfold; subst; simpl in *; try done; try congruence; eauto.

(** ** Options *)

Definition is_some {A} (o : option A) : bool := match o with Some _ => true | None => false end.
Definition is_none {A} (o : option A) : bool := negb (is_some o).

(** Rust's [Option::is_some_and]. *)
Definition is_some_and {A} (o : option A) (f : A → bool) : bool :=
  match o with Some x => f x | None => false end.

(** Rust's [Option::or_else]. *)
Definition or_else {A} (o o' : option A) : option A :=
  match o with Some x => Some x | None => o' end.

(** ** Lists *)

Section lists.
Context {A : Type}.

(** [Iterator::position] and [Iterator::find]. *)
Fixpoint position (f : A → bool) (l : list A) : option nat :=
  match l with
  | [] => None
  | x :: l => if f x then Some 0 else S <$> position f l
  end.

Fixpoint find (f : A → bool) (l : list A) : option A :=
  match l with
  | [] => None
  | x :: l => if f x then Some x else find f l
  end.

(** [Iterator::filter(..).count()]. *)
Fixpoint count_if (f : A → bool) (l : list A) : nat :=
  match l with
  | [] => 0
  | x :: l => (if f x then 1 else 0) + count_if f l
  end.

(** [Vec::retain] / [Iterator::filter] with a boolean closure. *)
Fixpoint filterb (f : A → bool) (l : list A) : list A :=
  match l with
  | [] => []
  | x :: l => if f x then x :: filterb f l else filterb f l
  end.

Lemma elem_of_filterb f (l : list A) x : x ∈ filterb f l ↔ f x = true ∧ x ∈ l.
Proof.
  induction l as [|y l IH]; simpl; [set_solver|].
  destruct (f y) eqn:E; rewrite ?elem_of_cons, IH; split.
  - intros [->|[]]; auto.
  - intros [? [->|?]]; auto.
  - intros []; auto.
  - intros [? [->|?]]; [congruence|auto].
Qed.

Lemma filterb_app f (l1 l2 : list A) : filterb f (l1 ++ l2) = filterb f l1 ++ filterb f l2.
Proof. induction l1 as [|x l1 IH]; simpl; [done|]. destruct (f x); simpl; congruence. Qed.

Lemma length_filterb f (l : list A) : length (filterb f l) ≤ length l.
Proof. induction l as [|x l IH]; simpl; [lia|]. destruct (f x); simpl; lia. Qed.

Lemma filterb_all f (l : list A) : (∀ x, x ∈ l → f x = true) → filterb f l = l.
Proof.
  induction l as [|x l IH]; simpl; intros H; [done|].
  rewrite (H x) by left. f_equal. apply IH. intros y Hy. apply H. by right.
Qed.

Lemma filterb_none f (l : list A) : (∀ x, x ∈ l → f x = false) → filterb f l = [].
Proof.
  induction l as [|x l IH]; simpl; intros H; [done|].
  rewrite (H x) by left. apply IH. intros y Hy. apply H. by right.
Qed.

Lemma filterb_sublist f (l : list A) : filterb f l `sublist_of` l.
Proof. induction l as [|x l IH]; cbn; [done|]. destruct (f x); by constructor. Qed.

Lemma count_if_filterb f (l : list A) : count_if f l = length (filterb f l).
Proof. induction l as [|x l IH]; simpl; [done|]. destruct (f x); simpl; congruence. Qed.

Lemma count_if_app f (l1 l2 : list A) : count_if f (l1 ++ l2) = count_if f l1 + count_if f l2.
Proof. induction l1 as [|x l1 IH]; simpl; [done|]. rewrite IH. lia. Qed.

#[export] Instance filterb_Permutation f : Proper ((≡ₚ) ==> (≡ₚ)) (filterb f).
Proof.
  induction 1 as [|x l l' _ IH|x y l|l l' l'' _ IH1 _ IH2]; simpl; [done| | |by etrans].
  - destruct (f x); [by constructor|done].
  - destruct (f x), (f y); try done. by constructor.
Qed.

#[export] Instance count_if_Permutation f : Proper ((≡ₚ) ==> (=)) (count_if f).
Proof. intros l l' H. rewrite !count_if_filterb. by rewrite H. Qed.

Lemma count_if_pos f (l : list A) : 0 < count_if f l ↔ ∃ x, x ∈ l ∧ f x = true.
Proof.
  induction l as [|y l IH]; simpl.
  - split; [lia|]. intros (x & Hx & _). set_solver.
  - split.
    + destruct (f y) eqn:E; [exists y; split; [left|done]|].
      intros H. apply IH in H as (x & ? & ?). exists x. split; [by right|done].
    + intros (x & [->|Hx]%elem_of_cons & Hf); [rewrite Hf; lia|].
      assert (0 < count_if f l) by (apply IH; eauto). lia.
Qed.

Lemma count_if_zero f (l : list A) : count_if f l = 0 ↔ ∀ x, x ∈ l → f x = false.
Proof.
  split.
  - intros H x Hx. destruct (f x) eqn:E; [|done].
    assert (0 < count_if f l) by (apply count_if_pos; eauto). lia.
  - intros H. destruct (count_if f l) eqn:E; [done|].
    assert (0 < count_if f l) as (x & Hx & Hf)%count_if_pos by lia.
    rewrite H in Hf; done.
Qed.

(** Two elements counted by [f] in a list that has one such position. *)
Lemma count_if_one_lookup f (l : list A) i j x y :
  count_if f l = 1 → l !! i = Some x → l !! j = Some y →
  f x = true → f y = true → i = j.
Proof.
  revert i j. induction l as [|z l IH]; intros [|i] [|j] Hc Hi Hj Hx Hy; simpl in *;
    try done; simplify_eq.
  - rewrite Hx in Hc. assert (count_if f l = 0) as H0 by lia.
    apply list_elem_of_lookup_2 in Hj. rewrite count_if_zero in H0.
    rewrite H0 in Hy; done.
  - rewrite Hy in Hc. assert (count_if f l = 0) as H0 by lia.
    apply list_elem_of_lookup_2 in Hi. rewrite count_if_zero in H0.
    rewrite H0 in Hx; done.
  - f_equal. eapply IH; eauto. destruct (f z); [|lia].
    assert (0 < count_if f l); [|lia].
    apply count_if_pos. eexists; split; [by eapply list_elem_of_lookup_2|done].
Qed.

Lemma count_if_one_unique f (l : list A) x y :
  count_if f l = 1 → x ∈ l → y ∈ l → f x = true → f y = true → x = y.
Proof.
  intros Hc [i Hi]%list_elem_of_lookup_1 [j Hj]%list_elem_of_lookup_1 Hx Hy.
  assert (i = j) as -> by (by eapply count_if_one_lookup). congruence.
Qed.

Lemma find_Some f (l : list A) x : find f l = Some x → x ∈ l ∧ f x = true.
Proof.
  induction l as [|y l IH]; simpl; [done|].
  destruct (f y) eqn:E; [intros [= ->]; split; [left|done]|].
  intros [? ?]%IH. split; [by right|done].
Qed.

Lemma find_None f (l : list A) : find f l = None ↔ ∀ x, x ∈ l → f x = false.
Proof.
  induction l as [|y l IH]; simpl; [set_solver|].
  destruct (f y) eqn:E; [split; [done|]; intros H; rewrite H in E; [done|left]|].
  rewrite IH. split; intros H x; [intros [->|?]%elem_of_cons; eauto|].
  intros Hx. apply H. by right.
Qed.

(** [Vec::dedup]: drop an element equal to its successor. *)
Fixpoint dedup `{EqDecision A} (l : list A) : list A :=
  match l with
  | [] => []
  | x :: t =>
      match t with
      | [] => [x]
      | y :: _ => if x == y then dedup t else x :: dedup t
      end
  end.
End lists.

(** ** Stable sorting

    [slice::sort_by] and [slice::sort_by_key] are stable; [leb x y] reads "[x] does not
    come after [y]". *)
Section stable_sort.
Context {A : Type} (leb : A → A → bool).

Fixpoint insert_by (x : A) (l : list A) : list A :=
  match l with
  | [] => [x]
  | y :: t => if leb x y then x :: y :: t else y :: insert_by x t
  end.

Definition sort_by (l : list A) : list A := foldr insert_by [] l.

Lemma insert_by_Permutation x l : insert_by x l ≡ₚ x :: l.
Proof.
  induction l as [|y l IH]; simpl; [done|].
  destruct (leb x y); [done|]. rewrite IH. constructor.
Qed.

Lemma sort_by_Permutation l : sort_by l ≡ₚ l.
Proof. induction l as [|x l IH]; simpl; [done|]. by rewrite insert_by_Permutation, IH. Qed.

Lemma length_sort_by l : length (sort_by l) = length l.
Proof. by rewrite sort_by_Permutation. Qed.

Lemma elem_of_sort_by x l : x ∈ sort_by l ↔ x ∈ l.
Proof. by rewrite sort_by_Permutation. Qed.

Context (Htotal : ∀ x y, leb x y = true ∨ leb y x = true).
Context (Htrans : ∀ x y z, leb x y = true → leb y z = true → leb x z = true).

Lemma insert_by_sorted x l :
  StronglySorted (λ a b, leb a b = true) l →
  StronglySorted (λ a b, leb a b = true) (insert_by x l).
Proof.
  induction 1 as [|y l Hs IH Hy]; simpl; [by repeat constructor|].
  destruct (leb x y) eqn:E.
  - constructor; [by constructor|]. constructor; [done|].
    eapply Forall_impl; [exact Hy|]. simpl. eauto.
  - constructor; [done|]. rewrite insert_by_Permutation. constructor; [|done].
    destruct (Htotal x y); congruence.
Qed.

Lemma sort_by_sorted l : StronglySorted (λ a b, leb a b = true) (sort_by l).
Proof. induction l; simpl; [constructor|]. by apply insert_by_sorted. Qed.

(** A sort is determined by its elements when ties are equal elements. *)
Lemma sort_by_Permutation_eq l l' :
  (∀ x y, leb x y = true → leb y x = true → x = y) →
  l ≡ₚ l' → sort_by l = sort_by l'.
Proof.
  intros Hanti Hp. eapply StronglySorted_unique_strong;
    [| apply sort_by_sorted | apply sort_by_sorted |]; [by eauto|].
  by rewrite !sort_by_Permutation.
Qed.

(** Stability: a class of elements that compare as equal keeps its order. *)
Lemma insert_by_stable (f : A → bool) x l :
  (∀ a b, f a = true → f b = true → leb a b = true) →
  filterb f (insert_by x l) = filterb f (x :: l).
Proof.
  intros Hf. induction l as [|y l IH]; simpl; [done|].
  destruct (leb x y) eqn:E; simpl; [done|]. rewrite IH. simpl.
  destruct (f x) eqn:Ex, (f y) eqn:Ey; try done. rewrite (Hf x y) in E by done. done.
Qed.

Lemma sort_by_stable (f : A → bool) l :
  (∀ a b, f a = true → f b = true → leb a b = true) →
  filterb f (sort_by l) = filterb f l.
Proof.
  intros Hf. induction l as [|x l IH]; simpl; [done|].
  rewrite insert_by_stable by done. simpl. by rewrite IH.
Qed.
End stable_sort.

(** ** Deduplicating a sorted list *)
Section dedup.
Context {A : Type} `{EqDecision A}.

Lemma elem_of_dedup (l : list A) x : x ∈ dedup l ↔ x ∈ l.
Proof.
  induction l as [|y l IH]; [done|]. simpl. destruct l as [|z l]; [done|].
  case_bool_decide as E; simplify_eq.
  - rewrite IH, !elem_of_cons. tauto.
  - rewrite !elem_of_cons, IH, elem_of_cons. done.
Qed.

Lemma dedup_NoDup (R : relation A) (l : list A) :
  (∀ x y, R x y → R y x → x = y) → StronglySorted R l → NoDup (dedup l).
Proof.
  intros Hanti. induction 1 as [|x l Hs IH Hx]; [constructor|]. simpl.
  destruct l as [|y l]; [apply NoDup_singleton|].
  case_bool_decide as E; [done|]. constructor; [|done].
  rewrite elem_of_dedup. intros [->|Hin]%elem_of_cons; [done|]. apply E.
  apply StronglySorted_cons in Hs as [Hy _]. rewrite Forall_forall in Hx, Hy.
  apply Hanti; [apply Hx; by left|by apply Hy].
Qed.
End dedup.

(** ** Counting with an ordered map

    [*counts.entry(k).or_default() += 1] over a [BTreeMap<K, usize>]. *)
Section counts.
Context {K : Type} `{Countable K}.

Definition bump (m : gmap K nat) (k : K) : gmap K nat := <[k := S (default 0 (m !! k))]> m.

Definition counts_of (l : list K) : gmap K nat := foldl bump ∅ l.

Lemma lookup_bumps (l : list K) m k :
  default 0 (foldl bump m l !! k) = default 0 (m !! k) + count_if (λ x, x == k) l.
Proof.
  revert m. induction l as [|x l IH]; intros m; simpl; [lia|].
  rewrite IH. unfold bump. case_bool_decide as E; subst.
  - rewrite lookup_insert_eq. simpl. lia.
  - rewrite lookup_insert_ne by done. done.
Qed.

Lemma counts_of_spec (l : list K) k n :
  counts_of l !! k = Some (S n) ↔ count_if (λ x, x == k) l = S n.
Proof.
  pose proof (lookup_bumps l ∅ k) as Hl. rewrite lookup_empty in Hl. simpl in Hl.
  unfold counts_of. destruct (foldl bump ∅ l !! k) eqn:E; simpl in Hl; split; intros;
    simplify_eq; congruence.
Qed.

(** The test [counts.get(k) == Some(&1)]. *)
Lemma counts_of_one (l : list K) k :
  (counts_of l !! k == Some 1) = true ↔ count_if (λ x, x == k) l = 1.
Proof. rewrite bool_decide_eq_true. apply counts_of_spec. Qed.

(** Counting the keys of the elements with a property. *)
Lemma counts_of_where {A} (shape : A → bool) (key : A → K) (l : list A) :
  foldl (λ counts x, if shape x then bump counts (key x) else counts) ∅ l
  = counts_of (key <$> filterb shape l).
Proof.
  unfold counts_of. generalize (∅ : gmap K nat).
  induction l as [|x l IH]; intros m; simpl; [done|].
  rewrite IH. by destruct (shape x).
Qed.

Lemma count_if_fmap_filterb {A} (shape : A → bool) (key : A → K) (l : list A) k :
  count_if (λ x, x == k) (key <$> filterb shape l) = count_if (λ x, shape x && (key x == k)) l.
Proof.
  induction l as [|x l IH]; [done|]. cbn [count_if filterb].
  destruct (shape x); rewrite ?fmap_cons; cbn [count_if andb]; lia.
Qed.
End counts.

(** ** [BTreeMap::entry(k).or_default().push(v)] *)
Definition push_at {K A} `{Countable K} (m : gmap K (list A)) (k : K) (v : A) : gmap K (list A) :=
  <[k := default [] (m !! k) ++ [v]]> m.

Lemma elem_of_push_at {K A} `{Countable K} (m : gmap K (list A)) k k' v x :
  x ∈ default [] (push_at m k v !! k') ↔ x ∈ default [] (m !! k') ∨ (k = k' ∧ x = v).
Proof.
  unfold push_at. destruct (decide (k = k')) as [->|Hk].
  - rewrite lookup_insert_eq. simpl. rewrite elem_of_app, list_elem_of_singleton. tauto.
  - rewrite lookup_insert_ne by done. tauto.
Qed.

(** ** A sorted list without duplicates is determined by its elements *)

Lemma sorted_dedup_canonical {A} `{EqDecision A} (leb : A → A → bool) (l l' : list A) :
  (∀ x y, leb x y = true ∨ leb y x = true) →
  (∀ x y z, leb x y = true → leb y z = true → leb x z = true) →
  (∀ x y, leb x y = true → leb y x = true → x = y) →
  (∀ x, x ∈ l ↔ x ∈ l') → dedup (sort_by leb l) = dedup (sort_by leb l').
Proof.
  intros Htot Htr Hanti Hl.
  assert (Hsd : ∀ k : list A, StronglySorted (λ a b, leb a b = true) k → StronglySorted (λ a b, leb a b = true) (dedup k)).
  { induction 1 as [|x k Hs IH Hx]; [constructor|]. cbn [dedup]. destruct k as [|y k]; [repeat constructor|].
    case_bool_decide; [done|]. constructor; [done|]. rewrite Forall_forall in Hx |- *.
    intros z. rewrite elem_of_dedup. apply Hx. }
  eapply StronglySorted_unique_strong; [|apply Hsd, sort_by_sorted; done..|]; [by eauto|].
  apply NoDup_Permutation; [eapply dedup_NoDup; [exact Hanti|by apply sort_by_sorted]..|].
  intros x. by rewrite !elem_of_dedup, !elem_of_sort_by.
Qed.

Lemma StronglySorted_map {A B} (f : A → B) (R : relation A) (S : relation B) (l : list A) :
  (∀ x y, R x y → S (f x) (f y)) → StronglySorted R l → StronglySorted S (f <$> l).
Proof.
  intros HRS. induction 1 as [|x l Hs IH Hx]; [constructor|]. rewrite fmap_cons. constructor; [done|].
  apply Forall_fmap. eapply Forall_impl; [exact Hx|]. intros y. apply HRS.
Qed.

Lemma NoDup_count {A} `{EqDecision A} (l : list A) :
  NoDup l ↔ ∀ x, count_if (λ y, y == x) l ≤ 1.
Proof.
  induction l as [|a l IH]; [split; [simpl; lia|constructor]|]. rewrite NoDup_cons, IH. simpl. split.
  - intros [Ha Hl] x. case_bool_decide as E; [|apply Hl]. subst.
    assert (count_if (λ y, y == x) l = 0) as ->; [|lia].
    apply count_if_zero. intros y Hy. apply bool_decide_eq_false. by intros ->.
  - intros Hc. split.
    + intros Ha. specialize (Hc a). rewrite bool_decide_eq_true_2 in Hc by done.
      assert (0 < count_if (λ y, y == a) l); [|lia]. apply count_if_pos. exists a.
      split; [done|by apply bool_decide_eq_true].
    + intros x. specialize (Hc x). destruct (bool_decide _); lia.
Qed.

(** ** Loops that collect the results of fallible steps *)

Lemma mapM_total {A B} (f : A → option B) (g : A → B) (l : list A) :
  (∀ x, f x = Some (g x)) → mapM f l = Some (g <$> l).
Proof. intros Hf. induction l as [|x l IH]; [done|]. simpl. by rewrite Hf, IH. Qed.

(** When each step succeeds with the elements [P], so does the loop. *)
Lemma mapM_members {A B} (f : A → option (list B)) (P : A → B → Prop) (l : list A) :
  (∀ x, x ∈ l → ∃ r, f x = Some r ∧ ∀ e, e ∈ r ↔ P x e) →
  ∃ rs, mapM f l = Some rs ∧ ∀ e, e ∈ concat rs ↔ ∃ x, x ∈ l ∧ P x e.
Proof.
  induction l as [|x l IH]; intros Hf; [exists []; split; [done|set_solver]|].
  destruct (Hf x) as (r & Hr & Hre); [left|].
  destruct IH as (rs & Hrs & Hrse); [intros y Hy; apply Hf; by right|].
  exists (r :: rs). simpl. rewrite Hr, Hrs. split; [done|]. intros e.
  rewrite elem_of_app, Hre, Hrse. setoid_rewrite elem_of_cons. naive_solver.
Qed.

(** The same for a loop over [iter().enumerate()]. *)
Lemma mapM_imap_lookup {A B} (f : nat → A → option (list B)) (P : nat → A → B → Prop) (l : list A) :
  (∀ i x, l !! i = Some x → ∃ r, f i x = Some r ∧ ∀ e, e ∈ r ↔ P i x e) →
  ∃ rs, mapM id (imap f l) = Some rs ∧ ∀ e, e ∈ concat rs ↔ ∃ i x, l !! i = Some x ∧ P i x e.
Proof.
  revert f P. induction l as [|x l IH]; intros f P Hf.
  { exists []. split; [done|]. intros e. split; [by intros ?%elem_of_nil|by intros (i & x & ? & _)]. }
  destruct (Hf 0 x eq_refl) as (r & Hr & Hre).
  destruct (IH (f ∘ S) (P ∘ S)) as (rs & Hrs & Hrse); [intros i y Hy; by apply Hf|].
  exists (r :: rs). simpl. unfold id in *. rewrite Hr. simpl.
  change (λ x : option (list B), x) with (@id (option (list B))) in *. rewrite Hrs.
  split; [done|]. intros e. rewrite elem_of_app, Hre, Hrse. split.
  - intros [?|(i & y & ? & ?)]; [by exists 0, x|by exists (S i), y].
  - intros ([|i] & y & Hy & Hp); [injection Hy as <-; by left|right; eauto].
Qed.

Lemma mapM_imap_members {A B} (f : nat → A → option (list B)) (P : A → B → Prop) (l : list A) :
  (∀ i x, l !! i = Some x → ∃ r, f i x = Some r ∧ ∀ e, e ∈ r ↔ P x e) →
  ∃ rs, mapM id (imap f l) = Some rs ∧ ∀ e, e ∈ concat rs ↔ ∃ x, x ∈ l ∧ P x e.
Proof.
  intros Hf. destruct (mapM_imap_lookup f (λ _, P) l Hf) as (rs & Hrs & Hin).
  exists rs. split; [done|]. intros e. rewrite Hin. setoid_rewrite list_elem_of_lookup. naive_solver.
Qed.

Lemma mapM_Some_exists {A B} (f : A → option B) (l : list A) :
  (∀ x, x ∈ l → ∃ y, f x = Some y) →
  ∃ ys, mapM f l = Some ys ∧ ∀ y, y ∈ ys ↔ ∃ x, x ∈ l ∧ f x = Some y.
Proof.
  induction l as [|x l IH]; intros Hf; [exists []; split; [done|set_solver]|].
  destruct (Hf x) as (y & Hy); [left|].
  destruct IH as (ys & Hys & Hin); [intros z Hz; apply Hf; by right|].
  exists (y :: ys). simpl. rewrite Hy, Hys. split; [done|]. intros z.
  rewrite elem_of_cons, Hin. setoid_rewrite elem_of_cons. naive_solver.
Qed.
