(* ===== verification/RustStr.v ===== *)
(** * Rust strings

    A [String] / [&str] is the list of its Unicode scalar values ([chars()]). Every byte
    operation of the sources that this development models looks only at ASCII bytes, and
    UTF-8 gives those exactly to the ASCII scalars, so it is stated on scalars; [str_len] is
    the UTF-8 length that [str::len] returns and [utf8_bytes] the encoding that digests see. *)

From Stdlib Require Strings.Ascii Strings.String.
From S2P Require Import Prelude.
Export Stdlib.Strings.String.StringSyntax.
Open Scope string_scope.
Open Scope list_scope.
Open Scope dm_scope.

Definition rstr : Type := list N.

#[export] Instance rstr_eq_dec : EqDecision rstr := ltac:(unfold rstr; apply _).
#[export] Instance rstr_countable : Countable rstr := ltac:(unfold rstr; apply _).
#[export] Instance rstr_inhabited : Inhabited rstr := populate [].

(** ASCII literals of the source, written in Rocq string syntax. *)
Definition lit (s : String.string) : rstr :=
  (λ c, Ascii.N_of_ascii c) <$> String.list_ascii_of_string s.
Coercion lit : String.string >-> rstr.
Arguments lit : simpl never.

(** Concatenation at type [rstr], so that literals are read as strings ([format!]). *)
Definition rapp (a b : rstr) : rstr := a ++ b.
Notation "a +s+ b" := (rapp a b) (at level 60, right associativity) : dm_scope.

Lemma rapp_app a b : rapp a b = a ++ b.
Proof. done. Qed.

(** ** Character classes *)

Definition is_ascii_digit (c : N) : bool := (48 <=? c)%N && (c <=? 57)%N.
Definition is_ascii_upper (c : N) : bool := (65 <=? c)%N && (c <=? 90)%N.
Definition is_ascii_lower (c : N) : bool := (97 <=? c)%N && (c <=? 122)%N.
Definition is_ascii_alphabetic (c : N) : bool := is_ascii_upper c || is_ascii_lower c.
Definition is_ascii_alphanumeric (c : N) : bool := is_ascii_alphabetic c || is_ascii_digit c.
Definition is_hex_lower (c : N) : bool := is_ascii_digit c || ((97 <=? c)%N && (c <=? 102)%N).

(** [char::is_whitespace]: the Unicode [White_Space] property. *)
Definition is_whitespace (c : N) : bool :=
  ((9 <=? c)%N && (c <=? 13)%N) || (c =? 32)%N || (c =? 133)%N || (c =? 160)%N ||
  (c =? 5760)%N || ((8192 <=? c)%N && (c <=? 8202)%N) || (c =? 8232)%N || (c =? 8233)%N ||
  (c =? 8239)%N || (c =? 8287)%N || (c =? 12288)%N.

(** [char::is_control]: the general category [Cc]. *)
Definition is_control (c : N) : bool := (c <=? 31)%N || ((127 <=? c)%N && (c <=? 159)%N).

Definition ascii_lower (c : N) : N := if is_ascii_upper c then (c + 32)%N else c.
Definition to_ascii_lowercase (s : rstr) : rstr := ascii_lower <$> s.

(** ** UTF-8 *)

Definition utf8_char (c : N) : list N :=
  if (c <? 128)%N then [c]
  else if (c <? 2048)%N then [192 + c / 64; 128 + c mod 64]%N
  else if (c <? 65536)%N then [224 + c / 4096; 128 + (c / 64) mod 64; 128 + c mod 64]%N
  else [240 + c / 262144; 128 + (c / 4096) mod 64; 128 + (c / 64) mod 64; 128 + c mod 64]%N.

Definition utf8_bytes (s : rstr) : list N := s ≫= utf8_char.

Lemma utf8_bytes_cons c s : utf8_bytes (c :: s) = utf8_char c ++ utf8_bytes s.
Proof. done. Qed.

Lemma utf8_bytes_app s t : utf8_bytes (s ++ t) = utf8_bytes s ++ utf8_bytes t.
Proof. unfold utf8_bytes. by rewrite bind_app. Qed.

(** ASCII text is its own encoding, and only ASCII text has bytes below 128 throughout. *)
Lemma ascii_utf8 s : Forall (λ c, (c < 128)%N) s → utf8_bytes s = s.
Proof.
  induction 1 as [|c s Hc _ IH]; [done|]. rewrite utf8_bytes_cons, IH.
  unfold utf8_char. by rewrite (proj2 (N.ltb_lt c 128) Hc).
Qed.

Lemma utf8_ascii s : Forall (λ b, (b < 128)%N) (utf8_bytes s) → Forall (λ c, (c < 128)%N) s.
Proof.
  induction s as [|c s IH]; [done|]. rewrite utf8_bytes_cons.
  intros [Hc Hs]%Forall_app. constructor; [|auto]. unfold utf8_char in Hc.
  destruct (N.ltb_spec c 128); [done|]. exfalso.
  destruct (c <? 2048)%N; [|destruct (c <? 65536)%N]; apply Forall_cons in Hc as [Hc _];
    revert Hc; generalize (c / 64)%N (c / 4096)%N (c / 262144)%N; lia.
Qed.

(** [str::len], a number of bytes. *)
Definition str_len (s : rstr) : nat := length (utf8_bytes s).

(** [s.chars().count()]. *)
Definition char_count (s : rstr) : nat := length s.

Lemma char_count_str_len s : char_count s ≤ str_len s.
Proof.
  unfold char_count, str_len. induction s as [|c s IH]; [done|].
  rewrite utf8_bytes_cons, length_app. cbn [length].
  assert (1 ≤ length (utf8_char c)); [|lia]. unfold utf8_char. repeat case_match; cbn; lia.
Qed.

(** ** Order of [String] keys *)

Fixpoint str_leb (a b : rstr) : bool :=
  match a, b with
  | [], _ => true
  | _ :: _, [] => false
  | x :: a', y :: b' => if (x <? y)%N then true else if (x =? y)%N then str_leb a' b' else false
  end.

Lemma str_leb_total a b : str_leb a b = true ∨ str_leb b a = true.
Proof.
  revert b. induction a as [|x a IH]; intros [|y b]; simpl; auto.
  destruct (N.ltb_spec x y), (N.ltb_spec y x); auto.
  assert (x = y) as -> by lia. rewrite N.eqb_refl. auto.
Qed.

Lemma str_leb_antisym a b : str_leb a b = true → str_leb b a = true → a = b.
Proof.
  revert b. induction a as [|x a IH]; intros [|y b]; simpl; try done.
  destruct (N.ltb_spec x y), (N.ltb_spec y x); try done; try lia;
    destruct (N.eqb_spec x y), (N.eqb_spec y x); try done; try lia.
  subst. intros. f_equal. auto.
Qed.

Lemma str_leb_trans a b c : str_leb a b = true → str_leb b c = true → str_leb a c = true.
Proof.
  revert b c. induction a as [|x a IH]; intros [|y b] [|z c]; simpl; try done.
  destruct (N.ltb_spec x y), (N.ltb_spec y z), (N.ltb_spec x z); try done; try lia;
    destruct (N.eqb_spec x y), (N.eqb_spec y z), (N.eqb_spec x z); try done; try lia.
  apply IH.
Qed.

(** Strict order, as [a < b] on [&str]. *)
Definition str_ltb (a b : rstr) : bool := negb (str_leb b a).

(** Iteration of a [BTreeMap<String, V>] or [BTreeSet<String>] in key order. *)
Definition btree_iter {V} (m : gmap rstr V) : list (rstr * V) :=
  sort_by (λ p q, str_leb p.1 q.1) (map_to_list m).

Definition btree_keys {V} (m : gmap rstr V) : list rstr := (btree_iter m).*1.
Definition btree_values {V} (m : gmap rstr V) : list V := (btree_iter m).*2.

(** [iter.collect::<BTreeSet<String>>()] and its iteration. *)
Definition btree_set (l : list rstr) : list rstr := sort_by str_leb (dedup (sort_by str_leb l)).

Lemma elem_of_btree_iter {V} (m : gmap rstr V) k v : (k, v) ∈ btree_iter m ↔ m !! k = Some v.
Proof. unfold btree_iter. by rewrite elem_of_sort_by, elem_of_map_to_list. Qed.

Lemma btree_keys_NoDup {V} (m : gmap rstr V) : NoDup (btree_iter m).*1.
Proof.
  unfold btree_iter.
  rewrite (fmap_Permutation fst _ (map_to_list m) (sort_by_Permutation _ _)).
  apply NoDup_fst_map_to_list.
Qed.

Lemma btree_iter_sorted {V} (m : gmap rstr V) :
  StronglySorted (λ p q, str_leb p.1 q.1 = true) (btree_iter m).
Proof. apply sort_by_sorted; eauto using str_leb_total, str_leb_trans. Qed.

Lemma elem_of_btree_set l x : x ∈ btree_set l ↔ x ∈ l.
Proof. unfold btree_set. by rewrite elem_of_sort_by, elem_of_dedup, elem_of_sort_by. Qed.

Lemma btree_set_NoDup l : NoDup (btree_set l).
Proof.
  unfold btree_set. rewrite sort_by_Permutation.
  eapply dedup_NoDup; [|apply sort_by_sorted; eauto using str_leb_total, str_leb_trans].
  simpl. eauto using str_leb_antisym.
Qed.

Lemma btree_set_canonical (l : list rstr) (X : gset rstr) :
  (∀ x, x ∈ X ↔ x ∈ l) → sort_by str_leb (elements X) = btree_set l.
Proof.
  intros HX. unfold btree_set. apply sort_by_Permutation_eq; [apply str_leb_total|apply str_leb_trans|apply str_leb_antisym|].
  apply NoDup_Permutation; [apply NoDup_elements| |].
  - eapply dedup_NoDup; [apply str_leb_antisym|]. apply sort_by_sorted; [apply str_leb_total|apply str_leb_trans].
  - intros x. by rewrite elem_of_elements, HX, elem_of_dedup, elem_of_sort_by.
Qed.

(** ** Searching *)

Fixpoint strip_prefix (p s : rstr) : option rstr :=
  match p, s with
  | [], _ => Some s
  | x :: p', y :: s' => if (x =? y)%N then strip_prefix p' s' else None
  | _ :: _, [] => None
  end.

Definition starts_with (s p : rstr) : bool := is_some (strip_prefix p s).

Definition strip_suffix (p s : rstr) : option rstr :=
  (λ r, reverse r) <$> strip_prefix (reverse p) (reverse s).

Definition ends_with (s p : rstr) : bool := is_some (strip_suffix p s).

Fixpoint contains (s n : rstr) : bool :=
  starts_with s n || match s with [] => false | _ :: s' => contains s' n end.

Definition contains_char (s : rstr) (c : N) : bool := one_of c s.

Lemma strip_prefix_Some p s r : strip_prefix p s = Some r ↔ s = p ++ r.
Proof.
  revert s. induction p as [|x p IH]; intros s; simpl; [naive_solver|].
  destruct s as [|y s]; [naive_solver|].
  destruct (N.eqb_spec x y) as [->|Hne]; [rewrite IH|]; naive_solver.
Qed.

Lemma strip_suffix_Some p s r : strip_suffix p s = Some r ↔ s = r ++ p.
Proof.
  unfold strip_suffix. rewrite fmap_Some. split.
  - intros (r' & Hr%strip_prefix_Some & ->).
    rewrite <- (reverse_involutive s), Hr, reverse_app, reverse_involutive. done.
  - intros ->. exists (reverse r). rewrite reverse_involutive. split; [|done].
    apply strip_prefix_Some. by rewrite reverse_app.
Qed.

Lemma starts_with_spec s p : starts_with s p = true ↔ ∃ r, s = p ++ r.
Proof.
  unfold starts_with. destruct (strip_prefix p s) as [r|] eqn:E; simpl.
  - apply strip_prefix_Some in E. naive_solver.
  - split; [done|]. intros [r Hr%strip_prefix_Some]. congruence.
Qed.

Lemma starts_with_app p r : starts_with (p ++ r) p = true.
Proof. apply starts_with_spec. eauto. Qed.

Lemma starts_with_rapp p r : starts_with (p +s+ r) p = true.
Proof. apply starts_with_app. Qed.

Lemma ends_with_spec s p : ends_with s p = true ↔ ∃ r, s = r ++ p.
Proof.
  unfold ends_with. destruct (strip_suffix p s) as [r|] eqn:E; simpl.
  - apply strip_suffix_Some in E. naive_solver.
  - split; [done|]. intros [r Hr%strip_suffix_Some]. congruence.
Qed.

Lemma contains_spec s n : contains s n = true ↔ ∃ a b, s = a ++ n ++ b.
Proof.
  induction s as [|x s IH]; simpl; rewrite orb_true_iff, starts_with_spec.
  - split.
    + intros [[r Hr]|]; [|done]. by exists [], r.
    + intros (a & b & H). destruct a; [|done]. left. eauto.
  - rewrite IH. split.
    + intros [[r Hr]|(a & b & ->)]; [by exists [], r|]. by exists (x :: a), b.
    + intros ([|y a] & b & H); [left; eauto|]. right. simplify_eq/=. eauto.
Qed.

#[export] Hint Resolve starts_with_app starts_with_rapp : dockermap.
Arguments strip_prefix : simpl never.
Arguments strip_suffix : simpl never.
Arguments starts_with : simpl never.
Arguments ends_with : simpl never.
Arguments contains : simpl never.
Arguments contains_char : simpl never.
Arguments rapp : simpl never.

(** ** Splitting *)

(** [str::split_once] on one character. *)
Fixpoint split_once (c : N) (s : rstr) : option (rstr * rstr) :=
  match s with
  | [] => None
  | x :: s' =>
      if (x =? c)%N then Some ([], s')
      else match split_once c s' with Some (a, b) => Some (x :: a, b) | None => None end
  end.

(** [str::split] on one character. *)
Fixpoint split_char (c : N) (s : rstr) : list rstr :=
  match s with
  | [] => [[]]
  | x :: s' =>
      if (x =? c)%N then [] :: split_char c s'
      else match split_char c s' with [] => [[x]] | p :: ps => (x :: p) :: ps end
  end.

Lemma split_once_Some c s a b : split_once c s = Some (a, b) ↔ s = a ++ c :: b ∧ c ∉ a.
Proof.
  revert a b. induction s as [|x s IH]; intros a b; simpl.
  - split; [done|]. intros [H _]. by destruct a.
  - destruct (N.eqb_spec x c) as [->|Hne].
    + split; [intros [= <- <-]; split; [done|set_solver]|].
      intros [H Ha]. destruct a as [|y a]; [by simplify_eq/=|]. simplify_eq/=. set_solver.
    + destruct (split_once c s) as [[a' b']|] eqn:E.
      * destruct (proj1 (IH a' b') eq_refl) as [-> Ha']. split.
        -- intros [= <- <-]. split; [done|]. apply not_elem_of_cons. auto.
        -- intros [H Ha]. destruct a as [|y a]; simplify_eq/=.
           apply not_elem_of_cons in Ha as [_ Ha].
           assert (Some (a', b') = Some (a, b)) as Heq by (apply IH; auto).
           by injection Heq as -> ->.
      * split; [done|]. intros [H Ha]. destruct a as [|y a]; simplify_eq/=.
        apply not_elem_of_cons in Ha as [_ Ha].
        assert (None = Some (a, b)) by (apply IH; auto). done.
Qed.

Lemma split_once_None c s : split_once c s = None ↔ c ∉ s.
Proof.
  induction s as [|x s IH]; simpl; [split; [set_solver|done]|].
  destruct (N.eqb_spec x c) as [->|Hne]; [split; [done|set_solver]|].
  destruct (split_once c s) as [[a b]|]; rewrite not_elem_of_cons.
  - split; [done|]. intros [_ H]. by apply IH in H.
  - split; [|done]. intros _. split; [done|]. by apply IH.
Qed.

(** [str::lines]: split after each line feed, drop one carriage return before it, and leave out
    an empty last piece. *)
Definition strip_cr (line : rstr) : rstr := default line (strip_suffix [13%N] line).

Definition lines (s : rstr) : list rstr :=
  let pieces := split_char 10 s in
  (strip_cr <$> removelast pieces) ++ (if default [] (last pieces) == [] then [] else [default [] (last pieces)]).

Fixpoint drop_while (f : N → bool) (s : rstr) : rstr :=
  match s with [] => [] | x :: s' => if f x then drop_while f s' else s end.

Definition trim_start (s : rstr) : rstr := drop_while is_whitespace s.
Definition trim_end (s : rstr) : rstr := reverse (drop_while is_whitespace (reverse s)).
Definition trim (s : rstr) : rstr := trim_end (trim_start s).

Lemma drop_while_suffix f s : ∃ p, s = p ++ drop_while f s.
Proof.
  induction s as [|x s [p IH]]; cbn [drop_while]; [by exists []|].
  destruct (f x); [exists (x :: p); cbn; by rewrite <- IH|by exists []].
Qed.

Lemma drop_while_head f s x r : drop_while f s = x :: r → f x = false.
Proof. induction s as [|y s IH]; cbn [drop_while]; [done|]. destruct (f y) eqn:E; [done|]. by intros [= <- _]. Qed.

Lemma drop_while_idem f s : drop_while f (drop_while f s) = drop_while f s.
Proof.
  destruct (drop_while f s) as [|x r] eqn:E; [done|]. cbn [drop_while]. by rewrite (drop_while_head _ _ _ _ E).
Qed.

Lemma trim_idem s : trim (trim s) = trim s.
Proof.
  assert (Hstart : trim_start (trim s) = trim s).
  { unfold trim, trim_end. destruct (drop_while_suffix is_whitespace (reverse (trim_start s))) as [p Hp].
    set (t := drop_while is_whitespace (reverse (trim_start s))) in *.
    apply (f_equal reverse) in Hp. rewrite reverse_involutive, reverse_app in Hp.
    destruct (reverse t) as [|x r] eqn:E; [done|]. unfold trim_start in Hp |- *. cbn [app] in Hp.
    cbn [drop_while]. by rewrite (drop_while_head _ _ _ _ Hp). }
  unfold trim at 1. rewrite Hstart. unfold trim, trim_end. rewrite reverse_involutive, drop_while_idem. done.
Qed.

(** [str::trim_matches(c)]. *)
Definition trim_matches (c : N) (s : rstr) : rstr :=
  reverse (drop_while (N.eqb c) (reverse (drop_while (N.eqb c) s))).

(** [str::split_whitespace]. *)
Fixpoint split_whitespace_go (cur : rstr) (s : rstr) : list rstr :=
  match s with
  | [] => match cur with [] => [] | _ => [reverse cur] end
  | x :: s' =>
      if is_whitespace x then
        match cur with [] => split_whitespace_go [] s'
                     | _ => reverse cur :: split_whitespace_go [] s' end
      else split_whitespace_go (x :: cur) s'
  end.
Definition split_whitespace (s : rstr) : list rstr := split_whitespace_go [] s.

Fixpoint join (sep : rstr) (l : list rstr) : rstr :=
  match l with [] => [] | [x] => x | x :: l' => x ++ sep ++ join sep l' end.
