(* ===== verification/RustNum.v ===== *)
(** * Machine integers, their decimal and hexadecimal text

    Unsigned integers are [N] with the width written out: [checked_add], [saturating_add],
    [saturating_sub], [str::parse::<uN>] and the [Display]/[{:02x}] formats. *)

From S2P Require Import Prelude RustStr.

Definition u8_max : N := 255.
Definition u16_max : N := 65535.
Definition u32_max : N := 4294967295.
Definition u64_max : N := 18446744073709551615.
(** The daemon is built for 64-bit targets. *)
Definition usize_max : N := u64_max.

Definition checked_add (max a b : N) : option N := if (a + b <=? max)%N then Some (a + b)%N else None.
Definition checked_mul (max a b : N) : option N := if (a * b <=? max)%N then Some (a * b)%N else None.
Definition saturating_add (max a b : N) : N := N.min max (a + b).
(** [N.sub] truncates at zero, as [saturating_sub] does. *)
Definition saturating_sub (a b : N) : N := (a - b)%N.

(** ** Decimal *)

Fixpoint dec_digits (fuel : nat) (n : N) : rstr :=
  match fuel with
  | 0 => []
  | S fuel => if (n <? 10)%N then [48 + n]%N else dec_digits fuel (n / 10) ++ [48 + n mod 10]%N
  end.

(** [n.to_string()]; the fuel is one more than the number of binary digits. *)
Definition dec_str (n : N) : rstr := dec_digits (S (N.size_nat n)) n.

Fixpoint parse_digits (acc : N) (s : rstr) : option N :=
  match s with
  | [] => Some acc
  | c :: s' => if is_ascii_digit c then parse_digits (acc * 10 + (c - 48)) s' else None
  end.

(** The optional sign of an unsigned literal. *)
Definition strip_plus (s : rstr) : rstr :=
  match s with [] => [] | c :: t => if (c =? 43)%N then t else s end.

(** [s.parse::<uN>().ok()] for an unsigned type with maximum [max]: an optional [+], then at
    least one digit; the accumulator only grows, so the checked multiplications and
    additions of the library fail exactly when the final value exceeds [max]. *)
Definition parse_uint (max : N) (s : rstr) : option N :=
  match strip_plus s with
  | [] => None
  | body => n ← parse_digits 0 body; if (n <=? max)%N then Some n else None
  end.

Lemma parse_digits_app acc a b :
  parse_digits acc (a ++ b) = n ← parse_digits acc a; parse_digits n b.
Proof.
  revert acc. induction a as [|c a IH]; intros acc; simpl; [done|].
  destruct (is_ascii_digit c); [apply IH|done].
Qed.

Lemma digit_char d : (d < 10)%N → is_ascii_digit (48 + d) = true.
Proof.
  intros. unfold is_ascii_digit. apply andb_true_intro.
  rewrite !N.leb_le. lia.
Qed.

Lemma dec_step n : (n / 10 * 10 + (48 + n mod 10 - 48) = n)%N.
Proof.
  pose proof (N.div_mod n 10 ltac:(lia)) as H. revert H.
  generalize (n / 10)%N (n mod 10)%N. lia.
Qed.

Lemma dec_digits_parse fuel n :
  (0 < fuel)%nat → (n < 10 ^ N.of_nat fuel)%N → parse_digits 0 (dec_digits fuel n) = Some n.
Proof.
  revert n. induction fuel as [|fuel IH]; intros n Hf Hn; [lia|]. simpl dec_digits.
  destruct (N.ltb_spec n 10) as [Hlt|Hge]; simpl.
  - rewrite digit_char by done. f_equal. lia.
  - assert (Hdiv : (n = 10 * (n / 10) + n mod 10)%N) by (apply N.div_mod; lia).
    assert (Hmod : (n mod 10 < 10)%N) by (apply N.mod_lt; lia).
    destruct fuel as [|fuel]; [rewrite N.pow_1_r in Hn; lia|].
    rewrite parse_digits_app, IH; [|lia|]; cycle 1.
    { apply N.Div0.div_lt_upper_bound.
      rewrite Nat2N.inj_succ, N.pow_succ_r' in Hn. lia. }
    simpl. rewrite digit_char by done. by rewrite dec_step.
Qed.

Lemma size_nat_bound n : (n < 10 ^ N.of_nat (S (N.size_nat n)))%N.
Proof.
  assert (Hs : (n < 2 ^ N.of_nat (S (N.size_nat n)))%N).
  { destruct (decide (n = 0%N)) as [->|Hn]; [done|].
    rewrite Nat2N.inj_succ, N.pow_succ_r'.
    assert (N.of_nat (N.size_nat n) = N.size n) as ->.
    { destruct n; [done|]. simpl. induction p; simpl; try done; lia. }
    rewrite N.size_log2 by done. pose proof (N.log2_spec n ltac:(lia)).
    assert (n < 2 ^ N.succ (N.log2 n))%N by tauto. lia. }
  eapply N.lt_le_trans; [exact Hs|]. apply N.pow_le_mono_l. lia.
Qed.

Lemma dec_str_parse_digits n : parse_digits 0 (dec_str n) = Some n.
Proof. apply dec_digits_parse; [lia|apply size_nat_bound]. Qed.

Lemma dec_digits_digits fuel n : Forall (λ c, is_ascii_digit c = true) (dec_digits fuel n).
Proof.
  revert n. induction fuel as [|fuel IH]; intros n; simpl; [done|].
  destruct (N.ltb_spec n 10) as [Hlt|Hge].
  - constructor; [by apply digit_char|done].
  - apply Forall_app. split; [apply IH|]. constructor; [|done].
    apply digit_char, N.mod_lt. lia.
Qed.

Lemma dec_str_digits n : Forall (λ c, is_ascii_digit c = true) (dec_str n).
Proof. apply dec_digits_digits. Qed.

Lemma dec_str_cons n : ∃ c s, dec_str n = c :: s ∧ is_ascii_digit c = true.
Proof.
  pose proof (dec_str_digits n) as Hd. unfold dec_str in *. destruct (dec_digits _ _) as [|c s] eqn:E.
  - exfalso. simpl in E. destruct (n <? 10)%N; [done|]. by apply app_eq_nil in E as [_ ?].
  - exists c, s. split; [done|]. by inversion Hd.
Qed.

(** Round trip of the decimal text of an integer that fits its type. *)
Lemma parse_dec_str max n : (n <= max)%N → parse_uint max (dec_str n) = Some n.
Proof.
  intros Hn. unfold parse_uint. destruct (dec_str_cons n) as (c & s & E & Hc).
  pose proof (dec_str_parse_digits n) as Hp. rewrite E in *.
  assert (Hne : (c =? 43)%N = false).
  { apply N.eqb_neq. intros ->. done. }
  unfold strip_plus. rewrite Hne. rewrite Hp. simpl. rewrite (proj2 (N.leb_le _ _)) by done. done.
Qed.

Lemma dec_str_inj : Inj (=) (=) dec_str.
Proof.
  intros a b H. enough (Some a = Some b) by congruence.
  by rewrite <- !dec_str_parse_digits, H.
Qed.

Lemma dec_digits_length fuel n k :
  (n < 10 ^ N.of_nat k)%N → (0 < k)%nat → (length (dec_digits fuel n) ≤ k)%nat.
Proof.
  revert n k. induction fuel as [|fuel IH]; intros n k Hn Hk; simpl; [lia|].
  destruct (N.ltb_spec n 10); simpl; [lia|]. rewrite length_app. simpl.
  destruct k as [|[|k]]; [lia|rewrite N.pow_1_r in Hn; lia|].
  enough (length (dec_digits fuel (n / 10)) ≤ S k)%nat by lia. apply IH; [|lia].
  apply N.Div0.div_lt_upper_bound. rewrite Nat2N.inj_succ, N.pow_succ_r' in Hn. lia.
Qed.

(** A [u64] has at most twenty decimal digits. *)
Lemma dec_str_length_u64 n : (n <= u64_max)%N → (length (dec_str n) ≤ 20)%nat.
Proof. intros. apply dec_digits_length; [|lia]. unfold u64_max in *. simpl. lia. Qed.

Lemma dec_digits_no_zero fuel n c s :
  (0 < n)%N → (n < 10 ^ N.of_nat fuel)%N → dec_digits fuel n = c :: s → c ≠ 48%N.
Proof.
  revert n c s. induction fuel as [|fuel IH]; intros n c s H0 Hn; simpl; [done|].
  destruct (N.ltb_spec n 10); [intros [= <- _]; lia|].
  destruct fuel as [|fuel]; [rewrite N.pow_1_r in Hn; lia|].
  assert (Hq : (n / 10 < 10 ^ N.of_nat (S fuel))%N).
  { apply N.Div0.div_lt_upper_bound.
    rewrite Nat2N.inj_succ, N.pow_succ_r' in Hn. lia. }
  assert (Hp : (0 < n / 10)%N) by (apply N.div_str_pos; lia).
  destruct (dec_digits (S fuel) (n / 10)) as [|c' s'] eqn:E; intros Heq.
  - pose proof (dec_digits_parse (S fuel) (n / 10) ltac:(lia) Hq) as Hd. rewrite E in Hd.
    simpl in Hd. injection Hd. lia.
  - simplify_eq/=. eauto.
Qed.

Lemma dec_str_no_zero n c s : (0 < n)%N → dec_str n = c :: s → c ≠ 48%N.
Proof. intros. eapply dec_digits_no_zero; eauto using size_nat_bound. Qed.

(** ** Hexadecimal *)

Definition hex_digit (d : N) : N := if (d <? 10)%N then (48 + d)%N else (87 + d)%N.

(** [format!("{byte:02x}")]. *)
Definition hex_byte (b : N) : rstr := [hex_digit (b / 16); hex_digit (b mod 16)].

(** [bytes.iter().map(|byte| format!("{byte:02x}")).collect::<String>()]. *)
Definition hex_encode (bytes : list N) : rstr := bytes ≫= hex_byte.

Lemma length_hex_encode l : length (hex_encode l) = (2 * length l)%nat.
Proof. induction l as [|b l IH]; simpl; [done|]. rewrite IH. lia. Qed.

Lemma hex_digit_lower d : (d < 16)%N → is_hex_lower (hex_digit d) = true.
Proof.
  intros Hd. unfold is_hex_lower, is_ascii_digit, hex_digit.
  rewrite orb_true_iff, !andb_true_iff, !N.leb_le. destruct (N.ltb_spec d 10); lia.
Qed.

Lemma hex_encode_lower l :
  Forall (λ b, (b < 256)%N) l → Forall (λ c, is_hex_lower c = true) (hex_encode l).
Proof.
  induction 1 as [|b l Hb _ IH]; simpl; [done|]. constructor; [|constructor; [|done]].
  - apply hex_digit_lower. apply N.Div0.div_lt_upper_bound. lia.
  - apply hex_digit_lower. apply N.mod_lt. lia.
Qed.

Lemma hex_digit_inj d e : (d < 16)%N → (e < 16)%N → hex_digit d = hex_digit e → d = e.
Proof. unfold hex_digit. destruct (N.ltb_spec d 10), (N.ltb_spec e 10); lia. Qed.

Lemma hex_encode_inj l l' :
  Forall (λ b, (b < 256)%N) l → Forall (λ b, (b < 256)%N) l' →
  hex_encode l = hex_encode l' → l = l'.
Proof.
  intros Hl. revert l'. induction Hl as [|b l Hb Hl IH]; intros l' Hl' He.
  - destruct l'; [done|]. done.
  - inversion Hl' as [|b' l'' Hb' Hl'']; subst; [done|]. simpl in He.
    injection He as H1 H2 He. f_equal; [|by apply IH].
    assert (b / 16 < 16)%N by (apply N.Div0.div_lt_upper_bound; lia).
    assert (b' / 16 < 16)%N by (apply N.Div0.div_lt_upper_bound; lia).
    pose proof (N.mod_lt b 16 ltac:(lia)). pose proof (N.mod_lt b' 16 ltac:(lia)).
    apply hex_digit_inj in H1; [|done..]. apply hex_digit_inj in H2; [|done..].
    rewrite (N.div_mod b 16), (N.div_mod b' 16) by lia. congruence.
Qed.

Fixpoint hex_digits (fuel : nat) (n : N) : rstr :=
  match fuel with
  | 0 => []
  | S fuel => if (n <? 16)%N then [hex_digit n] else hex_digits fuel (n / 16) ++ [hex_digit (n mod 16)]
  end.

(** [format!("{n:04x}")]: at least four digits, zero padded. *)
Definition hex_pad4 (n : N) : rstr :=
  let h := hex_digits (S (N.size_nat n)) n in replicate (4 - length h) 48%N ++ h.
