(* ===== verification/Models.v ===== *)
(** * Domain models ([crates/dockermap-core/src/models.rs])

    One inductive type per [enum], one record per [struct], with the source's constructor
    names; field names carry a prefix because Rocq projections share one name space. *)

From S2P Require Import Prelude RustStr RustNum.

(** ** Docker inventory and its graph *)

Inductive NodeKind := NK_Container | NK_Network | NK_Volume.
Inductive RelationshipKind := RK_ConnectedTo | RK_Mounts.

Record GraphNode := { gn_id : rstr; gn_kind : NodeKind; gn_label : rstr }.
Record GraphEdge := { ge_source : rstr; ge_target : rstr; ge_relationship : RelationshipKind }.
Record GraphResponse := { gr_nodes : list GraphNode; gr_edges : list GraphEdge }.

Inductive ComposeMountKind := Bind | NamedVolume | AnonymousVolume | Unsupported.

Record ContainerMount := {
  cm_id : rstr;
  cm_kind : ComposeMountKind;
  cm_source : option rstr;
  cm_target : rstr;
  cm_read_only : bool
}.

Record ContainerRecord := {
  c_id : rstr;
  c_name : rstr;
  c_image : rstr;
  c_status : rstr;
  c_role : rstr;
  c_networks : list rstr;
  c_ports : list rstr;
  c_publishes_on_unspecified_address : bool;
  c_mounts : list ContainerMount;
  c_depends_on : list rstr
}.

Record ImageRecord := { im_image : rstr; im_containers : list rstr; im_status : rstr }.

Record NetworkRecord := {
  n_id : rstr;
  n_name : rstr;
  n_driver : rstr;
  n_internal : bool;
  n_members : list rstr
}.

Record VolumeRecord := { v_id : rstr; v_name : rstr; v_attached_to : list rstr }.

Inductive RuntimeMode := Mode_Docker | Mode_Mock.

Record DockerSnapshot := {
  s_containers : list ContainerRecord;
  s_images : list ImageRecord;
  s_networks : list NetworkRecord;
  s_volumes : list VolumeRecord;
  s_last_updated : N;
  s_model_revision : rstr;
  s_source : option RuntimeMode
}.

(** ** Observed history *)

Inductive ObservedChangeKind := ContainerAppeared | ContainerDisappeared | ContainerStatusChanged.
Inductive ObservedContainerStatus := OCS_Running | OCS_Stopped | OCS_Other.

Record ObservedChangeEvent := {
  oe_id : rstr;
  oe_kind : ObservedChangeKind;
  oe_observed_at_ms : N;
  oe_container_id : rstr;
  oe_previous_status : option ObservedContainerStatus;
  oe_current_status : option ObservedContainerStatus
}.

Record ObservedChangeHistoryResponse := {
  oh_source : RuntimeMode;
  oh_baseline_established : bool;
  oh_current_model_revision : option rstr;
  oh_observed_revision : option rstr;
  oh_events : list ObservedChangeEvent
}.

(** ** Provider slots *)

Inductive ProviderSlot :=
| NetworkInfrastructure | HostScoped | Slot_Tmux | Slot_Cron | Slot_Systemd
| PythonProcesses | NativeProcesses | ProjectNpm.

Inductive ProviderStateKind :=
| PS_Fresh | PS_Stale | PS_Collecting | PS_Unavailable | PS_TimedOut | PS_Disabled.

Inductive ProviderStatusReason :=
| Initial | Refreshing | CollectionFailed | CollectionTimedOut | SourceReset | Reason_Disabled.

Record ProviderState := {
  ps_slot : ProviderSlot;
  ps_state : ProviderStateKind;
  ps_last_attempt_ms : option N;
  ps_last_success_ms : option N;
  ps_last_duration_ms : option N;
  ps_consecutive_failure_count : N;
  ps_data_revision : option rstr;
  ps_status_reason : option ProviderStatusReason
}.

Inductive HealthState := Health_Ok | Health_Degraded.

Record HealthResponse := {
  h_status : HealthState;
  h_mode : RuntimeMode;
  h_docker_reachable : bool;
  h_last_updated : N;
  h_snapshot_version : rstr;
  h_model_revision : rstr;
  h_message : option rstr
}.

(** ** Logs *)

Inductive LogLevel := Log_Info | Log_Warn | Log_Error.

Record LogEntry := {
  le_id : rstr;
  le_timestamp : N;
  le_container : rstr;
  le_level : LogLevel;
  le_message : rstr
}.

Record LogsResponse := {
  lr_service : option rstr;
  lr_entries : list LogEntry;
  lr_next_cursor : option rstr;
  lr_source : option RuntimeMode
}.

Inductive DiagnosticSeverity := Sev_Info | Sev_Warning | Sev_Error | Sev_Blocked.

(** ** Runtime map *)

Inductive ServiceEntityKind :=
| SE_Service | SE_NodeApplication | SE_PythonApplication | SE_AiAgent | SE_Session | SE_Host
| SE_Storage | SE_ExternalApi | SE_DnsProvider | SE_ReverseProxy | SE_PackageDependency.

Inductive RuntimeProviderKind :=
| RP_Docker | RP_Compose | RP_Host | RP_Systemd | RP_ScheduledJob | RP_Npm | RP_Pm2 | RP_Tmux
| RP_Tailscale | RP_Headscale | RP_Cloudflare | RP_Caddy | RP_ReverseProxy | RP_LocalDns
| RP_DnsProvider | RP_ExternalApi | RP_Process | RP_Python | RP_Network | RP_Kubernetes
| RP_Other.

Inductive RuntimeNodeKind :=
| RN_Container | RN_DockerNetwork | RN_DockerVolume | RN_Host | RN_HostRisk | RN_Service
| RN_SystemdService | RN_ScheduledJob | RN_Pm2App | RN_TmuxSession | RN_TailnetNode
| RN_ReverseProxy | RN_LocalDnsResolver | RN_DnsProvider | RN_NodeApplication
| RN_PythonApplication | RN_AiAgent | RN_Package | RN_Storage | RN_ExternalApi
| RN_PackageDependency | RN_Database | RN_Worker | RN_Process | RN_NetworkListener
| RN_OrchestratorWorkload | RN_IntegrityScope.

Inductive RuntimeRelationshipKind :=
| RR_ConnectedTo | RR_DependsOn | RR_RequiredBy | RR_Requires | RR_Wants | RR_After | RR_Before
| RR_PartOf | RR_BindsTo | RR_ConflictsWith | RR_Mounts | RR_Manages | RR_Exposes
| RR_ExposesDaemonState | RR_RunsOn | RR_Uses | RR_Calls | RR_ResolvesVia | RR_ProxiesTo
| RR_Contains | RR_Owns | RR_RelatedTo.

Inductive RuntimeNodeLayer :=
| L_Edge | L_Host | L_Service | L_Container | L_Process | L_Session | L_Package | L_Network
| L_Storage | L_Advisory.

Inductive RuntimeHealthState := RH_Healthy | RH_Degraded | RH_Unhealthy | RH_Unknown.
Inductive RuntimeLogLevel := RL_Debug | RL_Info | RL_Warn | RL_Error.
Inductive RuntimeOwnershipKind := Own_Person | Own_Team | Own_System | Own_Automation | Own_Vendor.
Inductive RuntimeLocationKind :=
| Loc_Host | Loc_Container | Loc_Path | Loc_Cluster | Loc_Region | Loc_Workspace | Loc_Tailnet.
Inductive RuntimeServiceStatus :=
| Running | Starting | Stopping | Stopped | Degraded | Failed | Unknown.
Inductive RuntimePackageManager :=
| PM_Npm | PM_Pnpm | PM_Yarn | PM_Pip | PM_Apt | PM_Apk | PM_Brew | PM_Cargo | PM_System.
Inductive RuntimeAdvisorySeverity := Adv_Low | Adv_Moderate | Adv_High | Adv_Critical.

(** [RuntimeServiceStatus::from_status_text]: Docker status text is free-form. *)
Definition from_status_text (value : rstr) : RuntimeServiceStatus :=
  let lower := to_ascii_lowercase value in
  if starts_with lower "up" || (lower == "running") then Running
  else if (lower == "starting") || (lower == "created") || (lower == "restarting") then Starting
  else if lower == "stopping" then Stopping
  else if (lower == "stopped") || (lower == "exited") || starts_with lower "exited"
          || (lower == "dead") || (lower == "paused") || (lower == "removing") then Stopped
  else if lower == "degraded" then Degraded
  else if (lower == "failed") || (lower == "error") then Failed
  else Unknown.

Record RuntimeHealth := {
  rh_state : RuntimeHealthState;
  rh_checked_at : option N;
  rh_source : option rstr;
  rh_message : option rstr
}.
Record RuntimeLogRef := { rl_id : rstr; rl_source : rstr; rl_level : option RuntimeLogLevel }.
Record RuntimeOwnership := { ro_kind : RuntimeOwnershipKind; ro_name : rstr; ro_id : option rstr }.
Record RuntimeLocation := {
  rloc_kind : RuntimeLocationKind;
  rloc_value : rstr;
  rloc_detail : option rstr
}.

Record RuntimeServiceEntity := {
  rs_name : rstr;
  rs_status : RuntimeServiceStatus;
  rs_dependencies : list rstr;
  rs_dependents : list rstr;
  rs_health : option RuntimeHealth;
  rs_logs : list RuntimeLogRef;
  rs_owner : option RuntimeOwnership;
  rs_location : option RuntimeLocation
}.

(** [RuntimeServiceEntity::minimal]. *)
Definition service_minimal (name : rstr) (status : RuntimeServiceStatus) : RuntimeServiceEntity := {|
  rs_name := name; rs_status := status; rs_dependencies := []; rs_dependents := [];
  rs_health := None; rs_logs := []; rs_owner := None; rs_location := None
|}.

Record RuntimePackageAdvisory := {
  pa_id : rstr;
  pa_source : rstr;
  pa_title : rstr;
  pa_severity : RuntimeAdvisorySeverity;
  pa_fixed_version : option rstr;
  pa_url : option rstr;
  pa_published_at : option N
}.
Record RuntimePackageUpdate := {
  pu_current_version : rstr;
  pu_latest_version : option rstr;
  pu_available : bool;
  pu_advisories : list RuntimePackageAdvisory
}.
Record RuntimePackageEntity := {
  rp_name : rstr;
  rp_manager : RuntimePackageManager;
  rp_version : rstr;
  rp_dependencies : list rstr;
  rp_dependents : list rstr;
  rp_update : option RuntimePackageUpdate;
  rp_owner : option RuntimeOwnership;
  rp_location : option RuntimeLocation
}.

(** [RuntimePackageEntity::minimal]. *)
Definition package_minimal (name version : rstr) : RuntimePackageEntity := {|
  rp_name := name; rp_manager := PM_Npm; rp_version := version; rp_dependencies := [];
  rp_dependents := []; rp_update := None; rp_owner := None; rp_location := None
|}.

Record RuntimeMapNode := {
  rn_id : rstr;
  rn_provider : RuntimeProviderKind;
  rn_kind : RuntimeNodeKind;
  rn_label : rstr;
  rn_status : option rstr;
  rn_layer : option RuntimeNodeLayer;
  rn_metadata : gmap rstr rstr;
  rn_service : option RuntimeServiceEntity;
  rn_package : option RuntimePackageEntity
}.

(** ** Evidence *)

Inductive RuntimeEvidenceProvider :=
| EP_Docker | EP_Compose | EP_Systemd | EP_Npm | EP_Cron | EP_Tmux | EP_Dockermap.
Inductive RuntimeEvidenceAssertionKind := Observed | Declared.
Inductive RuntimeEvidenceKind :=
| DockerNetworkMembership | DockerVolumeMount | DockerPortPublication
| DockerUnspecifiedAddressPortPublication | DockerComposeDependsOn | DockerDaemonStateBindMount
| SystemdRequires | SystemdWants | SystemdPartOf | NpmPackageManifestDependency
| CronScheduleDeclaration | TmuxSessionListing | ComposeDeclaredMount
| DockerComposeRuntimeBinding | RuntimeIdentityCollision.
Inductive RuntimeEvidenceFreshness := EF_Fresh | EF_Stale | EF_TimedOut.

Record RuntimeEvidenceRef := {
  ev_version : N;
  ev_id : rstr;
  ev_provider : RuntimeEvidenceProvider;
  ev_kind : RuntimeEvidenceKind;
  ev_assertion_kind : RuntimeEvidenceAssertionKind;
  ev_summary : rstr;
  ev_subject_ref : rstr;
  ev_collected_at : N;
  ev_provider_revision : rstr;
  ev_provider_slot : option ProviderSlot;
  ev_freshness : RuntimeEvidenceFreshness
}.

Record RuntimeMapEdge := {
  re_source : rstr;
  re_target : rstr;
  re_relationship : RuntimeRelationshipKind;
  re_metadata : gmap rstr rstr;
  re_evidence_refs : list RuntimeEvidenceRef
}.

Record RuntimeMapDiagnostic := {
  rd_provider : RuntimeProviderKind;
  rd_severity : DiagnosticSeverity;
  rd_message : rstr
}.

(** ** Findings *)

Inductive FindingSeverity := FS_Warning | FS_Advisory.
Inductive FindingRule :=
| SystemdRequiresTargetNotActive | SystemdPartOfTargetNotActive
| DockerInternalNetworkMemberPublishesPort | DockerPortPublishedOnUnspecifiedAddress
| Rule_DockerDaemonStateBindMount | DockerDaemonStateBindMountPublishesPort
| DockerComposeDeclaredTargetNotActive | DockerComposeMutualDependency
| ComposeDeclaredMountMissingAtBoundContainer | RuntimeIdentityCollisionDetected
| RuntimeDeclaredRelationshipEvidenceNotCurrent.
Inductive FindingCategory :=
| DeclaredDependency | DockerDaemonAuthority | HostPortPublication | EvidenceIntegrity.

Record FindingSummary := {
  warning_count : N;
  advisory_count : N;
  declared_dependency_count : N;
  docker_daemon_authority_count : N;
  host_port_publication_count : N;
  evidence_integrity_count : N
}.

Record Finding := {
  f_id : rstr;
  f_rule_id : FindingRule;
  f_severity : FindingSeverity;
  f_summary : rstr;
  f_recommendation : rstr;
  f_subject_ref : rstr;
  f_target_ref : rstr;
  f_evidence_refs : list RuntimeEvidenceRef
}.

Record FindingsResponse := {
  fr_findings : list Finding;
  fr_summary : FindingSummary;
  fr_model_revision : rstr;
  fr_source : option RuntimeMode
}.

Record RuntimeMap := {
  rm_nodes : list RuntimeMapNode;
  rm_edges : list RuntimeMapEdge;
  rm_diagnostics : list RuntimeMapDiagnostic;
  rm_last_updated : N;
  rm_model_revision : rstr;
  rm_provider_states : list ProviderState;
  rm_source : option RuntimeMode
}.

(** ** Compose *)

Record ComposeFileOrigin := { co_file : rstr; co_service : option rstr; co_field : rstr }.

Record ComposeDiagnostic := {
  cd_id : rstr;
  cd_severity : DiagnosticSeverity;
  cd_message : rstr;
  cd_origin : ComposeFileOrigin
}.

Record ComposeMount := {
  cmt_id : rstr;
  cmt_service : rstr;
  cmt_kind : ComposeMountKind;
  cmt_source : option rstr;
  cmt_resolved_source : option rstr;
  cmt_target : rstr;
  cmt_read_only : bool;
  cmt_origin : ComposeFileOrigin
}.

Record ComposeService := {
  cs_name : rstr;
  cs_image : option rstr;
  cs_environment : gmap rstr rstr;
  cs_depends_on : list rstr
}.

Inductive MountCorrelationStatus := MC_Matched | MC_Missing | MC_Extra.

Record MountCorrelation := {
  mc_id : rstr;
  mc_service : rstr;
  mc_container : option rstr;
  mc_compose_mount_id : option rstr;
  mc_kind : ComposeMountKind;
  mc_target : rstr;
  mc_declared_source : option rstr;
  mc_runtime_source : option rstr;
  mc_status : MountCorrelationStatus
}.

Record ComposeScan := {
  csc_files : list rstr;
  csc_project_root : rstr;
  csc_services : list ComposeService;
  csc_mounts : list ComposeMount;
  csc_correlations : list MountCorrelation;
  csc_diagnostics : list ComposeDiagnostic
}.

Inductive ComposeNodeKind :=
| CN_Service | CN_HostPath | CN_ContainerPath | CN_NamedVolume | CN_AnonymousVolume.
Inductive ComposeRelationshipKind := DeclaresMount | MountedAt.

Record ComposeGraphNode := { cgn_id : rstr; cgn_kind : ComposeNodeKind; cgn_label : rstr }.
Record ComposeGraphEdge := {
  cge_source : rstr;
  cge_target : rstr;
  cge_relationship : ComposeRelationshipKind
}.
Record ComposeGraph := { cg_nodes : list ComposeGraphNode; cg_edges : list ComposeGraphEdge }.

Record ComposeEditPlan := {
  cep_file : rstr;
  cep_service : rstr;
  cep_mount_id : rstr;
  cep_original_source : option rstr;
  cep_original_target : rstr;
  cep_new_source : option rstr;
  cep_new_target : option rstr;
  cep_unified_diff : rstr;
  cep_diagnostics : list ComposeDiagnostic;
  cep_will_write : bool
}.

(** [#[derive(PartialEq, Eq)]]. *)
#[export] Instance NodeKind_eq_dec : EqDecision NodeKind. Proof. solve_decision. Defined.
#[export] Instance RelationshipKind_eq_dec : EqDecision RelationshipKind. Proof. solve_decision. Defined.
#[export] Instance GraphNode_eq_dec : EqDecision GraphNode. Proof. solve_decision. Defined.
#[export] Instance GraphEdge_eq_dec : EqDecision GraphEdge. Proof. solve_decision. Defined.
#[export] Instance ComposeMountKind_eq_dec : EqDecision ComposeMountKind. Proof. solve_decision. Defined.
#[export] Instance ContainerMount_eq_dec : EqDecision ContainerMount. Proof. solve_decision. Defined.
#[export] Instance ContainerRecord_eq_dec : EqDecision ContainerRecord. Proof. solve_decision. Defined.
#[export] Instance ImageRecord_eq_dec : EqDecision ImageRecord. Proof. solve_decision. Defined.
#[export] Instance NetworkRecord_eq_dec : EqDecision NetworkRecord. Proof. solve_decision. Defined.
#[export] Instance VolumeRecord_eq_dec : EqDecision VolumeRecord. Proof. solve_decision. Defined.
#[export] Instance RuntimeMode_eq_dec : EqDecision RuntimeMode. Proof. solve_decision. Defined.
#[export] Instance DockerSnapshot_eq_dec : EqDecision DockerSnapshot. Proof. solve_decision. Defined.
#[export] Instance ObservedChangeKind_eq_dec : EqDecision ObservedChangeKind. Proof. solve_decision. Defined.
#[export] Instance ObservedContainerStatus_eq_dec : EqDecision ObservedContainerStatus. Proof. solve_decision. Defined.
#[export] Instance ObservedChangeEvent_eq_dec : EqDecision ObservedChangeEvent. Proof. solve_decision. Defined.
#[export] Instance ProviderSlot_eq_dec : EqDecision ProviderSlot. Proof. solve_decision. Defined.
#[export] Instance ProviderStateKind_eq_dec : EqDecision ProviderStateKind. Proof. solve_decision. Defined.
#[export] Instance ProviderStatusReason_eq_dec : EqDecision ProviderStatusReason. Proof. solve_decision. Defined.
#[export] Instance ProviderState_eq_dec : EqDecision ProviderState. Proof. solve_decision. Defined.
#[export] Instance LogLevel_eq_dec : EqDecision LogLevel. Proof. solve_decision. Defined.
#[export] Instance LogEntry_eq_dec : EqDecision LogEntry. Proof. solve_decision. Defined.
#[export] Instance DiagnosticSeverity_eq_dec : EqDecision DiagnosticSeverity. Proof. solve_decision. Defined.
#[export] Instance RuntimeProviderKind_eq_dec : EqDecision RuntimeProviderKind. Proof. solve_decision. Defined.
#[export] Instance RuntimeNodeKind_eq_dec : EqDecision RuntimeNodeKind. Proof. solve_decision. Defined.
#[export] Instance RuntimeRelationshipKind_eq_dec : EqDecision RuntimeRelationshipKind. Proof. solve_decision. Defined.
#[export] Instance RuntimeNodeLayer_eq_dec : EqDecision RuntimeNodeLayer. Proof. solve_decision. Defined.
#[export] Instance RuntimeHealthState_eq_dec : EqDecision RuntimeHealthState. Proof. solve_decision. Defined.
#[export] Instance RuntimeLogLevel_eq_dec : EqDecision RuntimeLogLevel. Proof. solve_decision. Defined.
#[export] Instance RuntimeOwnershipKind_eq_dec : EqDecision RuntimeOwnershipKind. Proof. solve_decision. Defined.
#[export] Instance RuntimeLocationKind_eq_dec : EqDecision RuntimeLocationKind. Proof. solve_decision. Defined.
#[export] Instance RuntimeServiceStatus_eq_dec : EqDecision RuntimeServiceStatus. Proof. solve_decision. Defined.
#[export] Instance RuntimePackageManager_eq_dec : EqDecision RuntimePackageManager. Proof. solve_decision. Defined.
#[export] Instance RuntimeAdvisorySeverity_eq_dec : EqDecision RuntimeAdvisorySeverity. Proof. solve_decision. Defined.
#[export] Instance RuntimeHealth_eq_dec : EqDecision RuntimeHealth. Proof. solve_decision. Defined.
#[export] Instance RuntimeLogRef_eq_dec : EqDecision RuntimeLogRef. Proof. solve_decision. Defined.
#[export] Instance RuntimeOwnership_eq_dec : EqDecision RuntimeOwnership. Proof. solve_decision. Defined.
#[export] Instance RuntimeLocation_eq_dec : EqDecision RuntimeLocation. Proof. solve_decision. Defined.
#[export] Instance RuntimeServiceEntity_eq_dec : EqDecision RuntimeServiceEntity. Proof. solve_decision. Defined.
#[export] Instance RuntimePackageAdvisory_eq_dec : EqDecision RuntimePackageAdvisory. Proof. solve_decision. Defined.
#[export] Instance RuntimePackageUpdate_eq_dec : EqDecision RuntimePackageUpdate. Proof. solve_decision. Defined.
#[export] Instance RuntimePackageEntity_eq_dec : EqDecision RuntimePackageEntity. Proof. solve_decision. Defined.
#[export] Instance RuntimeMapNode_eq_dec : EqDecision RuntimeMapNode. Proof. solve_decision. Defined.
#[export] Instance RuntimeEvidenceProvider_eq_dec : EqDecision RuntimeEvidenceProvider. Proof. solve_decision. Defined.
#[export] Instance RuntimeEvidenceAssertionKind_eq_dec : EqDecision RuntimeEvidenceAssertionKind. Proof. solve_decision. Defined.
#[export] Instance RuntimeEvidenceKind_eq_dec : EqDecision RuntimeEvidenceKind. Proof. solve_decision. Defined.
#[export] Instance RuntimeEvidenceFreshness_eq_dec : EqDecision RuntimeEvidenceFreshness. Proof. solve_decision. Defined.
#[export] Instance RuntimeEvidenceRef_eq_dec : EqDecision RuntimeEvidenceRef. Proof. solve_decision. Defined.
#[export] Instance RuntimeMapEdge_eq_dec : EqDecision RuntimeMapEdge. Proof. solve_decision. Defined.
#[export] Instance FindingSeverity_eq_dec : EqDecision FindingSeverity. Proof. solve_decision. Defined.
#[export] Instance FindingRule_eq_dec : EqDecision FindingRule. Proof. solve_decision. Defined.
#[export] Instance FindingCategory_eq_dec : EqDecision FindingCategory. Proof. solve_decision. Defined.
#[export] Instance Finding_eq_dec : EqDecision Finding. Proof. solve_decision. Defined.
#[export] Instance ComposeFileOrigin_eq_dec : EqDecision ComposeFileOrigin. Proof. solve_decision. Defined.
#[export] Instance ComposeDiagnostic_eq_dec : EqDecision ComposeDiagnostic. Proof. solve_decision. Defined.
#[export] Instance ComposeMount_eq_dec : EqDecision ComposeMount. Proof. solve_decision. Defined.
#[export] Instance ComposeService_eq_dec : EqDecision ComposeService. Proof. solve_decision. Defined.
#[export] Instance MountCorrelationStatus_eq_dec : EqDecision MountCorrelationStatus. Proof. solve_decision. Defined.
#[export] Instance MountCorrelation_eq_dec : EqDecision MountCorrelation. Proof. solve_decision. Defined.
#[export] Instance ComposeScan_eq_dec : EqDecision ComposeScan. Proof. solve_decision. Defined.
#[export] Instance ComposeNodeKind_eq_dec : EqDecision ComposeNodeKind. Proof. solve_decision. Defined.
#[export] Instance ComposeRelationshipKind_eq_dec : EqDecision ComposeRelationshipKind. Proof. solve_decision. Defined.
#[export] Instance ComposeGraphNode_eq_dec : EqDecision ComposeGraphNode. Proof. solve_decision. Defined.
#[export] Instance ComposeGraphEdge_eq_dec : EqDecision ComposeGraphEdge. Proof. solve_decision. Defined.
#[export] Instance ComposeGraph_eq_dec : EqDecision ComposeGraph. Proof. solve_decision. Defined.
#[export] Instance ComposeEditPlan_eq_dec : EqDecision ComposeEditPlan. Proof. solve_decision. Defined.
#[export] Instance GraphResponse_eq_dec : EqDecision GraphResponse. Proof. solve_decision. Defined.
#[export] Instance HealthState_eq_dec : EqDecision HealthState. Proof. solve_decision. Defined.
#[export] Instance HealthResponse_eq_dec : EqDecision HealthResponse. Proof. solve_decision. Defined.
#[export] Instance LogsResponse_eq_dec : EqDecision LogsResponse. Proof. solve_decision. Defined.
#[export] Instance RuntimeMapDiagnostic_eq_dec : EqDecision RuntimeMapDiagnostic. Proof. solve_decision. Defined.
#[export] Instance FindingSummary_eq_dec : EqDecision FindingSummary. Proof. solve_decision. Defined.
#[export] Instance FindingsResponse_eq_dec : EqDecision FindingsResponse. Proof. solve_decision. Defined.
#[export] Instance RuntimeMap_eq_dec : EqDecision RuntimeMap. Proof. solve_decision. Defined.

(** ** Node ids that name several nodes

    [duplicate_runtime_node_ids], written alike in [snapshot_runtime.rs] and
    [publication.rs]. *)
Definition duplicate_runtime_node_ids (nodes : list RuntimeMapNode) : list rstr :=
  (btree_iter (filter (λ p, 1 < p.2) (counts_of (rn_id <$> nodes)))).*1.

Lemma duplicate_ids_spec nodes id :
  id ∈ duplicate_runtime_node_ids nodes ↔ 2 ≤ count_if (λ x, x == id) (rn_id <$> nodes).
Proof.
  unfold duplicate_runtime_node_ids. rewrite list_elem_of_fmap. split.
  - intros ([k n] & -> & Hin). apply elem_of_btree_iter, map_lookup_filter_Some in Hin as [Hl Hn].
    simpl in *. destruct n as [|n]; [lia|]. apply counts_of_spec in Hl. lia.
  - intros Hc. exists (id, count_if (λ x, x == id) (rn_id <$> nodes)). split; [done|].
    apply elem_of_btree_iter, map_lookup_filter_Some. split; [|simpl; lia].
    destruct (count_if _ _) as [|n] eqn:E; [lia|]. by apply counts_of_spec.
Qed.

Lemma no_duplicate_ids nodes : duplicate_runtime_node_ids nodes = [] ↔ NoDup (rn_id <$> nodes).
Proof.
  rewrite NoDup_count. split.
  - intros E x. destruct (decide (2 ≤ count_if (λ y, y == x) (rn_id <$> nodes))) as [H2|]; [|lia].
    apply duplicate_ids_spec in H2. rewrite E in H2. by apply elem_of_nil in H2.
  - intros Hall. destruct (duplicate_runtime_node_ids nodes) as [|id l] eqn:E; [done|].
    assert (id ∈ duplicate_runtime_node_ids nodes) as Hid by (rewrite E; left).
    apply duplicate_ids_spec in Hid. specialize (Hall id). lia.
Qed.

Lemma duplicate_ids_length nodes nodes' :
  nodes ≡ₚ nodes' →
  length (duplicate_runtime_node_ids nodes) = length (duplicate_runtime_node_ids nodes').
Proof.
  intros Hp. apply Permutation_length, NoDup_Permutation; [apply btree_keys_NoDup..|].
  intros id. rewrite !duplicate_ids_spec. by rewrite Hp.
Qed.
