(* ===== verification/Serial.v ===== *)
(** * Serialization as an interface

    The sources order records by [serde_json::to_string] and compare published states through
    it. [Json] is what they rely on: a text that determines the value (the types derive both
    [Serialize] and [Deserialize]). The instances at the end are concrete encodings of the
    model types, with which every theorem over [Json] can be instantiated. *)

From S2P Require Import Prelude RustStr RustNum Models.

Class Json (A : Type) := {
  to_json : A → rstr;
  to_json_inj : Inj (=) (=) to_json
}.
#[export] Existing Instance to_json_inj.

(** Sorting by a serialized key ([sort_by_key]) puts equal records next to each other. *)
Definition key_leb {A} `{Json A} (x y : A) : bool := str_leb (to_json x) (to_json y).

Lemma key_leb_total {A} `{Json A} (x y : A) : key_leb x y = true ∨ key_leb y x = true.
Proof. apply str_leb_total. Qed.

Lemma key_leb_trans {A} `{Json A} (x y z : A) :
  key_leb x y = true → key_leb y z = true → key_leb x z = true.
Proof. apply str_leb_trans. Qed.

Lemma key_leb_antisym {A} `{Json A} (x y : A) :
  key_leb x y = true → key_leb y x = true → x = y.
Proof. intros. apply (inj to_json). by apply str_leb_antisym. Qed.

Definition sort_by_json {A} `{Json A} (l : list A) : list A := sort_by key_leb l.

Lemma sort_by_json_Permutation {A} `{Json A} (l : list A) : sort_by_json l ≡ₚ l.
Proof. apply sort_by_Permutation. Qed.

Lemma elem_of_sort_by_json {A} `{Json A} (l : list A) x : x ∈ sort_by_json l ↔ x ∈ l.
Proof. apply elem_of_sort_by. Qed.

Lemma sort_by_json_sorted {A} `{Json A} (l : list A) :
  StronglySorted (λ x y, key_leb x y = true) (sort_by_json l).
Proof. apply sort_by_sorted; eauto using key_leb_total, key_leb_trans. Qed.

(** The result depends only on which records there are, not on their order. *)
Lemma sort_by_json_canonical {A} `{Json A} (l l' : list A) : l ≡ₚ l' → sort_by_json l = sort_by_json l'.
Proof.
  apply sort_by_Permutation_eq; eauto using key_leb_total, key_leb_trans, key_leb_antisym.
Qed.

#[export] Hint Resolve key_leb_total key_leb_trans key_leb_antisym : dockermap.

(** ** Concrete encodings *)

Definition NodeKind_all : list NodeKind := [NK_Container; NK_Network; NK_Volume].
#[export] Instance NodeKind_countable : Countable NodeKind.
Proof.
  refine (inj_countable (λ x, fst <$> list_find (λ y, y = x) NodeKind_all)
    (λ p : option nat, p ≫= λ i, NodeKind_all !! i) _).
  by intros [].
Defined.
Definition RelationshipKind_all : list RelationshipKind := [RK_ConnectedTo; RK_Mounts].
#[export] Instance RelationshipKind_countable : Countable RelationshipKind.
Proof.
  refine (inj_countable (λ x, fst <$> list_find (λ y, y = x) RelationshipKind_all)
    (λ p : option nat, p ≫= λ i, RelationshipKind_all !! i) _).
  by intros [].
Defined.
Definition ComposeMountKind_all : list ComposeMountKind := [Bind; NamedVolume; AnonymousVolume; Unsupported].
#[export] Instance ComposeMountKind_countable : Countable ComposeMountKind.
Proof.
  refine (inj_countable (λ x, fst <$> list_find (λ y, y = x) ComposeMountKind_all)
    (λ p : option nat, p ≫= λ i, ComposeMountKind_all !! i) _).
  by intros [].
Defined.
Definition RuntimeMode_all : list RuntimeMode := [Mode_Docker; Mode_Mock].
#[export] Instance RuntimeMode_countable : Countable RuntimeMode.
Proof.
  refine (inj_countable (λ x, fst <$> list_find (λ y, y = x) RuntimeMode_all)
    (λ p : option nat, p ≫= λ i, RuntimeMode_all !! i) _).
  by intros [].
Defined.
Definition HealthState_all : list HealthState := [Health_Ok; Health_Degraded].
#[export] Instance HealthState_countable : Countable HealthState.
Proof.
  refine (inj_countable (λ x, fst <$> list_find (λ y, y = x) HealthState_all)
    (λ p : option nat, p ≫= λ i, HealthState_all !! i) _).
  by intros [].
Defined.
Definition ProviderSlot_all : list ProviderSlot := [NetworkInfrastructure; HostScoped; Slot_Tmux; Slot_Cron; Slot_Systemd; PythonProcesses; NativeProcesses; ProjectNpm].
#[export] Instance ProviderSlot_countable : Countable ProviderSlot.
Proof.
  refine (inj_countable (λ x, fst <$> list_find (λ y, y = x) ProviderSlot_all)
    (λ p : option nat, p ≫= λ i, ProviderSlot_all !! i) _).
  by intros [].
Defined.
Definition ProviderStateKind_all : list ProviderStateKind := [PS_Fresh; PS_Stale; PS_Collecting; PS_Unavailable; PS_TimedOut; PS_Disabled].
#[export] Instance ProviderStateKind_countable : Countable ProviderStateKind.
Proof.
  refine (inj_countable (λ x, fst <$> list_find (λ y, y = x) ProviderStateKind_all)
    (λ p : option nat, p ≫= λ i, ProviderStateKind_all !! i) _).
  by intros [].
Defined.
Definition ProviderStatusReason_all : list ProviderStatusReason := [Initial; Refreshing; CollectionFailed; CollectionTimedOut; SourceReset; Reason_Disabled].
#[export] Instance ProviderStatusReason_countable : Countable ProviderStatusReason.
Proof.
  refine (inj_countable (λ x, fst <$> list_find (λ y, y = x) ProviderStatusReason_all)
    (λ p : option nat, p ≫= λ i, ProviderStatusReason_all !! i) _).
  by intros [].
Defined.
Definition DiagnosticSeverity_all : list DiagnosticSeverity := [Sev_Info; Sev_Warning; Sev_Error; Sev_Blocked].
#[export] Instance DiagnosticSeverity_countable : Countable DiagnosticSeverity.
Proof.
  refine (inj_countable (λ x, fst <$> list_find (λ y, y = x) DiagnosticSeverity_all)
    (λ p : option nat, p ≫= λ i, DiagnosticSeverity_all !! i) _).
  by intros [].
Defined.
Definition RuntimeProviderKind_all : list RuntimeProviderKind := [RP_Docker; RP_Compose; RP_Host; RP_Systemd; RP_ScheduledJob; RP_Npm; RP_Pm2; RP_Tmux; RP_Tailscale; RP_Headscale; RP_Cloudflare; RP_Caddy; RP_ReverseProxy; RP_LocalDns; RP_DnsProvider; RP_ExternalApi; RP_Process; RP_Python; RP_Network; RP_Kubernetes; RP_Other].
#[export] Instance RuntimeProviderKind_countable : Countable RuntimeProviderKind.
Proof.
  refine (inj_countable (λ x, fst <$> list_find (λ y, y = x) RuntimeProviderKind_all)
    (λ p : option nat, p ≫= λ i, RuntimeProviderKind_all !! i) _).
  by intros [].
Defined.
Definition RuntimeNodeKind_all : list RuntimeNodeKind := [RN_Container; RN_DockerNetwork; RN_DockerVolume; RN_Host; RN_HostRisk; RN_Service; RN_SystemdService; RN_ScheduledJob; RN_Pm2App; RN_TmuxSession; RN_TailnetNode; RN_ReverseProxy; RN_LocalDnsResolver; RN_DnsProvider; RN_NodeApplication; RN_PythonApplication; RN_AiAgent; RN_Package; RN_Storage; RN_ExternalApi; RN_PackageDependency; RN_Database; RN_Worker; RN_Process; RN_NetworkListener; RN_OrchestratorWorkload; RN_IntegrityScope].
#[export] Instance RuntimeNodeKind_countable : Countable RuntimeNodeKind.
Proof.
  refine (inj_countable (λ x, fst <$> list_find (λ y, y = x) RuntimeNodeKind_all)
    (λ p : option nat, p ≫= λ i, RuntimeNodeKind_all !! i) _).
  by intros [].
Defined.
Definition RuntimeRelationshipKind_all : list RuntimeRelationshipKind := [RR_ConnectedTo; RR_DependsOn; RR_RequiredBy; RR_Requires; RR_Wants; RR_After; RR_Before; RR_PartOf; RR_BindsTo; RR_ConflictsWith; RR_Mounts; RR_Manages; RR_Exposes; RR_ExposesDaemonState; RR_RunsOn; RR_Uses; RR_Calls; RR_ResolvesVia; RR_ProxiesTo; RR_Contains; RR_Owns; RR_RelatedTo].
#[export] Instance RuntimeRelationshipKind_countable : Countable RuntimeRelationshipKind.
Proof.
  refine (inj_countable (λ x, fst <$> list_find (λ y, y = x) RuntimeRelationshipKind_all)
    (λ p : option nat, p ≫= λ i, RuntimeRelationshipKind_all !! i) _).
  by intros [].
Defined.
Definition RuntimeNodeLayer_all : list RuntimeNodeLayer := [L_Edge; L_Host; L_Service; L_Container; L_Process; L_Session; L_Package; L_Network; L_Storage; L_Advisory].
#[export] Instance RuntimeNodeLayer_countable : Countable RuntimeNodeLayer.
Proof.
  refine (inj_countable (λ x, fst <$> list_find (λ y, y = x) RuntimeNodeLayer_all)
    (λ p : option nat, p ≫= λ i, RuntimeNodeLayer_all !! i) _).
  by intros [].
Defined.
Definition RuntimeHealthState_all : list RuntimeHealthState := [RH_Healthy; RH_Degraded; RH_Unhealthy; RH_Unknown].
#[export] Instance RuntimeHealthState_countable : Countable RuntimeHealthState.
Proof.
  refine (inj_countable (λ x, fst <$> list_find (λ y, y = x) RuntimeHealthState_all)
    (λ p : option nat, p ≫= λ i, RuntimeHealthState_all !! i) _).
  by intros [].
Defined.
Definition RuntimeLogLevel_all : list RuntimeLogLevel := [RL_Debug; RL_Info; RL_Warn; RL_Error].
#[export] Instance RuntimeLogLevel_countable : Countable RuntimeLogLevel.
Proof.
  refine (inj_countable (λ x, fst <$> list_find (λ y, y = x) RuntimeLogLevel_all)
    (λ p : option nat, p ≫= λ i, RuntimeLogLevel_all !! i) _).
  by intros [].
Defined.
Definition RuntimeOwnershipKind_all : list RuntimeOwnershipKind := [Own_Person; Own_Team; Own_System; Own_Automation; Own_Vendor].
#[export] Instance RuntimeOwnershipKind_countable : Countable RuntimeOwnershipKind.
Proof.
  refine (inj_countable (λ x, fst <$> list_find (λ y, y = x) RuntimeOwnershipKind_all)
    (λ p : option nat, p ≫= λ i, RuntimeOwnershipKind_all !! i) _).
  by intros [].
Defined.
Definition RuntimeLocationKind_all : list RuntimeLocationKind := [Loc_Host; Loc_Container; Loc_Path; Loc_Cluster; Loc_Region; Loc_Workspace; Loc_Tailnet].
#[export] Instance RuntimeLocationKind_countable : Countable RuntimeLocationKind.
Proof.
  refine (inj_countable (λ x, fst <$> list_find (λ y, y = x) RuntimeLocationKind_all)
    (λ p : option nat, p ≫= λ i, RuntimeLocationKind_all !! i) _).
  by intros [].
Defined.
Definition RuntimeServiceStatus_all : list RuntimeServiceStatus := [Running; Starting; Stopping; Stopped; Degraded; Failed; Unknown].
#[export] Instance RuntimeServiceStatus_countable : Countable RuntimeServiceStatus.
Proof.
  refine (inj_countable (λ x, fst <$> list_find (λ y, y = x) RuntimeServiceStatus_all)
    (λ p : option nat, p ≫= λ i, RuntimeServiceStatus_all !! i) _).
  by intros [].
Defined.
Definition RuntimePackageManager_all : list RuntimePackageManager := [PM_Npm; PM_Pnpm; PM_Yarn; PM_Pip; PM_Apt; PM_Apk; PM_Brew; PM_Cargo; PM_System].
#[export] Instance RuntimePackageManager_countable : Countable RuntimePackageManager.
Proof.
  refine (inj_countable (λ x, fst <$> list_find (λ y, y = x) RuntimePackageManager_all)
    (λ p : option nat, p ≫= λ i, RuntimePackageManager_all !! i) _).
  by intros [].
Defined.
Definition RuntimeAdvisorySeverity_all : list RuntimeAdvisorySeverity := [Adv_Low; Adv_Moderate; Adv_High; Adv_Critical].
#[export] Instance RuntimeAdvisorySeverity_countable : Countable RuntimeAdvisorySeverity.
Proof.
  refine (inj_countable (λ x, fst <$> list_find (λ y, y = x) RuntimeAdvisorySeverity_all)
    (λ p : option nat, p ≫= λ i, RuntimeAdvisorySeverity_all !! i) _).
  by intros [].
Defined.
Definition RuntimeEvidenceProvider_all : list RuntimeEvidenceProvider := [EP_Docker; EP_Compose; EP_Systemd; EP_Npm; EP_Cron; EP_Tmux; EP_Dockermap].
#[export] Instance RuntimeEvidenceProvider_countable : Countable RuntimeEvidenceProvider.
Proof.
  refine (inj_countable (λ x, fst <$> list_find (λ y, y = x) RuntimeEvidenceProvider_all)
    (λ p : option nat, p ≫= λ i, RuntimeEvidenceProvider_all !! i) _).
  by intros [].
Defined.
Definition RuntimeEvidenceAssertionKind_all : list RuntimeEvidenceAssertionKind := [Observed; Declared].
#[export] Instance RuntimeEvidenceAssertionKind_countable : Countable RuntimeEvidenceAssertionKind.
Proof.
  refine (inj_countable (λ x, fst <$> list_find (λ y, y = x) RuntimeEvidenceAssertionKind_all)
    (λ p : option nat, p ≫= λ i, RuntimeEvidenceAssertionKind_all !! i) _).
  by intros [].
Defined.
Definition RuntimeEvidenceKind_all : list RuntimeEvidenceKind := [DockerNetworkMembership; DockerVolumeMount; DockerPortPublication; DockerUnspecifiedAddressPortPublication; DockerComposeDependsOn; DockerDaemonStateBindMount; SystemdRequires; SystemdWants; SystemdPartOf; NpmPackageManifestDependency; CronScheduleDeclaration; TmuxSessionListing; ComposeDeclaredMount; DockerComposeRuntimeBinding; RuntimeIdentityCollision].
#[export] Instance RuntimeEvidenceKind_countable : Countable RuntimeEvidenceKind.
Proof.
  refine (inj_countable (λ x, fst <$> list_find (λ y, y = x) RuntimeEvidenceKind_all)
    (λ p : option nat, p ≫= λ i, RuntimeEvidenceKind_all !! i) _).
  by intros [].
Defined.
Definition RuntimeEvidenceFreshness_all : list RuntimeEvidenceFreshness := [EF_Fresh; EF_Stale; EF_TimedOut].
#[export] Instance RuntimeEvidenceFreshness_countable : Countable RuntimeEvidenceFreshness.
Proof.
  refine (inj_countable (λ x, fst <$> list_find (λ y, y = x) RuntimeEvidenceFreshness_all)
    (λ p : option nat, p ≫= λ i, RuntimeEvidenceFreshness_all !! i) _).
  by intros [].
Defined.
#[export] Instance GraphNode_countable : Countable GraphNode.
Proof.
  refine (inj_countable' (λ x, (gn_id x, gn_kind x, gn_label x))
    (λ '(x0, x1, x2), Build_GraphNode x0 x1 x2) _).
  by intros [].
Defined.
#[export] Instance GraphEdge_countable : Countable GraphEdge.
Proof.
  refine (inj_countable' (λ x, (ge_source x, ge_target x, ge_relationship x))
    (λ '(x0, x1, x2), Build_GraphEdge x0 x1 x2) _).
  by intros [].
Defined.
#[export] Instance ContainerMount_countable : Countable ContainerMount.
Proof.
  refine (inj_countable' (λ x, (cm_id x, cm_kind x, cm_source x, cm_target x, cm_read_only x))
    (λ '(x0, x1, x2, x3, x4), Build_ContainerMount x0 x1 x2 x3 x4) _).
  by intros [].
Defined.
#[export] Instance ContainerRecord_countable : Countable ContainerRecord.
Proof.
  refine (inj_countable' (λ x, (c_id x, c_name x, c_image x, c_status x, c_role x, c_networks x, c_ports x, c_publishes_on_unspecified_address x, c_mounts x, c_depends_on x))
    (λ '(x0, x1, x2, x3, x4, x5, x6, x7, x8, x9), Build_ContainerRecord x0 x1 x2 x3 x4 x5 x6 x7 x8 x9) _).
  by intros [].
Defined.
#[export] Instance ImageRecord_countable : Countable ImageRecord.
Proof.
  refine (inj_countable' (λ x, (im_image x, im_containers x, im_status x))
    (λ '(x0, x1, x2), Build_ImageRecord x0 x1 x2) _).
  by intros [].
Defined.
#[export] Instance NetworkRecord_countable : Countable NetworkRecord.
Proof.
  refine (inj_countable' (λ x, (n_id x, n_name x, n_driver x, n_internal x, n_members x))
    (λ '(x0, x1, x2, x3, x4), Build_NetworkRecord x0 x1 x2 x3 x4) _).
  by intros [].
Defined.
#[export] Instance VolumeRecord_countable : Countable VolumeRecord.
Proof.
  refine (inj_countable' (λ x, (v_id x, v_name x, v_attached_to x))
    (λ '(x0, x1, x2), Build_VolumeRecord x0 x1 x2) _).
  by intros [].
Defined.
#[export] Instance DockerSnapshot_countable : Countable DockerSnapshot.
Proof.
  refine (inj_countable' (λ x, (s_containers x, s_images x, s_networks x, s_volumes x, s_last_updated x, s_model_revision x, s_source x))
    (λ '(x0, x1, x2, x3, x4, x5, x6), Build_DockerSnapshot x0 x1 x2 x3 x4 x5 x6) _).
  by intros [].
Defined.
#[export] Instance ProviderState_countable : Countable ProviderState.
Proof.
  refine (inj_countable' (λ x, (ps_slot x, ps_state x, ps_last_attempt_ms x, ps_last_success_ms x, ps_last_duration_ms x, ps_consecutive_failure_count x, ps_data_revision x, ps_status_reason x))
    (λ '(x0, x1, x2, x3, x4, x5, x6, x7), Build_ProviderState x0 x1 x2 x3 x4 x5 x6 x7) _).
  by intros [].
Defined.
#[export] Instance HealthResponse_countable : Countable HealthResponse.
Proof.
  refine (inj_countable' (λ x, (h_status x, h_mode x, h_docker_reachable x, h_last_updated x, h_snapshot_version x, h_model_revision x, h_message x))
    (λ '(x0, x1, x2, x3, x4, x5, x6), Build_HealthResponse x0 x1 x2 x3 x4 x5 x6) _).
  by intros [].
Defined.
#[export] Instance RuntimeHealth_countable : Countable RuntimeHealth.
Proof.
  refine (inj_countable' (λ x, (rh_state x, rh_checked_at x, rh_source x, rh_message x))
    (λ '(x0, x1, x2, x3), Build_RuntimeHealth x0 x1 x2 x3) _).
  by intros [].
Defined.
#[export] Instance RuntimeLogRef_countable : Countable RuntimeLogRef.
Proof.
  refine (inj_countable' (λ x, (rl_id x, rl_source x, rl_level x))
    (λ '(x0, x1, x2), Build_RuntimeLogRef x0 x1 x2) _).
  by intros [].
Defined.
#[export] Instance RuntimeOwnership_countable : Countable RuntimeOwnership.
Proof.
  refine (inj_countable' (λ x, (ro_kind x, ro_name x, ro_id x))
    (λ '(x0, x1, x2), Build_RuntimeOwnership x0 x1 x2) _).
  by intros [].
Defined.
#[export] Instance RuntimeLocation_countable : Countable RuntimeLocation.
Proof.
  refine (inj_countable' (λ x, (rloc_kind x, rloc_value x, rloc_detail x))
    (λ '(x0, x1, x2), Build_RuntimeLocation x0 x1 x2) _).
  by intros [].
Defined.
#[export] Instance RuntimeServiceEntity_countable : Countable RuntimeServiceEntity.
Proof.
  refine (inj_countable' (λ x, (rs_name x, rs_status x, rs_dependencies x, rs_dependents x, rs_health x, rs_logs x, rs_owner x, rs_location x))
    (λ '(x0, x1, x2, x3, x4, x5, x6, x7), Build_RuntimeServiceEntity x0 x1 x2 x3 x4 x5 x6 x7) _).
  by intros [].
Defined.
#[export] Instance RuntimePackageAdvisory_countable : Countable RuntimePackageAdvisory.
Proof.
  refine (inj_countable' (λ x, (pa_id x, pa_source x, pa_title x, pa_severity x, pa_fixed_version x, pa_url x, pa_published_at x))
    (λ '(x0, x1, x2, x3, x4, x5, x6), Build_RuntimePackageAdvisory x0 x1 x2 x3 x4 x5 x6) _).
  by intros [].
Defined.
#[export] Instance RuntimePackageUpdate_countable : Countable RuntimePackageUpdate.
Proof.
  refine (inj_countable' (λ x, (pu_current_version x, pu_latest_version x, pu_available x, pu_advisories x))
    (λ '(x0, x1, x2, x3), Build_RuntimePackageUpdate x0 x1 x2 x3) _).
  by intros [].
Defined.
#[export] Instance RuntimePackageEntity_countable : Countable RuntimePackageEntity.
Proof.
  refine (inj_countable' (λ x, (rp_name x, rp_manager x, rp_version x, rp_dependencies x, rp_dependents x, rp_update x, rp_owner x, rp_location x))
    (λ '(x0, x1, x2, x3, x4, x5, x6, x7), Build_RuntimePackageEntity x0 x1 x2 x3 x4 x5 x6 x7) _).
  by intros [].
Defined.
#[export] Instance RuntimeMapNode_countable : Countable RuntimeMapNode.
Proof.
  refine (inj_countable' (λ x, (rn_id x, rn_provider x, rn_kind x, rn_label x, rn_status x, rn_layer x, rn_metadata x, rn_service x, rn_package x))
    (λ '(x0, x1, x2, x3, x4, x5, x6, x7, x8), Build_RuntimeMapNode x0 x1 x2 x3 x4 x5 x6 x7 x8) _).
  by intros [].
Defined.
#[export] Instance RuntimeEvidenceRef_countable : Countable RuntimeEvidenceRef.
Proof.
  refine (inj_countable' (λ x, (ev_version x, ev_id x, ev_provider x, ev_kind x, ev_assertion_kind x, ev_summary x, ev_subject_ref x, ev_collected_at x, ev_provider_revision x, ev_provider_slot x, ev_freshness x))
    (λ '(x0, x1, x2, x3, x4, x5, x6, x7, x8, x9, x10), Build_RuntimeEvidenceRef x0 x1 x2 x3 x4 x5 x6 x7 x8 x9 x10) _).
  by intros [].
Defined.
#[export] Instance RuntimeMapEdge_countable : Countable RuntimeMapEdge.
Proof.
  refine (inj_countable' (λ x, (re_source x, re_target x, re_relationship x, re_metadata x, re_evidence_refs x))
    (λ '(x0, x1, x2, x3, x4), Build_RuntimeMapEdge x0 x1 x2 x3 x4) _).
  by intros [].
Defined.
#[export] Instance RuntimeMapDiagnostic_countable : Countable RuntimeMapDiagnostic.
Proof.
  refine (inj_countable' (λ x, (rd_provider x, rd_severity x, rd_message x))
    (λ '(x0, x1, x2), Build_RuntimeMapDiagnostic x0 x1 x2) _).
  by intros [].
Defined.
#[export] Instance RuntimeMap_countable : Countable RuntimeMap.
Proof.
  refine (inj_countable' (λ x, (rm_nodes x, rm_edges x, rm_diagnostics x, rm_last_updated x, rm_model_revision x, rm_provider_states x, rm_source x))
    (λ '(x0, x1, x2, x3, x4, x5, x6), Build_RuntimeMap x0 x1 x2 x3 x4 x5 x6) _).
  by intros [].
Defined.

(** Any countable type has an injective text of one scalar. *)
Definition Json_of_countable (A : Type) `{Countable A} : Json A.
Proof.
  refine {| to_json := λ x, [Npos (encode x)] |}.
  intros x y E. injection E as E. by apply (inj encode).
Defined.
