(* ===== verification/Gateway.v ===== *)
(** * The Docker Read Gateway ([crates/dockermap-docker-gateway/src/lib.rs])

    The gateway sits between the collector and the raw Docker socket. [allow] is its request
    policy, [handle] the whole request handler around it. The theorems say exactly which
    request targets reach Docker. *)

From S2P Require Import Prelude RustStr RustNum.

Definition LOG_TAIL : rstr := "4096".

Record Policy := { label_filter : option rstr }.

Inductive Deny := Deny_Method | Deny_Framing | Deny_Target | Deny_Query.

(** [Result<String, Deny>], with the slice panic that [logs] can raise as a third outcome. *)
Inductive Outcome := Allowed (target : rstr) | Denied (d : Deny) | Panicked.

(** What the policy reads of an [http::Request]: [headers] are the header names present. *)
Record Request := {
  rq_method : rstr;
  rq_scheme : option rstr;
  rq_authority : option rstr;
  rq_headers : list rstr;
  rq_path_and_query : option rstr
}.

(** [Policy::new]. *)
Definition new (filter : option rstr) : Policy := {|
  label_filter := value ← filter;
                  let trimmed := trim value in
                  if trimmed != [] then Some trimmed else None
|}.

Definition framing_headers : list rstr :=
  ["content-length" : rstr; "transfer-encoding" : rstr; "upgrade" : rstr; "expect" : rstr;
   "trailer" : rstr; "connection" : rstr].

(** [request.headers().contains_key(name)] for one of the framing headers. *)
Definition has_framing (rq : Request) : bool :=
  existsb (λ name, one_of name (rq_headers rq)) framing_headers.
Arguments has_framing : simpl never.

(** The bytes a container name may hold, by position. *)
Definition name_byte (index : nat) (byte : N) : bool :=
  if is_ascii_alphanumeric byte then true
  else if one_of byte [95; 46; 45]%N then negb (index =? 0)%nat
  else false.

Definition valid_container_name (name : rstr) : bool :=
  (name != []) && (str_len name <=? 255)%nat
  && forallb (λ b, b) (imap name_byte (utf8_bytes name)).

(** [str::matches(c).count()]. *)
Definition matches_char (c : N) (s : rstr) : nat := count_if (N.eqb c) s.
Arguments matches_char : simpl never.

Definition logs_prefix : rstr := "follow=false&stdout=true&stderr=true&since=0&until=".
Definition logs_suffix : rstr := "&timestamps=true&tail=" +s+ LOG_TAIL.

(** [Policy::logs]; [path[12..path.len() - 5]] panics when the range is reversed. *)
Definition logs (target path query : rstr) : Outcome :=
  if (length path - 5 <? 12)%nat then Panicked else
  let name := drop 12 (take (length path - 5) path) in
  if negb (valid_container_name name) then Denied Deny_Target
  else match strip_prefix logs_prefix query ≫= strip_suffix logs_suffix with
  | None => Denied Deny_Query
  | Some until =>
      if (until != ("0" : rstr))
         && (negb (is_some_and (head (utf8_bytes until)) (λ v, is_ascii_digit v && negb (v =? 48)%N))
             || negb (forallb is_ascii_digit (utf8_bytes until)))
      then Denied Deny_Query
      else if (until == []) || negb (matches_char 38 query =? 6)%nat || contains_char query 37
      then Denied Deny_Query
      else Allowed target
  end.

Section gateway.
(** [serde_json::to_string] on a string and [url::form_urlencoded::byte_serialize]. *)
Context (json_string : rstr → rstr) (byte_serialize : list N → rstr).

(** Rocq literals here are written without quotation marks; [quote_marks] turns the
    apostrophes of a literal into them. *)
Definition quote_marks (s : rstr) : rstr := (λ c, if (c =? 39)%N then 34%N else c) <$> s.

Definition filter_json (label : rstr) : rstr :=
  quote_marks "{'label':[" +s+ json_string label +s+ "]}".

(** [Policy::inventory]. *)
Definition inventory (p : Policy) (target base : rstr) : Outcome :=
  match label_filter p with
  | None => if target == base then Allowed target else Denied Deny_Query
  | Some label =>
      let separator : rstr := if ends_with base "?" then "" else "&" in
      let encoded := byte_serialize (utf8_bytes (filter_json label)) in
      let expected := base +s+ separator +s+ "filters=" +s+ encoded in
      if target == expected then Allowed target else Denied Deny_Query
  end.

(** [Policy::allow]. *)
Definition allow (p : Policy) (request : Request) : Outcome :=
  if rq_method request != ("GET" : rstr) then Denied Deny_Method
  else if is_some (rq_scheme request) || is_some (rq_authority request) then Denied Deny_Target
  else if has_framing request
  then Denied Deny_Framing
  else match rq_path_and_query request with
  | None => Denied Deny_Target
  | Some target =>
      if negb (starts_with target "/") || starts_with target "//" then Denied Deny_Target
      else
      let '(path, query) := default (target, []) (split_once 63 target) in
      if (1 <? matches_char 63 target)%nat
         || contains path "/./" || contains path "/../"
         || ends_with path "/." || ends_with path "/.."
         || contains_char path 37 || contains_char path 92
      then Denied Deny_Target
      else if path == "/containers/json" then inventory p target "/containers/json?all=true&size=false"
      else if path == "/networks" then inventory p target "/networks?"
      else if path == "/volumes" then inventory p target "/volumes?"
      else if starts_with path "/containers/" && ends_with path "/logs"
      then logs target path query
      else Denied Deny_Target
  end.

(** ** The request handler *)

Record GatewayConfig := { gc_listen_socket : rstr; gc_docker_socket : rstr; gc_label_filter : option rstr }.

Inductive Handled :=
| Empty_response (status : N)
| Hyper_error
| Upstream (method uri host : rstr) (body : list N)
| Handler_panicked.

(** [serve] refuses to start on a label filter that is not a usable label. *)
Definition serve_accepts (config : GatewayConfig) : bool :=
  match gc_label_filter config with
  | None => true
  | Some label =>
      let trimmed := trim label in
      negb ((trimmed == []) || (256 <? char_count trimmed)%nat
            || contains_char trimmed 0 || starts_with trimmed "=")
  end.

(** [handle]: [body] is the collected body ([None] when reading it failed) and [connect]
    whether a socket accepts a connection. *)
Definition handle (config : GatewayConfig) (request : Request) (body : option (list N))
    (connect : rstr → bool) : Handled :=
  match allow (new (gc_label_filter config)) request with
  | Panicked => Handler_panicked
  | Denied _ => Empty_response 403
  | Allowed target =>
      match body with
      | None => Hyper_error
      | Some bytes =>
          if bytes != [] then Empty_response 403
          else if connect (gc_docker_socket config) then Upstream "GET" target "docker" []
          else Empty_response 502
      end
  end.
End gateway.

(** ** What the policy accepts *)

(** A GET in origin form without any framing header. *)
Definition plain_get (rq : Request) : bool :=
  (rq_method rq == ("GET" : rstr)) && is_none (rq_scheme rq) && is_none (rq_authority rq)
  && negb (has_framing rq).

(** [until]: [0] or a decimal number without a leading zero. *)
Definition until_ok (u : rstr) : bool :=
  (u == ("0" : rstr))
  || match u with [] => false | c :: _ => negb (c =? 48)%N && forallb is_ascii_digit u end.

Definition inventory_bases : list rstr :=
  ["/containers/json?all=true&size=false" : rstr; "/networks?" : rstr; "/volumes?" : rstr].

Definition separator (base : rstr) : rstr := if ends_with base "?" then "" else "&".

Inductive accepted (json_string : rstr → rstr) (byte_serialize : list N → rstr) (p : Policy) :
    rstr → Prop :=
| accepted_inventory base :
    label_filter p = None → base ∈ inventory_bases → accepted json_string byte_serialize p base
| accepted_filtered base label :
    label_filter p = Some label → base ∈ inventory_bases →
    accepted json_string byte_serialize p
      (base +s+ separator base +s+ "filters=" +s+
       byte_serialize (utf8_bytes (filter_json json_string label)))
| accepted_logs name until :
    valid_container_name name = true → until_ok until = true →
    accepted json_string byte_serialize p
      ("/containers/" +s+ name +s+ "/logs?" +s+ logs_prefix +s+ until +s+ logs_suffix).

(** ** Names and digits *)

Lemma name_byte_ascii i b : name_byte i b = true → (b < 128)%N.
Proof.
  unfold name_byte, one_of, is_ascii_alphanumeric, is_ascii_alphabetic, is_ascii_upper,
    is_ascii_lower, is_ascii_digit.
  destruct (_ || _) eqn:E; intros H.
  - rewrite !orb_true_iff, !andb_true_iff, !N.leb_le in E. lia.
  - case_bool_decide as Hin; [|done]. rewrite !elem_of_cons in Hin.
    destruct Hin as [->|[->|[->|Hin]]]; [lia..|]. by apply elem_of_nil in Hin.
Qed.

(** The character class of a valid container name. *)
Lemma valid_name_chars name :
  valid_container_name name = true →
  name ≠ [] ∧ utf8_bytes name = name ∧ (∀ i c, name !! i = Some c → name_byte i c = true).
Proof.
  unfold valid_container_name. rewrite !andb_true_iff. intros [[Hne _] Hb]. bool_unfold.
  assert (Hall : ∀ i c, utf8_bytes name !! i = Some c → name_byte i c = true).
  { intros i c Hi. rewrite forallb_forall in Hb. apply (Hb (name_byte i c)).
    apply list_elem_of_In, list_elem_of_lookup. exists i. by rewrite list_lookup_imap, Hi. }
  assert (Ha : utf8_bytes name = name).
  { apply ascii_utf8, utf8_ascii, Forall_lookup. intros i c Hi. eapply name_byte_ascii, Hall, Hi. }
  split_and!; [done|done|]. intros i c Hi. apply Hall. by rewrite Ha.
Qed.

Definition name_char (c : N) : bool := is_ascii_alphanumeric c || one_of c [95; 46; 45]%N.

Lemma name_byte_char i c : name_byte i c = true → name_char c = true.
Proof.
  unfold name_byte, name_char. destruct (is_ascii_alphanumeric c); [done|].
  by destruct (one_of c _).
Qed.

Lemma valid_name_not_in name c :
  valid_container_name name = true → name_char c = false → c ∉ name.
Proof.
  intros (_ & _ & Hall)%valid_name_chars Hc [i Hi]%list_elem_of_lookup_1.
  apply Hall, name_byte_char in Hi. congruence.
Qed.

Lemma until_ok_digits u c : until_ok u = true → is_ascii_digit c = false → c ∉ u.
Proof.
  unfold until_ok. rewrite orb_true_iff. intros [->%bool_decide_eq_true|Hu] Hc Hin.
  - apply list_elem_of_singleton in Hin as ->. done.
  - destruct u as [|d u]; [done|]. apply andb_prop in Hu as [_ Hu].
    rewrite forallb_forall in Hu. apply list_elem_of_In, Hu in Hin. congruence.
Qed.

Lemma count_if_notin c s : c ∉ s → matches_char c s = 0.
Proof.
  intros Hc. apply count_if_zero. intros x Hx. apply N.eqb_neq. intros ->. done.
Qed.

Lemma matches_char_app c s t : matches_char c (s ++ t) = matches_char c s + matches_char c t.
Proof. apply count_if_app. Qed.

(** ** Soundness and completeness of the policy *)

Section policy.
Context (json_string : rstr → rstr) (byte_serialize : list N → rstr).

Lemma inventory_accepted p target base t :
  base ∈ inventory_bases →
  inventory json_string byte_serialize p target base = Allowed t →
  t = target ∧ accepted json_string byte_serialize p t.
Proof.
  intros Hb. unfold inventory. destruct (label_filter p) as [label|] eqn:El;
    case_bool_decide as E; intros [= <-]; subst; split; try done.
  - by constructor.
  - by constructor.
Qed.

Lemma inventory_not_panic p target base :
  inventory json_string byte_serialize p target base ≠ Panicked.
Proof. unfold inventory. destruct (label_filter p); case_bool_decide; done. Qed.

(** The container name that [logs] cuts out of a path. *)
Lemma log_path_name path :
  starts_with path "/containers/" = true → ends_with path "/logs" = true →
  12 ≤ length path - 5 →
  path = "/containers/" +s+ drop 12 (take (length path - 5) path) +s+ "/logs".
Proof.
  intros (r & Hr)%starts_with_spec (q & Hq)%ends_with_spec Hlen.
  assert (length path = length q + 5) as Hl by (by rewrite Hq, length_app).
  assert (take (length path - 5) path = q) as ->.
  { rewrite Hl, Nat.add_sub. rewrite Hq. by apply take_app_length. }
  assert (take 12 q = lit "/containers/") as Ht.
  { replace q with (take (length q) path) by (rewrite Hq; apply take_app_length).
    rewrite take_take, Nat.min_l by lia. by rewrite Hr. }
  rewrite !rapp_app, <- Ht, app_assoc, take_drop. done.
Qed.

Lemma logs_allowed target path query t :
  starts_with path "/containers/" = true → ends_with path "/logs" = true →
  logs target path query = Allowed t →
  t = target ∧ ∃ name until, valid_container_name name = true ∧ until_ok until = true ∧
    path = "/containers/" +s+ name +s+ "/logs" ∧ query = logs_prefix +s+ until +s+ logs_suffix.
Proof.
  intros Hs He. unfold logs. destruct (Nat.ltb_spec (length path - 5) 12); [done|].
  destruct (valid_container_name _) eqn:Hv; simpl; [|done].
  destruct (strip_prefix logs_prefix query) as [r|] eqn:Hp; simpl; [|done].
  destruct (strip_suffix logs_suffix r) as [until|] eqn:Hsf; simpl; [|done].
  apply strip_prefix_Some in Hp. apply strip_suffix_Some in Hsf. subst r.
  case_if E1; [done|]. case_if E2; [done|]. intros [= <-].
  split; [done|]. eexists _, until. split_and!; [done| |by apply log_path_name|done].
  unfold until_ok. destruct (until == _); simpl in E1; [done|]. simpl.
  apply orb_false_elim in E1 as [E1 E1']. bool_unfold.
  rewrite forallb_forall in E1'.
  assert (Hd : ∀ b, b ∈ utf8_bytes until → is_ascii_digit b = true).
  { intros b Hb. apply E1'. by apply list_elem_of_In. }
  assert (Ha : utf8_bytes until = until).
  { apply ascii_utf8, utf8_ascii, Forall_forall. intros b Hb%Hd.
    unfold is_ascii_digit in Hb. apply andb_prop in Hb as [_ Hb%N.leb_le]. lia. }
  rewrite Ha in *. destruct until as [|c u]; [done|]. simpl in *. apply andb_prop in E1 as [_ ->].
  simpl. apply andb_true_iff. split; [apply Hd; left|].
  apply forallb_forall. intros b Hb. apply Hd. right. by apply list_elem_of_In.
Qed.

(** The conditions that hold on every path to a decision about the target. *)
Lemma allow_target p rq d :
  allow json_string byte_serialize p rq = d →
  (d = Panicked ∨ ∃ t, d = Allowed t) →
  plain_get rq = true ∧ ∃ t path query,
    rq_path_and_query rq = Some t ∧
    (path, query) = default (t, []) (split_once 63 t) ∧
    matches_char 63 t ≤ 1 ∧
    ((∃ base, base ∈ inventory_bases ∧ inventory json_string byte_serialize p t base = d) ∨
     (starts_with path "/containers/" = true ∧ ends_with path "/logs" = true ∧
      logs t path query = d)).
Proof.
  unfold allow, plain_get, is_none. intros Hd Hok.
  assert (∀ e, Denied e = d → False) as Hden by (intros e <-; naive_solver).
  destruct (rq_method rq == _) eqn:E0; simpl in *; [|by apply Hden in Hd].
  revert Hd. case_if E1; [by intros Hd%Hden|]. apply orb_false_elim in E1 as [-> ->]. intros Hd.
  destruct (has_framing rq) eqn:E2; [by apply Hden in Hd|]. split; [done|].
  destruct (rq_path_and_query rq) as [t|] eqn:E3; [|by apply Hden in Hd].
  revert Hd. case_if E4; [by intros Hd%Hden|].
  destruct (default _ _) as [path query] eqn:E5.
  case_if E7; [by intros Hd%Hden|]. bool_unfold. rewrite Nat.ltb_ge in *.
  intros Hd. exists t, path, query. split_and!; try done.
  repeat (case_bool_decide; [left; eexists; split; [|exact Hd]; unfold inventory_bases; set_solver|]).
  revert Hd. case_if E8; [|by intros Hd%Hden]. intros Hd. right. by apply andb_prop in E8 as [-> ->].
Qed.
(** ** Completeness *)

(** No [/] is followed by a dot. *)
Fixpoint no_slash_dot (s : rstr) : bool :=
  match s with
  | [] => true
  | x :: t => negb ((x =? 47)%N && match t with [] => false | y :: _ => (y =? 46)%N end)
              && no_slash_dot t
  end.

Lemma no_slash_dot_contains s a b : no_slash_dot s = true → s ≠ a ++ 47%N :: 46%N :: b.
Proof.
  revert s. induction a as [|x a IH]; intros s Hs ->; [done|].
  simpl in Hs. apply andb_prop in Hs as [_ Hs]. by apply (IH _ Hs).
Qed.

Lemma no_slash_dot_app s t :
  47%N ∉ s → no_slash_dot t = true → no_slash_dot (s ++ t) = true.
Proof.
  intros Hs Ht. induction s as [|x s IH]; simpl; [done|].
  apply not_elem_of_cons in Hs as [Hx Hs]. rewrite IH by done.
  destruct (N.eqb_spec x 47) as [->|]; done.
Qed.

Lemma log_path_clean name :
  valid_container_name name = true →
  no_slash_dot ("/containers/" +s+ name +s+ "/logs") = true.
Proof.
  intros Hv. pose proof (valid_name_chars _ Hv) as (Hne & _ & Hc).
  destruct name as [|c name]; [done|].
  assert (c ≠ 46%N) as H46 by (intros ->; by specialize (Hc 0 _ eq_refl)).
  assert (47%N ∉ c :: name) as H47 by (by apply valid_name_not_in).
  apply not_elem_of_cons in H47 as [H47 H47'].
  assert (no_slash_dot (47%N :: c :: (name ++ lit "/logs")) = true) as Ht; cycle 1.
  { change (no_slash_dot ([99; 111; 110; 116; 97; 105; 110; 101; 114; 115]%N ++
      47%N :: c :: (name ++ lit "/logs")) = true).
    apply no_slash_dot_app; [|done]. by apply (bool_decide_unpack _). }
  cbn [no_slash_dot]. apply andb_true_iff. split; [by rewrite (proj2 (N.eqb_neq _ _) H46)|].
  rewrite (proj2 (N.eqb_neq c 47)) by done. cbn [negb andb].
  by apply no_slash_dot_app.
Qed.

(** The dot-segment, escape and backslash tests pass on a clean path. *)
Lemma clean_path_tests path :
  no_slash_dot path = true → 37%N ∉ path → 92%N ∉ path →
  contains path "/./" || contains path "/../" || ends_with path "/." || ends_with path "/.."
  || contains_char path 37 || contains_char path 92 = false.
Proof.
  intros Hd H37 H92.
  assert (∀ n : rstr, (∃ m, n = lit "/." ++ m) → contains path n = false) as Hcn.
  { intros n [m ->]. destruct (contains _ _) eqn:E; [|done].
    apply contains_spec in E as (a & b & E). by apply no_slash_dot_contains in E. }
  assert (∀ n : rstr, (∃ m, n = lit "/." ++ m) → ends_with path n = false) as Hen.
  { intros n [m ->]. destruct (ends_with _ _) eqn:E; [|done].
    apply ends_with_spec in E as (a & E). by apply no_slash_dot_contains in E. }
  rewrite (Hcn "/./"), (Hcn "/../"), (Hen "/."), (Hen "/..");
    [|by exists [46%N]|by exists []|by exists [46%N; 47%N]|by exists [47%N]].
  unfold contains_char, one_of. by rewrite !bool_decide_eq_false_2.
Qed.

Lemma starts_with_slashes (r t : rstr) :
  starts_with (lit "/" ++ r) "//" = false → r ≠ [] →
  starts_with (lit "/" ++ r ++ t) "//" = false.
Proof.
  intros H Hr. destruct r as [|x r]; [done|].
  destruct (starts_with (lit "/" ++ (x :: r) ++ t) "//") eqn:E; [|done].
  apply starts_with_spec in E as [r' E]. injection E as -> _.
  rewrite <- H. symmetry. apply starts_with_spec. by exists r.
Qed.

(** The part of [allow] after the request line and header checks, on a split target. *)
Lemma allow_split p rq (path q : rstr) :
  plain_get rq = true → rq_path_and_query rq = Some (path ++ 63%N :: q) →
  63%N ∉ path → 63%N ∉ q → starts_with path "/" = true → starts_with path "//" = false →
  no_slash_dot path = true → 37%N ∉ path → 92%N ∉ path →
  2 ≤ length path →
  allow json_string byte_serialize p rq =
  if path == "/containers/json" then
    inventory json_string byte_serialize p (path ++ 63%N :: q) "/containers/json?all=true&size=false"
  else if path == "/networks" then
    inventory json_string byte_serialize p (path ++ 63%N :: q) "/networks?"
  else if path == "/volumes" then
    inventory json_string byte_serialize p (path ++ 63%N :: q) "/volumes?"
  else if starts_with path "/containers/" && ends_with path "/logs"
  then logs (path ++ 63%N :: q) path q
  else Denied Deny_Target.
Proof.
  intros Hg Ht Hp Hq Hs Hss Hd H37 H92 Hlen. unfold allow, plain_get, is_none in *.
  rewrite !andb_true_iff, !negb_true_iff in Hg. destruct Hg as [[[-> Hsch] Haut] ->].
  rewrite Hsch, Haut. cbn [negb orb].
  rewrite Ht. apply starts_with_spec in Hs as [r ->]. rewrite <- app_assoc, starts_with_app.
  rewrite starts_with_slashes; [|done|by intros ->; simpl in Hlen; lia].
  cbn [negb orb]. assert (split_once 63 (lit "/" ++ r ++ 63%N :: q) = Some (lit "/" ++ r, q)) as ->.
  { apply split_once_Some. by rewrite <- app_assoc. }
  cbn [default from_option id].
  rewrite (app_assoc (lit "/") r), matches_char_app.
  change (matches_char 63 (63%N :: q)) with (1 + matches_char 63 q).
  rewrite (count_if_notin _ (_ ++ r)), (count_if_notin _ q) by done.
  cbn [Nat.add Nat.ltb Nat.leb orb]. by rewrite clean_path_tests.
Qed.

Context (Hquery : ∀ l, 63%N ∉ byte_serialize l).

Lemma inventory_self p base t :
  (label_filter p = None ∧ t = base ∨
   ∃ label, label_filter p = Some label ∧
     t = base +s+ separator base +s+ "filters=" +s+
         byte_serialize (utf8_bytes (filter_json json_string label))) →
  inventory json_string byte_serialize p t base = Allowed t.
Proof.
  unfold inventory. intros [[-> ->]|(label & -> & ->)]; by rewrite bool_decide_eq_true_2.
Qed.

Lemma until_ok_logs name until q :
  valid_container_name name = true → until_ok until = true →
  logs q ("/containers/" +s+ name +s+ "/logs") (logs_prefix +s+ until +s+ logs_suffix) = Allowed q.
Proof.
  intros Hv Hu. unfold logs.
  assert (length ("/containers/" +s+ name +s+ "/logs") = 17 + length name) as Hl.
  { unfold rapp. rewrite !length_app. simpl. lia. }
  rewrite Hl. destruct (Nat.ltb_spec (17 + length name - 5) 12); [lia|].
  assert (drop 12 (take (17 + length name - 5) ("/containers/" +s+ name +s+ "/logs")) = name) as ->.
  { unfold rapp. rewrite app_assoc, take_app_length' by (rewrite length_app; simpl; lia).
    by apply drop_app_length'. }
  rewrite Hv. cbn [negb]. unfold rapp at 1.
  rewrite (proj2 (strip_prefix_Some _ _ _) eq_refl). cbn [mbind option_bind].
  rewrite (proj2 (strip_suffix_Some _ _ _) eq_refl).
  assert (matches_char 38 (logs_prefix +s+ until +s+ logs_suffix) = 6) as ->.
  { unfold rapp. rewrite !matches_char_app, (count_if_notin 38 until); [done|].
    by eapply until_ok_digits. }
  assert (contains_char (logs_prefix +s+ until +s+ logs_suffix) 37 = false) as ->.
  { apply bool_decide_eq_false. unfold rapp. rewrite !elem_of_app.
    intros [H1|[H1|H1]]; [|by eapply until_ok_digits in H1|]; refute H1. }
  unfold until_ok in Hu. destruct (bool_decide_reflect (until = lit "0")) as [->|Hne]; [done|].
  simpl in Hu. destruct until as [|c u]; [done|]. apply andb_prop in Hu as [Hc Hd].
  assert (utf8_bytes (c :: u) = c :: u) as ->.
  { apply ascii_utf8, Forall_forall. intros b Hb. rewrite forallb_forall in Hd.
    apply list_elem_of_In, Hd in Hb. unfold is_ascii_digit in Hb.
    apply andb_prop in Hb as [_ Hb%N.leb_le]. lia. }
  cbn [head is_some_and]. rewrite Hd, Hc. simpl in Hd. apply andb_prop in Hd as [-> _]. done.
Qed.
End policy.

Section gateway_theorems.
Context (json_string : rstr → rstr) (byte_serialize : list N → rstr).

Lemma allow_sound p rq t :
  allow json_string byte_serialize p rq = Allowed t →
  plain_get rq = true ∧ rq_path_and_query rq = Some t ∧ accepted json_string byte_serialize p t.
Proof.
  intros H. apply allow_target in H as (Hg & t' & path & query & Ht & Hsp & _ & H); [|eauto].
  split; [done|]. destruct H as [(base & Hb & Hi)|(Hs & He & Hl)].
  - apply inventory_accepted in Hi as [-> Hacc]; done.
  - apply logs_allowed in Hl as (-> & name & until & Hn & Hu & -> & ->); [|done..].
    split; [done|]. destruct (split_once 63 t') as [[a b]|] eqn:Es; [|by simplify_eq/=].
    simpl in Hsp. injection Hsp as <- <-. apply split_once_Some in Es as [-> _].
    replace (_ ++ _) with
      ("/containers/" +s+ name +s+ "/logs?" +s+ logs_prefix +s+ until +s+ logs_suffix);
      [by constructor|]. unfold rapp. rewrite <- !app_assoc. done.
Qed.

Lemma base_split base t :
  base ∈ inventory_bases → ∃ path q,
    (base ++ t = path ++ 63%N :: (q ++ t)) ∧ (63%N ∉ q) ∧
    (path, base) ∈ [("/containers/json" : rstr, "/containers/json?all=true&size=false" : rstr);
                    ("/networks" : rstr, "/networks?" : rstr);
                    ("/volumes" : rstr, "/volumes?" : rstr)].
Proof.
  unfold inventory_bases. rewrite !elem_of_cons, elem_of_nil. intros [->|[->|[->|[]]]];
    [exists (lit "/containers/json"), (lit "all=true&size=false")
    |exists (lit "/networks"), [] |exists (lit "/volumes"), []];
    (split; [done|split; [intros H; refute H|]]); rewrite !elem_of_cons; auto.
Qed.

Lemma allow_inventory p rq base t :
  plain_get rq = true → rq_path_and_query rq = Some (base ++ t) →
  base ∈ inventory_bases → 63%N ∉ t →
  allow json_string byte_serialize p rq = inventory json_string byte_serialize p (base ++ t) base.
Proof.
  intros Hg Ht Hb Hq. destruct (base_split base t Hb) as (path & q & E & Hq' & Hin).
  rewrite E in *. pose proof Hin as Hin'.
  rewrite (allow_split _ _ p rq path (q ++ t)); try done.
  all: rewrite ?not_elem_of_app; try done.
  all: rewrite !elem_of_cons, elem_of_nil in Hin; destruct Hin as [[= -> ->]|[[= -> ->]|[[= -> ->]|[]]]].
  all: try done. all: try (intros H; refute H). all: simpl; lia.
Qed.

(** Every target of the accepted shapes is admitted. *)
Lemma allow_complete p rq t :
  (∀ l, 63%N ∉ byte_serialize l) → plain_get rq = true → rq_path_and_query rq = Some t →
  accepted json_string byte_serialize p t → allow json_string byte_serialize p rq = Allowed t.
Proof.
  intros Hquery Hg Ht Hacc.
  destruct Hacc as [base Hl Hb|base label Hl Hb|name until Hn Hu].
  - rewrite <- (app_nil_r base) in Ht |- *.
    rewrite (allow_inventory p rq base []); [|done..|set_solver].
    rewrite app_nil_r. apply inventory_self. auto.
  - assert (Hsep : 63%N ∉ separator base) by (unfold separator; case_if E; intros H; refute H).
    rewrite rapp_app in *. rewrite (allow_inventory p rq base _ Hg Ht Hb).
    + apply inventory_self. eauto.
    + rewrite !not_elem_of_app. split_and!; [done|intros H; refute H|done].
  - assert (Hpath : ∀ c, c ∉ lit "/containers/" → c ∉ lit "/logs" → name_char c = false →
        c ∉ "/containers/" +s+ name +s+ "/logs").
    { intros c H1 H2 H3. unfold rapp. rewrite !not_elem_of_app.
      split_and!; try done. by apply valid_name_not_in. }
    assert (Hq : 63%N ∉ logs_prefix +s+ until +s+ logs_suffix).
    { unfold rapp. rewrite !not_elem_of_app.
      split_and!; [intros H; refute H|by eapply until_ok_digits|intros H; refute H]. }
    assert ("/containers/" +s+ name +s+ "/logs?" +s+ logs_prefix +s+ until +s+ logs_suffix
      = ("/containers/" +s+ name +s+ "/logs") ++ 63%N :: (logs_prefix +s+ until +s+ logs_suffix)) as E.
    { unfold rapp. rewrite <- !app_assoc. done. }
    rewrite E in *. pose proof (valid_name_chars _ Hn) as (Hne & _).
    rewrite (allow_split _ _ p rq ("/containers/" +s+ name +s+ "/logs") (logs_prefix +s+ until +s+ logs_suffix));
      [|done|done| |done| | |by apply log_path_clean| | |].
    + assert (∀ s : rstr, length s < 18 → "/containers/" +s+ name +s+ "/logs" ≠ s) as Hlen.
      { intros s Hs <-. unfold rapp in Hs. rewrite !length_app in Hs.
        destruct name; [done|]. simpl in Hs. lia. }
      rewrite !bool_decide_eq_false_2 by (apply Hlen; simpl; lia).
      rewrite starts_with_rapp. rewrite rapp_app, (rapp_app name), app_assoc.
      rewrite (proj2 (ends_with_spec _ _)) by eauto. rewrite <- app_assoc.
      by apply until_ok_logs.
    + apply Hpath; [intros H; refute H..|done].
    + unfold rapp. apply (starts_with_spec _ _). by eexists.
    + unfold rapp. by vm_compute.
    + apply Hpath; [intros H; refute H..|done].
    + apply Hpath; [intros H; refute H..|done].
    + unfold rapp. rewrite length_app. simpl. lia.
Qed.

(** C4: With [form_urlencoded::byte_serialize] never emitting a question mark, the gateway
    policy admits exactly the measured Docker reads and nothing else: an origin-form GET
    without framing headers whose target is, verbatim, one of the three inventory queries
    (with the configured label filter and no other) or the log query of one well-formed
    container name. The admitted target is the request's own. *)
Theorem policy_exact p rq t :
  (∀ l, 63%N ∉ byte_serialize l) →
  allow json_string byte_serialize p rq = Allowed t ↔
  plain_get rq = true ∧ rq_path_and_query rq = Some t ∧ accepted json_string byte_serialize p t.
Proof.
  intros Hquery. split; [apply allow_sound|]. intros (Hg & Ht & Hacc). by apply allow_complete.
Qed.

Lemma logs_panics target path query :
  starts_with path "/containers/" = true → ends_with path "/logs" = true →
  logs target path query = Panicked ↔ path = "/containers/logs".
Proof.
  intros (r & Hr)%starts_with_spec (q & Hq)%ends_with_spec.
  assert (length path = 12 + length r) as Hl by (by rewrite Hr, length_app).
  assert (length path = length q + 5) as Hl' by (by rewrite Hq, length_app).
  unfold logs. destruct (Nat.ltb_spec (length path - 5) 12) as [Hlt|Hge].
  - split; [|done]. intros _. assert (length r ≤ 4) as Hr4 by lia.
    rewrite Hr in Hq. clear -Hq Hr Hr4.
    assert (∀ k, k ≤ length q → k ≤ 12 → take k (lit "/containers/") = take k q) as Htk.
    { intros k Hk Hk'. apply (f_equal (take k)) in Hq.
      rewrite !take_app_le in Hq by done. done. }
    apply (f_equal (drop (length q))) in Hq as Hd. rewrite drop_app_length in Hd.
    assert (length q = 7 + length r) as Hlq.
    { apply (f_equal length) in Hq. rewrite !length_app in Hq. simpl in Hq. lia. }
    rewrite drop_app_le in Hd by (simpl; lia). rewrite Hlq in Hd.
    destruct r as [|r0 [|r1 [|r2 [|r3 [|r4 r]]]]]; simpl in Hr4; try lia; try discriminate Hd.
    rewrite Hr. change (lit "/containers/logs") with (lit "/containers/" ++ drop 1 (lit "/logs")).
    f_equal. rewrite <- Hd. done.
  - split.
    + case_if E1; [done|]. destruct (_ ≫= _); [|done]. case_if E2; [done|]. by case_if E3.
    + intros ->. exfalso. revert Hge. unfold lit. simpl. lia.
Qed.

(** The handler of the gateway panics on one path only, [/containers/logs]: it starts
    with [/containers/] and ends with [/logs], but the two overlap, so the slice
    [path[12..path.len() - 5]] is reversed. Every other request gets a decision. *)
Theorem policy_panics p rq :
  allow json_string byte_serialize p rq = Panicked ↔
  plain_get rq = true ∧
  (rq_path_and_query rq = Some ("/containers/logs" : rstr) ∨
   ∃ q : rstr, rq_path_and_query rq = Some ("/containers/logs?" +s+ q) ∧ 63%N ∉ q).
Proof.
  split.
  - intros H. apply allow_target in H as (Hg & t & path & query & Ht & Hsp & Hm & H); [|eauto].
    split; [done|]. destruct H as [(base & _ & Hi)|(Hs & He & Hl)];
      [by apply inventory_not_panic in Hi|].
    apply logs_panics in Hl; [|done..]. subst path.
    destruct (split_once 63 t) as [[a b]|] eqn:Es; simpl in Hsp;
      [injection Hsp as <- ->|injection Hsp as <- ->; by left].
    apply split_once_Some in Es as [-> _]. right. exists b. split; [exact Ht|].
    intros Hin. rewrite matches_char_app in Hm.
    change (matches_char 63 (63%N :: b)) with (1 + matches_char 63 b) in Hm.
    assert (0 < matches_char 63 b); [|lia]. apply count_if_pos. exists 63%N. done.
  - intros (Hg & [Ht|(q & Ht & Hq)]).
    + unfold allow, plain_get, is_none in *. rewrite Ht.
      rewrite !andb_true_iff, !negb_true_iff in Hg. destruct Hg as [[[-> ->] ->] ->]. by vm_compute.
    + rewrite (allow_split _ _ p rq (lit "/containers/logs") q);
        [|done|exact Ht|..]; try done; try (intros H; refute H); try (vm_compute; lia).
Qed.

(** The only request the gateway ever sends upstream is a body-less GET, with the fixed
    host header, for a target its policy accepts, and it sends it only for a request whose
    own target is that one and whose body is empty; anything refused gets 403. *)
Theorem handle_forwards config rq body connect m u h b :
  handle json_string byte_serialize config rq body connect = Upstream m u h b →
  m = "GET" ∧ h = "docker" ∧ b = [] ∧ body = Some [] ∧ connect (gc_docker_socket config) = true ∧
  rq_path_and_query rq = Some u ∧ plain_get rq = true ∧
  accepted json_string byte_serialize (new (gc_label_filter config)) u.
Proof.
  unfold handle. destruct (allow _ _ _ _) as [t|d|] eqn:Ha; [|done..].
  apply allow_sound in Ha as (Hg & Ht & Hacc). destruct body as [bytes|]; [|done].
  destruct bytes as [|x bytes]; simpl; [|done]. destruct (connect (gc_docker_socket config)) eqn:Hc; [|done].
  intros [= <- <- <- <-]. by split_and!.
Qed.
End gateway_theorems.

(** ** Concrete requests *)

(** [form_urlencoded::byte_serialize]: alphanumerics and [* - . _] stand for themselves, a
    space becomes [+], every other byte is percent-encoded. *)
Definition percent_digit (d : N) : N := if (d <? 10)%N then (48 + d)%N else (55 + d)%N.
Definition form_byte_serialize (bytes : list N) : rstr :=
  bytes ≫= λ b, if is_ascii_alphanumeric b || one_of b [42; 45; 46; 95]%N then [b]
                else if (b =? 32)%N then [43%N]
                else [37%N; percent_digit (b / 16); percent_digit (b mod 16)].

Definition json_plain (s : rstr) : rstr := [34%N] ++ s ++ [34%N].

Definition get (target : rstr) : Request := {|
  rq_method := "GET"; rq_scheme := None; rq_authority := None; rq_headers := ["host" : rstr];
  rq_path_and_query := Some target |}.

Lemma form_byte_serialize_no_query l : 63%N ∉ form_byte_serialize l.
Proof.
  unfold form_byte_serialize. rewrite list_elem_of_bind. intros (b & Hin & _). revert Hin.
  assert (∀ d, percent_digit d ≠ 63%N) as Hd.
  { intros d. unfold percent_digit. destruct (N.ltb_spec d 10); lia. }
  case_if E; [|case_if E'].
  - intros H%list_elem_of_singleton. rewrite <- H in E. by vm_compute in E.
  - intros H. refute H.
  - rewrite !elem_of_cons, elem_of_nil. intros [H|[H|[H|[]]]]; [done| |]; by eapply Hd.
Qed.

(** The measured inventory request, the filtered one and a log request are admitted. *)
Lemma policy_exact_witness :
  allow json_plain form_byte_serialize (new (Some (lit "app")))
    (get "/networks?filters=%7B%22label%22%3A%5B%22app%22%5D%7D")
  = Allowed "/networks?filters=%7B%22label%22%3A%5B%22app%22%5D%7D" ∧
  accepted json_plain form_byte_serialize (new (Some (lit "app")))
    "/networks?filters=%7B%22label%22%3A%5B%22app%22%5D%7D".
Proof.
  assert (H : allow json_plain form_byte_serialize (new (Some (lit "app")))
    (get "/networks?filters=%7B%22label%22%3A%5B%22app%22%5D%7D")
    = Allowed "/networks?filters=%7B%22label%22%3A%5B%22app%22%5D%7D") by (vm_compute; reflexivity).
  split; [exact H|].
  apply (policy_exact json_plain form_byte_serialize _ _ _ form_byte_serialize_no_query) in H.
  apply H.
Defined.

Definition example_config : GatewayConfig := {|
  gc_listen_socket := "/run/dockermap/docker-read.sock"; gc_docker_socket := "/var/run/docker.sock";
  gc_label_filter := None |}.

Lemma handle_forwards_witness :
  handle json_plain form_byte_serialize example_config (get "/volumes?") (Some []) (λ _, true)
  = Upstream "GET" "/volumes?" "docker" [] ∧
  accepted json_plain form_byte_serialize (new None) "/volumes?".
Proof.
  assert (H : handle json_plain form_byte_serialize example_config
    (get "/volumes?") (Some []) (λ _, true) = Upstream "GET" "/volumes?" "docker" [])
    by (vm_compute; reflexivity).
  split; [exact H|]. apply handle_forwards in H. apply H.
Defined.
