(* ===== verification/Identity.v ===== *)
(** * Stable topology identifiers ([crates/dockermap-core/src/identity.rs])

    [Sha256] is the interface to the [sha2] crate: a 32-byte digest of a byte string, and
    nothing else. In particular no injectivity is assumed, so every statement about
    collisions is stated down to a collision of digests. *)

From S2P Require Import Prelude RustStr RustNum.

(** ** The digest interface *)

Class Sha256 := {
  sha256 : list N → list N;
  sha256_length l : length (sha256 l) = 32;
  sha256_bytes l : Forall (λ b, (b < 256)%N) (sha256 l)
}.

(** The hex rendering used throughout the sources, of the UTF-8 bytes of a string. *)
Definition sha256_hex `{Sha256} (s : rstr) : rstr := hex_encode (sha256 (utf8_bytes s)).

Lemma length_sha256_hex `{Sha256} s : length (sha256_hex s) = 64.
Proof. unfold sha256_hex. by rewrite length_hex_encode, sha256_length. Qed.

Lemma sha256_hex_lower `{Sha256} s : Forall (λ c, is_hex_lower c = true) (sha256_hex s).
Proof. apply hex_encode_lower, sha256_bytes. Qed.

Lemma sha256_hex_inj `{Sha256} s t :
  sha256_hex s = sha256_hex t → sha256 (utf8_bytes s) = sha256 (utf8_bytes t).
Proof. apply hex_encode_inj; apply sha256_bytes. Qed.

(** A toy digest, for concrete inputs: the bytes folded into 32 lanes. *)
Definition toy_lane (k : N) (l : list N) : N :=
  (foldl (λ a b, (a * 31 + b + k) mod 256) k l)%N.
Definition toy_sha256 (l : list N) : list N :=
  (λ k, toy_lane (N.of_nat k) l) <$> seq 0 32.

Lemma toy_lane_byte k l : (k < 256)%N → (toy_lane k l < 256)%N.
Proof.
  intros Hk. unfold toy_lane. rewrite <- (reverse_involutive l).
  induction (reverse l) as [|b r IH]; [done|].
  rewrite reverse_cons, foldl_app. simpl. by apply N.mod_lt.
Qed.

Definition Toy_sha256 : Sha256.
Proof.
  refine {| sha256 := toy_sha256 |}.
  - intros l. unfold toy_sha256. by rewrite length_fmap, length_seq.
  - intros l. unfold toy_sha256. apply Forall_fmap, Forall_seq. intros j Hj.
    apply toy_lane_byte. lia.
Defined.

(** ** The identifier component *)

Definition id_char (c : N) : bool := is_ascii_alphanumeric c || one_of c [45; 95; 46]%N.

(** The loop over [value.chars()], with its [emitted_separator] flag. *)
Fixpoint slug_go (emitted_separator : bool) (value : rstr) : rstr :=
  match value with
  | [] => []
  | c :: rest =>
      if id_char c then c :: slug_go false rest
      else if negb emitted_separator then 45%N :: slug_go true rest
      else slug_go emitted_separator rest
  end.

Definition readable_slug (value : rstr) : rstr :=
  let slug := trim_matches 45 (slug_go false value) in
  if slug == [] then "identity" else take 48 slug.

Definition collision_resistant_id_component `{Sha256} (value : rstr) : rstr :=
  readable_slug value +s+ "--" +s+ sha256_hex value.

(** ** Properties *)

Lemma slug_go_chars b value : Forall (λ c, id_char c = true) (slug_go b value).
Proof.
  revert b. induction value as [|c value IH]; intros b; simpl; [constructor|].
  destruct (id_char c) eqn:E; [by constructor|].
  destruct b; simpl; [apply IH|]. by constructor.
Qed.

Lemma Forall_drop_while (P : N → Prop) f s : Forall P s → Forall P (drop_while f s).
Proof.
  intros H. destruct (drop_while_suffix f s) as [p Hp]. rewrite Hp in H.
  by apply Forall_app in H as [_ ?].
Qed.

Lemma Forall_trim_matches (P : N → Prop) c s : Forall P s → Forall P (trim_matches c s).
Proof.
  intros H. unfold trim_matches. apply Forall_reverse, Forall_drop_while.
  by apply Forall_reverse, Forall_drop_while.
Qed.

Lemma readable_slug_chars value : Forall (λ c, id_char c = true) (readable_slug value).
Proof.
  unfold readable_slug. case_bool_decide; [by vm_compute; repeat constructor|].
  apply Forall_take, Forall_trim_matches, slug_go_chars.
Qed.

Lemma readable_slug_length value : 1 ≤ length (readable_slug value) ≤ 48.
Proof.
  unfold readable_slug. case_bool_decide as E; [vm_compute; lia|].
  rewrite length_take. destruct (trim_matches _ _); [done|cbn [length]; lia].
Qed.

Section identity.
Context `{Sha256}.

Lemma id_component_length value :
  67 ≤ length (collision_resistant_id_component value) ≤ 114.
Proof.
  unfold collision_resistant_id_component, rapp.
  rewrite !length_app, length_sha256_hex.
  pose proof (readable_slug_length value). change (length (lit "--")) with 2. lia.
Qed.

Lemma id_component_inj_digest v w :
  collision_resistant_id_component v = collision_resistant_id_component w →
  sha256 (utf8_bytes v) = sha256 (utf8_bytes w).
Proof.
  unfold collision_resistant_id_component, rapp. intros Heq. apply sha256_hex_inj.
  rewrite !app_assoc in Heq. apply app_inj_2 in Heq as [_ ?]; [done|].
  by rewrite !length_sha256_hex.
Qed.

Lemma hex_lower_id_char c : is_hex_lower c = true → id_char c = true.
Proof.
  unfold is_hex_lower, id_char, is_ascii_alphanumeric, is_ascii_alphabetic, is_ascii_lower.
  rewrite !orb_true_iff, !andb_true_iff, !N.leb_le. intros [?|[? ?]]; [auto|].
  left. left. right. lia.
Qed.

(** Whatever a raw identity contains (paths, controls, any Unicode), its topology id
    component is 67 to 114 characters of the URL- and display-safe set
    [[A-Za-z0-9._-]], ends in the 64 lower-case hex digits of the SHA-256 of the untouched
    bytes, and two identities get the same component only when those digests collide. *)
Theorem id_component_spec v :
  let id := collision_resistant_id_component v in
  Forall (λ c, id_char c = true) id ∧ 67 ≤ length id ≤ 114 ∧
  drop (length id - 64) id = sha256_hex v ∧
  ∀ w, collision_resistant_id_component w = id →
       sha256 (utf8_bytes v) = sha256 (utf8_bytes w).
Proof.
  split_and!.
  - unfold collision_resistant_id_component, rapp. rewrite !Forall_app.
    split_and!; [apply readable_slug_chars|by vm_compute; repeat constructor|].
    eapply Forall_impl; [apply sha256_hex_lower|apply hex_lower_id_char].
  - apply id_component_length.
  - apply id_component_length.
  - unfold collision_resistant_id_component, rapp. rewrite app_assoc.
    apply drop_app_length'. rewrite length_app, length_sha256_hex. lia.
  - intros w ?. symmetry. by apply id_component_inj_digest.
Qed.
End identity.
