(* ===== verification/Logs.v ===== *)
(** * Log cursors, pages and timestamps ([crates/dockermap-core/src/logs.rs]) *)

From S2P Require Import Prelude RustStr RustNum Models.

Definition MAX_LOG_PAGE_SIZE : nat := 500.
Definition DEFAULT_LOG_PAGE_SIZE : nat := 100.

(** [millis : u64], [offset : usize]. *)
Record LogCursor := { millis : N; offset : N }.

#[export] Instance LogCursor_eq_dec : EqDecision LogCursor. Proof. solve_decision. Defined.

(** [LogCursor::parse]. *)
Definition LogCursor_parse (value : rstr) : option LogCursor :=
  let '(ms, off) := default (value, []) (split_once 58 value) in
  ms ← parse_uint u64_max ms;
  off ← (if off == [] then Some 0%N else parse_uint usize_max off);
  Some {| millis := ms; offset := off |}.

(** [impl Display for LogCursor]. *)
Definition LogCursor_to_string (c : LogCursor) : rstr :=
  dec_str (millis c) +s+ ":" +s+ dec_str (offset c).

(** ** Pages *)

(** The query filter of [page_log_entries]. *)
Definition entry_matches (query : option rstr) (entry : LogEntry) : bool :=
  match to_ascii_lowercase <$> query with
  | None => true
  | Some needle => contains (to_ascii_lowercase (le_message entry)) needle
  end.

(** [sort_by(|left, right| right.timestamp.cmp(&left.timestamp))]. *)
Definition newest_first (l r : LogEntry) : bool := (le_timestamp r <=? le_timestamp l)%N.

(** The cursor filter, with its mutable counter [same_timestamp_seen]. *)
Fixpoint after_cursor (cursor : LogCursor) (seen : N) (entries : list LogEntry) : list LogEntry :=
  match entries with
  | [] => []
  | entry :: rest =>
      if (le_timestamp entry <? millis cursor)%N then entry :: after_cursor cursor seen rest
      else if (millis cursor <? le_timestamp entry)%N then after_cursor cursor seen rest
      else if (offset cursor <=? seen)%N then entry :: after_cursor cursor (seen + 1) rest
      else after_cursor cursor (seen + 1) rest
  end.

(** The filtered, ordered entries behind a cursor. *)
Definition entries_behind (entries : list LogEntry) (query : option rstr)
    (cursor : option LogCursor) : list LogEntry :=
  let sorted := sort_by newest_first (filterb (entry_matches query) entries) in
  match cursor with None => sorted | Some cursor => after_cursor cursor 0 sorted end.

(** [limit.clamp(1, MAX_LOG_PAGE_SIZE)]. *)
Definition clamp_limit (limit : nat) : nat := Nat.max 1 (Nat.min MAX_LOG_PAGE_SIZE limit).

(** The cursor behind a page whose oldest kept entry is [boundary]. *)
Definition next_log_cursor (page : list LogEntry) (limit : nat) (cursor : option LogCursor)
    (boundary : LogEntry) : LogCursor :=
  let first_at_boundary :=
    default (limit - 1) (position (λ entry, (le_timestamp entry =? le_timestamp boundary)%N) page) in
  let previously_emitted :=
    match cursor with
    | Some cursor => if (millis cursor =? le_timestamp boundary)%N then offset cursor else 0%N
    | None => 0%N
    end in
  {| millis := le_timestamp boundary;
     offset := previously_emitted + N.of_nat limit - N.of_nat first_at_boundary |}.

Definition page_log_entries (entries : list LogEntry) (query : option rstr)
    (cursor : option LogCursor) (limit : nat) : list LogEntry * option rstr :=
  let limit := clamp_limit limit in
  let entries := entries_behind entries query cursor in
  let has_more := (limit <? length entries)%nat in
  let next_cursor :=
    if has_more then
      boundary ← entries !! (limit - 1);
      Some (LogCursor_to_string (next_log_cursor (take limit entries) limit cursor boundary))
    else None in
  (take limit entries, next_cursor).

(** ** The cursor round trip *)

Lemma dec_str_no_colon n : 58%N ∉ dec_str n.
Proof.
  intros Hin. pose proof (dec_str_digits n) as Hd. rewrite Forall_forall in Hd.
  by apply Hd in Hin.
Qed.

Lemma cursor_parse_to_string c :
  (millis c <= u64_max)%N → (offset c <= usize_max)%N →
  LogCursor_parse (LogCursor_to_string c) = Some c.
Proof.
  intros Hm Ho. unfold LogCursor_parse, LogCursor_to_string, rapp.
  assert (split_once 58 (dec_str (millis c) ++ lit ":" ++ dec_str (offset c))
          = Some (dec_str (millis c), dec_str (offset c))) as ->.
  { apply split_once_Some. split; [done|apply dec_str_no_colon]. }
  cbn [default from_option id]. rewrite parse_dec_str by assumption. cbn [mbind option_bind].
  destruct (dec_str_cons (offset c)) as (d & s & E & _).
  rewrite bool_decide_eq_false_2 by (by rewrite E).
  rewrite parse_dec_str by assumption. by destruct c.
Qed.

(** ** Ordered entries *)

Definition count_at (ts : N) (l : list LogEntry) : nat :=
  count_if (λ entry, (le_timestamp entry =? ts)%N) l.

Definition desc : relation LogEntry := λ a b, newest_first a b = true.

Lemma newest_first_total a b : newest_first a b = true ∨ newest_first b a = true.
Proof. unfold newest_first. rewrite !N.leb_le. lia. Qed.

Lemma newest_first_trans a b c :
  newest_first a b = true → newest_first b c = true → newest_first a c = true.
Proof. unfold newest_first. rewrite !N.leb_le. lia. Qed.

Lemma sorted_matches_sorted entries q : StronglySorted desc (entries_behind entries q None).
Proof. apply sort_by_sorted; eauto using newest_first_total, newest_first_trans. Qed.

Lemma StronglySorted_app_le {P D : list LogEntry} :
  StronglySorted desc (P ++ D) → ∀ x y, x ∈ P → y ∈ D → (le_timestamp y <= le_timestamp x)%N.
Proof.
  intros Hs x y Hx Hy. induction P as [|z P IH]; [set_solver|].
  simpl in Hs. apply StronglySorted_cons in Hs as [Hz Hs].
  apply elem_of_cons in Hx as [->|Hx]; [|by apply IH].
  rewrite Forall_forall in Hz. specialize (Hz y).
  rewrite elem_of_app in Hz. specialize (Hz (or_intror Hy)).
  by apply N.leb_le in Hz.
Qed.

Lemma count_at_app ts l l' : count_at ts (l ++ l') = count_at ts l + count_at ts l'.
Proof. apply count_if_app. Qed.

Lemma after_cursor_app c seen P D :
  after_cursor c seen (P ++ D) =
  after_cursor c seen P ++ after_cursor c (seen + N.of_nat (count_at (millis c) P)) D.
Proof.
  revert seen. induction P as [|e P IH]; intros seen; simpl.
  { unfold count_at. simpl. by rewrite N.add_0_r. }
  unfold count_at in *. simpl.
  destruct (N.ltb_spec (le_timestamp e) (millis c)), (N.ltb_spec (millis c) (le_timestamp e));
    try lia; rewrite ?IH.
  - rewrite (proj2 (N.eqb_neq _ _)) by lia. done.
  - rewrite (proj2 (N.eqb_neq _ _)) by lia. done.
  - rewrite (proj2 (N.eqb_eq _ _)) by lia. simpl.
    replace (seen + 1 + _)%N with
      (seen + N.of_nat (S (count_if (λ entry, (le_timestamp entry =? millis c)%N) P)))%N by lia.
    by destruct (offset c <=? seen)%N.
Qed.

Lemma after_cursor_drops c seen P :
  (∀ x, x ∈ P → (millis c <= le_timestamp x)%N) →
  (seen + N.of_nat (count_at (millis c) P) <= offset c)%N → after_cursor c seen P = [].
Proof.
  revert seen. induction P as [|e P IH]; intros seen Hge Hc; [done|]. simpl.
  unfold count_at in *. simpl in Hc.
  assert (millis c <= le_timestamp e)%N by (apply Hge; left).
  destruct (N.ltb_spec (le_timestamp e) (millis c)); [lia|].
  destruct (N.ltb_spec (millis c) (le_timestamp e)).
  - rewrite (proj2 (N.eqb_neq _ _)) in Hc by lia. apply IH; [|lia].
    intros. apply Hge. by right.
  - rewrite (proj2 (N.eqb_eq _ _)) in Hc by lia. destruct (N.leb_spec (offset c) seen); [lia|].
    apply IH; [|lia]. intros. apply Hge. by right.
Qed.

Lemma after_cursor_keeps c seen D :
  (∀ x, x ∈ D → (le_timestamp x <= millis c)%N) → (offset c <= seen)%N →
  after_cursor c seen D = D.
Proof.
  revert seen. induction D as [|e D IH]; intros seen Hle Hc; [done|]. simpl.
  assert (le_timestamp e <= millis c)%N by (apply Hle; left).
  assert (∀ x, x ∈ D → (le_timestamp x <= millis c)%N) by (intros; apply Hle; by right).
  destruct (N.ltb_spec (le_timestamp e) (millis c)); [by rewrite IH|].
  destruct (N.ltb_spec (millis c) (le_timestamp e)); [lia|].
  destruct (N.leb_spec (offset c) seen); [|lia]. rewrite IH; [done..|lia].
Qed.

(** ** Resuming after the first [k] entries of the ordered list *)

(** The cursor that stands between the first [k] entries [P], the last of which is [e], and
    the rest. *)
Definition cursor_after (P : list LogEntry) (e : LogEntry) : LogCursor :=
  {| millis := le_timestamp e; offset := N.of_nat (count_at (le_timestamp e) P) |}.

Lemma after_cursor_resumes P e D :
  StronglySorted desc (P ++ [e] ++ D) →
  after_cursor (cursor_after (P ++ [e]) e) 0 (P ++ [e] ++ D) = D.
Proof.
  intros Hs. rewrite app_assoc in *. rewrite after_cursor_app, after_cursor_drops.
  - apply after_cursor_keeps; simpl; [|lia]. intros x Hx.
    apply (StronglySorted_app_le Hs e x); [set_solver|done].
  - intros x Hx. simpl. rewrite <- app_assoc in Hs. apply elem_of_app in Hx as [Hx|Hx].
    + apply (StronglySorted_app_le Hs x e); [done|set_solver].
    + apply list_elem_of_singleton in Hx as ->. lia.
  - simpl. lia.
Qed.

(** In an ordered list that ends at time [ts], everything from the first entry at [ts] on is
    at [ts]. *)
Lemma position_count (page : list LogEntry) e :
  StronglySorted desc (page ++ [e]) →
  position (λ x, (le_timestamp x =? le_timestamp e)%N) (page ++ [e])
  = Some (length (page ++ [e]) - count_at (le_timestamp e) (page ++ [e])).
Proof.
  induction page as [|x page IH]; intros Hs.
  { unfold count_at. simpl. by rewrite N.eqb_refl. }
  pose proof Hs as Hs'. simpl in Hs. apply StronglySorted_cons in Hs as [Hx Hs].
  unfold count_at in *. simpl. destruct (N.eqb_spec (le_timestamp x) (le_timestamp e)) as [E|E].
  - simpl. f_equal.
    assert (count_if (λ y, (le_timestamp y =? le_timestamp e)%N) (page ++ [e])
            = length (page ++ [e])) as ->; [|lia].
    rewrite count_if_filterb, filterb_all; [done|]. intros y Hy. apply N.eqb_eq.
    assert (le_timestamp e <= le_timestamp y)%N.
    { apply elem_of_app in Hy as [Hy|Hy].
      - apply (StronglySorted_app_le Hs y e Hy). by left.
      - apply list_elem_of_singleton in Hy as ->. lia. }
    rewrite Forall_forall in Hx. apply Hx, N.leb_le in Hy. lia.
  - rewrite IH by done. simpl. f_equal.
    assert (count_if (λ y, (le_timestamp y =? le_timestamp e)%N) (page ++ [e])
            ≤ length (page ++ [e])) by (rewrite count_if_filterb; apply length_filterb). lia.
Qed.

(** The cursor of the source, computed from the page alone and the incoming cursor, is the
    one that stands after everything emitted so far. *)
Lemma next_log_cursor_first page e :
  StronglySorted desc (page ++ [e]) →
  next_log_cursor (page ++ [e]) (length (page ++ [e])) None e = cursor_after (page ++ [e]) e.
Proof.
  intros Hs. unfold next_log_cursor, cursor_after. rewrite position_count by done. simpl. f_equal.
  assert (count_at (le_timestamp e) (page ++ [e]) ≤ length (page ++ [e]))
    by (unfold count_at; rewrite count_if_filterb; apply length_filterb). lia.
Qed.

Lemma next_log_cursor_resumed P d page e :
  StronglySorted desc ((P ++ [d]) ++ page ++ [e]) →
  next_log_cursor (page ++ [e]) (length (page ++ [e])) (Some (cursor_after (P ++ [d]) d)) e
  = cursor_after ((P ++ [d]) ++ page ++ [e]) e.
Proof.
  intros Hs. assert (Hs' : StronglySorted desc (page ++ [e])) by (by apply StronglySorted_app_1_r in Hs).
  unfold next_log_cursor, cursor_after. rewrite position_count by done. simpl. f_equal.
  rewrite (count_at_app _ (P ++ [d])).
  assert (count_at (le_timestamp e) (page ++ [e]) ≤ length (page ++ [e]))
    by (unfold count_at; rewrite count_if_filterb; apply length_filterb).
  destruct (N.eqb_spec (le_timestamp d) (le_timestamp e)) as [->|Hne]; [lia|].
  assert (count_at (le_timestamp e) (P ++ [d]) = 0) as ->; [|lia].
  apply count_if_zero. intros x Hx. apply N.eqb_neq.
  assert (le_timestamp e <= le_timestamp d)%N
    by (apply (StronglySorted_app_le Hs d e); set_solver).
  apply elem_of_app in Hx as [Hx|Hx].
  - rewrite <- app_assoc in Hs.
    assert (le_timestamp d <= le_timestamp x)%N by (apply (StronglySorted_app_le Hs x d); set_solver). lia.
  - apply list_elem_of_singleton in Hx as ->. lia.
Qed.

(** ** Following the cursors *)

(** A client that asks for a page, then for the page behind its cursor, and so on. *)
Fixpoint load_older (fuel : nat) (entries : list LogEntry) (query : option rstr)
    (cursor : option LogCursor) (limit : nat) : option (list (list LogEntry)) :=
  match fuel with
  | 0 => None
  | S fuel =>
      match page_log_entries entries query cursor limit with
      | (page, None) => Some [page]
      | (page, Some next) =>
          cursor ← LogCursor_parse next;
          pages ← load_older fuel entries query (Some cursor) limit;
          Some (page :: pages)
      end
  end.

Lemma clamp_limit_bounds limit : 1 ≤ clamp_limit limit ≤ 500.
Proof. unfold clamp_limit, MAX_LOG_PAGE_SIZE. lia. Qed.

(** A cursor state: nothing emitted, or stopped after [P ++ [e]]. *)
Definition resumes_after (P : list LogEntry) (cursor : option LogCursor) : Prop :=
  match cursor with
  | None => P = []
  | Some c => ∃ Q e, P = Q ++ [e] ∧ c = cursor_after P e
  end.

Section pages.
Context (entries : list LogEntry) (query : option rstr) (limit : nat).
Let L := entries_behind entries query None.

(** The bounds of the machine integers. *)
Definition entries_in_range : Prop :=
  (N.of_nat (length entries) <= usize_max)%N ∧
  Forall (λ e, (le_timestamp e <= u64_max)%N) entries.

Lemma length_sorted_matches : length L ≤ length entries.
Proof. unfold L, entries_behind. rewrite length_sort_by. apply length_filterb. Qed.

Lemma entries_behind_resumes P D cursor :
  L = P ++ D → resumes_after P cursor → entries_behind entries query cursor = D.
Proof.
  intros HL Hc. destruct cursor as [c|]; simpl in Hc.
  - destruct Hc as (Q & e & -> & ->). unfold entries_behind.
    change (sort_by _ _) with L. rewrite HL.
    pose proof (sorted_matches_sorted entries query) as Hs. fold L in Hs. rewrite HL in Hs.
    rewrite <- app_assoc in *. by apply after_cursor_resumes.
  - subst P. exact HL.
Qed.

(** One page: what it holds, and where its cursor resumes. *)
Lemma page_step P D cursor :
  entries_in_range → L = P ++ D → resumes_after P cursor →
  page_log_entries entries query cursor limit =
    (take (clamp_limit limit) D,
     if (clamp_limit limit <? length D)%nat
     then e ← D !! (clamp_limit limit - 1);
          Some (LogCursor_to_string (cursor_after (P ++ take (clamp_limit limit) D) e))
     else None).
Proof.
  intros _ HL Hc. unfold page_log_entries. rewrite (entries_behind_resumes P D) by done.
  pose proof (clamp_limit_bounds limit) as Hb. set (k := clamp_limit limit) in *.
  destruct (Nat.ltb_spec k (length D)); [|done]. f_equal.
  destruct (lookup_lt_is_Some_2 D (k - 1)) as [e He]; [lia|]. rewrite He. simpl. do 2 f_equal.
  pose proof (sorted_matches_sorted entries query) as Hs. fold L in Hs. rewrite HL in Hs.
  assert (Htk : take k D = take (k - 1) D ++ [e]).
  { replace k with (S (k - 1)) at 1 by lia. by apply take_S_r. }
  assert (Hlen : k = length (take (k - 1) D ++ [e])).
  { rewrite <- Htk, length_take. lia. }
  rewrite <- (take_drop k D), app_assoc in Hs. apply StronglySorted_app_1_l in Hs.
  rewrite Htk in *. destruct cursor as [c|]; simpl in Hc.
  - destruct Hc as (Q & d & -> & ->).
    pose proof (next_log_cursor_resumed Q d _ e Hs) as Hn. by rewrite <- Hlen in Hn.
  - subst P. pose proof (next_log_cursor_first _ e Hs) as Hn. by rewrite <- Hlen in Hn.
Qed.

Lemma load_older_from fuel P D cursor :
  entries_in_range → L = P ++ D → resumes_after P cursor → length D < fuel →
  ∃ pages, load_older fuel entries query cursor limit = Some pages ∧
    concat pages = D ∧
    Forall (λ page, length page ≤ clamp_limit limit) pages ∧
    (D ≠ [] → Forall (λ page, page ≠ []) pages).
Proof.
  intros Hr. revert P D cursor. induction fuel as [|fuel IH]; intros P D cursor HL Hc Hf; [lia|].
  cbn [load_older]. rewrite (page_step P D) by done.
  pose proof (clamp_limit_bounds limit) as Hb. set (k := clamp_limit limit) in *.
  destruct (Nat.ltb_spec k (length D)) as [Hlt|Hge].
  - destruct (lookup_lt_is_Some_2 D (k - 1)) as [e He]; [lia|]. rewrite He. simpl.
    assert (Htk : take k D = take (k - 1) D ++ [e]).
    { replace k with (S (k - 1)) at 1 by lia. by apply take_S_r. }
    assert (HeL : e ∈ L).
    { rewrite HL. apply elem_of_app. right. by eapply list_elem_of_lookup_2. }
    rewrite cursor_parse_to_string; cycle 1.
    { destruct Hr as [_ Hts]. rewrite Forall_forall in Hts. apply Hts.
      unfold L, entries_behind in HeL. by apply elem_of_sort_by, elem_of_filterb in HeL as [_ ?]. }
    { destruct Hr as [Hlen _]. simpl. pose proof length_sorted_matches as HlL.
      unfold count_at. rewrite count_if_filterb.
      pose proof (length_filterb (λ x, (le_timestamp x =? le_timestamp e)%N) (P ++ take k D)).
      rewrite HL in HlL. rewrite !length_app, length_take in *. lia. }
    simpl. edestruct (IH (P ++ take k D) (drop k D)) as (pages & -> & Hcat & Hlen & Hne).
    + by rewrite <- app_assoc, take_drop.
    + simpl. exists (P ++ take (k - 1) D), e. by rewrite Htk, app_assoc.
    + rewrite length_drop. lia.
    + exists (take k D :: pages). split_and!; [done| | |].
      * simpl. by rewrite Hcat, take_drop.
      * constructor; [rewrite length_take; lia|done].
      * intros _. constructor; [|apply Hne].
        -- intros Hn%(f_equal length). rewrite length_take in Hn. simpl in Hn. lia.
        -- intros Hn%(f_equal length). rewrite length_drop in Hn. simpl in Hn. lia.
  - exists [take k D]. rewrite take_ge by done. split_and!; [done|simpl; by rewrite app_nil_r| |].
    + by repeat constructor.
    + by repeat constructor.
Qed.
End pages.

(** C12: Whatever the entries and the page size asked for, a client that follows the cursors
    from the first page gets a finite run of pages, each at most [limit] (itself clamped to
    1..500) long, and their concatenation is exactly the matching entries, newest first,
    with entries of one millisecond in stream order: nothing is dropped or repeated, and no
    page but a first empty one is empty. *)
Theorem log_pages_complete entries query limit :
  entries_in_range entries →
  ∃ pages, load_older (S (length entries)) entries query None limit = Some pages ∧
    concat pages = entries_behind entries query None ∧
    concat pages ≡ₚ filterb (entry_matches query) entries ∧
    StronglySorted desc (concat pages) ∧
    (∀ ts, filterb (λ e, (le_timestamp e =? ts)%N) (concat pages) =
           filterb (λ e, (le_timestamp e =? ts)%N) (filterb (entry_matches query) entries)) ∧
    Forall (λ page, length page ≤ clamp_limit limit ∧ clamp_limit limit ≤ MAX_LOG_PAGE_SIZE) pages ∧
    (concat pages ≠ [] → Forall (λ page, page ≠ []) pages).
Proof.
  intros Hr.
  destruct (load_older_from entries query limit (S (length entries)) []
              (entries_behind entries query None) None) as (pages & Hp & Hcat & Hlen & Hne);
    [done|done|done| |].
  { pose proof (length_sorted_matches entries query). lia. }
  exists pages. rewrite Hcat. split_and!; [done|done| |by apply sorted_matches_sorted| | |done].
  - apply sort_by_Permutation.
  - intros ts. apply sort_by_stable. unfold newest_first.
    intros a b Ha%N.eqb_eq Hb%N.eqb_eq. apply N.leb_le. lia.
  - eapply Forall_impl; [exact Hlen|]. intros page Hpage. split; [done|apply clamp_limit_bounds].
Qed.

(** ** Timestamps *)

(** [days_from_civil]; the [i64] conversions of a [u64] fail above [i64::MAX]. *)
Definition i64_max : Z := 9223372036854775807.
Definition to_i64 (n : N) : option Z := if (Z.of_N n <=? i64_max)%Z then Some (Z.of_N n) else None.

Definition days_from_civil (year month day : N) : option Z :=
  if negb ((1 <=? month)%N && (month <=? 12)%N) || negb ((1 <=? day)%N && (day <=? 31)%N)
  then None
  else
    year ← to_i64 year;
    month ← to_i64 month;
    day ← to_i64 day;
    let adjusted_year := (year - (if month <=? 2 then 1 else 0))%Z in
    let era := Z.quot (if 0 <=? adjusted_year then adjusted_year else adjusted_year - 399)%Z 400 in
    let year_of_era := (adjusted_year - era * 400)%Z in
    let month_adjusted := (month + (if 2 <? month then -3 else 9))%Z in
    let day_of_year := (Z.quot (153 * month_adjusted + 2) 5 + day - 1)%Z in
    let day_of_era := (year_of_era * 365 + Z.quot year_of_era 4 - Z.quot year_of_era 100
                       + day_of_year)%Z in
    Some (era * 146097 + day_of_era - 719468)%Z.

(** The loop over the fraction digits: value in milliseconds and digits consumed. *)
Fixpoint fraction_go (bytes : list N) (fraction_ms multiplier : N) (consumed : nat) : N * nat :=
  match bytes with
  | [] => (fraction_ms, consumed)
  | byte :: rest =>
      if negb (is_ascii_digit byte) then (fraction_ms, consumed)
      else if (consumed <? 3)%nat
           then fraction_go rest (fraction_ms + (byte - 48) * multiplier) (multiplier / 10) (S consumed)
           else fraction_go rest fraction_ms multiplier (S consumed)
  end.

Definition parse_rfc3339_nano_millis (value : rstr) : option N :=
  if (str_len value <? 20)%nat || negb (ends_with value "Z") then None
  else
    let bytes := utf8_bytes value in
    let digit (index : nat) : option N :=
      byte ← bytes !! index;
      if is_ascii_digit byte then Some (byte - 48)%N else None in
    y0 ← digit 0; y1 ← digit 1; y2 ← digit 2; y3 ← digit 3;
    mo0 ← digit 5; mo1 ← digit 6;
    d0 ← digit 8; d1 ← digit 9;
    h0 ← digit 11; h1 ← digit 12;
    mi0 ← digit 14; mi1 ← digit 15;
    s0 ← digit 17; s1 ← digit 18;
    let year := (1000 * y0 + 100 * y1 + 10 * y2 + y3)%N in
    let month := (10 * mo0 + mo1)%N in
    let day := (10 * d0 + d1)%N in
    let hour := (10 * h0 + h1)%N in
    let minute := (10 * mi0 + mi1)%N in
    let second := (10 * s0 + s1)%N in
    if (bytes !! 4 != Some 45%N) || (bytes !! 7 != Some 45%N) || (bytes !! 10 != Some 84%N)
       || (bytes !! 13 != Some 58%N) || (bytes !! 16 != Some 58%N)
    then None
    else if negb ((1 <=? month)%N && (month <=? 12)%N) || negb ((1 <=? day)%N && (day <=? 31)%N)
            || (23 <? hour)%N || (59 <? minute)%N || (60 <? second)%N
    then None
    else
      fraction_ms ← (if bytes !! 19 == Some 46%N then
                       let '(ms, consumed) := fraction_go (drop 20 bytes) 0 100 0 in
                       if (consumed =? 0)%nat then None else Some ms
                     else Some 0%N);
      days ← days_from_civil year month day;
      let seconds := (days * 86400 + Z.of_N hour * 3600 + Z.of_N minute * 60 + Z.of_N second)%Z in
      if (seconds <? 0)%Z then None
      else millis ← checked_mul u64_max (Z.to_N seconds) 1000; checked_add u64_max millis fraction_ms.

(** ** The Gregorian calendar *)

Definition leap (y : N) : bool :=
  (y mod 4 =? 0)%N && (negb (y mod 100 =? 0)%N || (y mod 400 =? 0)%N).

Definition days_in_month (y m : N) : N :=
  if (m =? 2)%N then (if leap y then 29 else 28)%N
  else if one_of m [4; 6; 9; 11]%N then 30%N else 31%N.

Definition valid_date (y m d : N) : bool :=
  (1 <=? m)%N && (m <=? 12)%N && (1 <=? d)%N && (d <=? days_in_month y m)%N.

Definition next_day (y m d : N) : N * N * N :=
  if (d <? days_in_month y m)%N then (y, m, d + 1)%N
  else if (m <? 12)%N then (y, m + 1, 1)%N else (y + 1, 1, 1)%N.

(** [days_from_civil] without its range checks. *)
Definition civil_days (y m d : Z) : Z :=
  let a := (y - (if m <=? 2 then 1 else 0))%Z in
  (a * 365 + a / 4 - a / 100 + a / 400
   + (153 * (m + (if 2 <? m then -3 else 9)) + 2) / 5 + d - 1 - 719468)%Z.

Lemma days_from_civil_eq y m d :
  (1 <= m <= 12)%N → (1 <= d <= 31)%N → (y <= 9999)%N →
  days_from_civil y m d = Some (civil_days (Z.of_N y) (Z.of_N m) (Z.of_N d)).
Proof.
  intros Hm Hd Hy. unfold days_from_civil, to_i64, i64_max, civil_days.
  rewrite !(proj2 (N.leb_le _ _)) by lia. rewrite !(proj2 (Z.leb_le _ 9223372036854775807)) by lia.
  cbn [negb orb andb mbind option_bind]. f_equal.
  destruct (Z.leb_spec (Z.of_N m) 2), (Z.ltb_spec 2 (Z.of_N m)); try lia;
    match goal with |- context [(0 <=? ?a)%Z] => destruct (Z.leb_spec 0 a) end;
    Z.to_euclidean_division_equations; lia.
Qed.

Lemma month_cases m : (1 <= m <= 12)%N →
  m = 1%N ∨ m = 2%N ∨ m = 3%N ∨ m = 4%N ∨ m = 5%N ∨ m = 6%N ∨ m = 7%N ∨ m = 8%N ∨ m = 9%N ∨
  m = 10%N ∨ m = 11%N ∨ m = 12%N.
Proof. lia. Qed.

Lemma days_in_month_bound y m : (28 <= days_in_month y m <= 31)%N.
Proof. unfold days_in_month. destruct (m =? 2)%N, (leap y), (one_of m [4; 6; 9; 11]%N); lia. Qed.

(** Shape of [civil_days] at a month known as a numeral. *)
Lemma civil_days_step y m d :
  (civil_days y m (d + 1) = civil_days y m d + 1)%Z.
Proof. unfold civil_days. lia. Qed.

Lemma leap_Z y :
  leap y = true ↔
  (Z.of_N y mod 4 = 0 ∧ (Z.of_N y mod 100 ≠ 0 ∨ Z.of_N y mod 400 = 0))%Z.
Proof.
  unfold leap. rewrite andb_true_iff, orb_true_iff, negb_true_iff, !N.eqb_eq, N.eqb_neq.
  pose proof (N2Z.inj_mod y 4). pose proof (N2Z.inj_mod y 100). pose proof (N2Z.inj_mod y 400).
  lia.
Qed.

(** The last day of February: the leap rule of the two algorithms agree. *)
Lemma civil_days_february y :
  civil_days (Z.of_N y) 3 1 = (civil_days (Z.of_N y) 2 (if leap y then 29 else 28) + 1)%Z.
Proof.
  destruct (leap y) eqn:E; [apply leap_Z in E|
    assert (E' := leap_Z y); rewrite E in E'];
  unfold civil_days; simpl; Z.to_euclidean_division_equations; lia.
Qed.

Lemma civil_next_day y m d :
  valid_date y m d = true →
  let '(y', m', d') := next_day y m d in
  valid_date y' m' d' = true ∧
  civil_days (Z.of_N y') (Z.of_N m') (Z.of_N d')
  = (civil_days (Z.of_N y) (Z.of_N m) (Z.of_N d) + 1)%Z.
Proof.
  unfold valid_date, next_day. rewrite !andb_true_iff, !N.leb_le. intros [[[Hm1 Hm2] Hd1] Hd2].
  destruct (N.ltb_spec d (days_in_month y m)) as [Hlt|Hge].
  { split; [rewrite !andb_true_iff, !N.leb_le; lia|].
    rewrite N2Z.inj_add. apply civil_days_step. }
  assert (d = days_in_month y m) as -> by lia.
  pose proof (civil_days_february y) as Hfeb.
  destruct (month_cases m) as [->|[->|[->|[->|[->|[->|[->|[->|[->|[->|[->| ->]]]]]]]]]]]; [lia|..];
    (split; [unfold days_in_month; simpl; by destruct (leap _)|]);
    unfold days_in_month; simpl; try (etrans; [exact Hfeb|by destruct (leap y)]);
    unfold civil_days; simpl; rewrite ?N2Z.inj_add;
    Z.to_euclidean_division_equations; lia.
Qed.

(** On every calendar date of the years 0 to 9998, [days_from_civil] numbers the days of
    the proleptic Gregorian calendar: 1970-01-01 is day 0 and the day after a date is
    numbered one more, across month ends, leap days and century rules. *)
Theorem days_from_civil_counts_days y m d :
  valid_date y m d = true → (y <= 9998)%N →
  days_from_civil 1970 1 1 = Some 0%Z ∧
  ∃ n, days_from_civil y m d = Some n ∧
       let '(y', m', d') := next_day y m d in days_from_civil y' m' d' = Some (n + 1)%Z.
Proof.
  intros Hv Hy. split; [by vm_compute|].
  pose proof (civil_next_day y m d Hv) as Hnext.
  assert (Hr : ∀ a b c, valid_date a b c = true → (1 <= b <= 12)%N ∧ (1 <= c <= 31)%N).
  { intros a b c. unfold valid_date. rewrite !andb_true_iff, !N.leb_le.
    pose proof (days_in_month_bound a b). lia. }
  assert (Hy' : (let '(y', _, _) := next_day y m d in y' <= 9999)%N).
  { unfold next_day. case_if E; [lia|]. case_if E'; lia. }
  destruct (next_day y m d) as [[y' m'] d']. destruct Hnext as [Hv' Hn].
  apply Hr in Hv as [??]. apply Hr in Hv' as [??].
  eexists. split; [apply days_from_civil_eq; lia|]. rewrite days_from_civil_eq by lia.
  by rewrite Hn.
Qed.

Lemma days_from_civil_counts_days_witness :
  valid_date 2024 2 29 = true ∧ days_from_civil 2024 2 29 = Some 19782%Z ∧
  ∃ n, days_from_civil 2024 2 29 = Some n ∧ days_from_civil 2024 3 1 = Some (n + 1)%Z.
Proof.
  split; [reflexivity|]. split; [vm_compute; reflexivity|].
  exact (proj2 (days_from_civil_counts_days 2024 2 29 eq_refl ltac:(lia))).
Defined.

(** ** Formatting, to state the round trip *)

Definition dig (n k : N) : N := (48 + n / k mod 10)%N.

(** [YYYY-MM-DDTHH:MM:SS.mmmZ], with a nanosecond tail of further digits. *)
Definition format_rfc3339 (y mo d h mi s ms : N) (tail : rstr) : rstr :=
  [dig y 1000; dig y 100; dig y 10; dig y 1; 45; dig mo 10; dig mo 1; 45; dig d 10; dig d 1; 84;
   dig h 10; dig h 1; 58; dig mi 10; dig mi 1; 58; dig s 10; dig s 1; 46;
   dig ms 100; dig ms 10; dig ms 1]%N ++ tail ++ [90%N].

Lemma dig_digit n k : is_ascii_digit (dig n k) = true.
Proof.
  unfold dig. apply digit_char. apply N.mod_lt. done.
Qed.

Lemma dig_value n k : (dig n k - 48 = n / k mod 10)%N.
Proof. unfold dig. generalize (n / k mod 10)%N. lia. Qed.

Lemma digits4 y : (y <= 9999)%N →
  (1000 * (y / 1000 mod 10) + 100 * (y / 100 mod 10) + 10 * (y / 10 mod 10) + y / 1 mod 10 = y)%N.
Proof. intros. zify. Z.to_euclidean_division_equations. lia. Qed.

Lemma digits2 y : (y <= 99)%N → (10 * (y / 10 mod 10) + y / 1 mod 10 = y)%N.
Proof. intros. zify. Z.to_euclidean_division_equations. lia. Qed.

Lemma digits3 y : (y <= 999)%N →
  (0 + y / 100 mod 10 * 100 + y / 10 mod 10 * 10 + y / 1 mod 10 * 1 = y)%N.
Proof. intros. zify. Z.to_euclidean_division_equations. lia. Qed.

Lemma fraction_go_tail tail ms k c :
  Forall (λ b, is_ascii_digit b = true) tail → 3 ≤ c →
  ∃ c', fraction_go (tail ++ [90%N]) ms k c = (ms, c') ∧ c ≤ c'.
Proof.
  intros Ht. revert c. induction Ht as [|b tail Hb _ IH]; intros c Hc; simpl; [by exists c|].
  rewrite Hb. simpl. destruct (Nat.ltb_spec c 3); [lia|].
  destruct (IH (S c)) as (c' & -> & ?); [lia|]. exists c'. split; [done|lia].
Qed.

Lemma utf8_format y mo d h mi s ms tail :
  Forall (λ b, is_ascii_digit b = true) tail →
  utf8_bytes (format_rfc3339 y mo d h mi s ms tail) = format_rfc3339 y mo d h mi s ms tail.
Proof.
  intros Ht. apply ascii_utf8. unfold format_rfc3339.
  assert (Hd : ∀ b, is_ascii_digit b = true → (b < 128)%N).
  { intros b. unfold is_ascii_digit. rewrite andb_true_iff, !N.leb_le. lia. }
  pose proof dig_digit as Hg.
  apply Forall_app. split; [repeat constructor; apply Hd, Hg|].
  apply Forall_app. split; [by eapply Forall_impl|repeat constructor].
Qed.

Lemma civil_days_nonneg y m d :
  (1970 <= y)%Z → (1 <= m <= 12)%Z → (1 <= d)%Z → (0 <= civil_days y m d)%Z.
Proof.
  intros. unfold civil_days.
  destruct (Z.leb_spec m 2), (Z.ltb_spec 2 m); try lia; Z.to_euclidean_division_equations; lia.
Qed.

Lemma civil_days_upper y m d :
  (y <= 9999)%Z → (0 <= y)%Z → (1 <= m <= 12)%Z → (d <= 31)%Z → (civil_days y m d <= 3000000)%Z.
Proof.
  intros. unfold civil_days.
  destruct (Z.leb_spec m 2), (Z.ltb_spec 2 m); try lia; Z.to_euclidean_division_equations; lia.
Qed.

(** The parser inverts the timestamp format of [docker logs --timestamps]: on every
    calendar date from 1970 to 9999, time of day and millisecond, with any further fraction
    digits, it returns the milliseconds since the epoch, truncated and without overflow. *)
Theorem parse_rfc3339_format y mo d h mi s ms tail :
  valid_date y mo d = true → (1970 <= y <= 9999)%N → (h <= 23)%N → (mi <= 59)%N → (s <= 60)%N →
  (ms <= 999)%N → Forall (λ b, is_ascii_digit b = true) tail →
  ∃ days, days_from_civil y mo d = Some days ∧ (0 <= days)%Z ∧
    parse_rfc3339_nano_millis (format_rfc3339 y mo d h mi s ms tail)
    = Some ((Z.to_N days * 86400 + h * 3600 + mi * 60 + s) * 1000 + ms)%N.
Proof.
  intros Hv Hy Hh Hmi Hs Hms Ht.
  unfold valid_date in Hv. rewrite !andb_true_iff, !N.leb_le in Hv.
  pose proof (days_in_month_bound y mo).
  pose proof (civil_days_nonneg (Z.of_N y) (Z.of_N mo) (Z.of_N d) ltac:(lia) ltac:(lia) ltac:(lia)).
  pose proof (civil_days_upper (Z.of_N y) (Z.of_N mo) (Z.of_N d) ltac:(lia) ltac:(lia) ltac:(lia) ltac:(lia)).
  pose proof (days_from_civil_eq y mo d ltac:(lia) ltac:(lia) ltac:(lia)) as Hdays.
  set (days := civil_days (Z.of_N y) (Z.of_N mo) (Z.of_N d)) in *.
  exists days. split_and!; [done|done|].
  unfold parse_rfc3339_nano_millis, str_len. rewrite utf8_format by done.
  assert ((length (format_rfc3339 y mo d h mi s ms tail) <? 20)%nat = false) as ->.
  { apply Nat.ltb_ge. unfold format_rfc3339. rewrite length_app. simpl. lia. }
  assert (ends_with (format_rfc3339 y mo d h mi s ms tail) "Z" = true) as ->.
  { apply ends_with_spec. eexists. unfold format_rfc3339. by rewrite app_assoc. }
  cbn [negb orb]. unfold format_rfc3339.
  cbn [app lookup list_lookup mbind option_bind]. rewrite !dig_digit. cbn [mbind option_bind].
  rewrite !dig_value. rewrite digits4, !digits2 by lia.
  rewrite !(bool_decide_eq_true_2 (Some _ = Some _)) by done. cbn [negb orb].
  rewrite !(proj2 (N.leb_le _ _)) by lia. rewrite !(proj2 (N.ltb_ge _ _)) by lia.
  cbn [negb orb andb drop app fraction_go]. rewrite !dig_digit. cbn [negb Nat.ltb Nat.leb].
  change (100 / 10)%N with 10%N. change (10 / 10)%N with 1%N. change (1 / 10)%N with 0%N.
  destruct (fraction_go_tail tail (0 + (dig ms 100 - 48) * 100 + (dig ms 10 - 48) * 10
    + (dig ms 1 - 48) * 1) 0 3 Ht ltac:(lia)) as (c & -> & Hc).
  destruct (Nat.eqb_spec c 0); [lia|]. cbn [mbind option_bind].
  rewrite !dig_value, digits3 by done. rewrite Hdays. cbn [mbind option_bind].
  destruct (Z.ltb_spec (days * 86400 + Z.of_N h * 3600 + Z.of_N mi * 60 + Z.of_N s) 0); [lia|].
  unfold checked_mul, checked_add, u64_max. rewrite (proj2 (N.leb_le _ _)) by lia.
  cbn [mbind option_bind]. rewrite (proj2 (N.leb_le _ _)) by lia. f_equal. lia.
Qed.

Lemma parse_rfc3339_format_witness :
  ∃ days, days_from_civil 2026 8 20 = Some days ∧ (0 <= days)%Z ∧
    parse_rfc3339_nano_millis "2026-08-20T04:05:06.123456789Z"
    = Some ((Z.to_N days * 86400 + 4 * 3600 + 5 * 60 + 6) * 1000 + 123)%N.
Proof.
  exact (parse_rfc3339_format 2026 8 20 4 5 6 123 (lit "456789") eq_refl
    ltac:(lia) ltac:(lia) ltac:(lia) ltac:(lia) ltac:(lia)
    ltac:(repeat constructor)).
Defined.

(** ** Divergences from the comments

    The text between the seconds (or the fraction digits) and the final [Z] is never looked
    at, so an offset other than UTC is accepted and ignored; and a day is only checked
    against 31. *)
Lemma parse_accepts_offset :
  parse_rfc3339_nano_millis "2026-08-20T04:05:06+02:00Z"
  = parse_rfc3339_nano_millis "2026-08-20T04:05:06Z" ∧
  parse_rfc3339_nano_millis "2026-08-20T04:05:06Z" ≠ None.
Proof. split; by vm_compute. Qed.

Lemma days_from_civil_accepts_february_30 :
  valid_date 2026 2 30 = false ∧ days_from_civil 2026 2 30 = days_from_civil 2026 3 2.
Proof. split; by vm_compute. Qed.

Definition sample_entry (id : rstr) (ts : N) : LogEntry := {|
  le_id := id; le_timestamp := ts; le_container := "web"; le_level := Log_Info; le_message := id |}.

(** Three entries of one millisecond and one older, in pages of two. *)
Lemma log_pages_complete_witness :
  let entries := [sample_entry "a" 5; sample_entry "b" 7; sample_entry "c" 7; sample_entry "d" 7] in
  load_older 5 entries None None 2
  = Some [[sample_entry "b" 7; sample_entry "c" 7]; [sample_entry "d" 7; sample_entry "a" 5]] ∧
  ∃ pages, load_older 5 entries None None 2 = Some pages ∧
    concat pages = entries_behind entries None None.
Proof.
  intros entries. split; [vm_compute; reflexivity|].
  assert (Hr : entries_in_range entries).
  { split; [by vm_compute|]. by repeat constructor. }
  destruct (log_pages_complete entries None 2 Hr) as (pages & Hp & Hc & _).
  exists pages. split; [exact Hp|exact Hc].
Defined.
