(* ===== verification/ObservedHistory.v ===== *)
(** * Observed history

    [crates/dockermap-core/src/observed_history.rs] (inventory and status classes), the
    [ObservedHistoryCache] of [crates/dockermap-daemon/src/cache_refresh.rs] and the wire
    validation of [ObservedChangeEvent] and [ObservedChangeHistoryResponse] in
    [crates/dockermap-core/src/models.rs]. The 16 bytes of the operating system's CSPRNG that
    name an epoch are an argument. A [None] result is an [expect] that fails. *)

From S2P Require Import Prelude RustStr RustNum Models Identity.

Definition MAX_OBSERVED_CHANGE_EVENTS : nat := 64.
Definition MAX_SAFE_JS_INTEGER : N := 9007199254740991.

(** ** Inventory *)

Record ObservedContainerInventory := {
  oi_containers : gmap rstr ObservedContainerStatus;
  oi_ambiguous_ids : gset rstr
}.

Definition observed_status_class (status : rstr) : ObservedContainerStatus :=
  let normalized := to_ascii_lowercase (trim status) in
  if (normalized == "paused") || (starts_with normalized "up " && contains normalized "(paused)")
  then OCS_Other
  else if (normalized == "running") || starts_with normalized "up " then OCS_Running
  else if (normalized == "exited") || (normalized == "dead") || starts_with normalized "exited "
  then OCS_Stopped
  else OCS_Other.

Section inventory.
Context `{Sha256}.

Definition observed_container_identity (raw_container_id : rstr) : rstr :=
  "docker_container_" +s+ sha256_hex raw_container_id.

Definition candidates (containers : list ContainerRecord) : gmap rstr (list ContainerRecord) :=
  foldl (λ m container, push_at m (observed_container_identity (c_id container)) container)
    ∅ containers.

Definition observed_container_inventory (snapshot : DockerSnapshot) : ObservedContainerInventory :=
  let candidates := candidates (s_containers snapshot) in
  {| oi_containers :=
       omap (λ records, match records with
                        | [record] => Some (observed_status_class (c_status record))
                        | _ => None
                        end) candidates;
     oi_ambiguous_ids := dom (filter (λ p, length p.2 ≠ 1) candidates) |}.
End inventory.

(** ** The cache *)

Record ObservedHistoryCache := {
  oc_boot : rstr;
  oc_next_sequence : N;
  oc_last_observed_at_ms : option N;
  oc_baseline : option ObservedContainerInventory;
  oc_events : list ObservedChangeEvent
}.

(** [opaque_revision_boot_component], on the 16 random bytes. *)
Definition opaque_revision_boot_component (bytes : list N) : rstr := hex_encode bytes.

Definition history_new (bytes : list N) : ObservedHistoryCache := {|
  oc_boot := opaque_revision_boot_component bytes;
  oc_next_sequence := 0;
  oc_last_observed_at_ms := None;
  oc_baseline := None;
  oc_events := []
|}.

(** The loop [while self.events.len() > MAX { self.events.pop_front(); }]. *)
Fixpoint pop_front_to (fuel max : nat) (events : list ObservedChangeEvent) : list ObservedChangeEvent :=
  match fuel with
  | 0 => events
  | S fuel => if (max <? length events)%nat then pop_front_to fuel max (tail events) else events
  end.

Definition history_push (h : ObservedHistoryCache) (kind : ObservedChangeKind) (observed_at_ms : N)
    (container_id : rstr) (previous_status current_status : option ObservedContainerStatus) :
    option ObservedHistoryCache :=
  next ← checked_add u64_max (oc_next_sequence h) 1;
  let event := {|
    oe_id := oc_boot h +s+ "-" +s+ dec_str next;
    oe_kind := kind;
    oe_observed_at_ms := observed_at_ms;
    oe_container_id := container_id;
    oe_previous_status := previous_status;
    oe_current_status := current_status |} in
  let events := oc_events h ++ [event] in
  Some {| oc_boot := oc_boot h;
          oc_next_sequence := next;
          oc_last_observed_at_ms := oc_last_observed_at_ms h;
          oc_baseline := oc_baseline h;
          oc_events := pop_front_to (length events) MAX_OBSERVED_CHANGE_EVENTS events |}.

(** Iterate a fallible state change over a list. *)
Fixpoint fold_opt {A S} (f : S → A → option S) (l : list A) (s : S) : option S :=
  match l with [] => Some s | x :: l => s ← f s x; fold_opt f l s end.

Section observe.
Context `{Sha256}.

(** The first loop of [observe_published_snapshot]: disappearances. *)
Definition push_disappeared (at_ms : N) (current : ObservedContainerInventory)
    (h : ObservedHistoryCache) (p : rstr * ObservedContainerStatus) : option ObservedHistoryCache :=
  let '(container_id, previous_status) := p in
  if is_some (oi_containers current !! container_id)
     || bool_decide (container_id ∈ oi_ambiguous_ids current)
  then Some h
  else history_push h ContainerDisappeared at_ms container_id (Some previous_status) None.

(** The second loop: appearances and status changes. *)
Definition push_current (at_ms : N) (previous : ObservedContainerInventory)
    (h : ObservedHistoryCache) (p : rstr * ObservedContainerStatus) : option ObservedHistoryCache :=
  let '(container_id, current_status) := p in
  match oi_containers previous !! container_id with
  | None =>
      if bool_decide (container_id ∉ oi_ambiguous_ids previous)
      then history_push h ContainerAppeared at_ms container_id None (Some current_status)
      else Some h
  | Some previous_status =>
      if previous_status != current_status
      then history_push h ContainerStatusChanged at_ms container_id
             (Some previous_status) (Some current_status)
      else Some h
  end.

Definition observe_published_snapshot (h : ObservedHistoryCache) (snapshot : DockerSnapshot)
    (bytes : list N) : option ObservedHistoryCache :=
  let current := observed_container_inventory snapshot in
  let at_ms := s_last_updated snapshot in
  if (MAX_SAFE_JS_INTEGER <? at_ms)%N
     || is_some_and (oc_last_observed_at_ms h) (λ previous, (at_ms <? previous)%N)
  then Some {| oc_boot := opaque_revision_boot_component bytes;
               oc_next_sequence := 0;
               oc_last_observed_at_ms := None;
               oc_baseline := Some current;
               oc_events := [] |}
  else
    let h1 := {| oc_boot := oc_boot h;
                 oc_next_sequence := oc_next_sequence h;
                 oc_last_observed_at_ms := Some at_ms;
                 oc_baseline := Some current;
                 oc_events := oc_events h |} in
    match oc_baseline h with
    | None => Some h1
    | Some previous =>
        h2 ← fold_opt (push_disappeared at_ms current) (btree_iter (oi_containers previous)) h1;
        fold_opt (push_current at_ms previous) (btree_iter (oi_containers current)) h2
    end.
End observe.

Definition history_response (h : ObservedHistoryCache) (source : RuntimeMode)
    (current_model_revision observed_revision : rstr) : ObservedChangeHistoryResponse :=
  if (source != Mode_Docker) || is_none (oc_baseline h) then
    {| oh_source := source; oh_baseline_established := false; oh_current_model_revision := None;
       oh_observed_revision := None; oh_events := [] |}
  else
    {| oh_source := source; oh_baseline_established := true;
       oh_current_model_revision := Some current_model_revision;
       oh_observed_revision := Some observed_revision;
       oh_events := reverse (oc_events h) |}.

(** ** Wire validation *)

Definition hex_bytes (s : rstr) : bool := forallb is_hex_lower (utf8_bytes s).

Definition is_observed_event_id (value : rstr) : bool :=
  match split_once 45 value with
  | None => false
  | Some (boot, sequence) =>
      (str_len boot =? 32)%nat && hex_bytes boot
      && (sequence != []) && negb (starts_with sequence "0")
      && forallb is_ascii_digit (utf8_bytes sequence)
      && is_some (parse_uint u64_max sequence)
  end.

Definition is_observed_container_id (value : rstr) : bool :=
  is_some_and (strip_prefix "docker_container_" value)
    (λ digest, (str_len digest =? 64)%nat && hex_bytes digest).

(** The errors of the two [TryFrom] implementations. *)
Inductive HistoryError :=
| Event_id_shape | Container_id_shape | Incoherent_transition
| Incoherent_source | Too_many_events | Event_id_invalid | Duplicate_event_id | Not_newest_first.

Definition coherent_transition (e : ObservedChangeEvent) : bool :=
  match oe_kind e with
  | ContainerAppeared => is_none (oe_previous_status e) && is_some (oe_current_status e)
  | ContainerDisappeared => is_some (oe_previous_status e) && is_none (oe_current_status e)
  | ContainerStatusChanged =>
      is_some (oe_previous_status e) && is_some (oe_current_status e)
      && (oe_previous_status e != oe_current_status e)
  end.

(** [ObservedChangeEvent::try_from]: [None] when the event is accepted unchanged. *)
Definition event_try_from (e : ObservedChangeEvent) : option HistoryError :=
  if negb (is_observed_event_id (oe_id e)) then Some Event_id_shape
  else if negb (is_observed_container_id (oe_container_id e)) then Some Container_id_shape
  else if negb (coherent_transition e) then Some Incoherent_transition
  else None.

Definition observed_event_id_parts (value : rstr) : option (rstr * N) :=
  if is_observed_event_id value then
    p ← split_once 45 value;
    n ← parse_uint u64_max p.2;
    Some (p.1, n)
  else None.

(** The loop over [wire.events], with its mutable [previous] and [ids]. *)
Fixpoint events_ordered (previous : option (N * rstr * N)) (ids : gset rstr)
    (events : list ObservedChangeEvent) : option HistoryError :=
  match events with
  | [] => None
  | event :: rest =>
      match observed_event_id_parts (oe_id event) with
      | None => Some Event_id_invalid
      | Some (boot, sequence) =>
          if bool_decide (oe_id event ∈ ids) then Some Duplicate_event_id
          else if is_some_and previous (λ '(previous_at, previous_boot, previous_sequence),
                    (previous_at <? oe_observed_at_ms event)%N
                    || (boot != previous_boot)
                    || (previous_sequence <=? sequence)%N)
          then Some Not_newest_first
          else events_ordered (Some (oe_observed_at_ms event, boot, sequence))
                 ({[oe_id event]} ∪ ids) rest
      end
  end.

(** A revision the wire form accepts: 1 to 64 bytes. *)
Definition wire_revision (r : rstr) : bool := (r != []) && (str_len r <=? 64)%nat.

(** [ObservedChangeHistoryResponse::try_from]. *)
Definition response_try_from (r : ObservedChangeHistoryResponse) : option HistoryError :=
  let revisions_present :=
    is_some_and (oh_current_model_revision r) wire_revision
    && is_some_and (oh_observed_revision r) wire_revision in
  let source_coherent :=
    match oh_source r with
    | Mode_Mock =>
        negb (oh_baseline_established r) && is_none (oh_current_model_revision r)
        && is_none (oh_observed_revision r) && (oh_events r == [])
    | Mode_Docker => oh_baseline_established r && revisions_present
    end in
  if negb source_coherent then Some Incoherent_source
  else if (64 <? length (oh_events r))%nat then Some Too_many_events
  else events_ordered None ∅ (oh_events r).

(** The wire form as a whole: every event, then the envelope. *)
Definition wire_valid (r : ObservedChangeHistoryResponse) : Prop :=
  Forall (λ e, event_try_from e = None) (oh_events r) ∧ response_try_from r = None.

(** ** Shapes of the published identifiers *)

Definition boot_ok (boot : rstr) : Prop := length boot = 32 ∧ Forall (λ c, is_hex_lower c = true) boot.

Definition event_id (boot : rstr) (sequence : N) : rstr := boot +s+ "-" +s+ dec_str sequence.

Lemma hex_lower_ascii s : Forall (λ c, is_hex_lower c = true) s → Forall (λ c, (c < 128)%N) s.
Proof.
  intros Hs. eapply Forall_impl; [exact Hs|]. intros c. unfold is_hex_lower, is_ascii_digit.
  rewrite orb_true_iff, !andb_true_iff, !N.leb_le. lia.
Qed.

Lemma digits_ascii s : Forall (λ c, is_ascii_digit c = true) s → Forall (λ c, (c < 128)%N) s.
Proof.
  intros Hs. eapply Forall_impl; [exact Hs|]. intros c. unfold is_ascii_digit.
  rewrite !andb_true_iff, !N.leb_le. lia.
Qed.

Lemma hex_bytes_lower s : Forall (λ c, is_hex_lower c = true) s → hex_bytes s = true.
Proof.
  intros Hs. unfold hex_bytes. rewrite ascii_utf8 by by apply hex_lower_ascii.
  apply forallb_forall. intros c Hc%list_elem_of_In. rewrite Forall_forall in Hs. auto.
Qed.

Lemma opaque_boot_ok bytes :
  length bytes = 16 → Forall (λ b, (b < 256)%N) bytes → boot_ok (opaque_revision_boot_component bytes).
Proof.
  intros Hl Hb. split; [|by apply hex_encode_lower].
  unfold opaque_revision_boot_component. rewrite length_hex_encode. lia.
Qed.

Lemma hex_lower_no_dash s : Forall (λ c, is_hex_lower c = true) s → 45%N ∉ s.
Proof. intros Hs Hin. rewrite Forall_forall in Hs. by apply Hs in Hin. Qed.

Lemma split_event_id boot s :
  boot_ok boot → split_once 45 (event_id boot s) = Some (boot, dec_str s).
Proof.
  intros [_ Hb]. apply split_once_Some. split; [done|by apply hex_lower_no_dash].
Qed.

Lemma event_id_inj boot s t : event_id boot s = event_id boot t → s = t.
Proof. unfold event_id, rapp. intros H%app_inv_head%app_inv_head. by apply dec_str_inj. Qed.

Lemma event_id_valid boot s :
  boot_ok boot → (0 < s)%N → (s <= u64_max)%N → is_observed_event_id (event_id boot s) = true.
Proof.
  intros Hb Hs Hmax. unfold is_observed_event_id. rewrite split_event_id by done.
  destruct Hb as [Hl Hb]. unfold str_len. rewrite ascii_utf8 by by apply hex_lower_ascii.
  rewrite Hl, hex_bytes_lower by done.
  rewrite ascii_utf8 by apply digits_ascii, dec_str_digits.
  rewrite parse_dec_str by assumption.
  assert (forallb is_ascii_digit (dec_str s) = true) as ->.
  { apply forallb_forall. intros c Hc%list_elem_of_In.
    pose proof (dec_str_digits s) as Hd. rewrite Forall_forall in Hd. auto. }
  destruct (dec_str_cons s) as (c & r & E & _). pose proof (dec_str_no_zero s c r Hs E) as Hc.
  rewrite E. rewrite bool_decide_eq_false_2 by done. simpl.
  destruct (starts_with (c :: r) "0") eqn:Ez; [|done].
  apply starts_with_spec in Ez as [q Hq]. by injection Hq as -> _.
Qed.

Lemma event_id_parts boot s :
  boot_ok boot → (0 < s)%N → (s <= u64_max)%N →
  observed_event_id_parts (event_id boot s) = Some (boot, s).
Proof.
  intros Hb Hs Hmax. unfold observed_event_id_parts.
  rewrite event_id_valid, split_event_id by assumption. simpl.
  by rewrite parse_dec_str by assumption.
Qed.

Lemma container_identity_valid `{Sha256} raw :
  is_observed_container_id (observed_container_identity raw) = true.
Proof.
  unfold is_observed_container_id, observed_container_identity.
  rewrite (proj2 (strip_prefix_Some _ _ _) eq_refl). simpl.
  pose proof (sha256_hex_lower raw) as Hl.
  unfold str_len. rewrite ascii_utf8 by by apply hex_lower_ascii.
  by rewrite length_sha256_hex, hex_bytes_lower.
Qed.

(** ** Inventories hold only opaque identities *)

Lemma elem_of_candidates `{Sha256} l id m :
  is_Some (foldl (λ m container, push_at m (observed_container_identity (c_id container)) container)
    m l !! id) → is_Some (m !! id) ∨ ∃ raw, id = observed_container_identity raw.
Proof.
  revert m. induction l as [|c l IH]; intros m; simpl; [by left|].
  intros [Hm|?]%IH; [|by right]. unfold push_at in Hm.
  destruct (decide (observed_container_identity (c_id c) = id)) as [<-|Hne]; [by eauto|].
  rewrite lookup_insert_ne in Hm by done. by left.
Qed.

Lemma inventory_ids `{Sha256} s id st :
  oi_containers (observed_container_inventory s) !! id = Some st → is_observed_container_id id = true.
Proof.
  simpl. rewrite lookup_omap_Some. intros (records & _ & Hr).
  destruct (elem_of_candidates (s_containers s) id ∅) as [[? Hx]|[raw ->]].
  - by exists records.
  - by rewrite lookup_empty in Hx.
  - apply container_identity_valid.
Qed.

Definition inventory_ok (i : ObservedContainerInventory) : Prop :=
  ∀ id st, oi_containers i !! id = Some st → is_observed_container_id id = true.

Lemma observed_inventory_ok `{Sha256} s : inventory_ok (observed_container_inventory s).
Proof. intros id st. apply inventory_ids. Qed.

(** ** The cache invariant *)

(** A newest-first list of well-formed events of one epoch, with sequence numbers and times
    bounded by [seq] and [at_ms]. *)
Fixpoint newest_ok (boot : rstr) (seq at_ms : N) (events : list ObservedChangeEvent) : Prop :=
  match events with
  | [] => True
  | e :: rest =>
      ∃ s, oe_id e = event_id boot s ∧ (0 < s)%N ∧ (s <= seq)%N ∧ (s <= u64_max)%N ∧
           (oe_observed_at_ms e <= at_ms)%N ∧
           is_observed_container_id (oe_container_id e) = true ∧ coherent_transition e = true ∧
           newest_ok boot (s - 1) (oe_observed_at_ms e) rest
  end.

Definition history_ok (h : ObservedHistoryCache) : Prop :=
  boot_ok (oc_boot h) ∧ length (oc_events h) ≤ MAX_OBSERVED_CHANGE_EVENTS ∧
  (∀ i, oc_baseline h = Some i → inventory_ok i) ∧
  match oc_last_observed_at_ms h with
  | None => oc_events h = []
  | Some at_ms => newest_ok (oc_boot h) (oc_next_sequence h) at_ms (reverse (oc_events h))
  end.

Lemma newest_ok_mono boot seq seq' at_ms at_ms' l :
  (seq <= seq')%N → (at_ms <= at_ms')%N → newest_ok boot seq at_ms l → newest_ok boot seq' at_ms' l.
Proof.
  destruct l as [|e l]; [done|]. simpl.
  intros ?? (s & ? & ? & ? & ? & ? & ? & ? & ?). exists s. split_and!; first [assumption|lia].
Qed.

Lemma newest_ok_take boot seq at_ms l k :
  newest_ok boot seq at_ms l → newest_ok boot seq at_ms (take k l).
Proof.
  revert seq at_ms k. induction l as [|e l IH]; intros seq at_ms [|k]; simpl; try done.
  intros (s & ? & ? & ? & ? & ? & ? & ? & ?). exists s. split_and!; auto.
Qed.

Lemma pop_front_to_drop fuel max events :
  length events ≤ fuel → pop_front_to fuel max events = drop (length events - max) events.
Proof.
  revert events. induction fuel as [|fuel IH]; intros events Hl; simpl.
  { destruct events; [done|simpl in Hl; lia]. }
  destruct (Nat.ltb_spec max (length events)).
  - destruct events as [|e events]; [simpl in *; lia|]. simpl tail. rewrite IH by (simpl in *; lia).
    simpl length in *. by replace (S (length events) - max) with (S (length events - max)) by lia.
  - by replace (length events - max) with 0 by lia.
Qed.

Lemma history_push_events h k at_ms id p c h' :
  history_push h k at_ms id p c = Some h' →
  oc_boot h' = oc_boot h ∧ oc_last_observed_at_ms h' = oc_last_observed_at_ms h ∧
  oc_baseline h' = oc_baseline h ∧ oc_next_sequence h' = (oc_next_sequence h + 1)%N ∧
  (oc_next_sequence h + 1 <= u64_max)%N ∧
  let e := {| oe_id := event_id (oc_boot h) (oc_next_sequence h + 1); oe_kind := k;
              oe_observed_at_ms := at_ms; oe_container_id := id;
              oe_previous_status := p; oe_current_status := c |} in
  oc_events h' = drop (length (oc_events h ++ [e]) - 64) (oc_events h ++ [e]).
Proof.
  unfold history_push, checked_add. destruct (N.leb_spec (oc_next_sequence h + 1) u64_max); [|done].
  cbn [mbind option_bind]. intros [= <-]. split_and!; try done. simpl oc_events.
  by rewrite pop_front_to_drop.
Qed.

Lemma history_push_ok h k at_ms id p c h' :
  history_ok h → oc_last_observed_at_ms h = Some at_ms → is_observed_container_id id = true →
  coherent_transition {| oe_id := []; oe_kind := k; oe_observed_at_ms := at_ms;
    oe_container_id := id; oe_previous_status := p; oe_current_status := c |} = true →
  history_push h k at_ms id p c = Some h' → history_ok h'.
Proof.
  intros (Hb & Hl & Hi & Hn) Hat Hid Hc Hp.
  apply history_push_events in Hp as (Eb & Ea & Ei & En & Hmax & Ee).
  split; [by rewrite Eb|]. split; [|split].
  - rewrite Ee, length_drop. unfold MAX_OBSERVED_CHANGE_EVENTS. lia.
  - by rewrite Ei.
  - rewrite Ea, Hat in *. rewrite Ee, Eb, En. rewrite reverse_drop. apply newest_ok_take.
    rewrite reverse_app. simpl. eexists. split; [done|]. split_and!; try done; try lia.
    eapply newest_ok_mono; [| |exact Hn]; lia.
Qed.

Lemma fold_opt_inv {A S} (f : S → A → option S) (P : S → Prop) l s s' :
  (∀ x s s', x ∈ l → P s → f s x = Some s' → P s') →
  P s → fold_opt f l s = Some s' → P s'.
Proof.
  revert s. induction l as [|x l IH]; intros s Hf Hs; simpl; [by intros [= <-]|].
  destruct (f s x) as [s1|] eqn:E; [|done]. simpl. apply IH.
  - intros y t t' Hy. apply Hf. by right.
  - eapply Hf; [by left|exact Hs|exact E].
Qed.

(** A fold whose steps use up a counter by at most one goes through while there is room. *)
Lemma fold_opt_total {A S} (f : S → A → option S) (m : S → N) (max : N) l s :
  (∀ s x, (m s < max)%N → ∃ s', f s x = Some s' ∧ (m s' <= m s + 1)%N) →
  (m s + N.of_nat (length l) <= max)%N →
  ∃ s', fold_opt f l s = Some s' ∧ (m s' <= m s + N.of_nat (length l))%N.
Proof.
  intros Hf. revert s. induction l as [|x l IH]; intros s Hm; simpl in *; [exists s; split; [done|lia]|].
  destruct (Hf s x) as (s1 & E & H1); [lia|]. rewrite E. cbn [mbind option_bind].
  destruct (IH s1) as (s2 & E2 & H2); [lia|]. exists s2. split; [done|lia].
Qed.


(** ** What one observation adds *)

Definition delta : Type :=
  ObservedChangeKind * rstr * option ObservedContainerStatus * option ObservedContainerStatus.

Definition event_delta (e : ObservedChangeEvent) : delta :=
  (oe_kind e, oe_container_id e, oe_previous_status e, oe_current_status e).

Definition lastn {A} (k : nat) (l : list A) : list A := drop (length l - k) l.

Lemma lastn_app {A} k (a b : list A) : lastn k (lastn k a ++ b) = lastn k (a ++ b).
Proof.
  unfold lastn. rewrite !length_app, length_drop.
  destruct (decide (length a ≤ k)) as [Hle|Hgt].
  - replace (length a - k) with 0 by lia. by rewrite drop_0, Nat.sub_0_r.
  - assert (drop (length a - k) (a ++ b) = drop (length a - k) a ++ b) as Hd
      by (apply drop_app_le; lia).
    rewrite <- Hd, drop_drop. f_equal. lia.
Qed.

(** [h'] is [h] after pushing the deltas [ds], all at the time [at_ms]. *)
Definition pushed (at_ms : N) (h : ObservedHistoryCache) (ds : list delta)
    (h' : ObservedHistoryCache) : Prop :=
  oc_boot h' = oc_boot h ∧ oc_last_observed_at_ms h' = oc_last_observed_at_ms h ∧
  oc_baseline h' = oc_baseline h ∧
  ∃ news, event_delta <$> news = ds ∧ Forall (λ e, oe_observed_at_ms e = at_ms) news ∧
          oc_events h' = lastn MAX_OBSERVED_CHANGE_EVENTS (oc_events h ++ news).

Lemma pushed_nil at_ms h :
  length (oc_events h) ≤ MAX_OBSERVED_CHANGE_EVENTS → pushed at_ms h [] h.
Proof.
  intros Hl. split_and!; try done. exists []. split_and!; [done|constructor|].
  unfold lastn. rewrite app_nil_r. by replace (length _ - _) with 0 by lia.
Qed.

Lemma pushed_trans at_ms h1 ds1 h2 ds2 h3 :
  pushed at_ms h1 ds1 h2 → pushed at_ms h2 ds2 h3 → pushed at_ms h1 (ds1 ++ ds2) h3.
Proof.
  intros (Eb & El & Ei & n1 & <- & Hn1 & E1) (Eb' & El' & Ei' & n2 & <- & Hn2 & E2).
  split_and!; [congruence..|]. exists (n1 ++ n2). split_and!.
  - apply fmap_app.
  - by apply Forall_app.
  - by rewrite E2, E1, lastn_app, app_assoc.
Qed.

Lemma history_push_pushed h k at_ms id p c h' :
  history_push h k at_ms id p c = Some h' → pushed at_ms h [(k, id, p, c)] h'.
Proof.
  intros (Eb & Ea & Ei & _ & _ & Ee)%history_push_events. split_and!; [done..|].
  match type of Ee with let e := ?x in _ => exists [x] end.
  split_and!; [done|by repeat constructor|exact Ee].
Qed.

Lemma fold_opt_pushed {A} (f : ObservedHistoryCache → A → option ObservedHistoryCache)
    (g : A → list delta) at_ms l h h' :
  (∀ x h h', x ∈ l → length (oc_events h) ≤ 64 → f h x = Some h' → pushed at_ms h (g x) h') →
  length (oc_events h) ≤ 64 → fold_opt f l h = Some h' → pushed at_ms h (l ≫= g) h'.
Proof.
  revert h. induction l as [|x l IH]; intros h Hf Hl; cbn [fold_opt].
  { intros [= <-]. by apply pushed_nil. }
  destruct (f h x) as [h1|] eqn:E; [|done]. cbn [mbind option_bind]. intros Hfold.
  assert (Hp : pushed at_ms h (g x) h1) by (eapply Hf; [by left|done|done]).
  assert (Hl1 : length (oc_events h1) ≤ 64).
  { destruct Hp as (_ & _ & _ & n & _ & _ & ->). unfold lastn, MAX_OBSERVED_CHANGE_EVENTS.
    rewrite length_drop. lia. }
  change ((x :: l) ≫= g) with (g x ++ (l ≫= g)).
  eapply pushed_trans; [exact Hp|]. apply IH; [|done|done].
  intros y t t' Hy. apply Hf. by right.
Qed.

(** The deltas between two inventories, in the order of the two loops. *)
Definition disappeared_delta (current : ObservedContainerInventory)
    (p : rstr * ObservedContainerStatus) : list delta :=
  if is_some (oi_containers current !! p.1) || bool_decide (p.1 ∈ oi_ambiguous_ids current)
  then [] else [(ContainerDisappeared, p.1, Some p.2, None)].

Definition current_delta (previous : ObservedContainerInventory)
    (p : rstr * ObservedContainerStatus) : list delta :=
  match oi_containers previous !! p.1 with
  | None => if bool_decide (p.1 ∉ oi_ambiguous_ids previous)
            then [(ContainerAppeared, p.1, None, Some p.2)] else []
  | Some previous_status =>
      if previous_status != p.2
      then [(ContainerStatusChanged, p.1, Some previous_status, Some p.2)] else []
  end.

Definition deltas (previous current : ObservedContainerInventory) : list delta :=
  (btree_iter (oi_containers previous) ≫= disappeared_delta current) ++
  (btree_iter (oi_containers current) ≫= current_delta previous).

Lemma push_disappeared_pushed `{Sha256} at_ms current p h h' :
  length (oc_events h) ≤ 64 → push_disappeared at_ms current h p = Some h' →
  pushed at_ms h (disappeared_delta current p) h'.
Proof.
  destruct p as [id st]. intros Hl. unfold push_disappeared, disappeared_delta. simpl.
  case_if E; [intros [= <-]; by apply pushed_nil|apply history_push_pushed].
Qed.

Lemma push_current_pushed `{Sha256} at_ms previous p h h' :
  length (oc_events h) ≤ 64 → push_current at_ms previous h p = Some h' →
  pushed at_ms h (current_delta previous p) h'.
Proof.
  destruct p as [id st]. intros Hl. unfold push_current, current_delta. simpl.
  destruct (oi_containers previous !! id) as [st'|]; case_if E;
    try apply history_push_pushed; intros [= <-]; by apply pushed_nil.
Qed.

Lemma btree_iter_keys_unique {V} (m : gmap rstr V) k v v' :
  (k, v) ∈ btree_iter m → (k, v') ∈ btree_iter m → v = v'.
Proof. rewrite !elem_of_btree_iter. congruence. Qed.

(** Membership in [deltas], kind by kind. *)
Lemma elem_of_deltas previous current d :
  d ∈ deltas previous current ↔
  match d with
  | (ContainerDisappeared, id, Some st, None) =>
      oi_containers previous !! id = Some st ∧ oi_containers current !! id = None ∧
      id ∉ oi_ambiguous_ids current
  | (ContainerAppeared, id, None, Some st) =>
      oi_containers previous !! id = None ∧ (id ∉ oi_ambiguous_ids previous) ∧
      oi_containers current !! id = Some st
  | (ContainerStatusChanged, id, Some st, Some st') =>
      oi_containers previous !! id = Some st ∧ oi_containers current !! id = Some st' ∧ st ≠ st'
  | _ => False
  end.
Proof.
  unfold deltas. rewrite elem_of_app, !list_elem_of_bind.
  unfold disappeared_delta, current_delta. split.
  - intros [([id st] & Hd & Hin)|([id st] & Hd & Hin)];
      apply elem_of_btree_iter in Hin; simpl in Hd.
    + destruct (oi_containers current !! id) eqn:Ec; simpl in Hd; [set_solver|].
      case_bool_decide; [set_solver|]. apply list_elem_of_singleton in Hd as ->. done.
    + destruct (oi_containers previous !! id) eqn:Ep.
      * case_bool_decide; simpl in Hd; [set_solver|].
        apply list_elem_of_singleton in Hd as ->. done.
      * case_bool_decide; simpl in Hd; [|set_solver].
        apply list_elem_of_singleton in Hd as ->. done.
  - destruct d as [[[[] id] [st|]] [st'|]]; try done.
    + intros (Hp & Ha & Hc). right. exists (id, st'). rewrite elem_of_btree_iter. simpl.
      rewrite Hp, bool_decide_eq_true_2 by done. set_solver.
    + intros (Hp & Hc & Ha). left. exists (id, st). rewrite elem_of_btree_iter. simpl.
      rewrite Hc, bool_decide_eq_false_2 by done. set_solver.
    + intros (Hp & Hc & Hne). right. exists (id, st'). rewrite elem_of_btree_iter. simpl.
      rewrite Hp, bool_decide_eq_false_2 by done. set_solver.
Qed.

Definition delta_id (d : delta) : rstr := d.1.1.2.

Lemma bind_deltas_NoDup {V} (g : rstr * V → list delta) (l : list (rstr * V)) :
  (∀ p, length (g p) ≤ 1 ∧ ∀ d, d ∈ g p → delta_id d = p.1) →
  NoDup l.*1 → NoDup (delta_id <$> (l ≫= g)).
Proof.
  intros Hg. induction l as [|p l IH]; [constructor|].
  change ((p :: l) ≫= g) with (g p ++ (l ≫= g)). rewrite fmap_cons, fmap_app.
  intros [Hp Hl]%NoDup_cons. apply NoDup_app. destruct (Hg p) as [Hlen Hid]. split_and!.
  - destruct (g p) as [|d [|d' ds]]; [constructor|apply NoDup_singleton|simpl in Hlen; lia].
  - intros id (d & -> & Hd)%list_elem_of_fmap (d' & E & Hd')%list_elem_of_fmap.
    apply list_elem_of_bind in Hd' as (q & Hd' & Hq). apply Hg in Hd'. apply Hid in Hd.
    apply Hp. rewrite <- Hd, E, Hd'. by apply list_elem_of_fmap_2.
  - by apply IH.
Qed.

Lemma deltas_NoDup previous current : NoDup (delta_id <$> deltas previous current).
Proof.
  unfold deltas. rewrite fmap_app. apply NoDup_app. split_and!.
  - apply bind_deltas_NoDup; [|apply btree_keys_NoDup]. intros p. unfold disappeared_delta.
    case_if E; split; [simpl; lia|set_solver|simpl; lia|].
    by intros d ->%list_elem_of_singleton.
  - intros id (d & -> & Hd)%list_elem_of_fmap (d' & E & Hd')%list_elem_of_fmap.
    apply list_elem_of_bind in Hd as (p & Hd & _). apply list_elem_of_bind in Hd' as (q & Hd' & Hq).
    unfold disappeared_delta in Hd. revert Hd. case_if E1; [set_solver|].
    intros ->%list_elem_of_singleton. apply orb_false_elim in E1 as [E1 _].
    destruct q as [k st]. apply elem_of_btree_iter in Hq.
    assert (delta_id d' = k) as Hk.
    { revert Hd'. unfold current_delta. simpl. destruct (oi_containers previous !! k); case_if E2;
        try set_solver; by intros ->%list_elem_of_singleton. }
    unfold delta_id in E at 1. simpl in E. rewrite E, Hk, Hq in E1. done.
  - apply bind_deltas_NoDup; [|apply btree_keys_NoDup]. intros p. unfold current_delta.
    destruct (oi_containers previous !! p.1); case_if E; (split; [simpl; lia|]);
      try set_solver; by intros d ->%list_elem_of_singleton.
Qed.

Section observations.
Context `{Sha256}.

(** A snapshot time that can be ordered after the previous one. *)
Definition clock_ok (h : ObservedHistoryCache) (snapshot : DockerSnapshot) : bool :=
  (s_last_updated snapshot <=? MAX_SAFE_JS_INTEGER)%N
  && match oc_last_observed_at_ms h with
     | None => true
     | Some previous => (previous <=? s_last_updated snapshot)%N
     end.

Lemma observe_clock h snapshot bytes :
  clock_ok h snapshot = true →
  observe_published_snapshot h snapshot bytes =
  let current := observed_container_inventory snapshot in
  let h1 := {| oc_boot := oc_boot h; oc_next_sequence := oc_next_sequence h;
               oc_last_observed_at_ms := Some (s_last_updated snapshot);
               oc_baseline := Some current; oc_events := oc_events h |} in
  match oc_baseline h with
  | None => Some h1
  | Some previous =>
      h2 ← fold_opt (push_disappeared (s_last_updated snapshot) current)
             (btree_iter (oi_containers previous)) h1;
      fold_opt (push_current (s_last_updated snapshot) previous)
        (btree_iter (oi_containers current)) h2
  end.
Proof.
  unfold clock_ok, observe_published_snapshot. rewrite andb_true_iff, N.leb_le. intros [Hm Hl].
  rewrite (proj2 (N.ltb_ge _ _)) by done. simpl orb.
  destruct (oc_last_observed_at_ms h) as [t|]; simpl; [|done].
  apply N.leb_le in Hl. by rewrite (proj2 (N.ltb_ge _ _)).
Qed.

Lemma observe_reset h snapshot bytes :
  clock_ok h snapshot = false →
  observe_published_snapshot h snapshot bytes =
  Some {| oc_boot := opaque_revision_boot_component bytes; oc_next_sequence := 0;
          oc_last_observed_at_ms := None;
          oc_baseline := Some (observed_container_inventory snapshot); oc_events := [] |}.
Proof.
  unfold clock_ok, observe_published_snapshot. rewrite andb_false_iff, N.leb_gt.
  destruct (N.ltb_spec MAX_SAFE_JS_INTEGER (s_last_updated snapshot)); [done|].
  intros [?|Hl]; [lia|]. simpl orb. destruct (oc_last_observed_at_ms h) as [t|]; [|done].
  apply N.leb_gt in Hl. simpl. by rewrite (proj2 (N.ltb_lt _ _)).
Qed.

Lemma observe_ok h snapshot bytes h' :
  history_ok h → boot_ok (opaque_revision_boot_component bytes) →
  observe_published_snapshot h snapshot bytes = Some h' →
  history_ok h' ∧ oc_baseline h' = Some (observed_container_inventory snapshot).
Proof.
  intros Hh Hb. destruct (clock_ok h snapshot) eqn:Ec; cycle 1.
  { rewrite observe_reset by done. intros [= <-]. split; [|done].
    split_and!; [exact Hb|simpl; lia| |done].
    intros i [= <-]. apply observed_inventory_ok. }
  rewrite observe_clock by done. cbv zeta.
  set (h1 := {| oc_boot := _ |}). destruct Hh as (Hb0 & Hl & Hi & Hn).
  assert (Hh1 : history_ok h1).
  { split; [done|]. split; [done|]. split; [intros i [= <-]; apply observed_inventory_ok|]. simpl.
    unfold clock_ok in Ec. apply andb_prop in Ec as [_ Ec].
    destruct (oc_last_observed_at_ms h) as [t|]; [|by rewrite Hn].
    apply N.leb_le in Ec. eapply newest_ok_mono; [| |exact Hn]; lia. }
  set (P := λ h0, history_ok h0 ∧ oc_last_observed_at_ms h0 = Some (s_last_updated snapshot) ∧
                  oc_baseline h0 = Some (observed_container_inventory snapshot)).
  assert (HP : P h1) by done. clearbody h1.
  destruct (oc_baseline h) as [previous|] eqn:Eprev; [|intros [= <-]; split; apply HP].
  assert (Hstep : ∀ k id p c s s', is_observed_container_id id = true →
    coherent_transition {| oe_id := []; oe_kind := k; oe_observed_at_ms := s_last_updated snapshot;
      oe_container_id := id; oe_previous_status := p; oe_current_status := c |} = true →
    P s → history_push s k (s_last_updated snapshot) id p c = Some s' → P s').
  { intros k id p c s s' Hid Hc (Hs1 & Hs2 & Hs3) Hp.
    pose proof (history_push_ok _ _ _ _ _ _ _ Hs1 Hs2 Hid Hc Hp).
    apply history_push_events in Hp as (_ & El & Ei & _). split; [done|]. by rewrite El, Ei. }
  destruct (fold_opt (push_disappeared _ _) _ h1) as [h2|] eqn:E1; [|done].
  cbn [mbind option_bind]. intros E2.
  enough (P h') as HP' by (split; apply HP').
  assert (HP2 : P h2).
  { refine (fold_opt_inv _ P _ _ _ _ HP E1). intros [id st] s s' Hin Hs. unfold push_disappeared.
    case_if E; [by intros [= <-]|]. apply elem_of_btree_iter in Hin.
    apply Hstep; [by eapply Hi|done|done]. }
  refine (fold_opt_inv _ P _ _ _ _ HP2 E2). intros [id st] s s' Hin Hs. unfold push_current.
  apply elem_of_btree_iter in Hin.
  destruct (oi_containers previous !! id) as [st'|]; case_if E; try (by intros [= <-]).
  - apply Hstep; [by eapply inventory_ids|simpl|done].
    apply negb_true_iff, bool_decide_eq_false in E. apply negb_true_iff, bool_decide_eq_false. by intros [= ?].
  - apply Hstep; [by eapply inventory_ids|done|done].
Qed.

(** ** The response of a valid cache *)

Lemma newest_ok_events boot seq at_ms l :
  boot_ok boot → newest_ok boot seq at_ms l → Forall (λ e, event_try_from e = None) l.
Proof.
  intros Hb. revert seq at_ms. induction l as [|e l IH]; intros seq at_ms; [by constructor|].
  intros (s & Hid & H0 & _ & Hm & _ & Hc & Ht & Hr). constructor; [|by eapply IH].
  unfold event_try_from. rewrite Hid, event_id_valid by assumption. by rewrite Hc, Ht.
Qed.

Lemma newest_ok_ordered boot seq at_ms l previous ids :
  boot_ok boot → newest_ok boot seq at_ms l →
  (∀ at0 b0 s0, previous = Some (at0, b0, s0) → b0 = boot ∧ (seq < s0)%N ∧ (at_ms <= at0)%N) →
  (∀ id, id ∈ ids → ∃ s, id = event_id boot s ∧ (seq < s)%N) →
  events_ordered previous ids l = None.
Proof.
  intros Hb. revert seq at_ms previous ids.
  induction l as [|e l IH]; intros seq at_ms previous ids Hn Hp Hids; [done|].
  destruct Hn as (s & Hid & H0 & Hs & Hm & Hat & _ & _ & Hr). simpl.
  rewrite Hid, event_id_parts by assumption.
  rewrite bool_decide_eq_false_2; cycle 1.
  { intros (s' & E & ?)%Hids. apply event_id_inj in E. lia. }
  assert (is_some_and previous (λ '(pat, pb, ps), (pat <? oe_observed_at_ms e)%N
    || (boot != pb) || (ps <=? s)%N) = false) as ->.
  { destruct previous as [[[pat pb] ps]|]; [|done]. simpl.
    destruct (Hp _ _ _ eq_refl) as (-> & ? & ?).
    rewrite (proj2 (N.ltb_ge _ _)), (proj2 (N.leb_gt _ _)) by lia.
    by rewrite bool_decide_eq_true_2. }
  eapply IH; [exact Hr| |].
  - intros at0 b0 s0 [= <- <- <-]. split_and!; [done|lia|lia].
  - intros id [->%elem_of_singleton|Hin]%elem_of_union; [exists s; split; [done|lia]|].
    apply Hids in Hin as (s' & -> & ?). exists s'. split; [done|lia].
Qed.

Lemma response_wire_valid h source model observed :
  history_ok h → wire_revision model = true → wire_revision observed = true →
  (source = Mode_Docker → is_some (oc_baseline h) = true) →
  wire_valid (history_response h source model observed).
Proof.
  intros (Hb & Hl & _ & Hn) Hm Ho Hsrc. unfold history_response, wire_valid.
  destruct source; simpl; [|by split; [constructor|]].
  unfold is_none. rewrite Hsrc by done. simpl. unfold response_try_from. simpl. rewrite Hm, Ho. simpl.
  rewrite length_reverse. unfold MAX_OBSERVED_CHANGE_EVENTS in Hl.
  destruct (Nat.ltb_spec 64 (length (oc_events h))); [lia|].
  destruct (oc_last_observed_at_ms h) as [t|]; [|rewrite Hn; by split; [constructor|]].
  split; [by eapply newest_ok_events|]. eapply newest_ok_ordered; [done|exact Hn|done|set_solver].
Qed.

(** A daemon lifetime: successive observations, each with the CSPRNG output it may use. *)
Fixpoint observe_all (h : ObservedHistoryCache) (l : list (DockerSnapshot * list N)) :
    option ObservedHistoryCache :=
  match l with
  | [] => Some h
  | (snapshot, bytes) :: l => h ← observe_published_snapshot h snapshot bytes; observe_all h l
  end.

Lemma observe_all_ok l h h' :
  Forall (λ p, boot_ok (opaque_revision_boot_component p.2)) l →
  history_ok h → observe_all h l = Some h' →
  history_ok h' ∧ (l ≠ [] ∨ is_some (oc_baseline h) = true → is_some (oc_baseline h') = true).
Proof.
  intros Hl. revert h. induction Hl as [|[s bytes] l Hb Hl IH]; intros h Hh; cbn [observe_all].
  { intros [= <-]. split; [done|]. by intros [?|?]. }
  destruct (observe_published_snapshot h s bytes) as [h1|] eqn:E; [|done].
  cbn [mbind option_bind]. intros Hr.
  apply observe_ok in E as [Hh1 E]; [|done..]. destruct (IH h1 Hh1 Hr) as [Hh' Hbase].
  split; [done|]. intros _. apply Hbase. right. by rewrite E.
Qed.

Lemma history_new_ok bytes :
  boot_ok (opaque_revision_boot_component bytes) → history_ok (history_new bytes).
Proof. intros Hb. split_and!; [exact Hb|simpl; lia|done|done]. Qed.

(** *** The event counter is the only limit *)

Lemma history_push_total h kind at_ms id previous current :
  (oc_next_sequence h < u64_max)%N →
  ∃ h', history_push h kind at_ms id previous current = Some h' ∧ (oc_next_sequence h' <= oc_next_sequence h + 1)%N.
Proof.
  intros Hn. unfold history_push, checked_add. destruct (N.leb_spec (oc_next_sequence h + 1) u64_max); [|lia].
  cbn [mbind option_bind]. eexists. split; [done|]. simpl. lia.
Qed.

(** The room an observation may need: an event per container of both inventories. *)
Definition history_room (h : ObservedHistoryCache) (snapshot : DockerSnapshot) : Prop :=
  ∀ previous, oc_baseline h = Some previous →
    (oc_next_sequence h + N.of_nat (size (oi_containers previous))
     + N.of_nat (size (oi_containers (observed_container_inventory snapshot))) <= u64_max)%N.

Lemma btree_iter_length {V} (m : gmap rstr V) : length (btree_iter m) = size m.
Proof. unfold btree_iter. rewrite length_sort_by. apply length_map_to_list. Qed.

Lemma observe_total h snapshot bytes :
  history_room h snapshot → ∃ h', observe_published_snapshot h snapshot bytes = Some h'.
Proof.
  intros Hroom. unfold observe_published_snapshot. case_match; [eauto|].
  destruct (oc_baseline h) as [previous|] eqn:Eb; [|eauto]. specialize (Hroom previous Eb).
  set (h1 := {| oc_boot := _ |}).
  destruct (fold_opt_total (push_disappeared (s_last_updated snapshot) (observed_container_inventory snapshot))
    oc_next_sequence u64_max (btree_iter (oi_containers previous)) h1) as (h2 & -> & H2).
  - intros h0 [id st] Hn. unfold push_disappeared. case_match; [exists h0; split; [done|lia]|by apply history_push_total].
  - rewrite btree_iter_length. simpl. lia.
  - cbn [mbind option_bind]. rewrite btree_iter_length in H2. simpl in H2.
    destruct (fold_opt_total (push_current (s_last_updated snapshot) previous)
      oc_next_sequence u64_max (btree_iter (oi_containers (observed_container_inventory snapshot))) h2) as (h3 & -> & _); [| |eauto].
    + intros h0 [id st] Hn. unfold push_current. repeat case_match;
        try (exists h0; split; [done|lia]); by apply history_push_total.
    + rewrite btree_iter_length. lia.
Qed.

(** C13: Whatever Docker reports over a daemon's lifetime (any inventories, any clock, any
    status text), the observed-history response passes the validation its own consumers
    apply to the wire form: at most 64 events with opaque well-formed ids, coherent status
    transitions, unique ids, newest first from a single epoch; the response of the mock
    source carries nothing. *)
Theorem history_wire_valid bytes l h model observed :
  length bytes = 16 → Forall (λ b, (b < 256)%N) bytes →
  Forall (λ p, length p.2 = 16 ∧ Forall (λ b, (b < 256)%N) p.2) l → l ≠ [] →
  observe_all (history_new bytes) l = Some h →
  wire_revision model = true → wire_revision observed = true →
  wire_valid (history_response h Mode_Docker model observed) ∧
  wire_valid (history_response h Mode_Mock model observed) ∧
  oh_events (history_response h Mode_Docker model observed) = reverse (oc_events h).
Proof.
  intros Hlen Hbytes Hl Hne Hall Hm Ho.
  apply observe_all_ok in Hall as [Hh Hbase].
  - specialize (Hbase (or_introl Hne)). split_and!; [by apply response_wire_valid..|].
    unfold history_response, is_none. by rewrite Hbase.
  - eapply Forall_impl; [exact Hl|]. intros p [??]. by apply opaque_boot_ok.
  - by apply history_new_ok, opaque_boot_ok.
Qed.

(** C14: An observation with an orderly clock appends one event per difference between the
    previous and the current inventory and no other (at most one per container, none for an
    id that is ambiguous on the side where it is missing), then keeps the newest 64; a
    clock that regresses or leaves the JavaScript-safe range starts a fresh epoch. *)
Theorem observe_deltas h snapshot bytes previous h' :
  oc_baseline h = Some previous →
  length (oc_events h) ≤ MAX_OBSERVED_CHANGE_EVENTS →
  observe_published_snapshot h snapshot bytes = Some h' →
  let current := observed_container_inventory snapshot in
  if clock_ok h snapshot then
    ∃ news, oc_events h' = lastn MAX_OBSERVED_CHANGE_EVENTS (oc_events h ++ news) ∧
      oc_boot h' = oc_boot h ∧ oc_baseline h' = Some current ∧
      Forall (λ e, oe_observed_at_ms e = s_last_updated snapshot) news ∧
      NoDup (oe_container_id <$> news) ∧
      (∀ id st st', (ContainerStatusChanged, id, Some st, Some st') ∈ event_delta <$> news ↔
         oi_containers previous !! id = Some st ∧ oi_containers current !! id = Some st' ∧ st ≠ st') ∧
      (∀ id st, (ContainerAppeared, id, None, Some st) ∈ event_delta <$> news ↔
         oi_containers previous !! id = None ∧ (id ∉ oi_ambiguous_ids previous) ∧
         oi_containers current !! id = Some st) ∧
      (∀ id st, (ContainerDisappeared, id, Some st, None) ∈ event_delta <$> news ↔
         oi_containers previous !! id = Some st ∧ oi_containers current !! id = None ∧
         (id ∉ oi_ambiguous_ids current))
  else
    h' = {| oc_boot := opaque_revision_boot_component bytes; oc_next_sequence := 0;
            oc_last_observed_at_ms := None; oc_baseline := Some current; oc_events := [] |}.
Proof.
  intros Hprev Hlen Hobs current. destruct (clock_ok h snapshot) eqn:Ec; cycle 1.
  { rewrite observe_reset in Hobs by done. by injection Hobs as <-. }
  rewrite observe_clock, Hprev in Hobs by done. cbv zeta in Hobs. fold current in Hobs.
  destruct (fold_opt (push_disappeared _ _) _ _) as [h2|] eqn:E1; [|done].
  cbn [mbind option_bind] in Hobs.
  apply (fold_opt_pushed _ (disappeared_delta current) (s_last_updated snapshot)) in E1;
    [|intros ????; by apply push_disappeared_pushed|done].
  assert (Hl2 : length (oc_events h2) ≤ 64).
  { destruct E1 as (_ & _ & _ & n & _ & _ & ->). unfold lastn, MAX_OBSERVED_CHANGE_EVENTS.
    rewrite length_drop. lia. }
  apply (fold_opt_pushed _ (current_delta previous) (s_last_updated snapshot)) in Hobs;
    [|intros ????; by apply push_current_pushed|done].
  destruct (pushed_trans _ _ _ _ _ _ E1 Hobs) as (Eb & _ & Ei & news & Ed & Hat & Ee).
  fold (deltas previous current) in Ed. simpl in Eb, Ei, Ee.
  exists news. split_and!; try done.
  - pose proof (deltas_NoDup previous current) as Hnd. rewrite <- Ed, <- list_fmap_compose in Hnd.
    exact Hnd.
  - intros. rewrite Ed. apply elem_of_deltas.
  - intros. rewrite Ed. apply elem_of_deltas.
  - intros. rewrite Ed. apply elem_of_deltas.
Qed.
End observations.

(** ** A concrete lifetime *)

Definition sample_container (id status : rstr) : ContainerRecord := {|
  c_id := id; c_name := id; c_image := "nginx"; c_status := status; c_role := "service";
  c_networks := []; c_ports := []; c_publishes_on_unspecified_address := false; c_mounts := [];
  c_depends_on := [] |}.

Definition sample_snapshot (at_ms : N) (containers : list ContainerRecord) : DockerSnapshot := {|
  s_containers := containers; s_images := []; s_networks := []; s_volumes := [];
  s_last_updated := at_ms; s_model_revision := "r"; s_source := None |}.

Definition sample_bytes : list N := replicate 16 7%N.

Definition sample_lifetime : list (DockerSnapshot * list N) :=
  [(sample_snapshot 10 [sample_container "a" "Up 2 hours"], sample_bytes);
   (sample_snapshot 12 [sample_container "a" "Exited (0)"; sample_container "b" "Up 1 second"],
    sample_bytes)].

Lemma history_wire_valid_witness :
  ∃ h, @observe_all Toy_sha256 (history_new sample_bytes) sample_lifetime = Some h ∧
    length (oc_events h) = 2 ∧
    wire_valid (history_response h Mode_Docker "m-1" "d-1").
Proof.
  assert (Hsome : is_some (@observe_all Toy_sha256 (history_new sample_bytes) sample_lifetime) = true)
    by (vm_compute; reflexivity).
  destruct (@observe_all Toy_sha256 (history_new sample_bytes) sample_lifetime) as [h|] eqn:E;
    [|discriminate Hsome].
  exists h. split; [reflexivity|]. split.
  - assert (Hl : (λ o, length (oc_events o)) <$>
      @observe_all Toy_sha256 (history_new sample_bytes) sample_lifetime = Some 2)
      by (vm_compute; reflexivity).
    rewrite E in Hl. by injection Hl.
  - apply (@history_wire_valid Toy_sha256 sample_bytes sample_lifetime h "m-1" "d-1");
      [reflexivity|by repeat constructor|by repeat constructor|done|exact E|reflexivity|reflexivity].
Defined.

Definition sample_first : ObservedHistoryCache :=
  default (history_new sample_bytes)
    (@observe_published_snapshot Toy_sha256 (history_new sample_bytes)
       (sample_snapshot 10 [sample_container "a" "Up 2 hours"]) sample_bytes).

Definition sample_second : ObservedHistoryCache :=
  default sample_first
    (@observe_published_snapshot Toy_sha256 sample_first (sample_snapshot 12 []) sample_bytes).

(** The container of the first observation is gone in the second. *)
Lemma observe_deltas_witness :
  clock_ok sample_first (sample_snapshot 12 []) = true ∧
  ∃ news, oc_events sample_second = lastn 64 (oc_events sample_first ++ news) ∧ length news = 1.
Proof.
  assert (E : @observe_published_snapshot Toy_sha256 sample_first (sample_snapshot 12 []) sample_bytes
              = Some sample_second) by (vm_compute; reflexivity).
  pose proof (@observe_deltas Toy_sha256 sample_first (sample_snapshot 12 []) sample_bytes
    (@observed_container_inventory Toy_sha256 (sample_snapshot 10 [sample_container "a" "Up 2 hours"]))
    sample_second eq_refl ltac:(vm_compute; lia) E) as H.
  assert (Hc : clock_ok sample_first (sample_snapshot 12 []) = true) by (vm_compute; reflexivity).
  split; [exact Hc|]. cbv zeta in H. rewrite Hc in H. destruct H as (news & He & _).
  exists news. split; [exact He|].
  apply (f_equal length) in He. unfold lastn in He. rewrite length_drop, length_app in He.
  assert (H1 : length (oc_events sample_first) = 0) by (vm_compute; reflexivity).
  assert (H2 : length (oc_events sample_second) = 1) by (vm_compute; reflexivity).
  rewrite H1, H2 in He. unfold MAX_OBSERVED_CHANGE_EVENTS in He. lia.
Defined.
