(* ===== verification/Evidence.v ===== *)
(** * Evidence references and the edges they attest

    [RuntimeEvidenceRef::has_valid_versioned_shape], [RuntimeMapEdge::has_valid_evidence_refs],
    [FindingRule::category] and [FindingSummary::from_findings] of
    [crates/dockermap-core/src/models.rs]. A tuple pattern of a [matches!] or [match] is one
    row [ev_row]. *)

From S2P Require Import Prelude RustStr RustNum Models.

Definition all_freshness : list RuntimeEvidenceFreshness := [EF_Fresh; EF_Stale; EF_TimedOut].

(** One alternative of the tuple patterns over
    [(version, provider, kind, assertion_kind, freshness, provider_slot)]. *)
Definition ev_row (ev : RuntimeEvidenceRef) (version : N) (provider : RuntimeEvidenceProvider)
    (kinds : list RuntimeEvidenceKind) (assertion : RuntimeEvidenceAssertionKind)
    (freshness : list RuntimeEvidenceFreshness) (slot : option ProviderSlot) : bool :=
  (ev_version ev =? version)%N && (ev_provider ev == provider) && one_of (ev_kind ev) kinds
  && (ev_assertion_kind ev == assertion) && one_of (ev_freshness ev) freshness
  && (ev_provider_slot ev == slot).

Definition has_valid_versioned_shape (ev : RuntimeEvidenceRef) : bool :=
  ev_row ev 1 EP_Docker
    [DockerNetworkMembership; DockerVolumeMount; DockerPortPublication;
     DockerUnspecifiedAddressPortPublication; DockerComposeDependsOn; DockerDaemonStateBindMount]
    Observed [EF_Fresh] None
  || ev_row ev 2 EP_Systemd [SystemdRequires; SystemdWants; SystemdPartOf] Declared all_freshness
       (Some Slot_Systemd)
  || ev_row ev 3 EP_Npm [NpmPackageManifestDependency] Declared all_freshness (Some ProjectNpm)
  || ev_row ev 4 EP_Cron [CronScheduleDeclaration] Declared all_freshness (Some Slot_Cron)
  || ev_row ev 5 EP_Tmux [TmuxSessionListing] Observed all_freshness (Some Slot_Tmux)
  || ev_row ev 6 EP_Compose [ComposeDeclaredMount] Declared [EF_Fresh] None
  || ev_row ev 6 EP_Docker [DockerComposeRuntimeBinding] Observed [EF_Fresh] None
  || ev_row ev 7 EP_Dockermap [RuntimeIdentityCollision] Observed [EF_Fresh] None.

(** The text, shape and subject checks that precede the [match]. *)
Definition MAX_EVIDENCE_TEXT_CHARS : nat := 259.

Definition evidence_text_ok (text : rstr) : bool :=
  (text != []) && (char_count text <=? MAX_EVIDENCE_TEXT_CHARS)%nat.

(** The arms of the [match] in [evidence_ref_matches_edge], in order, over the tests of
    the edge that they use. *)
Definition evidence_arms (rel : RuntimeRelationshipKind → bool)
    (src src_is tgt tgt_is : rstr → bool) (distinct : bool) (ev : RuntimeEvidenceRef) : bool :=
  let docker kind := ev_row ev 1 EP_Docker [kind] Observed [EF_Fresh] None in
  let systemd kind := ev_row ev 2 EP_Systemd [kind] Declared all_freshness (Some Slot_Systemd) in
  if docker DockerNetworkMembership then
    rel RR_ConnectedTo && src "docker_container_" && tgt "docker_network_"
  else if docker DockerDaemonStateBindMount then
    rel RR_ExposesDaemonState && src "docker_container_"
    && tgt_is "host_risk_docker_daemon_state"
  else if docker DockerVolumeMount then
    rel RR_Mounts && src "docker_container_" && tgt "docker_volume_"
  else if docker DockerPortPublication then
    rel RR_Exposes && src "docker_container_" && tgt "network_listener_"
  else if docker DockerUnspecifiedAddressPortPublication then
    rel RR_Exposes && src "docker_container_"
    && tgt_is "host_risk_docker_unspecified_address_port"
  else if docker DockerComposeDependsOn then
    rel RR_DependsOn && src "docker_container_" && tgt "docker_container_" && distinct
  else if ev_row ev 7 EP_Dockermap [RuntimeIdentityCollision] Observed [EF_Fresh] None then
    rel RR_RelatedTo && src_is "runtime_integrity_scope"
    && tgt_is "runtime_integrity_risk_identity_collision"
  else if systemd SystemdRequires then
    rel RR_Requires && src "systemd_service_" && tgt "systemd_service_" && distinct
  else if ev_row ev 3 EP_Npm [NpmPackageManifestDependency] Declared all_freshness (Some ProjectNpm)
  then rel RR_DependsOn && src "npm_project_" && tgt "npm_package_" && distinct
  else if ev_row ev 4 EP_Cron [CronScheduleDeclaration] Declared all_freshness (Some Slot_Cron)
  then rel RR_RunsOn && src "scheduled_job_" && tgt_is "host_local" && distinct
  else if ev_row ev 5 EP_Tmux [TmuxSessionListing] Observed all_freshness (Some Slot_Tmux)
          || ev_row ev 6 EP_Compose [ComposeDeclaredMount] Declared [EF_Fresh] None
          || ev_row ev 6 EP_Docker [DockerComposeRuntimeBinding] Observed [EF_Fresh] None
  then rel RR_RunsOn && src "tmux_session_" && tgt_is "host_local" && distinct
  else if systemd SystemdWants then
    rel RR_Wants && src "systemd_service_" && tgt "systemd_service_" && distinct
  else if systemd SystemdPartOf then
    rel RR_PartOf && src "systemd_service_" && tgt "systemd_service_" && distinct
  else false.

Definition evidence_arm (e : RuntimeMapEdge) : RuntimeEvidenceRef → bool :=
  evidence_arms (λ r, re_relationship e == r)
    (λ p, starts_with (re_source e) p) (λ id, re_source e == id)
    (λ p, starts_with (re_target e) p) (λ id, re_target e == id)
    (re_source e != re_target e).

Definition evidence_ref_matches_edge (e : RuntimeMapEdge) (ev : RuntimeEvidenceRef) : bool :=
  if negb (evidence_text_ok (ev_id ev)) || negb (evidence_text_ok (ev_summary ev))
     || negb (evidence_text_ok (ev_provider_revision ev))
     || (ev_subject_ref ev != re_source e)
  then false
  else if negb (has_valid_versioned_shape ev) then false
  else evidence_arm e ev.

Definition has_valid_evidence_refs (e : RuntimeMapEdge) : bool :=
  forallb (evidence_ref_matches_edge e) (re_evidence_refs e).

(** ** Findings *)

(** [FindingRule::category]. *)
Definition category (rule : FindingRule) : FindingCategory :=
  match rule with
  | SystemdRequiresTargetNotActive | SystemdPartOfTargetNotActive
  | DockerComposeDeclaredTargetNotActive | DockerComposeMutualDependency => DeclaredDependency
  | Rule_DockerDaemonStateBindMount => DockerDaemonAuthority
  | DockerInternalNetworkMemberPublishesPort | DockerDaemonStateBindMountPublishesPort
  | DockerPortPublishedOnUnspecifiedAddress => HostPortPublication
  | ComposeDeclaredMountMissingAtBoundContainer => DeclaredDependency
  | RuntimeIdentityCollisionDetected | RuntimeDeclaredRelationshipEvidenceNotCurrent =>
      EvidenceIntegrity
  end.

Definition summary_default : FindingSummary := {|
  warning_count := 0; advisory_count := 0; declared_dependency_count := 0;
  docker_daemon_authority_count := 0; host_port_publication_count := 0;
  evidence_integrity_count := 0 |}.

(** [saturating_add(1)] on the [u32] counters. *)
Definition bump_u32 (n : N) : N := saturating_add u32_max n 1.

Definition count_severity (s : FindingSummary) (severity : FindingSeverity) : FindingSummary :=
  match severity with
  | FS_Warning =>
      {| warning_count := bump_u32 (warning_count s); advisory_count := advisory_count s;
         declared_dependency_count := declared_dependency_count s;
         docker_daemon_authority_count := docker_daemon_authority_count s;
         host_port_publication_count := host_port_publication_count s;
         evidence_integrity_count := evidence_integrity_count s |}
  | FS_Advisory =>
      {| warning_count := warning_count s; advisory_count := bump_u32 (advisory_count s);
         declared_dependency_count := declared_dependency_count s;
         docker_daemon_authority_count := docker_daemon_authority_count s;
         host_port_publication_count := host_port_publication_count s;
         evidence_integrity_count := evidence_integrity_count s |}
  end.

Definition count_category (s : FindingSummary) (c : FindingCategory) : FindingSummary :=
  let at_ k n := if k == c then bump_u32 n else n in
  {| warning_count := warning_count s; advisory_count := advisory_count s;
     declared_dependency_count := at_ DeclaredDependency (declared_dependency_count s);
     docker_daemon_authority_count := at_ DockerDaemonAuthority (docker_daemon_authority_count s);
     host_port_publication_count := at_ HostPortPublication (host_port_publication_count s);
     evidence_integrity_count := at_ EvidenceIntegrity (evidence_integrity_count s) |}.

Definition from_findings (findings : list Finding) : FindingSummary :=
  foldl (λ s f, count_category (count_severity s (f_severity f)) (category (f_rule_id f)))
    summary_default findings.

(** ** Properties *)

Lemma evidence_text_ok_spec t :
  evidence_text_ok t = true ↔ t ≠ [] ∧ length t ≤ MAX_EVIDENCE_TEXT_CHARS.
Proof.
  unfold evidence_text_ok, char_count.
  by rewrite andb_true_iff, negb_true_iff, bool_decide_eq_false, Nat.leb_le.
Qed.

(** The checks of [evidence_ref_matches_edge] as a conjunction. *)
Lemma evidence_ref_matches_edge_spec e ev :
  evidence_ref_matches_edge e ev = true ↔
  evidence_text_ok (ev_id ev) = true ∧ evidence_text_ok (ev_summary ev) = true ∧
  evidence_text_ok (ev_provider_revision ev) = true ∧ ev_subject_ref ev = re_source e ∧
  has_valid_versioned_shape ev = true ∧ evidence_arm e ev = true.
Proof.
  unfold evidence_ref_matches_edge. split.
  - case_if E1; [done|]. case_if E2; [done|]. intros H.
    apply orb_false_elim in E1 as [E1 E1d]. apply orb_false_elim in E1 as [E1 E1c].
    apply orb_false_elim in E1 as [E1a E1b]. rewrite negb_false_iff in *.
    apply bool_decide_eq_true in E1d. done.
  - intros (-> & -> & -> & -> & -> & ->). by rewrite bool_decide_eq_true_2.
Qed.

(** The relationship that a kind of evidence attests. *)
Definition attested_relationship (kind : RuntimeEvidenceKind) : RuntimeRelationshipKind :=
  match kind with
  | DockerNetworkMembership => RR_ConnectedTo
  | DockerVolumeMount => RR_Mounts
  | DockerPortPublication | DockerUnspecifiedAddressPortPublication => RR_Exposes
  | DockerComposeDependsOn | NpmPackageManifestDependency => RR_DependsOn
  | DockerDaemonStateBindMount => RR_ExposesDaemonState
  | SystemdRequires => RR_Requires
  | SystemdWants => RR_Wants
  | SystemdPartOf => RR_PartOf
  | CronScheduleDeclaration | TmuxSessionListing | ComposeDeclaredMount
  | DockerComposeRuntimeBinding => RR_RunsOn
  | RuntimeIdentityCollision => RR_RelatedTo
  end.

(** The source and target families a kind of evidence attests; a family is a prefix, or a
    whole id when [true]. *)
Definition attested_families (kind : RuntimeEvidenceKind) : (rstr * bool) * (rstr * bool) :=
  match kind with
  | DockerNetworkMembership => (("docker_container_" : rstr, false), ("docker_network_" : rstr, false))
  | DockerVolumeMount => (("docker_container_" : rstr, false), ("docker_volume_" : rstr, false))
  | DockerPortPublication => (("docker_container_" : rstr, false), ("network_listener_" : rstr, false))
  | DockerUnspecifiedAddressPortPublication =>
      (("docker_container_" : rstr, false), ("host_risk_docker_unspecified_address_port" : rstr, true))
  | DockerComposeDependsOn => (("docker_container_" : rstr, false), ("docker_container_" : rstr, false))
  | DockerDaemonStateBindMount =>
      (("docker_container_" : rstr, false), ("host_risk_docker_daemon_state" : rstr, true))
  | SystemdRequires | SystemdWants | SystemdPartOf =>
      (("systemd_service_" : rstr, false), ("systemd_service_" : rstr, false))
  | NpmPackageManifestDependency => (("npm_project_" : rstr, false), ("npm_package_" : rstr, false))
  | CronScheduleDeclaration => (("scheduled_job_" : rstr, false), ("host_local" : rstr, true))
  | TmuxSessionListing | ComposeDeclaredMount | DockerComposeRuntimeBinding =>
      (("tmux_session_" : rstr, false), ("host_local" : rstr, true))
  | RuntimeIdentityCollision =>
      (("runtime_integrity_scope" : rstr, true), ("runtime_integrity_risk_identity_collision" : rstr, true))
  end.

Definition in_family (starts equals : rstr → bool) (family : rstr * bool) : bool :=
  if family.2 then equals family.1 else starts family.1.

(** Kinds whose edges must not be loops. *)
Definition requires_distinct (kind : RuntimeEvidenceKind) : bool :=
  match kind with
  | DockerNetworkMembership | DockerVolumeMount | DockerPortPublication
  | DockerUnspecifiedAddressPortPublication | DockerDaemonStateBindMount
  | RuntimeIdentityCollision => false
  | _ => true
  end.

Definition attests_with (rel : RuntimeRelationshipKind → bool)
    (src src_is tgt tgt_is : rstr → bool) (distinct : bool) (kind : RuntimeEvidenceKind) : bool :=
  rel (attested_relationship kind)
  && in_family src src_is (attested_families kind).1
  && in_family tgt tgt_is (attested_families kind).2
  && (if requires_distinct kind then distinct else true).

Definition attests (e : RuntimeMapEdge) : RuntimeEvidenceKind → bool :=
  attests_with (λ r, re_relationship e == r)
    (λ p, starts_with (re_source e) p) (λ id, re_source e == id)
    (λ p, starts_with (re_target e) p) (λ id, re_target e == id)
    (re_source e != re_target e).

(** On a valid shape the arm taken is a function of the evidence kind alone. *)
Lemma evidence_arms_attest rel src src_is tgt tgt_is distinct ev :
  has_valid_versioned_shape ev = true →
  evidence_arms rel src src_is tgt tgt_is distinct ev
  = attests_with rel src src_is tgt tgt_is distinct (ev_kind ev).
Proof.
  unfold has_valid_versioned_shape, evidence_arms, attests_with, ev_row, all_freshness.
  destruct ev as [v id p k a sm sj ca pr sl fr]. cbn [ev_version ev_provider ev_kind
    ev_assertion_kind ev_freshness ev_provider_slot].
  intros H.
  repeat (apply orb_prop in H; destruct H as [H|H]);
    repeat (apply andb_prop in H; let H' := fresh in destruct H as [H H']);
    apply N.eqb_eq in H; bool_unfold; unfold one_of in *; bool_unfold; subst;
    repeat match goal with
    | H : _ ∈ _ :: _ |- _ => apply elem_of_cons in H as [->|H]
    | H : _ ∈ [] |- _ => by apply elem_of_nil in H
    end;
    cbn; rewrite ?andb_true_r, ?andb_assoc; reflexivity.
Qed.

Lemma evidence_arm_attests e ev :
  has_valid_versioned_shape ev = true → evidence_arm e ev = attests e (ev_kind ev).
Proof. apply evidence_arms_attest. Qed.

(** The columns of the evidence table that the kind fixes. *)
Definition shape_row (kind : RuntimeEvidenceKind)
    : N * RuntimeEvidenceProvider * RuntimeEvidenceAssertionKind * option ProviderSlot :=
  match kind with
  | DockerNetworkMembership | DockerVolumeMount | DockerPortPublication
  | DockerUnspecifiedAddressPortPublication | DockerComposeDependsOn | DockerDaemonStateBindMount =>
      (1%N, EP_Docker, Observed, None)
  | SystemdRequires | SystemdWants | SystemdPartOf => (2%N, EP_Systemd, Declared, Some Slot_Systemd)
  | NpmPackageManifestDependency => (3%N, EP_Npm, Declared, Some ProjectNpm)
  | CronScheduleDeclaration => (4%N, EP_Cron, Declared, Some Slot_Cron)
  | TmuxSessionListing => (5%N, EP_Tmux, Observed, Some Slot_Tmux)
  | ComposeDeclaredMount => (6%N, EP_Compose, Declared, None)
  | DockerComposeRuntimeBinding => (6%N, EP_Docker, Observed, None)
  | RuntimeIdentityCollision => (7%N, EP_Dockermap, Observed, None)
  end.

Lemma shape_row_spec ev :
  has_valid_versioned_shape ev = true →
  (ev_version ev, ev_provider ev, ev_assertion_kind ev, ev_provider_slot ev) = shape_row (ev_kind ev) ∧
  (ev_provider ev = EP_Docker → ev_freshness ev = EF_Fresh).
Proof.
  unfold has_valid_versioned_shape, ev_row, all_freshness.
  destruct ev as [v id p k a sm sj ca pr sl fr]. cbn [ev_version ev_provider ev_kind
    ev_assertion_kind ev_freshness ev_provider_slot].
  intros Hs.
  repeat (apply orb_prop in Hs; destruct Hs as [Hs|Hs]);
    repeat (apply andb_prop in Hs; let H' := fresh in destruct Hs as [Hs H']);
    apply N.eqb_eq in Hs; bool_unfold; unfold one_of in *; bool_unfold; subst;
    repeat match goal with
    | H : _ ∈ _ :: _ |- _ => apply elem_of_cons in H as [->|H]
    | H : _ ∈ [] |- _ => by apply elem_of_nil in H
    end; done.
Qed.

(** Evidence that the model accepts on an edge has bounded non-empty text, is about the
    source of the edge, and its kind fixes what the edge may be: its relationship, the
    families of both endpoints and, where the source demands it, that they differ. So one
    evidence reference is never accepted on two edges with different sources or different
    relationships. *)
Theorem evidence_attests_one_relationship e ev :
  evidence_ref_matches_edge e ev = true ↔
  (1 ≤ length (ev_id ev) ≤ 259 ∧ 1 ≤ length (ev_summary ev) ≤ 259 ∧
   1 ≤ length (ev_provider_revision ev) ≤ 259) ∧
  ev_subject_ref ev = re_source e ∧ has_valid_versioned_shape ev = true ∧
  attests e (ev_kind ev) = true ∧
  ∀ e', evidence_ref_matches_edge e' ev = true →
    re_source e' = re_source e ∧ re_relationship e' = re_relationship e.
Proof.
  assert (Hlen : ∀ t, evidence_text_ok t = true ↔ 1 ≤ length t ≤ 259).
  { intros t. rewrite evidence_text_ok_spec. unfold MAX_EVIDENCE_TEXT_CHARS.
    destruct t; simpl; split; intros; [naive_solver|lia|lia|split; [done|lia]]. }
  assert (Hrel : ∀ e0, evidence_ref_matches_edge e0 ev = true →
    ev_subject_ref ev = re_source e0 ∧ re_relationship e0 = attested_relationship (ev_kind ev)).
  { intros e0 (_ & _ & _ & Hs & Hv & Ha)%evidence_ref_matches_edge_spec. split; [done|].
    rewrite evidence_arm_attests in Ha by done. unfold attests, attests_with in Ha.
    rewrite !andb_true_iff in Ha. destruct Ha as [[[Ha _] _] _]. by apply bool_decide_eq_true in Ha. }
  split.
  - intros Hm. pose proof (Hrel e Hm) as [Hs Hr].
    apply evidence_ref_matches_edge_spec in Hm as (H1 & H2 & H3 & _ & Hv & Ha).
    rewrite !Hlen in *. rewrite evidence_arm_attests in Ha by done.
    split_and!; try done; try lia.
    intros e' [Hs' Hr']%Hrel. split; congruence.
  - intros ((H1 & H2 & H3) & Hs & Hv & Ha & _). apply evidence_ref_matches_edge_spec.
    rewrite !Hlen, evidence_arm_attests by done. done.
Qed.

(** ** A divergence

    The version-6 Compose kinds share the arm of the tmux listing, so evidence of a declared
    Compose mount is accepted on a tmux edge. *)
Definition compose_mount_evidence : RuntimeEvidenceRef := {|
  ev_version := 6; ev_id := "e"; ev_provider := EP_Compose; ev_kind := ComposeDeclaredMount;
  ev_assertion_kind := Declared; ev_summary := "declared mount"; ev_subject_ref := "tmux_session_a";
  ev_collected_at := 0; ev_provider_revision := "r"; ev_provider_slot := None;
  ev_freshness := EF_Fresh |}.

Lemma compose_evidence_accepted_on_tmux_edge :
  evidence_ref_matches_edge
    {| re_source := "tmux_session_a"; re_target := "host_local"; re_relationship := RR_RunsOn;
       re_metadata := ∅; re_evidence_refs := [] |} compose_mount_evidence = true.
Proof. by vm_compute. Qed.

(** ** The summary *)

Lemma from_findings_count (sel : FindingSummary → N) (p : Finding → bool) findings :
  (∀ s f, sel (count_category (count_severity s (f_severity f)) (category (f_rule_id f)))
          = if p f then bump_u32 (sel s) else sel s) →
  ∀ s, (sel s <= u32_max)%N →
  sel (foldl (λ s f, count_category (count_severity s (f_severity f)) (category (f_rule_id f)))
         s findings)
  = N.min u32_max (sel s + N.of_nat (count_if p findings)).
Proof.
  intros Hsel. induction findings as [|f findings IH]; intros s Hs; simpl.
  { rewrite N.add_0_r. by rewrite N.min_r. }
  assert (Hb : (bump_u32 (sel s) <= u32_max)%N) by apply N.le_min_l.
  rewrite IH by (rewrite Hsel; by case_if E). rewrite Hsel. unfold bump_u32, saturating_add in *.
  destruct (p f); simpl; lia.
Qed.

Definition tmux_evidence : RuntimeEvidenceRef := {|
  ev_version := 5; ev_id := "e"; ev_provider := EP_Tmux; ev_kind := TmuxSessionListing;
  ev_assertion_kind := Observed; ev_summary := "listed"; ev_subject_ref := "tmux_session_a";
  ev_collected_at := 0; ev_provider_revision := "r"; ev_provider_slot := Some Slot_Tmux;
  ev_freshness := EF_Stale |}.

Definition tmux_edge : RuntimeMapEdge := {|
  re_source := "tmux_session_a"; re_target := "host_local"; re_relationship := RR_RunsOn;
  re_metadata := ∅; re_evidence_refs := [tmux_evidence] |}.

Lemma evidence_attests_witness :
  evidence_ref_matches_edge tmux_edge tmux_evidence = true ∧ attests tmux_edge TmuxSessionListing = true.
Proof.
  assert (Hm : evidence_ref_matches_edge tmux_edge tmux_evidence = true) by (vm_compute; reflexivity).
  split; [exact Hm|]. apply (evidence_attests_one_relationship tmux_edge tmux_evidence) in Hm. apply Hm.
Defined.
