(* ===== verification/Redaction.v ===== *)
(** * Text redaction ([crates/dockermap-daemon/src/publication.rs], text level)

    [redact_runtime_display_text] is the gate every provider-controlled string passes before
    it is published. [safe_text] is what it guarantees, and the laws below are what the
    record-level boundary ([Publication]) is proved from. *)

From S2P Require Import Prelude RustStr RustNum Models Identity.

Definition REDACTED_VALUE : rstr := "[redacted]".
Definition MAX_RUNTIME_EVIDENCE_TEXT_CHARS : nat := 256.

Definition truncate_chars (value : rstr) (max_chars : nat) : rstr :=
  take max_chars value ++ (if (max_chars <? char_count value)%nat then lit "..." else []).

(** ** Sensitive text *)

(** [str::find("://")], as the text after the match. *)
Fixpoint after_first (n s : rstr) : option rstr :=
  match strip_prefix n s with
  | Some r => Some r
  | None => match s with [] => None | _ :: s' => after_first n s' end
  end.

(** [authority.find(['/', '?', '#']).unwrap_or(len)] as the text before it. *)
Fixpoint before_any (stops s : list N) : rstr :=
  match s with
  | [] => []
  | c :: s' => if one_of c stops then [] else c :: before_any stops s'
  end.

Definition contains_url_userinfo (value : rstr) : bool :=
  match after_first "://" value with
  | None => false
  | Some authority => contains_char (before_any [47; 63; 35]%N authority) 64
  end.

Definition assignment_needles : list rstr :=
  ["token=" : rstr; "token:" : rstr; "auth_token=" : rstr; "auth_token:" : rstr;
   "_authtoken=" : rstr; "_authtoken:" : rstr; "_auth=" : rstr; "_auth:" : rstr;
   "api_key=" : rstr; "api_key:" : rstr; "api-key=" : rstr; "api-key:" : rstr;
   "apikey=" : rstr; "apikey:" : rstr; "x-api-key=" : rstr; "x-api-key:" : rstr;
   "secret_key=" : rstr; "secret_key:" : rstr; "secret-key=" : rstr; "secret-key:" : rstr;
   "secret_access_key=" : rstr; "secret_access_key:" : rstr; "secret-access-key=" : rstr;
   "secret-access-key:" : rstr; "aws_secret_access_key=" : rstr; "aws_secret_access_key:" : rstr;
   "authorization=" : rstr; "authorization:" : rstr; "password=" : rstr; "password:" : rstr;
   "passwd=" : rstr; "passwd:" : rstr; "secret=" : rstr; "secret:" : rstr;
   "client_secret=" : rstr; "client_secret:" : rstr; "private_key=" : rstr;
   "private_key:" : rstr; "credential=" : rstr; "credential:" : rstr; "access_token=" : rstr;
   "access_token:" : rstr; "refresh_token=" : rstr; "refresh_token:" : rstr].

Definition contains_sensitive_assignment (value : rstr) : bool :=
  existsb (λ needle, contains value needle) assignment_needles.

Definition sensitive_flags : list rstr :=
  ["--token" : rstr; "--auth" : rstr; "--api-key" : rstr; "--authorization" : rstr;
   "--password" : rstr; "--secret" : rstr; "--client-secret" : rstr; "--private-key" : rstr].

Definition contains_sensitive_flag (value : rstr) : bool :=
  existsb (λ token, existsb (λ flag, (token == flag) || starts_with token (flag +s+ "="))
                      sensitive_flags) (split_whitespace value).

Definition auth_needles : list rstr :=
  ["authorization: bearer" : rstr; "authorization: basic" : rstr; "authorization=bearer" : rstr;
   "authorization=basic" : rstr].

Definition contains_auth_scheme (value : rstr) : bool :=
  starts_with (trim_start value) "bearer " || existsb (λ needle, contains value needle) auth_needles.

Definition is_sensitive_text (value : rstr) : bool :=
  let lower := to_ascii_lowercase value in
  contains lower "dockermap_test_fake_"
  || contains_url_userinfo value
  || contains_sensitive_assignment lower
  || contains_sensitive_flag lower
  || contains_auth_scheme lower.

Definition redact_sensitive_text (value : rstr) : rstr :=
  if is_sensitive_text value then REDACTED_VALUE else value.

(** ** Display normalization *)

Definition unsafe_runtime_display_character (c : N) : bool :=
  is_control c
  || ((8203 <=? c)%N && (c <=? 8207)%N)
  || ((8232 <=? c)%N && (c <=? 8238)%N)
  || ((8288 <=? c)%N && (c <=? 8297)%N)
  || (c =? 65279)%N
  || ((64976 <=? c)%N && (c <=? 65007)%N)
  || one_of (N.land c 65535) [65534; 65535]%N.

Definition replacement_character : N := 65533.

Definition normalize_char (c : N) : N :=
  if unsafe_runtime_display_character c then replacement_character else c.

Definition normalize_runtime_display_string (value : rstr) : rstr := normalize_char <$> value.

Definition redact_runtime_display_text (value : rstr) : rstr :=
  normalize_runtime_display_string (redact_sensitive_text value).

(** ** Unified diffs *)

Definition diff_marker (line : rstr) : rstr * rstr :=
  match line with
  | c :: rest => if one_of c [43; 45; 32]%N then ([c], rest) else ([], line)
  | [] => ([], [])
  end.

Definition redact_diff_line (line : rstr) : rstr :=
  let '(marker, rest) := diff_marker line in
  if is_sensitive_text rest then marker +s+ REDACTED_VALUE else line.

Definition redact_unified_diff (diff : rstr) : rstr := join [10%N] (redact_diff_line <$> lines diff).

(** ** Identifier components *)

(** [str::rsplit_once("--")]. *)
Fixpoint rsplit_once (sep s : rstr) : option (rstr * rstr) :=
  match s with
  | [] => None
  | c :: s' =>
      match rsplit_once sep s' with
      | Some (a, b) => Some (c :: a, b)
      | None => match strip_prefix sep s with Some r => Some ([], r) | None => None end
      end
  end.

Section components.
Context `{Sha256}.

Definition safe_runtime_id_component (value fallback : rstr) : rstr :=
  if redact_sensitive_text value == REDACTED_VALUE then
    let generated := collision_resistant_id_component value in
    let hash : rstr := match rsplit_once "--" generated with Some (_, hash) => hash | None => "identity" end in
    fallback +s+ "--" +s+ hash
  else collision_resistant_id_component value.

(** [key] is the process key of [opaque_runtime_id_key], 32 bytes of the CSPRNG. *)
Definition opaque_runtime_id_component (key : list N) (value fallback : rstr) : rstr :=
  fallback +s+ "--" +s+ hex_encode (sha256 (key ++ utf8_bytes value)).
End components.

(** ** What publication guarantees of a text *)

Definition safe_text (t : rstr) : Prop :=
  is_sensitive_text t = false ∧ Forall (λ c, unsafe_runtime_display_character c = false) t.

(** *** Normalization cannot create a secret *)

Lemma ascii_lower_normalize c : ascii_lower (normalize_char c) = normalize_char (ascii_lower c).
Proof.
  unfold ascii_lower. destruct (is_ascii_upper c) eqn:E.
  - unfold is_ascii_upper in E. apply andb_prop in E as [E1 E2].
    apply N.leb_le in E1, E2.
    assert (Hc : (c = 65 ∨ c = 66 ∨ c = 67 ∨ c = 68 ∨ c = 69 ∨ c = 70 ∨ c = 71 ∨ c = 72 ∨ c = 73
      ∨ c = 74 ∨ c = 75 ∨ c = 76 ∨ c = 77 ∨ c = 78 ∨ c = 79 ∨ c = 80 ∨ c = 81 ∨ c = 82 ∨ c = 83
      ∨ c = 84 ∨ c = 85 ∨ c = 86 ∨ c = 87 ∨ c = 88 ∨ c = 89 ∨ c = 90)%N) by lia.
    repeat (destruct Hc as [->|Hc]; [by vm_compute|]). by subst c.
  - unfold normalize_char. destruct (unsafe_runtime_display_character c); [done|]. by rewrite E.
Qed.

Lemma lowercase_normalize v :
  to_ascii_lowercase (normalize_runtime_display_string v)
  = normalize_runtime_display_string (to_ascii_lowercase v).
Proof.
  unfold to_ascii_lowercase, normalize_runtime_display_string.
  rewrite <- !list_fmap_compose. apply list_fmap_ext. intros i c _. apply ascii_lower_normalize.
Qed.

(** Characters that normalization neither changes nor produces. *)
Definition plain_char (c : N) : bool :=
  negb (c =? replacement_character)%N && negb (unsafe_runtime_display_character c).

Definition plain (n : rstr) : bool := forallb plain_char n.

Lemma normalize_char_eqb c d : plain_char d = true → (d =? normalize_char c)%N = (d =? c)%N.
Proof.
  unfold plain_char. rewrite andb_true_iff, !negb_true_iff, N.eqb_neq. intros [Hd Hs].
  unfold normalize_char. destruct (unsafe_runtime_display_character c) eqn:E; [|done].
  rewrite (proj2 (N.eqb_neq _ _)) by done. symmetry. apply N.eqb_neq. congruence.
Qed.

Lemma normalize_cons c v :
  normalize_runtime_display_string (c :: v) = normalize_char c :: normalize_runtime_display_string v.
Proof. done. Qed.

Lemma strip_prefix_cons x p y s :
  strip_prefix (x :: p) (y :: s) = if (x =? y)%N then strip_prefix p s else None.
Proof. done. Qed.

Lemma strip_prefix_normalize n v :
  plain n = true →
  strip_prefix n (normalize_runtime_display_string v)
  = normalize_runtime_display_string <$> strip_prefix n v.
Proof.
  revert v. induction n as [|d n IH]; intros v Hn; [done|].
  apply andb_prop in Hn as [Hd Hn]. destruct v as [|c v]; [done|].
  rewrite normalize_cons, !strip_prefix_cons, normalize_char_eqb by done.
  destruct (d =? c)%N; [by apply IH|done].
Qed.

Lemma starts_with_normalize v n :
  plain n = true → starts_with (normalize_runtime_display_string v) n = starts_with v n.
Proof.
  intros Hn. unfold starts_with. rewrite strip_prefix_normalize by done. by destruct (strip_prefix n v).
Qed.

Lemma contains_cons c s n : contains (c :: s) n = starts_with (c :: s) n || contains s n.
Proof. done. Qed.

Lemma contains_normalize v n :
  plain n = true → contains (normalize_runtime_display_string v) n = contains v n.
Proof.
  intros Hn. induction v as [|c v IH]; [done|].
  rewrite normalize_cons, !contains_cons, IH, <- normalize_cons. f_equal.
  by apply starts_with_normalize.
Qed.

Lemma existsb_contains_normalize v needles :
  forallb plain needles = true →
  existsb (λ n, contains (normalize_runtime_display_string v) n) needles
  = existsb (λ n, contains v n) needles.
Proof.
  induction needles as [|n needles IH]; [done|]. simpl. intros [Hn Hns]%andb_prop.
  by rewrite contains_normalize, IH.
Qed.

Lemma after_first_normalize v n :
  plain n = true →
  after_first n (normalize_runtime_display_string v)
  = normalize_runtime_display_string <$> after_first n v.
Proof.
  intros Hn. induction v as [|c v IH]; [by destruct n|].
  rewrite normalize_cons. cbn [after_first]. rewrite <- normalize_cons, strip_prefix_normalize by done.
  by destruct (strip_prefix n (c :: v)).
Qed.

Lemma one_of_normalize c l :
  forallb plain_char l = true → one_of (normalize_char c) l = one_of c l.
Proof.
  unfold one_of. intros Hl. rewrite forallb_forall in Hl. apply bool_decide_ext.
  split; intros Hin; pose proof Hin as Hp; apply list_elem_of_In, Hl in Hp;
    pose proof (normalize_char_eqb c _ Hp) as E; rewrite N.eqb_refl in E.
  - symmetry in E. apply N.eqb_eq in E. by rewrite E in Hin.
  - apply N.eqb_eq in E. by rewrite <- E.
Qed.

Lemma before_any_normalize stops s :
  forallb plain_char stops = true →
  before_any stops (normalize_runtime_display_string s)
  = normalize_runtime_display_string (before_any stops s).
Proof.
  intros Hs. induction s as [|c s IH]; [done|]. rewrite normalize_cons. simpl.
  rewrite one_of_normalize by done. destruct (one_of c stops); [done|].
  by rewrite normalize_cons, IH.
Qed.

Lemma contains_char_normalize s c :
  plain_char c = true → contains_char (normalize_runtime_display_string s) c = contains_char s c.
Proof.
  intros Hc. induction s as [|x s IH]; [done|]. rewrite normalize_cons.
  assert (Hcons : ∀ y t, contains_char (y :: t) c = (c =? y)%N || contains_char t c).
  { intros y t. unfold contains_char, one_of. destruct (N.eqb_spec c y) as [->|Hne].
    - by apply bool_decide_eq_true, list_elem_of_here.
    - apply bool_decide_ext. rewrite elem_of_cons. naive_solver. }
  by rewrite !Hcons, IH, normalize_char_eqb.
Qed.

Lemma contains_url_userinfo_normalize v :
  contains_url_userinfo (normalize_runtime_display_string v) = contains_url_userinfo v.
Proof.
  unfold contains_url_userinfo. rewrite after_first_normalize by done.
  destruct (after_first "://" v) as [a|]; [|done]. simpl.
  by rewrite before_any_normalize, contains_char_normalize.
Qed.

(** Whitespace that survives normalization was whitespace before. *)
Lemma normalize_whitespace c : is_whitespace (normalize_char c) = true → normalize_char c = c.
Proof. unfold normalize_char. by destruct (unsafe_runtime_display_character c). Qed.

(** *** Flags: whitespace-separated tokens *)

Definition flag_token (token : rstr) : bool :=
  existsb (λ flag, (token == flag) || starts_with token (flag +s+ "=")) sensitive_flags.

Lemma contains_sensitive_flag_tokens v :
  contains_sensitive_flag v = existsb flag_token (split_whitespace v).
Proof. done. Qed.

Lemma normalize_eq_plain n v : plain n = true → normalize_runtime_display_string v = n ↔ v = n.
Proof.
  revert v. induction n as [|d n IH]; intros v Hn; [by destruct v|].
  apply andb_prop in Hn as [Hd Hn]. destruct v as [|c v]; [done|]. rewrite normalize_cons.
  assert (Hc : normalize_char c = d ↔ c = d).
  { pose proof (normalize_char_eqb c d Hd) as E.
    rewrite !(N.eqb_sym d) in E. rewrite <- !N.eqb_eq. by rewrite E. }
  specialize (IH v Hn). split.
  - intros H. injection H as H1 H2. f_equal; [by apply Hc|by apply IH].
  - intros H. injection H as H1 H2. f_equal; [by apply Hc|by apply IH].
Qed.

Lemma sensitive_flags_plain :
  Forall (λ f, plain f = true ∧ plain (f +s+ "=") = true) sensitive_flags.
Proof. repeat constructor. Qed.

(** Rewriting the test on each flag. *)
Lemma flag_token_ext (t t' : rstr) :
  (∀ f, f ∈ sensitive_flags → (t == f) || starts_with t (f +s+ "=") = true →
        (t' == f) || starts_with t' (f +s+ "=") = true) →
  flag_token t = true → flag_token t' = true.
Proof.
  unfold flag_token. rewrite !existsb_exists. intros H (f & Hf & Ht). exists f.
  split; [done|]. apply H; [|done]. by apply list_elem_of_In.
Qed.

Lemma flag_token_normalize t :
  flag_token (normalize_runtime_display_string t) = true → flag_token t = true.
Proof.
  apply flag_token_ext. intros f Hf. pose proof sensitive_flags_plain as Hp.
  rewrite Forall_forall in Hp. apply Hp in Hf as [Hf Hf']. rewrite starts_with_normalize by done.
  rewrite !orb_true_iff, !bool_decide_eq_true, normalize_eq_plain by done. done.
Qed.

Lemma starts_with_stop x (a p r : rstr) :
  x ∉ p → starts_with (a ++ x :: r) p = true → starts_with a p = true.
Proof.
  intros Hp (q & Hq)%starts_with_spec. apply starts_with_spec.
  revert p q Hp Hq. induction a as [|c a IH]; intros p q Hp Hq.
  - destruct p as [|d p]; [by exists []|]. simpl in Hq. injection Hq as <- _. set_solver.
  - destruct p as [|d p]; [by exists (c :: a)|]. injection Hq as -> Hq.
    apply not_elem_of_cons in Hp as [_ Hp]. destruct (IH p q Hp Hq) as [r' ->]. by exists r'.
Qed.

Lemma plain_no_replacement p : plain p = true → replacement_character ∉ p.
Proof.
  unfold plain. rewrite forallb_forall. intros Hp Hin%list_elem_of_In%Hp. done.
Qed.

(** Text after a replacement character cannot complete a flag. *)
Lemma flag_token_stop tok rest :
  flag_token (normalize_runtime_display_string tok ++ replacement_character :: rest) = true →
  flag_token tok = true.
Proof.
  intros H. apply flag_token_normalize. revert H. apply flag_token_ext. intros f Hf.
  pose proof sensitive_flags_plain as Hp. rewrite Forall_forall in Hp. apply Hp in Hf as [Hf Hf'].
  rewrite !orb_true_iff, !bool_decide_eq_true. intros [E|E].
  - exfalso. apply (plain_no_replacement f Hf). rewrite <- E. set_solver.
  - right. eapply starts_with_stop; [|exact E]. by apply plain_no_replacement.
Qed.

(** The two scans side by side: either the current token is the normalized image of the
    original one, or it already holds a replacement character behind a finished token that is
    no flag. *)
Definition scan_related (cur' cur : rstr) : Prop :=
  cur' = normalize_runtime_display_string cur ∨
  ∃ tok rest, reverse cur' = normalize_runtime_display_string tok ++ replacement_character :: rest
              ∧ flag_token tok = false.

Lemma flag_token_nil : flag_token [] = false.
Proof. by vm_compute. Qed.

Lemma normalize_reverse cur :
  normalize_runtime_display_string (reverse cur) = reverse (normalize_runtime_display_string cur).
Proof. apply fmap_reverse. Qed.

Lemma scan_related_flag cur' cur :
  scan_related cur' cur → flag_token (reverse cur') = true → flag_token (reverse cur) = true.
Proof.
  intros [->|(tok & rest & E & Ht)] H.
  - rewrite <- normalize_reverse in H. by apply flag_token_normalize.
  - rewrite E in H. apply flag_token_stop in H. congruence.
Qed.

Lemma existsb_emit (cur : rstr) (f : rstr → bool) l :
  existsb f (match cur with [] => l | _ :: _ => reverse cur :: l end)
  = (match cur with [] => false | _ :: _ => f (reverse cur) end) || existsb f l.
Proof. by destruct cur. Qed.

Lemma split_go_cons cur c v :
  split_whitespace_go cur (c :: v) =
  if is_whitespace c then match cur with [] => split_whitespace_go [] v
                          | _ :: _ => reverse cur :: split_whitespace_go [] v end
  else split_whitespace_go (c :: cur) v.
Proof. simpl. by destruct cur. Qed.

Lemma flagged_emit (cur : rstr) :
  match cur with [] => false | _ :: _ => flag_token (reverse cur) end = flag_token (reverse cur).
Proof. destruct cur; [|done]. symmetry. apply flag_token_nil. Qed.

Lemma scan_flags v cur' cur :
  scan_related cur' cur →
  existsb flag_token (split_whitespace_go cur' (normalize_runtime_display_string v)) = true →
  existsb flag_token (split_whitespace_go cur v) = true.
Proof.
  revert cur' cur. induction v as [|c v IH]; intros cur' cur Hr.
  { assert (He : ∀ k : rstr, existsb flag_token (split_whitespace_go k []) = flag_token (reverse k)).
    { intros [|x k]; [symmetry; exact flag_token_nil|].
      cbn [split_whitespace_go existsb]. apply orb_false_r. }
    change (normalize_runtime_display_string []) with (@nil N). rewrite !He.
    by apply scan_related_flag. }
  rewrite normalize_cons, !split_go_cons.
  destruct (is_whitespace (normalize_char c)) eqn:Ew.
  - pose proof (normalize_whitespace c Ew) as Ec. rewrite Ec in Ew. rewrite Ew.
    rewrite !existsb_emit, !flagged_emit, !orb_true_iff. intros [H|H].
    + left. by eapply scan_related_flag.
    + right. eapply IH; [|exact H]. by left.
  - destruct (is_whitespace c) eqn:Ew'.
    + assert (Eu : normalize_char c = replacement_character).
      { unfold normalize_char in *. destruct (unsafe_runtime_display_character c); [done|congruence]. }
      rewrite Eu. rewrite existsb_emit, flagged_emit, orb_true_iff. intros H.
      destruct (flag_token (reverse cur)) eqn:Ef; [by left|right].
      eapply IH; [|exact H]. right. destruct Hr as [->|(tok & rest & E & Ht)].
      * exists (reverse cur), []. by rewrite reverse_cons, normalize_reverse.
      * exists tok, (rest ++ [replacement_character]). rewrite reverse_cons, E.
        by rewrite <- app_assoc.
    + apply IH. destruct Hr as [->|(tok & rest & E & Ht)]; [by left|right].
      exists tok, (rest ++ [normalize_char c]). rewrite reverse_cons, E. by rewrite <- app_assoc.
Qed.

Lemma contains_sensitive_flag_normalize v :
  contains_sensitive_flag (normalize_runtime_display_string v) = true →
  contains_sensitive_flag v = true.
Proof. rewrite !contains_sensitive_flag_tokens. apply scan_flags. by left. Qed.

Lemma trim_start_normalize v p :
  plain p = true → (∀ c, head p = Some c → is_whitespace c = false) → p ≠ [] →
  starts_with (trim_start (normalize_runtime_display_string v)) p = true →
  starts_with (trim_start v) p = true.
Proof.
  intros Hp Hh Hne. induction v as [|c v IH]; [done|].
  rewrite normalize_cons. unfold trim_start in *. cbn [drop_while].
  destruct (is_whitespace (normalize_char c)) eqn:Ew.
  - rewrite <- (normalize_whitespace c Ew), Ew. exact IH.
  - rewrite <- normalize_cons, starts_with_normalize by done. intros H.
    destruct (is_whitespace c) eqn:Ew'; [|done]. exfalso.
    apply starts_with_spec in H as [r Hr]. destruct p as [|d p]; [done|].
    injection Hr as -> _. by rewrite (Hh d) in Ew'.
Qed.

Lemma contains_auth_scheme_normalize v :
  contains_auth_scheme (normalize_runtime_display_string v) = true → contains_auth_scheme v = true.
Proof.
  unfold contains_auth_scheme. rewrite existsb_contains_normalize by done.
  rewrite !orb_true_iff. intros [H|H]; [left|by right].
  apply trim_start_normalize in H; [done|done| |done]. by intros c [= <-].
Qed.

Lemma is_sensitive_normalize v :
  is_sensitive_text v = false → is_sensitive_text (normalize_runtime_display_string v) = false.
Proof.
  intros Hv. apply not_true_iff_false. intros H. apply not_true_iff_false in Hv. apply Hv.
  unfold is_sensitive_text in *. rewrite lowercase_normalize in H. rewrite !orb_true_iff in *.
  rewrite contains_normalize, contains_url_userinfo_normalize in H by done.
  unfold contains_sensitive_assignment in *. rewrite existsb_contains_normalize in H by done.
  destruct H as [[[[H|H]|H]|H]|H]; [auto..| |].
  - left. right. by apply contains_sensitive_flag_normalize.
  - right. by apply contains_auth_scheme_normalize.
Qed.

Lemma normalize_char_safe c : unsafe_runtime_display_character (normalize_char c) = false.
Proof. unfold normalize_char. by destruct (unsafe_runtime_display_character c) eqn:E. Qed.

Lemma normalize_safe_id v :
  Forall (λ c, unsafe_runtime_display_character c = false) v → normalize_runtime_display_string v = v.
Proof.
  induction 1 as [|c v Hc _ IH]; [done|]. rewrite normalize_cons, IH.
  unfold normalize_char. by rewrite Hc.
Qed.

Lemma redact_safe v : safe_text (redact_runtime_display_text v).
Proof.
  unfold redact_runtime_display_text, safe_text. split.
  - apply is_sensitive_normalize. unfold redact_sensitive_text.
    destruct (is_sensitive_text v) eqn:E; [by vm_compute|done].
  - unfold normalize_runtime_display_string. apply Forall_fmap, Forall_true.
    intros c. apply normalize_char_safe.
Qed.

Lemma redact_id t : safe_text t → redact_runtime_display_text t = t.
Proof.
  intros [Hs Hc]. unfold redact_runtime_display_text, redact_sensitive_text. rewrite Hs.
  by apply normalize_safe_id.
Qed.

#[export] Hint Resolve redact_safe : dockermap.

(** *** Truncation cannot create a secret *)

Definition dots : rstr := "...".

Lemma dots_eq : dots = [46; 46; 46]%N.
Proof. done. Qed.

(** A text without a full stop, as every needle of the source. *)
Definition dotless (n : rstr) : bool := negb (contains_char n 46) && (n != []).

Lemma dotless_spec n : dotless n = true → (46%N ∉ n) ∧ n ≠ [].
Proof. unfold dotless, contains_char, one_of. rewrite andb_true_iff. intros [??]. by bool_unfold. Qed.

Lemma starts_with_app_l (a b p : rstr) : starts_with a p = true → starts_with (a ++ b) p = true.
Proof.
  intros (r & ->)%starts_with_spec. apply starts_with_spec. exists (r ++ b). by rewrite app_assoc.
Qed.

Lemma starts_with_dots (a p : rstr) : dotless p = true → starts_with (a ++ dots) p = true → starts_with a p = true.
Proof. intros [Hp _]%dotless_spec. by apply (starts_with_stop 46). Qed.

Lemma starts_with_nil_dotless p : dotless p = true → starts_with [] p = false.
Proof. intros [_ Hp]%dotless_spec. by destruct p. Qed.

Lemma contains_dots (a b n : rstr) :
  dotless n = true → contains (a ++ dots) n = true → contains (a ++ b) n = true.
Proof.
  intros Hn. induction a as [|c a IH].
  - assert (Hd : ∀ r, starts_with (46%N :: r) n = false).
    { intros r. apply not_true_iff_false. intros H.
      apply (starts_with_stop 46 [] n r) in H; [|by destruct (dotless_spec n Hn)].
      by rewrite starts_with_nil_dotless in H. }
    change ([] ++ dots) with [46; 46; 46]%N. rewrite !contains_cons, !Hd.
    change (contains [] n) with (starts_with [] n || false). by rewrite starts_with_nil_dotless.
  - change ((c :: a) ++ dots) with (c :: (a ++ dots)). change ((c :: a) ++ b) with (c :: (a ++ b)).
    rewrite !contains_cons, !orb_true_iff. intros [H|H]; [left|by right; apply IH].
    apply (starts_with_app_l (c :: a)), (starts_with_dots (c :: a)); done.
Qed.

Lemma existsb_contains_dots (a b : rstr) needles :
  forallb dotless needles = true →
  existsb (λ n, contains (a ++ dots) n) needles = true → existsb (λ n, contains (a ++ b) n) needles = true.
Proof.
  rewrite forallb_forall, !existsb_exists. intros Hn (n & Hin & H).
  exists n. split; [done|]. apply contains_dots; auto.
Qed.

Lemma after_first_length n a r : after_first n a = Some r → length n ≤ length a.
Proof.
  induction a as [|c a IH]; cbn [after_first].
  - destruct (strip_prefix n []) as [r0|] eqn:E; [|done]. intros _.
    apply strip_prefix_Some in E. by destruct n.
  - destruct (strip_prefix n (c :: a)) as [r0|] eqn:E; [|intros ?%IH; simpl; lia].
    intros _. apply strip_prefix_Some in E. rewrite E, length_app. lia.
Qed.

Lemma strip_prefix_app n (a b r : rstr) : strip_prefix n a = Some r → strip_prefix n (a ++ b) = Some (r ++ b).
Proof. rewrite !strip_prefix_Some. intros ->. by rewrite app_assoc. Qed.

Lemma after_first_app n (a b r : rstr) :
  after_first n a = Some r → after_first n (a ++ b) = Some (r ++ b).
Proof.
  induction a as [|c a IH]; cbn [after_first].
  - destruct (strip_prefix n []) as [r0|] eqn:E; [|done]. intros [= <-].
    apply strip_prefix_Some in E. destruct n, r0; try done. by destruct b.
  - change ((c :: a) ++ b) with (c :: (a ++ b)). cbn [after_first].
    destruct (strip_prefix n (c :: a)) as [r0|] eqn:E.
    + intros [= <-]. apply (strip_prefix_app _ _ b) in E. simpl in E. by rewrite E.
    + intros Hr. destruct (strip_prefix n (c :: a ++ b)) as [r1|] eqn:E1; [|by apply IH].
      exfalso. apply after_first_length in Hr. apply strip_prefix_Some in E1.
      assert (Ht : take (length n) (c :: a) = n).
      { transitivity (take (length n) ((c :: a) ++ b)); [by rewrite take_app_le by (simpl; lia)|].
        simpl app. rewrite E1. by rewrite take_app_length. }
      assert (strip_prefix n (c :: a) = Some (drop (length n) (c :: a))) as E'; [|congruence].
      apply strip_prefix_Some. rewrite <- Ht at 1. by rewrite take_drop.
Qed.

Lemma after_first_dots n (a r : rstr) :
  dotless n = true → after_first n (a ++ dots) = Some r →
  ∃ r', after_first n a = Some r' ∧ r = r' ++ dots.
Proof.
  intros Hn. induction a as [|c a IH].
  - assert (Hs : ∀ k, k = 0 ∨ k = 1 ∨ k = 2 ∨ k = 3 → strip_prefix n (drop k dots) = None).
    { intros k Hk. destruct (strip_prefix n (drop k dots)) as [q|] eqn:E; [|done].
      apply strip_prefix_Some in E. apply dotless_spec in Hn as [Hd Hne].
      destruct n as [|x n]; [done|]. exfalso. apply Hd.
      assert (x = 46%N) as ->; [|left].
      rewrite dots_eq in E. destruct Hk as [->|[->|[->| ->]]]; simpl in E; first [discriminate E|by injection E]. }
    rewrite dots_eq in *. cbn -[strip_prefix].
    pose proof (Hs 0 ltac:(auto)) as H0. pose proof (Hs 1 ltac:(auto)) as H1.
    pose proof (Hs 2 ltac:(auto)) as H2. pose proof (Hs 3 ltac:(auto)) as H3.
    cbn -[strip_prefix] in H0, H1, H2, H3. by rewrite H0, H1, H2, H3.
  - change ((c :: a) ++ dots) with (c :: (a ++ dots)). cbn [after_first].
    destruct (strip_prefix n (c :: a)) as [r0|] eqn:E.
    + apply (strip_prefix_app _ _ dots) in E. simpl app in E. rewrite E. intros [= <-]. eauto.
    + destruct (strip_prefix n (c :: a ++ dots)) as [r1|] eqn:E1; [|apply IH].
      exfalso. assert (starts_with ((c :: a) ++ dots) n = true) as H.
      { unfold starts_with. simpl app. by rewrite E1. }
      apply starts_with_dots in H; [|done]. unfold starts_with in H. by rewrite E in H.
Qed.

Lemma userinfo_dots (stops : list N) (a b : rstr) :
  contains_char (before_any stops (a ++ dots)) 64 = true →
  contains_char (before_any stops (a ++ b)) 64 = true.
Proof.
  unfold contains_char, one_of. rewrite !bool_decide_eq_true.
  induction a as [|c a IH].
  - intros H. exfalso. assert (Hin : ∀ s x, x ∈ before_any stops s → x ∈ s).
    { induction s as [|y s IHs]; simpl; [done|]. intros x. case_if E; [set_solver|].
      rewrite !elem_of_cons. naive_solver. }
    apply Hin in H. refute H.
  - simpl. case_if E; [done|]. rewrite !elem_of_cons. naive_solver.
Qed.

Lemma contains_url_userinfo_dots a b :
  contains_url_userinfo (a ++ dots) = true → contains_url_userinfo (a ++ b) = true.
Proof.
  unfold contains_url_userinfo. destruct (after_first "://" (a ++ dots)) as [r|] eqn:E; [|done].
  apply after_first_dots in E as (r' & E & ->); [|done].
  rewrite (after_first_app _ _ b _ E). apply userinfo_dots.
Qed.

Lemma sensitive_flags_dotless :
  Forall (λ f, dotless f = true ∧ dotless (f +s+ "=") = true) sensitive_flags.
Proof. repeat constructor. Qed.

Lemma flag_token_dots tok x : flag_token (tok ++ dots) = true → flag_token (tok ++ x) = true.
Proof.
  apply flag_token_ext. intros f Hf. pose proof sensitive_flags_dotless as Hp.
  rewrite Forall_forall in Hp. apply Hp in Hf as [Hf Hf'].
  rewrite !orb_true_iff, !bool_decide_eq_true. intros [E|E].
  - exfalso. apply dotless_spec in Hf as [Hf _]. apply Hf. rewrite <- E. apply elem_of_app. right. left.
  - right. by apply starts_with_app_l, starts_with_dots.
Qed.

Lemma split_go_extends cur b :
  cur ≠ [] → ∃ x, (reverse cur ++ x) ∈ split_whitespace_go cur b.
Proof.
  revert cur. induction b as [|c b IH]; intros cur Hc.
  - exists []. destruct cur; [done|]. rewrite app_nil_r. simpl. left.
  - rewrite split_go_cons. case_if E.
    + exists []. rewrite app_nil_r. destruct cur; [done|]. left.
    + destruct (IH (c :: cur)) as [x Hx]; [done|]. exists (c :: x).
      by rewrite reverse_cons, <- app_assoc in Hx.
Qed.

Lemma scan_flags_dots a b cur :
  existsb flag_token (split_whitespace_go cur (a ++ dots)) = true →
  existsb flag_token (split_whitespace_go cur (a ++ b)) = true.
Proof.
  revert cur. induction a as [|c a IH]; intros cur.
  - intros H. change ([] ++ dots) with dots in H. change ([] ++ b) with b.
    assert (E : split_whitespace_go cur dots = [reverse cur ++ dots]).
    { change (split_whitespace_go cur dots) with [reverse (46 :: 46 :: 46 :: cur)%N].
      rewrite !reverse_cons, <- !app_assoc. done. }
    rewrite E in H. cbn [existsb] in H. rewrite orb_false_r in H.
    destruct cur as [|x cur].
    { exfalso. apply (flag_token_dots [] []) in H. exact (eq_true_false_abs _ H flag_token_nil). }
    destruct (split_go_extends (x :: cur) b) as [y Hy]; [done|].
    apply existsb_exists. exists (reverse (x :: cur) ++ y). split; [by apply list_elem_of_In|].
    by apply flag_token_dots.
  - change ((c :: a) ++ dots) with (c :: (a ++ dots)). change ((c :: a) ++ b) with (c :: (a ++ b)).
    rewrite !split_go_cons. case_if E; [|apply IH].
    rewrite !existsb_emit, !orb_true_iff. intros [H|H]; [by left|right; by apply IH].
Qed.

Lemma trim_start_dots (a b p : rstr) :
  dotless p = true → starts_with (trim_start (a ++ dots)) p = true →
  starts_with (trim_start (a ++ b)) p = true.
Proof.
  intros Hp. unfold trim_start. induction a as [|c a IH].
  - change (drop_while is_whitespace ([] ++ dots)) with ([] ++ dots). intros H.
    apply starts_with_dots in H; [|done]. by rewrite starts_with_nil_dotless in H.
  - simpl. case_if E; [done|]. intros H.
    by apply (starts_with_app_l (c :: a)), (starts_with_dots (c :: a)).
Qed.

Lemma lowercase_app a b : to_ascii_lowercase (a ++ b) = to_ascii_lowercase a ++ to_ascii_lowercase b.
Proof. apply fmap_app. Qed.

Lemma is_sensitive_dots a b :
  is_sensitive_text (a ++ dots) = true → is_sensitive_text (a ++ b) = true.
Proof.
  unfold is_sensitive_text, contains_sensitive_assignment, contains_auth_scheme.
  rewrite !lowercase_app. change (to_ascii_lowercase dots) with dots.
  rewrite !orb_true_iff. intros [[[[H|H]|H]|H]|[H|H]].
  - left. left. left. left. by apply contains_dots.
  - left. left. left. right. by apply contains_url_userinfo_dots.
  - left. left. right. by apply existsb_contains_dots.
  - left. right. rewrite contains_sensitive_flag_tokens in *. by apply scan_flags_dots.
  - right. left. by apply trim_start_dots.
  - right. right. by apply existsb_contains_dots.
Qed.

Lemma truncate_safe t n : safe_text t → safe_text (truncate_chars t n).
Proof.
  intros [Hs Hc]. unfold truncate_chars, char_count. destruct (Nat.ltb_spec n (length t)) as [Hlt|Hge].
  - split.
    + apply not_true_iff_false. intros H%(is_sensitive_dots _ (drop n t)).
      rewrite take_drop in H. congruence.
    + apply Forall_app. split; [by apply Forall_take|by repeat constructor].
  - rewrite app_nil_r, take_ge by done. done.
Qed.

Lemma truncate_length t n : length (truncate_chars t n) ≤ n + 3.
Proof.
  unfold truncate_chars. rewrite length_app, length_take. destruct (n <? char_count t)%nat; simpl; lia.
Qed.

Lemma truncate_id t n : length t ≤ n → truncate_chars t n = t.
Proof.
  intros Hl. unfold truncate_chars, char_count. destruct (Nat.ltb_spec n (length t)); [lia|].
  by rewrite app_nil_r, take_ge.
Qed.

(** C15: The publication gate for one string: whatever a provider reports, the published text
    trips none of the secret detectors and holds no control, bidi, zero-width, separator or
    noncharacter code point, also after the truncation applied to evidence; a sensitive text
    is replaced as a whole and any other keeps its length and its safe characters; and
    publishing twice changes nothing. *)
Theorem published_text_safe v n :
  let t := redact_runtime_display_text v in
  safe_text t ∧ safe_text (truncate_chars t n) ∧ redact_runtime_display_text t = t ∧
  (is_sensitive_text v = true → t = REDACTED_VALUE) ∧
  (is_sensitive_text v = false → length t = length v ∧
     ∀ i c, v !! i = Some c →
       t !! i = Some (if unsafe_runtime_display_character c then replacement_character else c)).
Proof.
  intros t. assert (Hs : safe_text t) by apply redact_safe.
  split_and!; [done|by apply truncate_safe|by apply redact_id| |];
    unfold t, redact_runtime_display_text, redact_sensitive_text; intros ->.
  - by vm_compute.
  - unfold normalize_runtime_display_string. split; [apply length_fmap|].
    intros i c Hi. exact (list_lookup_fmap_Some_2 normalize_char v i c Hi).
Qed.

(** ** Diffs *)

Lemma diff_line_safe line : is_sensitive_text (diff_marker (redact_diff_line line)).2 = false.
Proof.
  unfold redact_diff_line. destruct (diff_marker line) as [marker rest] eqn:E.
  destruct (is_sensitive_text rest) eqn:Es; [|by rewrite E].
  unfold diff_marker in E. destruct line as [|c line]; [by injection E as <- <-|].
  destruct (one_of c [43; 45; 32]%N) eqn:Ec; injection E as <- <-; [|by vm_compute].
  unfold rapp. simpl. rewrite Ec. by vm_compute.
Qed.

(** A published edit plan's diff: after redaction no line, read behind its marker, is
    sensitive, and a line that was not keeps its text; but the display normalization that
    follows rewrites the line feeds themselves, so the published diff is always one line. *)
Theorem published_diff d :
  (∀ line, line ∈ redact_diff_line <$> lines d → is_sensitive_text (diff_marker line).2 = false) ∧
  (∀ line, line ∈ lines d → is_sensitive_text (diff_marker line).2 = false →
     redact_diff_line line = line) ∧
  10%N ∉ normalize_runtime_display_string (redact_unified_diff d).
Proof.
  split_and!.
  - intros line (l & -> & _)%list_elem_of_fmap. apply diff_line_safe.
  - intros line _. unfold redact_diff_line. destruct (diff_marker line) as [marker rest]. simpl.
    by intros ->.
  - intros (c & E & _)%list_elem_of_fmap. pose proof (normalize_char_safe c) as Hs.
    by rewrite <- E in Hs.
Qed.

(** Two harmless lines come out as one. *)
Lemma published_diff_joins_lines :
  normalize_runtime_display_string (redact_unified_diff ("-a" +s+ [10%N] +s+ "+b"))
  = "-a" +s+ [65533%N] +s+ "+b".
Proof. by vm_compute. Qed.

(** ** Identifier components of sensitive identities *)

Lemma rsplit_once_None sep s : 0 < length sep → (∀ k, ¬ ∃ r, drop k s = sep ++ r) → rsplit_once sep s = None.
Proof.
  intros Hsep. induction s as [|c s IH]; intros Hk; [done|]. simpl.
  rewrite IH by (intros k; apply (Hk (S k))).
  destruct (strip_prefix sep (c :: s)) as [r|] eqn:E; [|done].
  apply strip_prefix_Some in E. exfalso. apply (Hk 0). eauto.
Qed.

Lemma rsplit_once_dash (a b : rstr) :
  45%N ∉ b → rsplit_once "--" (a ++ [45; 45]%N ++ b) = Some (a, b).
Proof.
  intros Hb. assert (Hnb : ∀ s, 45%N ∉ s → rsplit_once "--" s = None).
  { intros s Hs. apply rsplit_once_None; [simpl; lia|]. intros k [r Hr]. apply Hs.
    rewrite <- (take_drop k s), Hr. apply elem_of_app. right. left. }
  induction a as [|c a IH].
  - change ([] ++ [45; 45]%N ++ b) with (45 :: 45 :: b)%N. cbn [rsplit_once].
    rewrite Hnb by done. destruct (strip_prefix "--" (45%N :: b)) as [r|] eqn:E.
    + exfalso. apply strip_prefix_Some in E. injection E as ->. set_solver.
    + change (strip_prefix "--" (45 :: 45 :: b)%N) with (Some b). done.
  - change ((c :: a) ++ [45; 45]%N ++ b) with (c :: (a ++ [45; 45]%N ++ b)). cbn [rsplit_once].
    by rewrite IH.
Qed.

Section component_theorems.
Context `{Sha256}.

Lemma hex_no_dash v : 45%N ∉ sha256_hex v.
Proof.
  intros Hin. pose proof (sha256_hex_lower v) as Hl. rewrite Forall_forall in Hl. by apply Hl in Hin.
Qed.

(** The id component of a provider identity that is itself sensitive is the fallback
    name and the digest alone, so no character of the identity is published; any other
    identity gets its collision-resistant component; and two identities share a component
    only when their digests collide. *)
Theorem safe_component_spec v fallback :
  (is_sensitive_text v = true →
     safe_runtime_id_component v fallback = fallback +s+ "--" +s+ sha256_hex v) ∧
  (is_sensitive_text v = false → v ≠ REDACTED_VALUE →
     safe_runtime_id_component v fallback = collision_resistant_id_component v) ∧
  (∀ w, safe_runtime_id_component v fallback = safe_runtime_id_component w fallback →
     sha256 (utf8_bytes v) = sha256 (utf8_bytes w)).
Proof.
  assert (Hform : ∀ u, safe_runtime_id_component u fallback =
    (if redact_sensitive_text u == REDACTED_VALUE then fallback else readable_slug u)
    +s+ "--" +s+ sha256_hex u).
  { intros u. unfold safe_runtime_id_component. case_if E; [|done].
    unfold collision_resistant_id_component, rapp. change (lit "--") with [45; 45]%N.
    rewrite (rsplit_once_dash (readable_slug u) (sha256_hex u)) by apply hex_no_dash. done. }
  split_and!.
  - intros Hs. rewrite Hform. unfold redact_sensitive_text. by rewrite Hs, bool_decide_eq_true_2.
  - intros Hs Hne. rewrite Hform. unfold redact_sensitive_text. by rewrite Hs, bool_decide_eq_false_2.
  - intros w. rewrite !Hform. unfold rapp. intros E. apply sha256_hex_inj.
    rewrite !(app_assoc _ (lit "--")) in E.
    apply app_inj_2 in E as [_ ?]; [done|]. by rewrite !length_sha256_hex.
Qed.
End component_theorems.

Lemma safe_component_spec_witness :
  @safe_runtime_id_component Toy_sha256 "token=abc" "npm" = "npm--" +s+ @sha256_hex Toy_sha256 "token=abc" ∧
  is_sensitive_text "token=abc" = true.
Proof.
  split; [|reflexivity].
  exact (proj1 (@safe_component_spec Toy_sha256 "token=abc" "npm") eq_refl).
Defined.

Lemma published_text_safe_witness :
  redact_runtime_display_text "password=hunter2" = REDACTED_VALUE ∧
  safe_text (redact_runtime_display_text "password=hunter2").
Proof.
  destruct (published_text_safe "password=hunter2" 8) as (Hs & _ & _ & Hr & _).
  split; [apply Hr; reflexivity|exact Hs].
Defined.
