(* ===== verification/Publication.v ===== *)
(** * The publication boundary ([crates/dockermap-daemon/src/publication.rs], record level)

    Every record the daemon publishes passes one of these functions. [*_strings] lists every
    provider-controlled string of a record, so that "the published record is safe" reads
    [Forall safe_text]. *)

From S2P Require Import Prelude RustStr RustNum Models Evidence Identity Redaction Serial.

Abbreviation redact := redact_runtime_display_text.

Arguments redact_runtime_display_text : simpl never.

(** ** Docker inventory *)

Definition redact_display_strings (values : list rstr) : list rstr := redact <$> values.

Definition redact_mount (mount : ContainerMount) : ContainerMount := {|
  cm_id := redact (cm_id mount); cm_kind := cm_kind mount; cm_source := redact <$> cm_source mount;
  cm_target := redact (cm_target mount); cm_read_only := cm_read_only mount |}.

Definition redact_container_record (c : ContainerRecord) : ContainerRecord := {|
  c_id := redact (c_id c); c_name := redact (c_name c); c_image := redact (c_image c);
  c_status := redact (c_status c); c_role := redact (c_role c);
  c_networks := redact_display_strings (c_networks c);
  c_ports := redact_display_strings (c_ports c);
  c_publishes_on_unspecified_address := c_publishes_on_unspecified_address c;
  c_mounts := redact_mount <$> c_mounts c;
  c_depends_on := redact_display_strings (c_depends_on c) |}.

Definition redact_image (i : ImageRecord) : ImageRecord := {|
  im_image := redact (im_image i); im_containers := redact_display_strings (im_containers i);
  im_status := redact (im_status i) |}.

Definition redact_network (n : NetworkRecord) : NetworkRecord := {|
  n_id := redact (n_id n); n_name := redact (n_name n); n_driver := redact (n_driver n);
  n_internal := n_internal n; n_members := redact_display_strings (n_members n) |}.

Definition redact_volume (v : VolumeRecord) : VolumeRecord := {|
  v_id := redact (v_id v); v_name := redact (v_name v);
  v_attached_to := redact_display_strings (v_attached_to v) |}.

Definition redact_docker_snapshot (s : DockerSnapshot) : DockerSnapshot := {|
  s_containers := redact_container_record <$> s_containers s;
  s_images := redact_image <$> s_images s;
  s_networks := redact_network <$> s_networks s;
  s_volumes := redact_volume <$> s_volumes s;
  s_last_updated := s_last_updated s;
  s_model_revision := s_model_revision s;
  s_source := s_source s |}.

(** [publish_docker_snapshot] clones before redacting. *)
Definition publish_docker_snapshot (s : DockerSnapshot) : DockerSnapshot := redact_docker_snapshot s.

Definition redact_health_response (h : HealthResponse) : HealthResponse := {|
  h_status := h_status h; h_mode := h_mode h; h_docker_reachable := h_docker_reachable h;
  h_last_updated := h_last_updated h; h_snapshot_version := h_snapshot_version h;
  h_model_revision := h_model_revision h; h_message := redact <$> h_message h |}.

(** ** Runtime map nodes *)

Definition redact_ownership (o : RuntimeOwnership) : RuntimeOwnership := {|
  ro_kind := ro_kind o; ro_name := redact (ro_name o); ro_id := redact <$> ro_id o |}.

Definition redact_location (l : RuntimeLocation) : RuntimeLocation := {|
  rloc_kind := rloc_kind l; rloc_value := redact (rloc_value l);
  rloc_detail := redact <$> rloc_detail l |}.

Definition redact_health (h : RuntimeHealth) : RuntimeHealth := {|
  rh_state := rh_state h; rh_checked_at := rh_checked_at h; rh_source := redact <$> rh_source h;
  rh_message := redact <$> rh_message h |}.

Definition redact_log_ref (l : RuntimeLogRef) : RuntimeLogRef := {|
  rl_id := redact (rl_id l); rl_source := redact (rl_source l); rl_level := rl_level l |}.

Definition redact_service_entity (s : RuntimeServiceEntity) : RuntimeServiceEntity := {|
  rs_name := redact (rs_name s); rs_status := rs_status s;
  rs_dependencies := redact <$> rs_dependencies s; rs_dependents := redact <$> rs_dependents s;
  rs_health := redact_health <$> rs_health s; rs_logs := redact_log_ref <$> rs_logs s;
  rs_owner := redact_ownership <$> rs_owner s; rs_location := redact_location <$> rs_location s |}.

Definition redact_advisory (a : RuntimePackageAdvisory) : RuntimePackageAdvisory := {|
  pa_id := redact (pa_id a); pa_source := redact (pa_source a); pa_title := redact (pa_title a);
  pa_severity := pa_severity a; pa_fixed_version := redact <$> pa_fixed_version a;
  pa_url := redact <$> pa_url a; pa_published_at := pa_published_at a |}.

Definition redact_update (u : RuntimePackageUpdate) : RuntimePackageUpdate := {|
  pu_current_version := redact (pu_current_version u);
  pu_latest_version := redact <$> pu_latest_version u; pu_available := pu_available u;
  pu_advisories := redact_advisory <$> pu_advisories u |}.

Definition redact_package_entity (p : RuntimePackageEntity) : RuntimePackageEntity := {|
  rp_name := redact (rp_name p); rp_manager := rp_manager p; rp_version := redact (rp_version p);
  rp_dependencies := redact <$> rp_dependencies p; rp_dependents := redact <$> rp_dependents p;
  rp_update := redact_update <$> rp_update p; rp_owner := redact_ownership <$> rp_owner p;
  rp_location := redact_location <$> rp_location p |}.

Definition redact_runtime_node (n : RuntimeMapNode) : RuntimeMapNode := {|
  rn_id := redact (rn_id n); rn_provider := rn_provider n; rn_kind := rn_kind n;
  rn_label := redact (rn_label n); rn_status := redact <$> rn_status n; rn_layer := rn_layer n;
  rn_metadata := redact <$> rn_metadata n; rn_service := redact_service_entity <$> rn_service n;
  rn_package := redact_package_entity <$> rn_package n |}.

Definition redact_runtime_nodes (nodes : list RuntimeMapNode) : list RuntimeMapNode :=
  redact_runtime_node <$> nodes.

Definition redact_runtime_diagnostics (l : list RuntimeMapDiagnostic) : list RuntimeMapDiagnostic :=
  (λ d, {| rd_provider := rd_provider d; rd_severity := rd_severity d;
           rd_message := redact (rd_message d) |}) <$> l.

(** ** Runtime map edges *)

Definition redact_evidence_text (t : rstr) : rstr :=
  truncate_chars (redact t) MAX_RUNTIME_EVIDENCE_TEXT_CHARS.

Arguments redact_evidence_text : simpl never.

Definition redact_evidence (ev : RuntimeEvidenceRef) : RuntimeEvidenceRef := {|
  ev_version := ev_version ev; ev_id := redact_evidence_text (ev_id ev);
  ev_provider := ev_provider ev; ev_kind := ev_kind ev; ev_assertion_kind := ev_assertion_kind ev;
  ev_summary := redact_evidence_text (ev_summary ev); ev_subject_ref := redact (ev_subject_ref ev);
  ev_collected_at := ev_collected_at ev;
  ev_provider_revision := redact_evidence_text (ev_provider_revision ev);
  ev_provider_slot := ev_provider_slot ev; ev_freshness := ev_freshness ev |}.

Section edges.
Context `{Json RuntimeMapNode} `{Json RuntimeMapEdge} `{Json RuntimeEvidenceRef}.

Definition redact_runtime_evidence_refs (refs : list RuntimeEvidenceRef) : list RuntimeEvidenceRef :=
  sort_by_json (redact_evidence <$> refs).

Definition redact_runtime_edge (e : RuntimeMapEdge) : RuntimeMapEdge :=
  let edge := {|
    re_source := redact (re_source e); re_target := redact (re_target e);
    re_relationship := re_relationship e; re_metadata := redact <$> re_metadata e;
    re_evidence_refs := redact_runtime_evidence_refs (re_evidence_refs e) |} in
  if negb (has_valid_evidence_refs edge) then
    {| re_source := re_source edge; re_target := re_target edge;
       re_relationship := re_relationship edge; re_metadata := re_metadata edge;
       re_evidence_refs := [] |}
  else edge.

Definition redact_runtime_edges (edges : list RuntimeMapEdge) : list RuntimeMapEdge :=
  redact_runtime_edge <$> edges.

(** ** Topology *)

Definition with_topology (m : RuntimeMap) (nodes : list RuntimeMapNode) (edges : list RuntimeMapEdge)
    : RuntimeMap := {|
  rm_nodes := nodes; rm_edges := edges; rm_diagnostics := rm_diagnostics m;
  rm_last_updated := rm_last_updated m; rm_model_revision := rm_model_revision m;
  rm_provider_states := rm_provider_states m; rm_source := rm_source m |}.

Definition normalize_runtime_map_topology (m : RuntimeMap) : RuntimeMap :=
  let nodes := sort_by_json (rm_nodes m) in
  let node_ids := rn_id <$> nodes in
  let edges := filterb (λ edge, one_of (re_source edge) node_ids && one_of (re_target edge) node_ids)
                 (rm_edges m) in
  with_topology m nodes (dedup (sort_by_json edges)).

Definition redact_runtime_map (m : RuntimeMap) : RuntimeMap :=
  normalize_runtime_map_topology {|
    rm_nodes := redact_runtime_nodes (rm_nodes m);
    rm_edges := redact_runtime_edges (rm_edges m);
    rm_diagnostics := redact_runtime_diagnostics (rm_diagnostics m);
    rm_last_updated := rm_last_updated m; rm_model_revision := rm_model_revision m;
    rm_provider_states := rm_provider_states m; rm_source := rm_source m |}.

(** ** Identity collisions *)

Definition runtime_map_has_identity_collision (m : RuntimeMap) : bool :=
  duplicate_runtime_node_ids (rm_nodes m) != [].

Definition SCOPE_ID : rstr := "runtime_integrity_scope".
Definition RISK_ID : rstr := "runtime_integrity_risk_identity_collision".

Definition integrity_node (id : rstr) (kind : RuntimeNodeKind) (label : rstr) : RuntimeMapNode := {|
  rn_id := id; rn_provider := RP_Other; rn_kind := kind; rn_label := label; rn_status := None;
  rn_layer := Some L_Advisory; rn_metadata := ∅; rn_service := None; rn_package := None |}.

Definition collision_evidence (provider_revision : rstr) (collected_at : N) : RuntimeEvidenceRef := {|
  ev_version := 7; ev_id := "dockermap_evidence_runtime_identity_collision";
  ev_provider := EP_Dockermap; ev_kind := RuntimeIdentityCollision; ev_assertion_kind := Observed;
  ev_summary := "DockerMap detected duplicate runtime identities after publication normalization";
  ev_subject_ref := SCOPE_ID; ev_collected_at := collected_at;
  ev_provider_revision := provider_revision; ev_provider_slot := None; ev_freshness := EF_Fresh |}.

Definition collision_edge (provider_revision : rstr) (collected_at : N) : RuntimeMapEdge := {|
  re_source := SCOPE_ID; re_target := RISK_ID; re_relationship := RR_RelatedTo; re_metadata := ∅;
  re_evidence_refs := [collision_evidence provider_revision collected_at] |}.

(** The map after the call, and the returned flag. *)
Definition append_runtime_identity_collision_fact (m : RuntimeMap) (provider_revision : rstr)
    (collected_at : N) : RuntimeMap * bool :=
  if (provider_revision == [])
     || existsb (λ node, one_of (rn_id node) [SCOPE_ID; RISK_ID]) (rm_nodes m)
  then (m, false)
  else
    (with_topology m
       (sort_by_json (rm_nodes m ++
          [integrity_node SCOPE_ID RN_IntegrityScope "Runtime identity integrity";
           integrity_node RISK_ID RN_HostRisk "Duplicate runtime topology identity"]))
       (sort_by_json (rm_edges m ++ [collision_edge provider_revision collected_at])),
     true).
End edges.

(** ** Compose *)

Definition redact_compose_origin (o : ComposeFileOrigin) : ComposeFileOrigin := {|
  co_file := redact (co_file o); co_service := redact <$> co_service o;
  co_field := redact (co_field o) |}.

Definition redact_compose_diagnostic (d : ComposeDiagnostic) : ComposeDiagnostic := {|
  cd_id := redact (cd_id d); cd_severity := cd_severity d; cd_message := redact (cd_message d);
  cd_origin := redact_compose_origin (cd_origin d) |}.

Definition collision_diagnostic (file service : rstr) : ComposeDiagnostic := {|
  cd_id := "compose_environment_key_collision"; cd_severity := Sev_Warning;
  cd_message := "An environment key was dropped after publication normalization";
  cd_origin := {| co_file := file; co_service := Some service; co_field := "environment" |} |}.

(** The loop over one service's environment, in key order, with the collisions it pushes. *)
Definition publish_environment (file service : rstr) (environment : gmap rstr rstr) :
    gmap rstr rstr * list ComposeDiagnostic :=
  foldl (λ '(published, collisions) '(key, value),
           if is_some (published !! redact key)
           then (published, collisions ++ [collision_diagnostic file service])
           else (<[redact key := redact value]> published, collisions))
    (∅, []) (btree_iter environment).

Definition redact_compose_service (file : rstr) (s : ComposeService) :
    ComposeService * list ComposeDiagnostic :=
  let name := redact (cs_name s) in
  let '(environment, collisions) := publish_environment file name (cs_environment s) in
  ({| cs_name := name; cs_image := redact <$> cs_image s; cs_environment := environment;
      cs_depends_on := redact <$> cs_depends_on s |}, collisions).

Definition redact_compose_mount (m : ComposeMount) : ComposeMount := {|
  cmt_id := redact (cmt_id m); cmt_service := redact (cmt_service m); cmt_kind := cmt_kind m;
  cmt_source := redact <$> cmt_source m; cmt_resolved_source := redact <$> cmt_resolved_source m;
  cmt_target := redact (cmt_target m); cmt_read_only := cmt_read_only m;
  cmt_origin := redact_compose_origin (cmt_origin m) |}.

Definition redact_correlation (c : MountCorrelation) : MountCorrelation := {|
  mc_id := redact (mc_id c); mc_service := redact (mc_service c);
  mc_container := redact <$> mc_container c; mc_compose_mount_id := redact <$> mc_compose_mount_id c;
  mc_kind := mc_kind c; mc_target := redact (mc_target c);
  mc_declared_source := redact <$> mc_declared_source c;
  mc_runtime_source := redact <$> mc_runtime_source c; mc_status := mc_status c |}.

Definition redact_compose_scan (scan : ComposeScan) : ComposeScan :=
  let files := redact <$> csc_files scan in
  let diagnostic_file := default [] (head files) in
  let services := redact_compose_service diagnostic_file <$> csc_services scan in
  {| csc_files := files; csc_project_root := redact (csc_project_root scan);
     csc_services := services.*1;
     csc_mounts := redact_compose_mount <$> csc_mounts scan;
     csc_correlations := redact_correlation <$> csc_correlations scan;
     csc_diagnostics := redact_compose_diagnostic <$> (csc_diagnostics scan ++ concat services.*2) |}.

Definition redact_compose_edit_plan (p : ComposeEditPlan) : ComposeEditPlan := {|
  cep_file := redact (cep_file p); cep_service := redact (cep_service p);
  cep_mount_id := redact (cep_mount_id p); cep_original_source := redact <$> cep_original_source p;
  cep_original_target := redact (cep_original_target p); cep_new_source := redact <$> cep_new_source p;
  cep_new_target := redact <$> cep_new_target p;
  cep_unified_diff := normalize_runtime_display_string (redact_unified_diff (cep_unified_diff p));
  cep_diagnostics := redact_compose_diagnostic <$> cep_diagnostics p;
  cep_will_write := cep_will_write p |}.

(** ** Every string of a record *)

Definition opt_strings (o : option rstr) : list rstr := match o with Some s => [s] | None => [] end.

Definition container_strings (c : ContainerRecord) : list rstr :=
  [c_id c; c_name c; c_image c; c_status c; c_role c] ++ c_networks c ++ c_ports c
  ++ (c_mounts c ≫= λ m, cm_id m :: cm_target m :: opt_strings (cm_source m)) ++ c_depends_on c.

Definition snapshot_strings (s : DockerSnapshot) : list rstr :=
  (s_containers s ≫= container_strings)
  ++ (s_images s ≫= λ i, im_image i :: im_status i :: im_containers i)
  ++ (s_networks s ≫= λ n, n_id n :: n_name n :: n_driver n :: n_members n)
  ++ (s_volumes s ≫= λ v, v_id v :: v_name v :: v_attached_to v).

Definition ownership_strings (o : RuntimeOwnership) : list rstr := ro_name o :: opt_strings (ro_id o).
Definition location_strings (l : RuntimeLocation) : list rstr := rloc_value l :: opt_strings (rloc_detail l).
Definition from_opt {A} (f : A → list rstr) (o : option A) : list rstr :=
  match o with Some x => f x | None => [] end.

Definition service_strings (s : RuntimeServiceEntity) : list rstr :=
  rs_name s :: rs_dependencies s ++ rs_dependents s
  ++ from_opt (λ h, opt_strings (rh_source h) ++ opt_strings (rh_message h)) (rs_health s)
  ++ (rs_logs s ≫= λ l, [rl_id l; rl_source l])
  ++ from_opt ownership_strings (rs_owner s) ++ from_opt location_strings (rs_location s).

Definition advisory_strings (a : RuntimePackageAdvisory) : list rstr :=
  pa_id a :: pa_source a :: pa_title a :: opt_strings (pa_fixed_version a) ++ opt_strings (pa_url a).

Definition package_strings (p : RuntimePackageEntity) : list rstr :=
  rp_name p :: rp_version p :: rp_dependencies p ++ rp_dependents p
  ++ from_opt (λ u, pu_current_version u :: opt_strings (pu_latest_version u)
                    ++ (pu_advisories u ≫= advisory_strings)) (rp_update p)
  ++ from_opt ownership_strings (rp_owner p) ++ from_opt location_strings (rp_location p).

(** Metadata keys are literals of the collectors; the values are provider text. *)
Definition node_strings (n : RuntimeMapNode) : list rstr :=
  rn_id n :: rn_label n :: opt_strings (rn_status n) ++ (map_to_list (rn_metadata n)).*2
  ++ from_opt service_strings (rn_service n) ++ from_opt package_strings (rn_package n).

Definition evidence_strings (ev : RuntimeEvidenceRef) : list rstr :=
  [ev_id ev; ev_summary ev; ev_subject_ref ev; ev_provider_revision ev].

Definition edge_strings (e : RuntimeMapEdge) : list rstr :=
  re_source e :: re_target e :: (map_to_list (re_metadata e)).*2 ++ (re_evidence_refs e ≫= evidence_strings).

Definition map_strings (m : RuntimeMap) : list rstr :=
  (rm_nodes m ≫= node_strings) ++ (rm_edges m ≫= edge_strings) ++ (rd_message <$> rm_diagnostics m).

Definition origin_strings (o : ComposeFileOrigin) : list rstr :=
  co_file o :: co_field o :: opt_strings (co_service o).
Definition compose_diagnostic_strings (d : ComposeDiagnostic) : list rstr :=
  cd_id d :: cd_message d :: origin_strings (cd_origin d).

Definition scan_strings (s : ComposeScan) : list rstr :=
  csc_files s ++ [csc_project_root s]
  ++ (csc_services s ≫= λ c, cs_name c :: opt_strings (cs_image c)
        ++ (map_to_list (cs_environment c)).*1 ++ (map_to_list (cs_environment c)).*2 ++ cs_depends_on c)
  ++ (csc_mounts s ≫= λ m, cmt_id m :: cmt_service m :: cmt_target m :: opt_strings (cmt_source m)
        ++ opt_strings (cmt_resolved_source m) ++ origin_strings (cmt_origin m))
  ++ (csc_correlations s ≫= λ c, mc_id c :: mc_service c :: mc_target c :: opt_strings (mc_container c)
        ++ opt_strings (mc_compose_mount_id c) ++ opt_strings (mc_declared_source c)
        ++ opt_strings (mc_runtime_source c))
  ++ (csc_diagnostics s ≫= compose_diagnostic_strings).

Definition plan_strings (p : ComposeEditPlan) : list rstr :=
  cep_file p :: cep_service p :: cep_mount_id p :: cep_original_target p
  :: opt_strings (cep_original_source p) ++ opt_strings (cep_new_source p) ++ opt_strings (cep_new_target p)
  ++ (cep_diagnostics p ≫= compose_diagnostic_strings).

(** *** Proving them safe

    [safe_strings] splits a list of strings along its structure and closes every leaf with
    [redact_safe]. *)

Lemma Forall_bind_fmap {A B} (P : rstr → Prop) (f : B → list rstr) (g : A → B) l :
  (∀ x, Forall P (f (g x))) → Forall P ((g <$> l) ≫= f).
Proof.
  intros H. apply Forall_forall. intros s (y & Hs & (x & -> & _)%list_elem_of_fmap)%list_elem_of_bind.
  specialize (H x). rewrite Forall_forall in H. auto.
Qed.

Lemma Forall_from_opt {A B} (P : rstr → Prop) (f : B → list rstr) (g : A → B) o :
  (∀ x, Forall P (f (g x))) → Forall P (from_opt f (g <$> o)).
Proof. intros H. destruct o; [apply H|constructor]. Qed.

Lemma safe_opt o : Forall safe_text (opt_strings (redact <$> o)).
Proof. destruct o; repeat constructor; apply redact_safe. Qed.

Lemma safe_fmap l : Forall safe_text (redact <$> l).
Proof. apply Forall_fmap, Forall_true. intros x. apply redact_safe. Qed.

Lemma safe_metadata (m : gmap rstr rstr) : Forall safe_text (map_to_list (redact <$> m)).*2.
Proof.
  apply Forall_forall. intros s ([k v] & -> & Hin)%list_elem_of_fmap.
  apply elem_of_map_to_list in Hin. rewrite lookup_fmap in Hin.
  apply fmap_Some in Hin as (x & _ & ->). apply redact_safe.
Qed.

Ltac safe_strings :=
  repeat first
    [ apply redact_safe | apply safe_opt | apply safe_fmap | apply safe_metadata
    | apply Forall_nil_2 | apply Forall_cons; split | apply Forall_app; split
    | apply Forall_bind_fmap; intros ? | apply Forall_from_opt; intros ? ].

Lemma publish_snapshot_safe s : Forall safe_text (snapshot_strings (publish_docker_snapshot s)).
Proof.
  unfold snapshot_strings, publish_docker_snapshot, redact_docker_snapshot. cbn [s_containers s_images s_networks s_volumes].
  safe_strings; cbn; safe_strings.
Qed.

Lemma redact_node_safe n : Forall safe_text (node_strings (redact_runtime_node n)).
Proof.
  unfold node_strings, service_strings, package_strings, ownership_strings, location_strings,
    advisory_strings.
  cbn; safe_strings; cbn; safe_strings; cbn; safe_strings.
Qed.

Lemma redact_evidence_text_safe t : safe_text (redact_evidence_text t).
Proof. apply truncate_safe, redact_safe. Qed.

Lemma redact_evidence_safe ev : Forall safe_text (evidence_strings (redact_evidence ev)).
Proof.
  unfold evidence_strings. cbn. repeat constructor; try apply redact_evidence_text_safe; apply redact_safe.
Qed.

Lemma Forall_bind {A} (P : rstr → Prop) (f : A → list rstr) l :
  (∀ x, x ∈ l → Forall P (f x)) → Forall P (l ≫= f).
Proof.
  intros H. apply Forall_forall. intros s (y & Hs & Hy)%list_elem_of_bind.
  specialize (H y Hy). rewrite Forall_forall in H. auto.
Qed.

Lemma publish_compose_diagnostic_safe d :
  Forall safe_text (compose_diagnostic_strings (redact_compose_diagnostic d)).
Proof. unfold compose_diagnostic_strings, origin_strings. cbn. safe_strings. Qed.

(** The environment loop keeps published keys and values only, and accounts for every entry. *)
Lemma publish_environment_spec file service environment :
  let '(published, collisions) := publish_environment file service environment in
  (∀ k v, published !! k = Some v → safe_text k ∧ safe_text v) ∧
  size published + length collisions = size environment ∧
  ∀ k v, environment !! k = Some v → is_Some (published !! redact k).
Proof.
  unfold publish_environment.
  assert (Hgo : ∀ (l : list (rstr * rstr)) (m : gmap rstr rstr) c, (∀ k v, m !! k = Some v → safe_text k ∧ safe_text v) →
    let '(published, collisions) := foldl (λ '(published, collisions) '(key, value),
       if is_some (published !! redact key)
       then (published, collisions ++ [collision_diagnostic file service])
       else (<[redact key := redact value]> published, collisions)) (m, c) l in
    (∀ k v, published !! k = Some v → safe_text k ∧ safe_text v) ∧
    size published + length collisions = size m + length c + length l ∧
    (∀ k, is_Some (m !! k) → is_Some (published !! k)) ∧
    ∀ k v, (k, v) ∈ l → is_Some (published !! redact k)).
  { induction l as [|[k v] l IH]; intros m c Hm; cbn [foldl].
    { split_and!; [done|simpl; lia|done|set_solver]. }
    destruct (m !! redact k) as [x|] eqn:E; cbn [is_some].
    - specialize (IH m (c ++ [collision_diagnostic file service]) Hm).
      destruct (foldl _ _ l) as [published collisions]. destruct IH as (H1 & H2 & H3 & H4).
      rewrite length_app in H2. simpl length in *.
      split_and!; [done|lia|done|]. intros k' v' [[= -> ->]|Hin]%elem_of_cons; [|eauto].
      apply H3. by exists x.
    - assert (Hm' : ∀ k' v', <[redact k := redact v]> m !! k' = Some v' → safe_text k' ∧ safe_text v').
      { intros k' v' [[<- <-]|[_ Hk]]%lookup_insert_Some; [split; apply redact_safe|eauto]. }
      specialize (IH _ c Hm'). rewrite map_size_insert_None in IH by done.
      destruct (foldl _ _ l) as [published collisions]. destruct IH as (H1 & H2 & H3 & H4).
      simpl length. split_and!; [done|lia| |].
      + intros k' Hk'. apply H3. destruct (decide (redact k = k')) as [<-|Hne].
        * rewrite lookup_insert_eq. by eexists.
        * by rewrite lookup_insert_ne.
      + intros k' v' [[= -> ->]|Hin]%elem_of_cons; [|eauto]. apply H3.
        rewrite lookup_insert_eq. by eexists. }
  specialize (Hgo (btree_iter environment) ∅ [] ltac:(intros k v; by rewrite lookup_empty)).
  destruct (foldl _ _ _) as [published collisions]. destruct Hgo as (H1 & H2 & _ & H4).
  split_and!; [done| |].
  - rewrite map_size_empty in H2. simpl in H2. unfold btree_iter in H2. rewrite length_sort_by in H2.
    by rewrite length_map_to_list in H2.
  - intros k v Hk. apply (H4 k v). by apply elem_of_btree_iter.
Qed.

Lemma publish_environment_safe file service environment :
  let published := (publish_environment file service environment).1 in
  Forall safe_text (map_to_list published).*1 ∧ Forall safe_text (map_to_list published).*2.
Proof.
  pose proof (publish_environment_spec file service environment) as H.
  destruct (publish_environment _ _ _) as [published collisions]. destruct H as (H & _). simpl.
  split; apply Forall_forall; intros s ([k v] & -> & Hin)%list_elem_of_fmap;
    apply elem_of_map_to_list in Hin; by destruct (H k v Hin).
Qed.

Lemma publish_scan_safe scan : Forall safe_text (scan_strings (redact_compose_scan scan)).
Proof.
  unfold scan_strings, redact_compose_scan.
  cbn [csc_files csc_project_root csc_services csc_mounts csc_correlations csc_diagnostics].
  repeat (apply Forall_app; split).
  - apply safe_fmap.
  - repeat constructor; apply redact_safe.
  - apply Forall_bind. intros c ((s & ?) & -> & (s0 & E & _)%list_elem_of_fmap)%list_elem_of_fmap.
    unfold redact_compose_service in E.
    set (file := default [] _) in E.
    pose proof (publish_environment_safe file (redact (cs_name s0)) (cs_environment s0)) as [Hk Hv].
    destruct (publish_environment _ _ _) as [env coll]. injection E as -> _. cbn.
    simpl in Hk, Hv. safe_strings; assumption.
  - safe_strings; cbn; safe_strings.
  - safe_strings; cbn; safe_strings.
  - apply Forall_bind_fmap. intros d. apply publish_compose_diagnostic_safe.
Qed.

Lemma publish_plan_safe p : Forall safe_text (plan_strings (redact_compose_edit_plan p)).
Proof.
  unfold plan_strings. cbn. safe_strings.
Qed.

(** ** Properties of the boundary *)

(** Every provider-controlled string of a published inventory, Compose scan or edit plan
    (the diff apart, which [published_diff] covers) is safe, and publication keeps the shape
    of the inventory: as many containers, images, networks and volumes, in order, with their
    flags. *)
Theorem published_records_safe s scan plan :
  Forall safe_text (snapshot_strings (publish_docker_snapshot s)) ∧
  Forall safe_text (scan_strings (redact_compose_scan scan)) ∧
  Forall safe_text (plan_strings (redact_compose_edit_plan plan)) ∧
  (c_publishes_on_unspecified_address <$> s_containers (publish_docker_snapshot s)
     = c_publishes_on_unspecified_address <$> s_containers s) ∧
  (n_internal <$> s_networks (publish_docker_snapshot s) = n_internal <$> s_networks s) ∧
  length (s_images (publish_docker_snapshot s)) = length (s_images s) ∧
  length (s_volumes (publish_docker_snapshot s)) = length (s_volumes s).
Proof.
  split_and!; [apply publish_snapshot_safe|apply publish_scan_safe|apply publish_plan_safe| | | |];
    simpl; rewrite ?length_fmap, <- ?list_fmap_compose; try done; by apply list_fmap_ext.
Qed.

(** Publishing a service's environment loses nothing silently: every raw key is present
    under its published name, and each entry is either kept or reported by one collision
    diagnostic. *)
Theorem published_environment_accounted file service environment :
  let '(published, collisions) := publish_environment file service environment in
  size published + length collisions = size environment ∧
  (∀ k v, environment !! k = Some v → is_Some (published !! redact k)) ∧
  (∀ k v, published !! k = Some v → safe_text k ∧ safe_text v) ∧
  Forall (λ d, d = collision_diagnostic file service) collisions.
Proof.
  pose proof (publish_environment_spec file service environment) as Hs.
  assert (Hd : Forall (λ d, d = collision_diagnostic file service)
                 (publish_environment file service environment).2).
  { unfold publish_environment. generalize (btree_iter environment).
    cut (∀ l (m : gmap rstr rstr) c, Forall (λ d, d = collision_diagnostic file service) c →
      Forall (λ d, d = collision_diagnostic file service)
        (foldl (λ '(published, collisions) '(key, value),
           if is_some (published !! redact key)
           then (published, collisions ++ [collision_diagnostic file service])
           else (<[redact key := redact value]> published, collisions)) (m, c) l).2).
    { intros H l. apply H. constructor. }
    induction l as [|[k v] l IH]; intros m c Hc; simpl; [done|].
    case_if E; apply IH; [|done]. apply Forall_app. split; [done|by repeat constructor]. }
  destruct (publish_environment file service environment) as [published collisions].
  destruct Hs as (H1 & H2 & H3). by split_and!.
Qed.

(** *** Idempotence and order *)

Lemma redact_idem t : redact (redact t) = redact t.
Proof. apply redact_id, redact_safe. Qed.

Lemma truncate_idem t n : truncate_chars (truncate_chars t n) n = truncate_chars t n.
Proof.
  destruct (decide (length t ≤ n)) as [Hle|Hgt]; [by rewrite !(truncate_id t) by done|].
  assert (Hlong : ∀ u, n < length u → truncate_chars u n = take n u ++ lit "...").
  { intros u Hu. unfold truncate_chars, char_count. by rewrite (proj2 (Nat.ltb_lt n (length u))). }
  rewrite (Hlong t) by lia. rewrite Hlong; [|rewrite length_app, length_take; simpl; lia].
  f_equal. rewrite take_app_le by (rewrite length_take; lia). by rewrite take_take, Nat.min_id.
Qed.

Lemma redact_evidence_text_idem t : redact_evidence_text (redact_evidence_text t) = redact_evidence_text t.
Proof.
  unfold redact_evidence_text at 1. rewrite redact_id by apply redact_evidence_text_safe.
  apply truncate_idem.
Qed.

Lemma redact_evidence_idem ev : redact_evidence (redact_evidence ev) = redact_evidence ev.
Proof. unfold redact_evidence. simpl. by rewrite !redact_evidence_text_idem, redact_idem. Qed.

Lemma fmap_idem {A} (f : A → A) (l : list A) : (∀ x, f (f x) = f x) → f <$> (f <$> l) = f <$> l.
Proof. intros Hf. rewrite <- list_fmap_compose. apply list_fmap_ext. intros i x _. apply Hf. Qed.

Lemma opt_idem {A} (f : A → A) (o : option A) : (∀ x, f (f x) = f x) → f <$> (f <$> o) = f <$> o.
Proof. intros Hf. destruct o as [x|]; [|done]. simpl. by rewrite Hf. Qed.

Lemma map_idem (m : gmap rstr rstr) : redact <$> (redact <$> m) = redact <$> m.
Proof. rewrite <- map_fmap_compose. apply map_fmap_ext. intros i x _. apply redact_idem. Qed.


Ltac idem := intros []; simpl; rewrite ?redact_idem, ?map_idem, ?(fmap_idem redact), ?(opt_idem redact)
  by (intros; apply redact_idem).

Lemma redact_ownership_idem o : redact_ownership (redact_ownership o) = redact_ownership o.
Proof. revert o. unfold redact_ownership. by idem. Qed.
Lemma redact_location_idem l : redact_location (redact_location l) = redact_location l.
Proof. revert l. unfold redact_location. by idem. Qed.
Lemma redact_health_idem h : redact_health (redact_health h) = redact_health h.
Proof. revert h. unfold redact_health. by idem. Qed.
Lemma redact_log_ref_idem l : redact_log_ref (redact_log_ref l) = redact_log_ref l.
Proof. revert l. unfold redact_log_ref. by idem. Qed.
Lemma redact_advisory_idem a : redact_advisory (redact_advisory a) = redact_advisory a.
Proof. revert a. unfold redact_advisory. by idem. Qed.

Lemma redact_service_idem s : redact_service_entity (redact_service_entity s) = redact_service_entity s.
Proof.
  unfold redact_service_entity. simpl.
  rewrite redact_idem, !(fmap_idem redact), (opt_idem redact_health), (fmap_idem redact_log_ref),
    (opt_idem redact_ownership), (opt_idem redact_location);
    auto using redact_idem, redact_health_idem, redact_log_ref_idem, redact_ownership_idem,
      redact_location_idem.
Qed.

Lemma redact_update_idem u : redact_update (redact_update u) = redact_update u.
Proof.
  unfold redact_update. simpl. rewrite redact_idem, (opt_idem redact), (fmap_idem redact_advisory);
    auto using redact_idem, redact_advisory_idem.
Qed.

Lemma redact_package_idem p : redact_package_entity (redact_package_entity p) = redact_package_entity p.
Proof.
  unfold redact_package_entity. simpl.
  rewrite !redact_idem, !(fmap_idem redact), (opt_idem redact_update), (opt_idem redact_ownership),
    (opt_idem redact_location);
    auto using redact_idem, redact_update_idem, redact_ownership_idem, redact_location_idem.
Qed.

Lemma redact_node_idem n : redact_runtime_node (redact_runtime_node n) = redact_runtime_node n.
Proof.
  unfold redact_runtime_node. simpl.
  rewrite !redact_idem, map_idem, (opt_idem redact), (opt_idem redact_service_entity),
    (opt_idem redact_package_entity); auto using redact_idem, redact_service_idem, redact_package_idem.
Qed.

(** *** The published map *)

Lemma sort_by_sorted_id {A} (leb : A → A → bool) (l : list A) :
  StronglySorted (λ x y, leb x y = true) l → sort_by leb l = l.
Proof.
  induction 1 as [|x l Hs IH Hx]; [done|]. simpl. rewrite IH. destruct l as [|y l]; [done|].
  simpl. apply Forall_cons in Hx as [-> _]. done.
Qed.

Lemma dedup_sorted {A} `{EqDecision A} (R : relation A) (l : list A) :
  StronglySorted R l → StronglySorted R (dedup l).
Proof.
  induction 1 as [|x l Hs IH Hx]; [constructor|]. simpl. destruct l as [|y l]; [by repeat constructor|].
  case_bool_decide; [done|]. constructor; [done|].
  apply Forall_forall. intros z Hz. rewrite Forall_forall in Hx.
  apply Hx, (elem_of_dedup (y :: l)), Hz.
Qed.

Lemma dedup_NoDup_id {A} `{EqDecision A} (l : list A) : NoDup l → dedup l = l.
Proof.
  induction 1 as [|x l Hx Hl IH]; [done|]. simpl. rewrite IH. destruct l as [|y l]; [done|].
  rewrite bool_decide_eq_false_2; [done|]. intros ->. apply Hx. left.
Qed.

Section map.
Context `{Json RuntimeMapNode} `{Json RuntimeMapEdge} `{Json RuntimeEvidenceRef}.

(** What a published edge is: safe text and evidence that attests this edge. *)
Lemma redact_edge_safe e :
  Forall safe_text (edge_strings (redact_runtime_edge e)) ∧
  has_valid_evidence_refs (redact_runtime_edge e) = true.
Proof.
  unfold redact_runtime_edge. set (edge := {| re_source := _ |}).
  destruct (has_valid_evidence_refs edge) eqn:Ev; simpl; split; try done.
  - unfold edge_strings, edge. simpl. safe_strings.
    apply Forall_bind. intros ev (ev0 & -> & _)%elem_of_sort_by_json%list_elem_of_fmap.
    apply redact_evidence_safe.
  - unfold edge_strings. simpl. safe_strings.
Qed.

Lemma redact_refs_idem refs :
  redact_runtime_evidence_refs (redact_runtime_evidence_refs refs) = redact_runtime_evidence_refs refs.
Proof.
  unfold redact_runtime_evidence_refs. transitivity (sort_by_json (redact_evidence <$> (redact_evidence <$> refs))).
  - apply sort_by_json_canonical. by rewrite sort_by_json_Permutation.
  - by rewrite (fmap_idem redact_evidence refs redact_evidence_idem).
Qed.

Lemma redact_edge_idem e : redact_runtime_edge (redact_runtime_edge e) = redact_runtime_edge e.
Proof.
  unfold redact_runtime_edge at 2 3. set (edge := {| re_source := _ |}).
  destruct (has_valid_evidence_refs edge) eqn:Ev; simpl; unfold redact_runtime_edge; simpl.
  - rewrite !redact_idem, map_idem, redact_refs_idem. fold edge. by rewrite Ev.
  - by rewrite !redact_idem, map_idem.
Qed.

Definition endpoints_exist (m : RuntimeMap) : Prop :=
  ∀ e, e ∈ rm_edges m → re_source e ∈ rn_id <$> rm_nodes m ∧ re_target e ∈ rn_id <$> rm_nodes m.

Lemma elem_of_normalized_edges m e :
  e ∈ rm_edges (normalize_runtime_map_topology m) ↔
  e ∈ rm_edges m ∧ re_source e ∈ rn_id <$> rm_nodes m ∧ re_target e ∈ rn_id <$> rm_nodes m.
Proof.
  simpl. rewrite elem_of_dedup, elem_of_sort_by_json, elem_of_filterb, andb_true_iff.
  unfold one_of. rewrite !bool_decide_eq_true.
  rewrite (sort_by_json_Permutation (rm_nodes m)). tauto.
Qed.

Lemma normalized_sorted m :
  StronglySorted (λ x y, key_leb x y = true) (rm_nodes (normalize_runtime_map_topology m)) ∧
  StronglySorted (λ x y, key_leb x y = true) (rm_edges (normalize_runtime_map_topology m)) ∧
  NoDup (rm_edges (normalize_runtime_map_topology m)).
Proof.
  simpl. split_and!; [apply sort_by_json_sorted|apply dedup_sorted, sort_by_json_sorted|].
  eapply dedup_NoDup; [|apply sort_by_json_sorted]. simpl. eauto using key_leb_antisym.
Qed.

(** Two maps with the same records in any order. *)
Definition same_map (m m' : RuntimeMap) : Prop :=
  rm_nodes m ≡ₚ rm_nodes m' ∧ rm_edges m ≡ₚ rm_edges m' ∧ rm_diagnostics m = rm_diagnostics m' ∧
  rm_last_updated m = rm_last_updated m' ∧ rm_model_revision m = rm_model_revision m' ∧
  rm_provider_states m = rm_provider_states m' ∧ rm_source m = rm_source m'.

Lemma one_of_Permutation {A} `{EqDecision A} (x : A) (l l' : list A) : l ≡ₚ l' → one_of x l = one_of x l'.
Proof. intros Hl. unfold one_of. apply bool_decide_ext. by rewrite Hl. Qed.

Lemma normalize_canonical m m' :
  same_map m m' → normalize_runtime_map_topology m = normalize_runtime_map_topology m'.
Proof.
  intros (Hn & He & Hd & Hl & Hr & Hp & Hs). unfold normalize_runtime_map_topology, with_topology.
  rewrite Hd, Hl, Hr, Hp, Hs, (sort_by_json_canonical _ _ Hn).
  do 2 f_equal. apply sort_by_json_canonical. by rewrite He.
Qed.

#[export] Instance redact_nodes_Permutation : Proper ((≡ₚ) ==> (≡ₚ)) redact_runtime_nodes.
Proof. intros l l' Hl. unfold redact_runtime_nodes. by rewrite Hl. Qed.

#[export] Instance redact_edges_Permutation : Proper ((≡ₚ) ==> (≡ₚ)) redact_runtime_edges.
Proof. intros l l' Hl. unfold redact_runtime_edges. by rewrite Hl. Qed.

Lemma redact_map_canonical m m' : same_map m m' → redact_runtime_map m = redact_runtime_map m'.
Proof.
  intros (Hn & He & Hd & ?). apply normalize_canonical. split_and!; simpl; try tauto.
  - by rewrite Hn.
  - by rewrite He.
  - by rewrite Hd.
Qed.

Lemma redact_diagnostics_idem l :
  redact_runtime_diagnostics (redact_runtime_diagnostics l) = redact_runtime_diagnostics l.
Proof.
  unfold redact_runtime_diagnostics. apply fmap_idem. intros []. simpl. by rewrite redact_idem.
Qed.

(** A map that already is its own publication, record by record. *)
Lemma redact_map_fixed m :
  redact_runtime_nodes (rm_nodes m) = rm_nodes m → redact_runtime_edges (rm_edges m) = rm_edges m →
  redact_runtime_diagnostics (rm_diagnostics m) = rm_diagnostics m →
  StronglySorted (λ x y, key_leb x y = true) (rm_nodes m) →
  StronglySorted (λ x y, key_leb x y = true) (rm_edges m) → NoDup (rm_edges m) →
  endpoints_exist m → redact_runtime_map m = m.
Proof.
  intros Hn He Hd Hsn Hse Hnd Hend. unfold redact_runtime_map, normalize_runtime_map_topology. simpl.
  rewrite Hn, He, Hd. unfold sort_by_json. rewrite (sort_by_sorted_id _ (rm_nodes m)) by done.
  rewrite filterb_all; cycle 1.
  { intros e [Hsrc Htgt]%Hend. unfold one_of. by rewrite !bool_decide_eq_true_2. }
  rewrite (sort_by_sorted_id _ (rm_edges m)), dedup_NoDup_id by done. by destruct m.
Qed.

Lemma fmap_fixed {A} (f : A → A) (l : list A) : (∀ x, x ∈ l → f x = x) → f <$> l = l.
Proof.
  intros Hf. induction l as [|x l IH]; [done|].
  rewrite fmap_cons, Hf, IH by set_solver. done.
Qed.

(** What a published map is made of. *)
Lemma redact_map_facts m :
  let p := redact_runtime_map m in
  rm_nodes p ≡ₚ redact_runtime_nodes (rm_nodes m) ∧
  Forall safe_text (map_strings p) ∧ endpoints_exist p ∧ NoDup (rm_edges p) ∧
  Forall (λ e, has_valid_evidence_refs e = true ∧
               ∃ e0, e0 ∈ rm_edges m ∧ e = redact_runtime_edge e0) (rm_edges p).
Proof.
  intros p.
  assert (Hnodes : rm_nodes p ≡ₚ redact_runtime_nodes (rm_nodes m)) by apply sort_by_json_Permutation.
  set (r := {| rm_nodes := redact_runtime_nodes (rm_nodes m);
               rm_edges := redact_runtime_edges (rm_edges m);
               rm_diagnostics := redact_runtime_diagnostics (rm_diagnostics m);
               rm_last_updated := rm_last_updated m; rm_model_revision := rm_model_revision m;
               rm_provider_states := rm_provider_states m; rm_source := rm_source m |}).
  destruct (normalized_sorted r) as (_ & _ & Hnd).
  assert (Hedge : ∀ e, e ∈ rm_edges p → ∃ e0, e0 ∈ rm_edges m ∧ e = redact_runtime_edge e0).
  { intros e He. apply (elem_of_normalized_edges r e) in He as [He _].
    apply list_elem_of_fmap in He as (e0 & -> & He0). eauto. }
  split_and!; try done.
  - unfold map_strings. rewrite !Forall_app. split_and!.
    + apply Forall_bind. intros n Hn. rewrite Hnodes in Hn.
      apply list_elem_of_fmap in Hn as (n0 & -> & _). apply redact_node_safe.
    + apply Forall_bind. intros e (e0 & _ & ->)%Hedge. apply redact_edge_safe.
    + change (rm_diagnostics p) with (redact_runtime_diagnostics (rm_diagnostics m)).
      unfold redact_runtime_diagnostics. rewrite <- list_fmap_compose.
      apply Forall_fmap, Forall_true. intros d. apply redact_safe.
  - intros e He. apply (elem_of_normalized_edges r e) in He as (_ & Hsrc & Htgt).
    rewrite Hnodes. done.
  - apply Forall_forall. intros e He. destruct (Hedge e He) as (e0 & He0 & ->).
    split; [apply redact_edge_safe|eauto].
Qed.

(** C16: The published runtime map. No observed node is dropped: its nodes are the redacted
    nodes, reordered. Every string is safe; every edge joins two published nodes and carries
    only evidence the model accepts on that edge; edges are distinct. The result does not
    depend on the order in which collectors produced nodes and edges, and publishing a
    published map changes nothing. *)
Theorem published_map_spec m :
  let p := redact_runtime_map m in
  rm_nodes p ≡ₚ redact_runtime_nodes (rm_nodes m) ∧
  Forall safe_text (map_strings p) ∧ endpoints_exist p ∧ NoDup (rm_edges p) ∧
  Forall (λ e, has_valid_evidence_refs e = true ∧
               ∃ e0, e0 ∈ rm_edges m ∧ e = redact_runtime_edge e0) (rm_edges p) ∧
  (∀ m', same_map m m' → redact_runtime_map m' = p) ∧ redact_runtime_map p = p.
Proof.
  intros p. destruct (redact_map_facts m) as (Hnodes & Hsafe & Hend & Hnd & Hedges). fold p in Hnodes, Hsafe, Hend, Hnd, Hedges.
  split_and!; try done; [intros m' Hm'; symmetry; by apply redact_map_canonical|].
  set (r := {| rm_nodes := redact_runtime_nodes (rm_nodes m);
               rm_edges := redact_runtime_edges (rm_edges m);
               rm_diagnostics := redact_runtime_diagnostics (rm_diagnostics m);
               rm_last_updated := rm_last_updated m; rm_model_revision := rm_model_revision m;
               rm_provider_states := rm_provider_states m; rm_source := rm_source m |}).
  destruct (normalized_sorted r) as (Hsn & Hse & _).
  apply redact_map_fixed; try done.
  - apply fmap_fixed. intros n Hn. rewrite Hnodes in Hn.
    apply list_elem_of_fmap in Hn as (n0 & -> & _). apply redact_node_idem.
  - apply fmap_fixed. intros e He. rewrite Forall_forall in Hedges.
    destruct (Hedges e He) as (_ & e0 & _ & ->). apply redact_edge_idem.
  - apply redact_diagnostics_idem.
Qed.
End map.

(** *** Collisions *)

Lemma has_collision_spec m :
  runtime_map_has_identity_collision m = true ↔ ¬ NoDup (rn_id <$> rm_nodes m).
Proof.
  unfold runtime_map_has_identity_collision.
  by rewrite negb_true_iff, bool_decide_eq_false, no_duplicate_ids.
Qed.

Section collision.
Context `{Json RuntimeMapNode} `{Json RuntimeMapEdge} `{Json RuntimeEvidenceRef}.

Lemma collision_edge_valid provider_revision collected_at :
  evidence_text_ok provider_revision = true →
  has_valid_evidence_refs (collision_edge provider_revision collected_at) = true.
Proof.
  intros Hr. unfold has_valid_evidence_refs. simpl. rewrite andb_true_r.
  apply evidence_ref_matches_edge_spec. simpl. split_and!; [by vm_compute..|done|done|by vm_compute|by vm_compute].
Qed.

(** The aggregate integrity fact. The collision test is exactly "two published nodes
    share an id". The fact is added only under a non-empty revision and when neither reserved
    id is taken (so provider nodes cannot pose as its endpoints); it adds the two reserved
    nodes and one edge whose evidence the model accepts, keeps everything else, and neither
    creates nor hides a collision. Otherwise the map is unchanged. *)
Theorem collision_fact_spec m provider_revision collected_at :
  (runtime_map_has_identity_collision m = true ↔ ¬ NoDup (rn_id <$> rm_nodes m)) ∧
  let '(m', added) := append_runtime_identity_collision_fact m provider_revision collected_at in
  (added = true ↔ provider_revision ≠ [] ∧ (SCOPE_ID ∉ rn_id <$> rm_nodes m) ∧
                  (RISK_ID ∉ rn_id <$> rm_nodes m)) ∧
  if added then
    (∃ scope risk, rn_id scope = SCOPE_ID ∧ rn_id risk = RISK_ID ∧
       rm_nodes m' ≡ₚ rm_nodes m ++ [scope; risk]) ∧
    rm_edges m' ≡ₚ rm_edges m ++ [collision_edge provider_revision collected_at] ∧
    (length provider_revision ≤ 259 →
       has_valid_evidence_refs (collision_edge provider_revision collected_at) = true) ∧
    runtime_map_has_identity_collision m' = runtime_map_has_identity_collision m
  else m' = m.
Proof.
  split; [apply has_collision_spec|].
  unfold append_runtime_identity_collision_fact.
  assert (Hres : existsb (λ node, one_of (rn_id node) [SCOPE_ID; RISK_ID]) (rm_nodes m) = false ↔
    (SCOPE_ID ∉ rn_id <$> rm_nodes m) ∧ (RISK_ID ∉ rn_id <$> rm_nodes m)).
  { rewrite <- not_true_iff_false, existsb_exists. unfold one_of. split.
    - intros Hn. split; intros (n & E & Hin)%list_elem_of_fmap; apply Hn; exists n;
        (split; [by apply list_elem_of_In|]); rewrite <- E; apply bool_decide_eq_true; set_solver.
    - intros [H2 H3] (n & Hin%list_elem_of_In & Hb%bool_decide_eq_true).
      rewrite !elem_of_cons, elem_of_nil in Hb.
      destruct Hb as [E|[E|[]]]; [apply H2|apply H3]; rewrite <- E; by apply list_elem_of_fmap_2. }
  destruct (provider_revision == []) eqn:Er; simpl.
  { apply bool_decide_eq_true in Er. naive_solver. }
  apply bool_decide_eq_false in Er.
  destruct (existsb _ _) eqn:Ee; [naive_solver|].
  destruct (proj1 Hres eq_refl) as [Hs Hk]. split; [done|]. split_and!.
  - eexists _, _. split; [|split; [|apply sort_by_json_Permutation]]; done.
  - apply sort_by_json_Permutation.
  - intros Hl. apply collision_edge_valid, evidence_text_ok_spec. done.
  - apply eq_bool_prop_intro. rewrite !Is_true_true, !has_collision_spec. cbn [rm_nodes with_topology].
    rewrite (fmap_Permutation rn_id _ _ (sort_by_json_Permutation _)), fmap_app, NoDup_app.
    split; intros Hn Hd; apply Hn.
    + split_and!; [done| |].
      * intros x Hx. simpl. rewrite !not_elem_of_cons. split_and!; [by intros ->..|apply not_elem_of_nil].
      * simpl. apply NoDup_cons. split; [intros HH; refute HH|apply NoDup_singleton].
    + by destruct Hd as [? _].
Qed.
End collision.
