(* ===== verification/Graph.v ===== *)
(** * The Docker graph ([crates/dockermap-core/src/snapshot_runtime.rs])

    [derive_images], the port discriminant and [derive_graph] with its identity indices. A
    reference to a container record is its position in the snapshot, so that [std::ptr::eq]
    is equality of positions. *)

From S2P Require Import Prelude RustStr RustNum Models Serial.

(** ** Images *)

Definition group_names (m : gmap rstr (gset rstr)) (c : ContainerRecord) : gmap rstr (gset rstr) :=
  <[c_image c := {[c_name c]} ∪ default ∅ (m !! c_image c)]> m.

Definition first_status (m : gmap rstr rstr) (c : ContainerRecord) : gmap rstr rstr :=
  match m !! c_image c with Some _ => m | None => <[c_image c := c_status c]> m end.

Definition derive_images (s : DockerSnapshot) : list ImageRecord :=
  let grouped := foldl group_names ∅ (s_containers s) in
  let status_by_image := foldl first_status ∅ (s_containers s) in
  (λ p,
     {| im_image := p.1; im_containers := sort_by str_leb (elements p.2);
        im_status := default (lit "unknown") (status_by_image !! p.1) |})
  <$> btree_iter grouped.

(** ** Ports *)

Definition ascii_digits (s : rstr) : bool := forallb is_ascii_digit (utf8_bytes s).

(** A non-empty decimal number that fits a [u16] and is not zero. *)
Definition port_number (s : rstr) : bool :=
  negb (s == []) && ascii_digits s && is_some_and (parse_uint u16_max s) (λ value, (0 <? value)%N).

Definition is_host_published_docker_port (port : rstr) : bool :=
  match split_once 58 port with
  | None => false
  | Some (host, private_and_protocol) =>
      if negb (port_number host) || contains_char private_and_protocol 58 then false
      else match split_once 47 private_and_protocol with
      | None => false
      | Some (private, protocol) =>
          port_number private && one_of protocol ["tcp" : rstr; "udp" : rstr; "sctp" : rstr]
      end
  end.

(** ** Identity indices *)

Definition nonempty (id : rstr) : bool := id != [].

(** [GraphIdentityIndex::count]. *)
Definition count_id (counts : gmap rstr nat) (id : rstr) : gmap rstr nat :=
  if nonempty id then bump counts id else counts.

Record GraphIdentityIndex := {
  gi_node_ids : gmap rstr nat;
  gi_network_ids : gmap rstr nat;
  gi_container_ids : gmap rstr nat
}.

Definition index_from_snapshot (s : DockerSnapshot) : GraphIdentityIndex :=
  let containers := c_id <$> s_containers s in
  let networks := n_id <$> s_networks s in
  let volumes := v_id <$> s_volumes s in
  {| gi_node_ids := foldl count_id (foldl count_id (foldl count_id ∅ containers) networks) volumes;
     gi_network_ids := foldl count_id ∅ networks;
     gi_container_ids := foldl count_id ∅ containers |}.

Definition has_unique_node_id (index : GraphIdentityIndex) (id : rstr) : bool :=
  gi_node_ids index !! id == Some 1.

Definition has_unique_network_id (index : GraphIdentityIndex) (id : rstr) : bool :=
  gi_network_ids index !! id == Some 1.

Definition has_unique_container_id (index : GraphIdentityIndex) (container : ContainerRecord) : bool :=
  (gi_container_ids index !! c_id container == Some 1) && has_unique_node_id index (c_id container).

(** [ContainerAliases]: an alias maps to its container, or to [None] when it is ambiguous. *)
Record ContainerAliases := {
  ca_ids : gmap rstr (option nat);
  ca_names : gmap rstr (option nat);
  ca_roles : gmap rstr (option nat)
}.

Definition alias_insert (aliases : gmap rstr (option nat)) (p : nat * rstr) : gmap rstr (option nat) :=
  let '(container, alias) := p in
  if alias == [] then aliases
  else match aliases !! alias with
  | None => <[alias := Some container]> aliases
  | Some _ => <[alias := None]> aliases
  end.

(** The aliases of the containers, each with its position. *)
Definition alias_map (aliases : list rstr) : gmap rstr (option nat) :=
  foldl alias_insert ∅ (imap pair aliases).

Definition aliases_from_containers (containers : list ContainerRecord) : ContainerAliases := {|
  ca_ids := alias_map (c_id <$> containers);
  ca_names := alias_map (c_name <$> containers);
  ca_roles := alias_map (c_role <$> containers) |}.

Definition has_unique_name (aliases : ContainerAliases) (i : nat) (container : ContainerRecord) : bool :=
  (c_name container != []) && (ca_names aliases !! c_name container == Some (Some i)).

(** The loop over the lookups that found an alias; [?] on an ambiguous one. *)
Fixpoint merge_candidates (candidate : option nat) (lookups : list (option nat)) : option nat :=
  match lookups with
  | [] => candidate
  | lookup :: rest =>
      resolved ← lookup;
      match candidate with
      | Some existing => if existing == resolved then merge_candidates candidate rest else None
      | None => merge_candidates (Some resolved) rest
      end
  end.

Definition dependency_name (dependency : rstr) : rstr :=
  default dependency (strip_prefix "container_" dependency).

(** [Iterator::flatten] on the lookups. *)
Definition flatten_lookups (l : list (option (option nat))) : list (option nat) :=
  omap id l.

Definition resolve_dependency (aliases : ContainerAliases) (dependency : rstr) : option nat :=
  if dependency == [] then None
  else
    let name := dependency_name dependency in
    if name == [] then None
    else merge_candidates None
           (flatten_lookups [ca_roles aliases !! name; ca_names aliases !! name;
                             ca_ids aliases !! dependency]).

(** ** The graph *)

Definition graph_nodes (s : DockerSnapshot) : list GraphNode :=
  ((λ c, {| gn_id := c_id c; gn_kind := NK_Container; gn_label := c_name c |}) <$> s_containers s)
  ++ ((λ n, {| gn_id := n_id n; gn_kind := NK_Network; gn_label := n_name n |}) <$> s_networks s)
  ++ ((λ v, {| gn_id := v_id v; gn_kind := NK_Volume; gn_label := v_name v |}) <$> s_volumes s).

Definition volume_by_attached_container (volumes : list VolumeRecord) : gmap rstr (list VolumeRecord) :=
  foldl (λ mapping volume, foldl (λ mapping attached, push_at mapping attached volume)
           mapping (v_attached_to volume)) ∅ volumes.

(** The three inner loops over a container: its networks, its volumes, its dependencies. *)
Definition network_edges (ids : GraphIdentityIndex) (container : ContainerRecord) : list GraphEdge :=
  c_networks container ≫= λ network_id,
    if has_unique_container_id ids container && has_unique_network_id ids network_id
       && has_unique_node_id ids network_id
    then [{| ge_source := c_id container; ge_target := network_id; ge_relationship := RK_ConnectedTo |}]
    else [].

Definition volume_edges (ids : GraphIdentityIndex) (aliases : ContainerAliases)
    (by_container : gmap rstr (list VolumeRecord)) (i : nat) (container : ContainerRecord) : list GraphEdge :=
  if has_unique_name aliases i container then
    default [] (by_container !! c_name container) ≫= λ volume,
      if has_unique_container_id ids container && has_unique_node_id ids (v_id volume)
      then [{| ge_source := c_id container; ge_target := v_id volume; ge_relationship := RK_Mounts |}]
      else []
  else [].

Definition dependency_edges (ids : GraphIdentityIndex) (aliases : ContainerAliases)
    (containers : list ContainerRecord) (i : nat) (container : ContainerRecord) : list GraphEdge :=
  c_depends_on container ≫= λ dependency,
    match resolve_dependency aliases dependency with
    | None => []
    | Some t =>
        match containers !! t with
        | None => []
        | Some target =>
            if negb (has_unique_container_id ids container)
               || negb (has_unique_container_id ids target) || (i == t)
            then []
            else [{| ge_source := c_id container; ge_target := c_id target;
                     ge_relationship := RK_ConnectedTo |}]
        end
    end.

(** The body of the loop over the containers, for the container at position [i]. *)
Definition container_edges (s : DockerSnapshot) (i : nat) (container : ContainerRecord) : list GraphEdge :=
  let aliases := aliases_from_containers (s_containers s) in
  let ids := index_from_snapshot s in
  network_edges ids container
  ++ volume_edges ids aliases (volume_by_attached_container (s_volumes s)) i container
  ++ dependency_edges ids aliases (s_containers s) i container.

Section graph.
Context `{Json GraphNode} `{Json GraphEdge}.

Definition derive_graph (s : DockerSnapshot) : GraphResponse := {|
  gr_nodes := dedup (sort_by_json (graph_nodes s));
  gr_edges := dedup (sort_by_json (concat (imap (container_edges s) (s_containers s)))) |}.
End graph.

(** ** Ports *)

Lemma port_number_spec (s : rstr) :
  port_number s = true ↔
  Forall (λ c, is_ascii_digit c = true) s ∧
  ∃ n, parse_digits 0 s = Some n ∧ (1 <= n <= u16_max)%N.
Proof.
  unfold port_number, ascii_digits. rewrite !andb_true_iff, negb_true_iff, bool_decide_eq_false.
  assert (Hdig : forallb is_ascii_digit (utf8_bytes s) = true ↔ Forall (λ c, is_ascii_digit c = true) s).
  { rewrite forallb_forall. split.
    - intros Hd. assert (utf8_bytes s = s) as E.
      { apply ascii_utf8, utf8_ascii, Forall_forall. intros b Hb%list_elem_of_In%Hd.
        unfold is_ascii_digit in Hb. apply andb_prop in Hb as [_ Hb%N.leb_le]. lia. }
      rewrite E in Hd. apply Forall_forall. intros c Hc. by apply Hd, list_elem_of_In.
    - intros Hd. rewrite ascii_utf8.
      + intros c Hc%list_elem_of_In. rewrite Forall_forall in Hd. auto.
      + eapply Forall_impl; [exact Hd|]. intros c Hc. unfold is_ascii_digit in Hc.
        apply andb_prop in Hc as [_ Hc%N.leb_le]. lia. }
  rewrite Hdig. assert (Hstrip : Forall (λ c, is_ascii_digit c = true) s → strip_plus s = s).
  { intros Hd. destruct s as [|c s]; [done|]. apply Forall_cons in Hd as [Hc _]. simpl.
    destruct (N.eqb_spec c 43) as [->|]; done. }
  unfold parse_uint, is_some_and. split.
  - intros [[Hne Hd] Hp]. rewrite Hstrip in Hp by done. split; [done|].
    destruct s as [|c s]; [done|]. destruct (parse_digits 0 (c :: s)) as [n|]; [|done].
    simpl in Hp. destruct (N.leb_spec n u16_max); [|done]. apply N.ltb_lt in Hp.
    exists n. split; [done|lia].
  - intros (Hd & n & Hp & Hn). rewrite Hstrip by done. destruct s as [|c s]; [injection Hp as <-; lia|].
    rewrite Hp. simpl. rewrite (proj2 (N.leb_le _ _)) by lia. split; [done|]. apply N.ltb_lt. lia.
Qed.

Lemma digits_notin c s :
  Forall (λ c, is_ascii_digit c = true) s → is_ascii_digit c = false → c ∉ s.
Proof. rewrite Forall_forall. intros Hs Hc Hin%Hs. congruence. Qed.

(** A port string proves a host binding exactly when it reads
    [host:private/protocol] with two decimal numbers from 1 to 65535 and protocol tcp, udp or
    sctp. *)
Theorem host_published_port_spec port :
  is_host_published_docker_port port = true ↔
  ∃ host private protocol : rstr,
    port = host +s+ ":" +s+ private +s+ "/" +s+ protocol ∧
    port_number host = true ∧ port_number private = true ∧
    protocol ∈ ["tcp" : rstr; "udp" : rstr; "sctp" : rstr].
Proof.
  unfold is_host_published_docker_port. split.
  - destruct (split_once 58 port) as [[host rest]|] eqn:E1; [|done].
    case_if Eh; [done|]. apply orb_false_elim in Eh as [Eh _]. apply negb_false_iff in Eh.
    destruct (split_once 47 rest) as [[private protocol]|] eqn:E2; [|done].
    rewrite andb_true_iff. intros [Hp Hproto%bool_decide_eq_true].
    apply split_once_Some in E1 as [-> _]. apply split_once_Some in E2 as [-> _].
    exists host, private, protocol. done.
  - intros (host & private & protocol & -> & Hh & Hp & Hproto).
    pose proof (proj1 (port_number_spec host) Hh) as [Hdh _].
    pose proof (proj1 (port_number_spec private) Hp) as [Hdp _].
    assert (split_once 58 (host +s+ ":" +s+ private +s+ "/" +s+ protocol)
            = Some (host, private +s+ "/" +s+ protocol)) as ->.
    { apply split_once_Some. split; [done|by apply digits_notin]. }
    assert (split_once 47 (private +s+ "/" +s+ protocol) = Some (private, protocol)) as ->.
    { apply split_once_Some. split; [done|by apply digits_notin]. }
    rewrite Hh, Hp. unfold one_of. rewrite (bool_decide_eq_true_2 _ Hproto).
    assert (contains_char (private +s+ "/" +s+ protocol) 58 = false) as ->; [|done].
    apply bool_decide_eq_false. unfold rapp. rewrite !elem_of_app.
    intros [Hin|[Hin|Hin]]; [by eapply digits_notin in Hin|refute Hin|].
    rewrite !elem_of_cons, elem_of_nil in Hproto.
    destruct Hproto as [->|[->|[->|[]]]]; refute Hin.
Qed.

(** ** The indices count *)

Lemma count_id_foldl m l : foldl count_id m l = foldl bump m (filterb nonempty l).
Proof.
  revert m. induction l as [|id l IH]; intros m; simpl; [done|]. rewrite IH.
  unfold count_id. by destruct (nonempty id).
Qed.

(** Occurrences of an id. *)
Definition occurs (id : rstr) (l : list rstr) : nat := count_if (λ x, x == id) l.

Lemma occurs_nonempty (id : rstr) (l : list rstr) : nonempty id = true → occurs id (filterb nonempty l) = occurs id l.
Proof.
  intros Hid. unfold occurs. induction l as [|x l IH]; simpl; [done|].
  destruct (nonempty x) eqn:E; simpl; rewrite IH; [done|].
  rewrite bool_decide_eq_false_2; [done|]. intros ->. congruence.
Qed.

Lemma occurs_empty (l : list rstr) : occurs [] (filterb nonempty l) = 0.
Proof.
  apply count_if_zero. intros x [Hx _]%elem_of_filterb. apply bool_decide_eq_false. intros ->. done.
Qed.

Lemma count_ids_one (l : list rstr) (id : rstr) :
  (foldl count_id ∅ l !! id == Some 1) = true ↔ id ≠ [] ∧ occurs id l = 1.
Proof.
  rewrite count_id_foldl. change (foldl bump ∅ (filterb nonempty l)) with (counts_of (filterb nonempty l)).
  assert (E : (counts_of (filterb nonempty l) !! id == Some 1) = true ↔ occurs id (filterb nonempty l) = 1)
    by apply counts_of_one.
  rewrite E. clear E.
  destruct (decide (id = [])) as [->|Hid].
  - rewrite occurs_empty. naive_solver.
  - rewrite occurs_nonempty; [naive_solver|]. unfold nonempty. by rewrite bool_decide_eq_false_2.
Qed.

(** All ids of the one public id namespace. *)
Definition snapshot_ids (s : DockerSnapshot) : list rstr :=
  (c_id <$> s_containers s) ++ (n_id <$> s_networks s) ++ (v_id <$> s_volumes s).

Lemma unique_node_id_spec s id :
  has_unique_node_id (index_from_snapshot s) id = true ↔ id ≠ [] ∧ occurs id (snapshot_ids s) = 1.
Proof.
  unfold has_unique_node_id. simpl. rewrite <- !foldl_app. apply count_ids_one.
Qed.

Lemma unique_network_id_spec s id :
  has_unique_network_id (index_from_snapshot s) id = true ↔
  id ≠ [] ∧ occurs id (n_id <$> s_networks s) = 1.
Proof. apply count_ids_one. Qed.

Lemma unique_container_id_spec s c :
  has_unique_container_id (index_from_snapshot s) c = true ↔
  c_id c ≠ [] ∧ occurs (c_id c) (c_id <$> s_containers s) = 1 ∧ occurs (c_id c) (snapshot_ids s) = 1.
Proof.
  unfold has_unique_container_id. rewrite andb_true_iff, unique_node_id_spec.
  assert (E : (gi_container_ids (index_from_snapshot s) !! c_id c == Some 1) = true ↔
    c_id c ≠ [] ∧ occurs (c_id c) (c_id <$> s_containers s) = 1) by apply count_ids_one.
  rewrite E. naive_solver.
Qed.

(** ** Aliases *)

Lemma imap_snoc {A B} (f : nat → A → B) l x : imap f (l ++ [x]) = imap f l ++ [f (length l) x].
Proof. rewrite imap_app. simpl. by rewrite Nat.add_0_r. Qed.

Lemma alias_map_snoc (l : list rstr) (a : rstr) : alias_map (l ++ [a]) = alias_insert (alias_map l) (length l, a).
Proof. unfold alias_map. by rewrite imap_snoc, foldl_app. Qed.

Lemma occurs_snoc (x : rstr) (l : list rstr) (a : rstr) : occurs x (l ++ [a]) = occurs x l + (if a == x then 1 else 0).
Proof. unfold occurs. rewrite count_if_app. simpl. lia. Qed.

Lemma occurs_lookup (x : rstr) (l : list rstr) i : l !! i = Some x → 0 < occurs x l.
Proof.
  intros Hi. apply count_if_pos. exists x. split; [by eapply list_elem_of_lookup_2|].
  by apply bool_decide_eq_true.
Qed.

(** An alias is absent when it never occurs (or is empty), unambiguous when it occurs once. *)
Lemma alias_map_spec (l : list rstr) (x : rstr) :
  match alias_map l !! x with
  | None => x = [] ∨ occurs x l = 0
  | Some (Some i) => x ≠ [] ∧ l !! i = Some x ∧ occurs x l = 1
  | Some None => x ≠ [] ∧ 2 ≤ occurs x l
  end.
Proof.
  induction l as [|a l IH] using rev_ind; [by right|].
  rewrite alias_map_snoc, occurs_snoc. unfold alias_insert.
  destruct (bool_decide_reflect (a = [])) as [->|Ha].
  - destruct (alias_map l !! x) as [[i|]|] eqn:E.
    + destruct IH as (Hx & Hi & Ho). rewrite bool_decide_eq_false_2 by done.
      split_and!; [done|by apply lookup_app_l_Some|lia].
    + split; [tauto|lia].
    + destruct IH as [->|IH]; [by left|]. destruct (decide (x = [])) as [->|Hx]; [by left|].
      right. rewrite bool_decide_eq_false_2; [lia|congruence].
  - destruct (decide (a = x)) as [->|Hax].
    + rewrite (bool_decide_eq_true_2 (x = x)) by done.
      destruct (alias_map l !! x) as [[i|]|] eqn:E; rewrite lookup_insert_eq.
      * split; [done|lia].
      * split; [done|lia].
      * destruct IH as [->|IH]; [done|]. split_and!; [done| |lia].
        rewrite lookup_app_r by lia. by rewrite Nat.sub_diag.
    + rewrite (bool_decide_eq_false_2 (a = x)) by done.
      assert (Hl : (match alias_map l !! a with
        | Some _ => <[a := None]> (alias_map l) | None => <[a := Some (length l)]> (alias_map l) end)
        !! x = alias_map l !! x).
      { destruct (alias_map l !! a); by rewrite lookup_insert_ne. }
      rewrite Hl. rewrite Nat.add_0_r.
      destruct (alias_map l !! x) as [[i|]|]; [|done..].
      destruct IH as (? & ? & ?). split_and!; [done|by apply lookup_app_l_Some|done].
Qed.

Lemma occurs_one_lookup (x : rstr) (l : list rstr) i j : occurs x l = 1 → l !! i = Some x → l !! j = Some x → i = j.
Proof.
  intros Ho Hi Hj. eapply count_if_one_lookup; [exact Ho|exact Hi|exact Hj|..];
    by apply bool_decide_eq_true.
Qed.

Lemma unique_name_spec s i c :
  s_containers s !! i = Some c →
  has_unique_name (aliases_from_containers (s_containers s)) i c = true ↔
  c_name c ≠ [] ∧ occurs (c_name c) (c_name <$> s_containers s) = 1.
Proof.
  intros Hi. unfold has_unique_name. rewrite andb_true_iff, negb_true_iff, bool_decide_eq_false,
    bool_decide_eq_true. simpl. pose proof (alias_map_spec (c_name <$> s_containers s) (c_name c)) as Hs.
  assert (Hin : (c_name <$> s_containers s) !! i = Some (c_name c)) by (by rewrite list_lookup_fmap, Hi).
  split.
  - intros [Hn E]. rewrite E in Hs. tauto.
  - intros [Hn Ho]. split; [done|]. destruct (alias_map _ !! _) as [[j|]|].
    + destruct Hs as (_ & Hj & _). do 2 f_equal. by eapply occurs_one_lookup.
    + lia.
    + destruct Hs; [done|]. lia.
Qed.

(** ** Resolving a dependency *)

Lemma merge_candidates_some existing lookups t :
  merge_candidates (Some existing) lookups = Some t ↔
  existing = t ∧ Forall (λ l, l = Some t) lookups.
Proof.
  induction lookups as [|[r|] lookups IH]; simpl.
  - split; [intros [= ->]; by split|by intros [-> _]].
  - case_bool_decide as E; subst.
    + rewrite IH, Forall_cons. split; [intros [-> ?]; done|intros [-> [_ ?]]; done].
    + split; [done|]. intros [-> [[= ->] _]%Forall_cons]. done.
  - split; [done|]. by intros [_ [? _]%Forall_cons].
Qed.

Lemma merge_candidates_none lookups t :
  merge_candidates None lookups = Some t ↔ lookups ≠ [] ∧ Forall (λ l, l = Some t) lookups.
Proof.
  destruct lookups as [|[r|] lookups]; simpl.
  - split; [done|]. by intros [? _].
  - rewrite merge_candidates_some, Forall_cons. split; [intros [-> ?]; done|by intros [_ [[= ->] ?]]].
  - split; [done|]. by intros [_ [? _]%Forall_cons].
Qed.

Lemma elem_of_flatten l x : x ∈ flatten_lookups l ↔ Some x ∈ l.
Proof.
  unfold flatten_lookups. rewrite list_elem_of_omap. split; [intros (y & Hy & E); unfold id in E; by subst y|].
  intros Hx. by exists (Some x).
Qed.

(** The containers a dependency reference names: by role or name without the Compose prefix,
    or by the raw id. *)
Definition answers (dependency : rstr) (c : ContainerRecord) : bool :=
  (c_role c == dependency_name dependency) || (c_name c == dependency_name dependency)
  || (c_id c == dependency).

Lemma answers_spec dependency c :
  answers dependency c = true ↔
  c_role c = dependency_name dependency ∨ c_name c = dependency_name dependency ∨ c_id c = dependency.
Proof. unfold answers. rewrite !orb_true_iff, !bool_decide_eq_true. tauto. Qed.

Lemma count_if_one_of_unique {A} (f : A → bool) (l : list A) t x :
  l !! t = Some x → f x = true → (∀ i y, l !! i = Some y → f y = true → i = t) → count_if f l = 1.
Proof.
  revert t. induction l as [|z l IH]; intros t Ht Hf Hu; [done|]. simpl. destruct t as [|t].
  - simpl in Ht. injection Ht as ->. rewrite Hf.
    assert (count_if f l = 0) as ->; [|done]. apply count_if_zero.
    intros y [i Hi]%list_elem_of_lookup. apply not_true_iff_false. intros Hy.
    by specialize (Hu (S i) y Hi Hy).
  - destruct (f z) eqn:Ez; [by specialize (Hu 0 z eq_refl Ez)|].
    apply (IH t); [done|done|]. intros i y Hi Hy. specialize (Hu (S i) y Hi Hy). congruence.
Qed.

Lemma occurs_le_count (proj : ContainerRecord → rstr) key (f : ContainerRecord → bool) containers :
  (∀ c, proj c = key → f c = true) → occurs key (proj <$> containers) ≤ count_if f containers.
Proof.
  intros Hf. unfold occurs. induction containers as [|c l IH]; [done|].
  rewrite fmap_cons. cbn [count_if].
  destruct (bool_decide_reflect (proj c = key)) as [E|E]; [rewrite (Hf c E)|destruct (f c)]; lia.
Qed.

(** The three alias families a reference is looked up in, uniformly: a projection of the
    containers and the key looked up. *)
Definition alias_family (dependency : rstr) : list ((ContainerRecord → rstr) * rstr) :=
  [(c_role, dependency_name dependency); (c_name, dependency_name dependency); (c_id, dependency)].

Lemma alias_family_answers dependency proj key c :
  (proj, key) ∈ alias_family dependency → proj c = key → answers dependency c = true.
Proof.
  unfold alias_family. rewrite answers_spec, !elem_of_cons, elem_of_nil.
  intros [[= -> ->]|[[= -> ->]|[[= -> ->]|[]]]]; auto.
Qed.

Lemma answers_family dependency c :
  answers dependency c = true → ∃ proj key, (proj, key) ∈ alias_family dependency ∧ proj c = key.
Proof.
  rewrite answers_spec. unfold alias_family.
  intros [E|[E|E]]; eexists _, _; (split; [|exact E]); set_solver.
Qed.

Lemma alias_family_nonempty dependency proj key :
  dependency ≠ [] → dependency_name dependency ≠ [] →
  (proj, key) ∈ alias_family dependency → key ≠ [].
Proof.
  intros Hd Hn. unfold alias_family. rewrite !elem_of_cons, elem_of_nil.
  intros [[= -> ->]|[[= -> ->]|[[= -> ->]|[]]]]; done.
Qed.

(** The lookups that find an alias. *)
Definition found_aliases (containers : list ContainerRecord) (dependency : rstr) : list (option nat) :=
  flatten_lookups ((λ p, alias_map (p.1 <$> containers) !! p.2) <$> alias_family dependency).

Lemma elem_of_found containers dependency l :
  l ∈ found_aliases containers dependency ↔
  ∃ proj key, (proj, key) ∈ alias_family dependency ∧ alias_map (proj <$> containers) !! key = Some l.
Proof.
  unfold found_aliases. rewrite elem_of_flatten, list_elem_of_fmap. split.
  - intros ([proj key] & E & Hin). eauto.
  - intros (proj & key & Hin & E). exists (proj, key). done.
Qed.

(** A container that answers is found under one of its aliases. *)
Lemma answering_found containers dependency i c :
  dependency ≠ [] → dependency_name dependency ≠ [] →
  containers !! i = Some c → answers dependency c = true →
  ∃ proj key l, (proj, key) ∈ alias_family dependency ∧ proj c = key ∧
    alias_map (proj <$> containers) !! key = Some l ∧ l ∈ found_aliases containers dependency.
Proof.
  intros Hd Hn Hi (proj & key & Hf & Hk)%answers_family.
  pose proof (alias_map_spec (proj <$> containers) key) as Hs.
  destruct (alias_map (proj <$> containers) !! key) as [l|] eqn:El.
  - exists proj, key, l. split_and!; try done. apply elem_of_found. eauto.
  - exfalso. apply alias_family_nonempty in Hf; [|done..].
    assert (Hl : (proj <$> containers) !! i = Some key) by (by rewrite list_lookup_fmap, Hi; simpl; rewrite Hk).
    apply occurs_lookup in Hl. destruct Hs; [done|lia].
Qed.

(** An unambiguous alias points at a container that answers. *)
Lemma found_answers containers dependency i :
  Some i ∈ found_aliases containers dependency →
  ∃ c, containers !! i = Some c ∧ answers dependency c = true.
Proof.
  intros (proj & key & Hf & El)%elem_of_found.
  pose proof (alias_map_spec (proj <$> containers) key) as Hs. rewrite El in Hs.
  destruct Hs as (_ & Hi & _). rewrite list_lookup_fmap in Hi.
  apply fmap_Some in Hi as (c & Hc & Hk). exists c. split; [done|]. by eapply alias_family_answers.
Qed.

Lemma found_all_unique containers dependency t i c :
  dependency ≠ [] → dependency_name dependency ≠ [] →
  Forall (λ l, l = Some t) (found_aliases containers dependency) →
  containers !! i = Some c → answers dependency c = true → i = t.
Proof.
  intros Hd Hn Hall Hi Hc. rewrite Forall_forall in Hall.
  destruct (answering_found _ _ _ _ Hd Hn Hi Hc) as (proj & key & l & _ & Hk & El & Hl).
  apply Hall in Hl as ->. pose proof (alias_map_spec (proj <$> containers) key) as Hs.
  rewrite El in Hs. destruct Hs as (_ & Ht & Ho). eapply occurs_one_lookup; [exact Ho| |exact Ht].
  by rewrite list_lookup_fmap, Hi; simpl; rewrite Hk.
Qed.

Lemma resolve_dependency_spec containers dependency t :
  resolve_dependency (aliases_from_containers containers) dependency = Some t ↔
  dependency ≠ [] ∧ dependency_name dependency ≠ [] ∧
  count_if (answers dependency) containers = 1 ∧
  ∃ c, containers !! t = Some c ∧ answers dependency c = true.
Proof.
  unfold resolve_dependency. destruct (bool_decide_reflect (dependency = [])) as [|Hd]; [naive_solver|].
  destruct (bool_decide_reflect (dependency_name dependency = [])) as [|Hn]; [naive_solver|].
  change (flatten_lookups _) with (found_aliases containers dependency).
  rewrite merge_candidates_none. split.
  - intros [Hne Hall].
    assert (∃ c, containers !! t = Some c ∧ answers dependency c = true) as (c & Hc & Ha).
    { apply found_answers. destruct (found_aliases containers dependency) as [|l ls]; [done|].
      apply Forall_cons in Hall as [-> _]. left. }
    split_and!; [done|done| |eauto]. eapply count_if_one_of_unique; [exact Hc|exact Ha|].
    intros i y Hi Hy. exact (found_all_unique _ _ _ _ _ Hd Hn Hall Hi Hy).
  - intros (_ & _ & Hone & c & Hc & Ha). split.
    + destruct (answering_found _ _ _ _ Hd Hn Hc Ha) as (proj & key & l & _ & _ & _ & Hl).
      intros E. rewrite E in Hl. by apply elem_of_nil in Hl.
    + apply Forall_forall. intros [i|] Hl.
      * apply found_answers in Hl as (c' & Hc' & Ha'). f_equal.
        by eapply (count_if_one_lookup (answers dependency)).
      * apply elem_of_found in Hl as (proj & key & Hf & El).
        pose proof (alias_map_spec (proj <$> containers) key) as Hs. rewrite El in Hs.
        destruct Hs as (_ & Ho).
        pose proof (occurs_le_count proj key _ containers
          (λ c, alias_family_answers dependency proj key c Hf)). lia.
Qed.

(** ** The graph: which edges it has *)

(** An id that names exactly one node of the graph. *)
Definition names_one (s : DockerSnapshot) (id : rstr) : Prop := id ≠ [] ∧ occurs id (snapshot_ids s) = 1.

(** The one container of the snapshot a dependency reference answers to. *)
Definition depends_target (s : DockerSnapshot) (dependency : rstr) (target : ContainerRecord) : Prop :=
  dependency ≠ [] ∧ dependency_name dependency ≠ [] ∧ target ∈ s_containers s ∧
  answers dependency target = true ∧ count_if (answers dependency) (s_containers s) = 1.

(** What the graph should contain: an edge per membership, per mount and per dependency of a
    container, whenever every record it is derived from is unambiguous. *)
Inductive graph_edge_of (s : DockerSnapshot) (c : ContainerRecord) : rstr → RelationshipKind → Prop :=
  | edge_network network :
      network ∈ c_networks c → names_one s network →
      occurs network (n_id <$> s_networks s) = 1 → graph_edge_of s c network RK_ConnectedTo
  | edge_volume volume :
      volume ∈ s_volumes s → c_name c ∈ v_attached_to volume →
      c_name c ≠ [] → occurs (c_name c) (c_name <$> s_containers s) = 1 →
      names_one s (v_id volume) → graph_edge_of s c (v_id volume) RK_Mounts
  | edge_dependency dependency target :
      dependency ∈ c_depends_on c → depends_target s dependency target →
      names_one s (c_id target) → c_id target ≠ c_id c →
      graph_edge_of s c (c_id target) RK_ConnectedTo.

Lemma occurs_app (x : rstr) (l l' : list rstr) : occurs x (l ++ l') = occurs x l + occurs x l'.
Proof. apply count_if_app. Qed.

Lemma unique_container_names_one s c :
  c ∈ s_containers s →
  has_unique_container_id (index_from_snapshot s) c = true ↔ names_one s (c_id c).
Proof.
  intros [i Hi]%list_elem_of_lookup. rewrite unique_container_id_spec. unfold names_one.
  assert (Hc : (c_id <$> s_containers s) !! i = Some (c_id c)) by (by rewrite list_lookup_fmap, Hi).
  apply occurs_lookup in Hc. unfold snapshot_ids. rewrite occurs_app. intuition lia.
Qed.

Lemma elem_of_volume_by_attached volumes name v :
  v ∈ default [] (volume_by_attached_container volumes !! name) ↔
  v ∈ volumes ∧ name ∈ v_attached_to v.
Proof.
  unfold volume_by_attached_container.
  assert (Hin : ∀ (l : list rstr) m w,
    v ∈ default [] (foldl (λ mapping attached, push_at mapping attached w) m l !! name) ↔
    v ∈ default [] (m !! name) ∨ (name ∈ l ∧ v = w)).
  { induction l as [|a l IH]; intros m w; simpl; [set_solver|].
    rewrite IH, elem_of_push_at, elem_of_cons. naive_solver. }
  assert (Hout : ∀ (l : list VolumeRecord) m,
    v ∈ default [] (foldl (λ mapping volume, foldl (λ mapping attached, push_at mapping attached volume)
      mapping (v_attached_to volume)) m l !! name) ↔
    v ∈ default [] (m !! name) ∨ (v ∈ l ∧ name ∈ v_attached_to v)).
  { induction l as [|w l IH]; intros m; simpl; [set_solver|].
    rewrite IH, Hin, elem_of_cons. naive_solver. }
  rewrite Hout, lookup_empty. simpl. set_solver.
Qed.

(** Among containers whose ids name one node, different positions are different ids. *)
Lemma position_eq_id s i t c target :
  s_containers s !! i = Some c → s_containers s !! t = Some target → names_one s (c_id c) →
  i = t ↔ c_id target = c_id c.
Proof.
  intros Hi Ht [_ Ho]. split; [intros ->; congruence|]. intros E.
  assert (Hic : (c_id <$> s_containers s) !! i = Some (c_id c)) by (by rewrite list_lookup_fmap, Hi).
  assert (Htc : (c_id <$> s_containers s) !! t = Some (c_id c)) by (by rewrite list_lookup_fmap, Ht; simpl; rewrite E).
  pose proof (occurs_lookup _ _ _ Hic) as Hpos. unfold snapshot_ids in Ho. rewrite occurs_app in Ho.
  eapply occurs_one_lookup; [|exact Hic|exact Htc]. lia.
Qed.

Lemma resolve_dependency_target s dependency t target :
  s_containers s !! t = Some target →
  resolve_dependency (aliases_from_containers (s_containers s)) dependency = Some t ↔
  depends_target s dependency target.
Proof.
  intros Ht. rewrite resolve_dependency_spec. unfold depends_target. split.
  - intros (Hd & Hn & Ho & c & Hc & Ha). simplify_eq. split_and!; try done. by eapply list_elem_of_lookup_2.
  - intros (Hd & Hn & Hin & Ha & Ho). split_and!; try done. eauto.
Qed.

Lemma elem_of_if_singleton {A} (b : bool) (x y : A) : x ∈ (if b then [y] else []) ↔ b = true ∧ x = y.
Proof. destruct b; [rewrite list_elem_of_singleton; naive_solver|]. rewrite elem_of_nil. naive_solver. Qed.

Lemma elem_of_network_edges s c e :
  c ∈ s_containers s →
  e ∈ network_edges (index_from_snapshot s) c ↔
  names_one s (c_id c) ∧ ∃ network, network ∈ c_networks c ∧ names_one s network ∧
    occurs network (n_id <$> s_networks s) = 1 ∧
    e = {| ge_source := c_id c; ge_target := network; ge_relationship := RK_ConnectedTo |}.
Proof.
  intros Hin. unfold network_edges. rewrite list_elem_of_bind.
  setoid_rewrite elem_of_if_singleton. setoid_rewrite andb_true_iff. setoid_rewrite andb_true_iff.
  setoid_rewrite unique_network_id_spec. setoid_rewrite unique_node_id_spec.
  setoid_rewrite (unique_container_names_one s c Hin). unfold names_one. naive_solver.
Qed.

Lemma elem_of_volume_edges s i c e :
  s_containers s !! i = Some c →
  e ∈ volume_edges (index_from_snapshot s) (aliases_from_containers (s_containers s))
        (volume_by_attached_container (s_volumes s)) i c ↔
  names_one s (c_id c) ∧ ∃ volume, volume ∈ s_volumes s ∧ c_name c ∈ v_attached_to volume ∧
    c_name c ≠ [] ∧ occurs (c_name c) (c_name <$> s_containers s) = 1 ∧ names_one s (v_id volume) ∧
    e = {| ge_source := c_id c; ge_target := v_id volume; ge_relationship := RK_Mounts |}.
Proof.
  intros Hi. pose proof (list_elem_of_lookup_2 _ _ _ Hi) as Hin. unfold volume_edges.
  pose proof (unique_name_spec s i c Hi) as Hn. destruct (has_unique_name _ i c).
  - rewrite list_elem_of_bind. setoid_rewrite elem_of_if_singleton. setoid_rewrite andb_true_iff.
    setoid_rewrite unique_node_id_spec. setoid_rewrite elem_of_volume_by_attached.
    setoid_rewrite (unique_container_names_one s c Hin). unfold names_one. naive_solver.
  - rewrite elem_of_nil. naive_solver.
Qed.

Lemma elem_of_dependency_edges s i c e :
  s_containers s !! i = Some c →
  e ∈ dependency_edges (index_from_snapshot s) (aliases_from_containers (s_containers s))
        (s_containers s) i c ↔
  names_one s (c_id c) ∧ ∃ dependency target, dependency ∈ c_depends_on c ∧
    depends_target s dependency target ∧ names_one s (c_id target) ∧ c_id target ≠ c_id c ∧
    e = {| ge_source := c_id c; ge_target := c_id target; ge_relationship := RK_ConnectedTo |}.
Proof.
  intros Hi. pose proof (list_elem_of_lookup_2 _ _ _ Hi) as Hin. unfold dependency_edges.
  rewrite list_elem_of_bind. split.
  - intros (d & He & Hd). destruct (resolve_dependency _ d) as [t|] eqn:Er; [|by apply elem_of_nil in He].
    destruct (s_containers s !! t) as [target|] eqn:Et; [|by apply elem_of_nil in He].
    apply (resolve_dependency_target s d t target Et) in Er.
    destruct (has_unique_container_id _ c) eqn:Hu; [|by apply elem_of_nil in He].
    destruct (has_unique_container_id _ target) eqn:Eu; [|by apply elem_of_nil in He].
    apply unique_container_names_one in Eu; [|by eapply list_elem_of_lookup_2].
    apply unique_container_names_one in Hu; [|done].
    simpl in He. case_bool_decide as Eit; [by apply elem_of_nil in He|].
    apply list_elem_of_singleton in He. split; [done|]. exists d, target. split_and!; try done.
    intros E. apply Eit. by eapply position_eq_id.
  - intros (Hc & d & target & Hd & Ht & Hone & Hne & ->). exists d. split; [|done].
    assert (Htin : target ∈ s_containers s) by apply Ht.
    pose proof Htin as [t Et]%list_elem_of_lookup. apply (resolve_dependency_target s d t target Et) in Ht.
    apply (unique_container_names_one s c Hin) in Hc as Hu.
    apply (unique_container_names_one s target Htin) in Hone.
    rewrite Ht, Et, Hu, Hone. simpl.
    rewrite bool_decide_eq_false_2; [left|]. intros E. apply Hne. by eapply position_eq_id in E.
Qed.

Lemma elem_of_container_edges s i c e :
  s_containers s !! i = Some c →
  e ∈ container_edges s i c ↔
  names_one s (c_id c) ∧ ge_source e = c_id c ∧ graph_edge_of s c (ge_target e) (ge_relationship e).
Proof.
  intros Hi. pose proof (list_elem_of_lookup_2 _ _ _ Hi) as Hin.
  unfold container_edges. rewrite !elem_of_app, elem_of_network_edges, elem_of_volume_edges,
    elem_of_dependency_edges by done. split.
  - intros [(Hc & n & ? & ? & ? & ->)|[(Hc & v & ? & ? & ? & ? & ? & ->)|(Hc & d & t & ? & ? & ? & ? & ->)]];
      (split_and!; [done|done|]); simpl; [by constructor|by constructor|by econstructor].
  - intros (Hc & Es & He). destruct e as [src tgt rel]. simpl in *. subst src.
    destruct He as [n|v|d t]; [left|right; left|right; right]; (split; [done|]); eauto 10.
Qed.

(** The edges of the graph, in terms of the records of the snapshot only. *)
Definition graph_edge (s : DockerSnapshot) (e : GraphEdge) : Prop :=
  ∃ c, c ∈ s_containers s ∧ names_one s (c_id c) ∧ ge_source e = c_id c ∧
    graph_edge_of s c (ge_target e) (ge_relationship e).

Lemma elem_of_concat_imap {A B} (f : nat → A → list B) (l : list A) x :
  x ∈ concat (imap f l) ↔ ∃ i a, l !! i = Some a ∧ x ∈ f i a.
Proof.
  rewrite list_elem_of_In, in_concat. split.
  - intros (k & Hk & Hx). apply list_elem_of_In in Hk, Hx.
    apply elem_of_lookup_imap_1 in Hk as (i & a & -> & Ha). eauto.
  - intros (i & a & Ha & Hx). exists (f i a). split; apply list_elem_of_In; [|done].
    by eapply elem_of_lookup_imap_2.
Qed.

Lemma elem_of_all_edges s e :
  e ∈ concat (imap (container_edges s) (s_containers s)) ↔ graph_edge s e.
Proof.
  rewrite elem_of_concat_imap. unfold graph_edge. split.
  - intros (i & c & Hi & He). rewrite (elem_of_container_edges _ _ _ _ Hi) in He.
    exists c. split; [by eapply list_elem_of_lookup_2|done].
  - intros (c & [i Hi]%list_elem_of_lookup & He). exists i, c.
    by rewrite (elem_of_container_edges _ _ _ _ Hi).
Qed.

Lemma graph_edge_endpoints s e :
  graph_edge s e → names_one s (ge_source e) ∧ names_one s (ge_target e).
Proof. intros (c & Hin & Hc & -> & He). split; [done|]. by destruct He. Qed.

Lemma gn_id_graph_nodes s : gn_id <$> graph_nodes s = snapshot_ids s.
Proof. unfold graph_nodes, snapshot_ids. by rewrite !fmap_app, <- !list_fmap_compose. Qed.

Lemma occurs_fmap_unique {A} (proj : A → rstr) (l : list A) (key : rstr) x y :
  occurs key (proj <$> l) = 1 → x ∈ l → y ∈ l → proj x = key → proj y = key → x = y.
Proof.
  intros Ho [i Hi]%list_elem_of_lookup [j Hj]%list_elem_of_lookup Hx Hy.
  assert (i = j) as <-; [|congruence].
  eapply occurs_one_lookup; [exact Ho|rewrite list_lookup_fmap, Hi|rewrite list_lookup_fmap, Hj]; simpl; congruence.
Qed.

Lemma elem_of_occurs {A} (proj : A → rstr) (l : list A) x : x ∈ l → 0 < occurs (proj x) (proj <$> l).
Proof. intros [i Hi]%list_elem_of_lookup. eapply occurs_lookup. by rewrite list_lookup_fmap, Hi. Qed.

Lemma names_one_node s id : names_one s id →
  ∃ n, n ∈ graph_nodes s ∧ gn_id n = id ∧ ∀ n', n' ∈ graph_nodes s → gn_id n' = id → n' = n.
Proof.
  intros [_ Ho]. rewrite <- gn_id_graph_nodes in Ho.
  assert (0 < occurs id (gn_id <$> graph_nodes s)) as Hpos by lia.
  apply count_if_pos in Hpos as (x & (n & -> & Hn)%list_elem_of_fmap & <-%bool_decide_eq_true).
  exists n. split_and!; [done|done|]. intros n' Hn' E. by eapply occurs_fmap_unique.
Qed.

Lemma graph_edge_no_loop s e : graph_edge s e → ge_source e ≠ ge_target e.
Proof.
  intros (c & Hin & [_ Hc] & -> & He) E. unfold snapshot_ids in Hc. rewrite !occurs_app in Hc.
  pose proof (elem_of_occurs c_id _ _ Hin). inversion He as [n _ _ Hn|v Hv|d t _ _ _ Hne]; subst.
  - rewrite E in *. lia.
  - pose proof (elem_of_occurs v_id _ _ Hv) as Hp.
    replace (v_id v) with (c_id c) in Hp by congruence. lia.
  - congruence.
Qed.

(** The same records in another order. *)
Definition same_records (s s' : DockerSnapshot) : Prop :=
  s_containers s ≡ₚ s_containers s' ∧ s_networks s ≡ₚ s_networks s' ∧ s_volumes s ≡ₚ s_volumes s'.

Lemma same_records_ids s s' : same_records s s' → snapshot_ids s ≡ₚ snapshot_ids s'.
Proof. intros (Hc & Hn & Hv). unfold snapshot_ids. by rewrite Hc, Hn, Hv. Qed.

Lemma occurs_Permutation (x : rstr) (l l' : list rstr) : l ≡ₚ l' → occurs x l = occurs x l'.
Proof. intros E. unfold occurs. by rewrite E. Qed.

Lemma names_one_same s s' id : same_records s s' → names_one s id → names_one s' id.
Proof. intros E [? Ho]. split; [done|]. etrans; [|exact Ho]. symmetry. by apply occurs_Permutation, same_records_ids. Qed.

Lemma same_records_sym s s' : same_records s s' → same_records s' s.
Proof. by intros (? & ? & ?). Qed.

Lemma graph_edge_same s s' e : same_records s s' → graph_edge s e → graph_edge s' e.
Proof.
  intros E (c & Hin & Hc & Hs & He). pose proof E as (Ec & En & Ev).
  exists c. split_and!; [by rewrite <- Ec|by eapply names_one_same|done|]. clear Hs.
  destruct He as [n Hn H1 H2|v Hv Ha Hne H1 H2|d t Hd Ht H1 H2].
  - constructor; [done|by eapply names_one_same|]. etrans; [|exact H2]. by apply occurs_Permutation; rewrite En.
  - constructor; [by rewrite <- Ev|done|done| |by eapply names_one_same].
    etrans; [|exact H1]. by apply occurs_Permutation; rewrite Ec.
  - econstructor; [done| |by eapply names_one_same|done].
    destruct Ht as (? & ? & ? & ? & Ho). split_and!; [done|done|by rewrite <- Ec|done|]. by rewrite <- Ec.
Qed.

Section graph_theorems.
Context `{Json GraphNode} `{Json GraphEdge}.

(** [derive_graph] draws exactly the edges the snapshot justifies: one per network
    membership, volume attachment and dependency of a container, and only when the container,
    the other endpoint and every alias the edge was resolved through are unambiguous; a
    dependency resolves to the only container that its role, name or id answers to, never to
    the container itself. *)
Theorem derive_graph_edges s e : e ∈ gr_edges (derive_graph s) ↔ graph_edge s e.
Proof.
  unfold derive_graph. simpl. by rewrite elem_of_dedup, elem_of_sort_by_json, elem_of_all_edges.
Qed.

Lemma elem_of_graph_nodes_derived s n : n ∈ gr_nodes (derive_graph s) ↔ n ∈ graph_nodes s.
Proof. unfold derive_graph. simpl. by rewrite elem_of_dedup, elem_of_sort_by_json. Qed.

(** The derived graph is well formed: no node or edge is repeated, no edge is a loop, and
    each endpoint of an edge is the id of exactly one node. *)
Theorem derive_graph_well_formed s :
  NoDup (gr_nodes (derive_graph s)) ∧ NoDup (gr_edges (derive_graph s)) ∧
  ∀ e, e ∈ gr_edges (derive_graph s) → ge_source e ≠ ge_target e ∧
    ∀ id, id ∈ [ge_source e; ge_target e] →
      ∃ n, n ∈ gr_nodes (derive_graph s) ∧ gn_id n = id ∧
        ∀ n', n' ∈ gr_nodes (derive_graph s) → gn_id n' = id → n' = n.
Proof.
  split_and!; [eapply dedup_NoDup; [apply key_leb_antisym|apply sort_by_json_sorted]..|].
  intros e He. unfold derive_graph in He. simpl in He.
  rewrite elem_of_dedup, elem_of_sort_by_json, elem_of_all_edges in He.
  split; [by eapply graph_edge_no_loop|]. intros id Hid.
  assert (names_one s id) as (n & Hn & Hni & Hu)%names_one_node.
  { apply graph_edge_endpoints in He as [? ?]. set_solver. }
  exists n. setoid_rewrite elem_of_graph_nodes_derived. done.
Qed.

(** The derived graph does not depend on the order in which Docker lists the records. *)
Theorem derive_graph_order_irrelevant s s' :
  same_records s s' → derive_graph s = derive_graph s'.
Proof.
  intros E. unfold derive_graph. f_equal.
  - apply sorted_dedup_canonical; [apply key_leb_total|apply key_leb_trans|apply key_leb_antisym|].
    intros n. destruct E as (Ec & En & Ev). unfold graph_nodes. by rewrite Ec, En, Ev.
  - apply sorted_dedup_canonical; [apply key_leb_total|apply key_leb_trans|apply key_leb_antisym|].
    intros e. rewrite !elem_of_all_edges.
    split; apply graph_edge_same; [done|by apply same_records_sym].
Qed.
End graph_theorems.

(** ** Images *)

Definition uses_image (image : rstr) (c : ContainerRecord) : bool := c_image c == image.

Lemma group_names_spec l m image :
  (is_Some (foldl group_names m l !! image) ↔
    is_Some (m !! image) ∨ ∃ c, c ∈ l ∧ c_image c = image) ∧
  ∀ name, name ∈ default ∅ (foldl group_names m l !! image) ↔
    name ∈ default ∅ (m !! image) ∨ ∃ c, c ∈ l ∧ c_image c = image ∧ c_name c = name.
Proof.
  revert m. induction l as [|c l IH]; intros m; simpl.
  - split; [|intros name]; set_solver.
  - destruct (IH (group_names m c)) as [IH1 IH2]. setoid_rewrite IH2. rewrite IH1.
    unfold group_names. setoid_rewrite elem_of_cons.
    destruct (decide (c_image c = image)) as [<-|Hne].
    + rewrite lookup_insert_eq. split; [by naive_solver|]. intros name. simpl.
      rewrite elem_of_union, elem_of_singleton. naive_solver.
    + rewrite lookup_insert_ne by done. split; [|intros name]; naive_solver.
Qed.

Lemma first_status_spec l m image :
  foldl first_status m l !! image =
  match m !! image with Some st => Some st | None => c_status <$> find (uses_image image) l end.
Proof.
  revert m. induction l as [|c l IH]; intros m; simpl; [by destruct (m !! image)|].
  rewrite IH. unfold first_status, uses_image.
  destruct (bool_decide_reflect (c_image c = image)) as [<-|Hne].
  - destruct (m !! c_image c) eqn:E; rewrite ?E, ?lookup_insert_eq; done.
  - destruct (m !! c_image c); rewrite ?lookup_insert_ne by done; done.
Qed.

Lemma image_names s image :
  let grouped := foldl group_names ∅ (s_containers s) in
  (is_Some (grouped !! image) ↔ ∃ c, c ∈ s_containers s ∧ c_image c = image) ∧
  ∀ group, grouped !! image = Some group →
    sort_by str_leb (elements group) =
    btree_set (c_name <$> filterb (uses_image image) (s_containers s)).
Proof.
  destruct (group_names_spec (s_containers s) ∅ image) as [H1 H2]. simpl. split.
  - rewrite H1, lookup_empty. split; [intros [[? [=]]|?]; done|by right].
  - intros group Hg. apply btree_set_canonical. intros name. specialize (H2 name).
    rewrite Hg, lookup_empty in H2. simpl in H2. rewrite H2, list_elem_of_fmap.
    setoid_rewrite elem_of_filterb. unfold uses_image. setoid_rewrite bool_decide_eq_true.
    split; [intros [?|(c & ? & ? & <-)]; [set_solver|eauto]|intros (c & -> & ? & ?); eauto].
Qed.

Lemma image_status s image :
  (∃ c, c ∈ s_containers s ∧ c_image c = image) →
  ∃ c, find (uses_image image) (s_containers s) = Some c ∧
    default (lit "unknown") (foldl first_status ∅ (s_containers s) !! image) = c_status c.
Proof.
  intros (c & Hc & Hi). rewrite first_status_spec, lookup_empty.
  destruct (find (uses_image image) (s_containers s)) as [c'|] eqn:E; [by eauto|].
  rewrite find_None in E. apply E in Hc. apply bool_decide_eq_false in Hc. done.
Qed.

(** The images are one record per image in use, in order of the image name without
    repetition; each lists the names of its containers, sorted and without repetition, and has
    the status of the first of them. *)
Theorem derive_images_spec s :
  NoDup (im_image <$> derive_images s) ∧
  StronglySorted (λ a b, str_leb (im_image a) (im_image b) = true) (derive_images s) ∧
  ∀ im, im ∈ derive_images s ↔
    (∃ c, find (uses_image (im_image im)) (s_containers s) = Some c ∧ im_status im = c_status c) ∧
    im_containers im = btree_set (c_name <$> filterb (uses_image (im_image im)) (s_containers s)).
Proof.
  unfold derive_images. split_and!.
  - rewrite <- list_fmap_compose. apply (btree_keys_NoDup (foldl group_names ∅ (s_containers s))).
  - eapply StronglySorted_map; [|apply btree_iter_sorted]. done.
  - intros [image names status]. rewrite list_elem_of_fmap. simpl.
    pose proof (image_names s image) as (Hsome & Hnames). split.
    + intros ([image' group] & [= -> -> ->] & Hin). apply elem_of_btree_iter in Hin.
      rewrite Hin in Hsome, Hnames. split; [|by apply Hnames].
      apply image_status, Hsome. eauto.
    + intros [(c & Hc & ->) ->]. destruct (proj2 Hsome) as [group Hg].
      { apply find_Some in Hc as [Hc Hu%bool_decide_eq_true]. eauto. }
      exists (image, group). rewrite elem_of_btree_iter. split; [|done]. simpl.
      rewrite first_status_spec, lookup_empty, Hc. simpl. by rewrite (Hnames group).
Qed.

(** A concrete snapshot: a web container that depends on a database, on one network, with one
    volume attached to the database. *)
Definition example_container (id name : rstr) (networks depends_on : list rstr) : ContainerRecord := {|
  c_id := id; c_name := name; c_image := "img"; c_status := "Up"; c_role := name;
  c_networks := networks; c_ports := []; c_publishes_on_unspecified_address := false;
  c_mounts := []; c_depends_on := depends_on |}.

Definition example_snapshot (containers : list ContainerRecord) : DockerSnapshot := {|
  s_containers := containers; s_images := [];
  s_networks := [{| n_id := "net"; n_name := "net"; n_driver := "bridge"; n_internal := false; n_members := [] |}];
  s_volumes := [{| v_id := "vol"; v_name := "data"; v_attached_to := ["db" : rstr] |}];
  s_last_updated := 0; s_model_revision := "r"; s_source := None |}.

Definition example_containers : list ContainerRecord :=
  [example_container "c1" "web" ["net" : rstr] ["container_db" : rstr]; example_container "c2" "db" [] []].

Lemma derive_graph_order_irrelevant_witness :
  let s := example_snapshot example_containers in
  let s' := example_snapshot (reverse example_containers) in
  same_records s s' ∧
  @derive_graph (Json_of_countable GraphNode) (Json_of_countable GraphEdge) s
  = @derive_graph (Json_of_countable GraphNode) (Json_of_countable GraphEdge) s' ∧
  length (gr_edges (@derive_graph (Json_of_countable GraphNode) (Json_of_countable GraphEdge) s)) = 3.
Proof.
  assert (E : same_records (example_snapshot example_containers)
                (example_snapshot (reverse example_containers))).
  { split; [|split]; [symmetry; apply reverse_Permutation|done|done]. }
  split; [exact E|]. split; [|vm_compute; reflexivity].
  exact (@derive_graph_order_irrelevant (Json_of_countable GraphNode) (Json_of_countable GraphEdge) _ _ E).
Defined.
