(* ===== verification/RuntimeTopology.v ===== *)
(** * Docker facts in the runtime map ([derive_runtime_map] of
      [crates/dockermap-core/src/snapshot_runtime.rs])

    The panics of the source (the revision assertion and the [unreachable!] evidence kinds) are
    [None]; the theorems show that the assertion is the only one that can fire. *)

From S2P Require Import Prelude RustStr RustNum Models Serial Identity Evidence Graph.

Definition service_entity_kind_name (kind : ServiceEntityKind) : rstr :=
  match kind with
  | SE_Service => "service"
  | SE_NodeApplication => "node_application"
  | SE_PythonApplication => "python_application"
  | SE_AiAgent => "ai_agent"
  | SE_Session => "session"
  | SE_Host => "host"
  | SE_Storage => "storage"
  | SE_ExternalApi => "external_api"
  | SE_DnsProvider => "dns_provider"
  | SE_ReverseProxy => "reverse_proxy"
  | SE_PackageDependency => "package_dependency"
  end.

(** From [compose.rs]. *)
Definition is_docker_daemon_state_bind_source (resolved : rstr) : bool :=
  one_of resolved ["/var/run/docker.sock" : rstr; "/run/docker.sock" : rstr; "/var/lib/docker" : rstr]
  || starts_with resolved "/var/lib/docker/".

Definition DOCKER_UNSPECIFIED_ADDRESS_PORT_RISK_ID : rstr := "host_risk_docker_unspecified_address_port".
Definition DOCKER_DAEMON_STATE_RISK_ID : rstr := "host_risk_docker_daemon_state".

(** ** Evidence *)

(** The two [match]es of [docker_runtime_evidence]; [unreachable!] is [None]. *)
Definition kind_id (kind : RuntimeEvidenceKind) : option rstr :=
  match kind with
  | DockerNetworkMembership => Some ("network-membership" : rstr)
  | DockerVolumeMount => Some ("volume-mount" : rstr)
  | DockerPortPublication => Some ("port-publication" : rstr)
  | DockerUnspecifiedAddressPortPublication => Some ("unspecified-address-port-publication" : rstr)
  | DockerComposeDependsOn => Some ("compose-depends-on" : rstr)
  | DockerDaemonStateBindMount => Some ("daemon-state-bind-mount" : rstr)
  | _ => None
  end.

Definition kind_summary (kind : RuntimeEvidenceKind) : option rstr :=
  match kind with
  | DockerNetworkMembership => Some ("Docker reported container network membership" : rstr)
  | DockerVolumeMount => Some ("Docker reported volume attachment" : rstr)
  | DockerPortPublication => Some ("Docker reported container port publication" : rstr)
  | DockerUnspecifiedAddressPortPublication =>
      Some ("Docker reported a container port published on an unspecified host address" : rstr)
  | DockerComposeDependsOn => Some ("Docker recorded Compose dependency declaration" : rstr)
  | DockerDaemonStateBindMount =>
      Some ("Docker reported a bind mount exposing Docker daemon state" : rstr)
  | _ => None
  end.

Section topology.
Context `{Sha256} `{Json RuntimeMapNode} `{Json RuntimeMapEdge}.

Definition runtime_container_id (container : ContainerRecord) : rstr :=
  "docker_container_" +s+ collision_resistant_id_component (c_id container).

Definition network_node_id (id : rstr) : rstr :=
  "docker_network_" +s+ collision_resistant_id_component id.

Definition volume_node_id (id : rstr) : rstr :=
  "docker_volume_" +s+ collision_resistant_id_component id.

Definition listener_node_id (container : ContainerRecord) (port : rstr) : rstr :=
  "network_listener_" +s+ collision_resistant_id_component (c_id container) +s+ "_"
  +s+ collision_resistant_id_component port.

(** [RuntimeContainerIdentityIndex]. *)
Definition index_from_containers (containers : list ContainerRecord) : gmap rstr nat :=
  foldl (λ counts c, if c_id c != [] then bump counts (runtime_container_id c) else counts) ∅ containers.

Definition has_unique_id (index : gmap rstr nat) (container : ContainerRecord) : bool :=
  (c_id container != []) && (index !! runtime_container_id container == Some 1).

Definition docker_runtime_evidence (s : DockerSnapshot) (source target : rstr)
    (kind : RuntimeEvidenceKind) (provider_revision : rstr) : option RuntimeEvidenceRef :=
  kid ← kind_id kind;
  summary ← kind_summary kind;
  Some {|
    ev_version := 1;
    ev_id := "docker_evidence_" +s+ kid +s+ "_"
             +s+ collision_resistant_id_component (source +s+ [31%N] +s+ target);
    ev_provider := EP_Docker; ev_kind := kind; ev_assertion_kind := Observed;
    ev_summary := summary; ev_subject_ref := source; ev_collected_at := s_last_updated s;
    ev_provider_revision := provider_revision; ev_provider_slot := None; ev_freshness := EF_Fresh |}.

Definition docker_edge (s : DockerSnapshot) (revision source target : rstr)
    (kind : RuntimeEvidenceKind) (relationship : RuntimeRelationshipKind) : option RuntimeMapEdge :=
  evidence ← docker_runtime_evidence s source target kind revision;
  Some {| re_source := source; re_target := target; re_relationship := relationship;
          re_metadata := ∅; re_evidence_refs := [evidence] |}.

(** ** Containers *)

Definition container_node (container : ContainerRecord) : RuntimeMapNode :=
  let metadata : gmap rstr rstr :=
    <[("serviceEntityKind" : rstr) := service_entity_kind_name SE_Service]>
      (<[("role" : rstr) := c_role container]> (<[("image" : rstr) := c_image container]> ∅)) in
  {| rn_id := runtime_container_id container; rn_provider := RP_Docker; rn_kind := RN_Container;
     rn_label := c_name container; rn_status := Some (c_status container);
     rn_layer := Some L_Container;
     rn_metadata := if c_ports container != [] then
                      <[("ports" : rstr) := join "," (c_ports container)]> metadata
                    else metadata;
     rn_service := Some (service_minimal (c_name container) (from_status_text (c_status container)));
     rn_package := None |}.

Definition listener_node (container : ContainerRecord) (port : rstr) : RuntimeMapNode := {|
  rn_id := listener_node_id container port; rn_provider := RP_Network; rn_kind := RN_NetworkListener;
  rn_label := port; rn_status := Some ("listening" : rstr); rn_layer := Some L_Host;
  rn_metadata := <[("port" : rstr) := port]> ∅; rn_service := None; rn_package := None |}.

Definition runtime_container_nodes (container : ContainerRecord) : list RuntimeMapNode :=
  container_node container :: (listener_node container <$> c_ports container).

(** A port without a host binding is topology without evidence. *)
Definition listener_edge (s : DockerSnapshot) (revision : rstr) (container : ContainerRecord)
    (port : rstr) : option RuntimeMapEdge :=
  if is_host_published_docker_port port then
    docker_edge s revision (runtime_container_id container) (listener_node_id container port)
      DockerPortPublication RR_Exposes
  else
    Some {| re_source := runtime_container_id container;
            re_target := listener_node_id container port; re_relationship := RR_Exposes;
            re_metadata := ∅; re_evidence_refs := [] |}.

Definition runtime_dependency_edges (s : DockerSnapshot) (revision : rstr) (i : nat)
    (container : ContainerRecord) (dependency : rstr) : option (list RuntimeMapEdge) :=
  let ids := index_from_containers (s_containers s) in
  match resolve_dependency (aliases_from_containers (s_containers s)) dependency with
  | None => Some []
  | Some t =>
      target ← s_containers s !! t;
      if negb (has_unique_id ids container) || negb (has_unique_id ids target) || (i == t)
      then Some []
      else if runtime_container_id container == runtime_container_id target then Some []
      else edge ← docker_edge s revision (runtime_container_id container) (runtime_container_id target)
                    DockerComposeDependsOn RR_DependsOn;
           Some [edge]
  end.

Definition runtime_container_edges (s : DockerSnapshot) (revision : rstr) (i : nat)
    (container : ContainerRecord) : option (list RuntimeMapEdge) :=
  networks ← mapM (λ network, docker_edge s revision (runtime_container_id container)
                     (network_node_id network) DockerNetworkMembership RR_ConnectedTo)
               (c_networks container);
  listeners ← mapM (listener_edge s revision container) (c_ports container);
  dependencies ← mapM (runtime_dependency_edges s revision i container) (c_depends_on container);
  Some (networks ++ listeners ++ concat dependencies).

(** ** Networks and volumes *)

Definition bool_text (b : bool) : rstr := if b then "true" else "false".

Definition network_node (network : NetworkRecord) : RuntimeMapNode := {|
  rn_id := network_node_id (n_id network); rn_provider := RP_Docker; rn_kind := RN_DockerNetwork;
  rn_label := n_name network; rn_status := None; rn_layer := Some L_Network;
  rn_metadata := <[("internal" : rstr) := bool_text (n_internal network)]>
                   (<[("driver" : rstr) := n_driver network]> ∅);
  rn_service := None; rn_package := None |}.

Definition volume_node (volume : VolumeRecord) : RuntimeMapNode := {|
  rn_id := volume_node_id (v_id volume); rn_provider := RP_Docker; rn_kind := RN_DockerVolume;
  rn_label := v_name volume; rn_status := None; rn_layer := Some L_Storage;
  rn_metadata := <[("serviceEntityKind" : rstr) := service_entity_kind_name SE_Storage]> ∅;
  rn_service := None; rn_package := None |}.

(** The first container with the attached name. *)
Definition attachment_edges (s : DockerSnapshot) (revision : rstr) (volume : VolumeRecord)
    (attached : rstr) : option (list RuntimeMapEdge) :=
  match find (λ c, c_name c == attached) (s_containers s) with
  | None => Some []
  | Some container =>
      edge ← docker_edge s revision (runtime_container_id container) (volume_node_id (v_id volume))
               DockerVolumeMount RR_Mounts;
      Some [edge]
  end.

Definition runtime_volume_edges (s : DockerSnapshot) (revision : rstr) (volume : VolumeRecord)
    : option (list RuntimeMapEdge) :=
  edges ← mapM (attachment_edges s revision volume) (v_attached_to volume);
  Some (concat edges).

(** ** Host risks *)

Definition risk_node (id label : rstr) : RuntimeMapNode := {|
  rn_id := id; rn_provider := RP_Docker; rn_kind := RN_HostRisk; rn_label := label;
  rn_status := None; rn_layer := Some L_Host; rn_metadata := ∅; rn_service := None;
  rn_package := None |}.

Definition unspecified_address_source (s : DockerSnapshot) (container : ContainerRecord) : bool :=
  has_unique_id (index_from_containers (s_containers s)) container
  && c_publishes_on_unspecified_address container
  && existsb is_host_published_docker_port (c_ports container).

Definition daemon_state_source (s : DockerSnapshot) (container : ContainerRecord) : bool :=
  has_unique_id (index_from_containers (s_containers s)) container
  && existsb (λ mount, (cm_kind mount == Bind)
       && is_some_and (cm_source mount) is_docker_daemon_state_bind_source) (c_mounts container).

Definition risk_sources (s : DockerSnapshot) (is_source : ContainerRecord → bool) : list rstr :=
  btree_set (runtime_container_id <$> filterb is_source (s_containers s)).

(** One aggregate risk: its node, and an edge from every source that is exactly one node. *)
Definition push_risk (s : DockerSnapshot) (revision risk_id label : rstr)
    (is_source : ContainerRecord → bool) (kind : RuntimeEvidenceKind)
    (relationship : RuntimeRelationshipKind) (acc : list RuntimeMapNode * list RuntimeMapEdge)
    : option (list RuntimeMapNode * list RuntimeMapEdge) :=
  let '(nodes, edges) := acc in
  let sources := risk_sources s is_source in
  if (sources != []) && negb (existsb (λ node, rn_id node == risk_id) nodes) then
    let nodes := nodes ++ [risk_node risk_id label] in
    risk_edges ← mapM (λ source, docker_edge s revision source risk_id kind relationship)
      (filterb (λ source, count_if (λ node, rn_id node == source) nodes == 1) sources);
    Some (nodes, edges ++ risk_edges)
  else Some (nodes, edges).

Definition push_unspecified_address_risk (s : DockerSnapshot) (revision : rstr) :=
  push_risk s revision DOCKER_UNSPECIFIED_ADDRESS_PORT_RISK_ID
    "Unspecified-address Docker port publication" (unspecified_address_source s)
    DockerUnspecifiedAddressPortPublication RR_Exposes.

Definition push_daemon_state_risk (s : DockerSnapshot) (revision : rstr) :=
  push_risk s revision DOCKER_DAEMON_STATE_RISK_ID "Docker daemon state exposure"
    (daemon_state_source s) DockerDaemonStateBindMount RR_ExposesDaemonState.

(** ** The map *)

Definition duplicate_id_diagnostic : RuntimeMapDiagnostic := {|
  rd_provider := RP_Other; rd_severity := Sev_Warning;
  rd_message := "Duplicate generated runtime topology ID; records remain visible and non-routable" |}.

Definition inventory_nodes (s : DockerSnapshot) : list RuntimeMapNode :=
  (s_containers s ≫= runtime_container_nodes) ++ (network_node <$> s_networks s)
  ++ (volume_node <$> s_volumes s).

(** The edges of the loops over the containers and over the volumes. *)
Definition inventory_edges (s : DockerSnapshot) (revision : rstr) : option (list RuntimeMapEdge) :=
  by_container ← mapM id (imap (runtime_container_edges s revision) (s_containers s));
  by_volume ← mapM (runtime_volume_edges s revision) (s_volumes s);
  Some (concat by_container ++ concat by_volume).

Definition derive_runtime_map (s : DockerSnapshot) (nodes : list RuntimeMapNode)
    (edges : list RuntimeMapEdge) (diagnostics : list RuntimeMapDiagnostic)
    (evidence_provider_revision : rstr) : option RuntimeMap :=
  if evidence_provider_revision == [] then None
  else
    docker ← inventory_edges s evidence_provider_revision;
    acc ← push_unspecified_address_risk s evidence_provider_revision
            (nodes ++ inventory_nodes s, edges ++ docker);
    acc ← push_daemon_state_risk s evidence_provider_revision acc;
    let '(nodes, edges) := acc in
    Some {|
      rm_nodes := sort_by_json nodes;
      rm_edges := dedup (sort_by_json edges);
      rm_diagnostics := diagnostics
        ++ ((λ _, duplicate_id_diagnostic) <$> duplicate_runtime_node_ids nodes);
      rm_last_updated := s_last_updated s; rm_model_revision := []; rm_provider_states := [];
      rm_source := None |}.
End topology.

Arguments runtime_container_id : simpl never.
Arguments network_node_id : simpl never.
Arguments volume_node_id : simpl never.
Arguments listener_node_id : simpl never.
Arguments index_from_containers : simpl never.
Arguments docker_runtime_evidence : simpl never.
Arguments docker_edge : simpl never.
Arguments has_unique_id : simpl never.
Arguments kind_id : simpl never.
Arguments kind_summary : simpl never.
Arguments DOCKER_UNSPECIFIED_ADDRESS_PORT_RISK_ID : simpl never.
Arguments DOCKER_DAEMON_STATE_RISK_ID : simpl never.

(** ** The facts Docker states *)

Section facts.
Context `{Sha256}.

(** A container whose runtime id names exactly one record that has an id. *)
Definition runtime_names_one (s : DockerSnapshot) (c : ContainerRecord) : Prop :=
  c_id c ≠ [] ∧
  count_if (λ c', (c_id c' != []) && (runtime_container_id c' == runtime_container_id c))
    (s_containers s) = 1.

(** Source, target, relationship and kind of evidence of what the snapshot states; [given] are
    the nodes of the other providers. *)
Inductive docker_fact (s : DockerSnapshot) (given : list RuntimeMapNode)
    : rstr → rstr → RuntimeRelationshipKind → option RuntimeEvidenceKind → Prop :=
  | fact_network c network :
      c ∈ s_containers s → network ∈ c_networks c →
      docker_fact s given (runtime_container_id c) (network_node_id network) RR_ConnectedTo
        (Some DockerNetworkMembership)
  | fact_publication c port :
      c ∈ s_containers s → port ∈ c_ports c → is_host_published_docker_port port = true →
      docker_fact s given (runtime_container_id c) (listener_node_id c port) RR_Exposes
        (Some DockerPortPublication)
  | fact_private_port c port :
      c ∈ s_containers s → port ∈ c_ports c → is_host_published_docker_port port = false →
      docker_fact s given (runtime_container_id c) (listener_node_id c port) RR_Exposes None
  | fact_dependency c dependency target :
      c ∈ s_containers s → dependency ∈ c_depends_on c → depends_target s dependency target →
      runtime_names_one s c → runtime_names_one s target →
      runtime_container_id c ≠ runtime_container_id target →
      docker_fact s given (runtime_container_id c) (runtime_container_id target) RR_DependsOn
        (Some DockerComposeDependsOn)
  | fact_mount volume attached c :
      volume ∈ s_volumes s → attached ∈ v_attached_to volume →
      find (λ c, c_name c == attached) (s_containers s) = Some c →
      docker_fact s given (runtime_container_id c) (volume_node_id (v_id volume)) RR_Mounts
        (Some DockerVolumeMount)
  | fact_unspecified_address c :
      c ∈ s_containers s → unspecified_address_source s c = true →
      (DOCKER_UNSPECIFIED_ADDRESS_PORT_RISK_ID ∉ rn_id <$> given) →
      count_if (λ n, rn_id n == runtime_container_id c) (given ++ inventory_nodes s) = 1 →
      docker_fact s given (runtime_container_id c) DOCKER_UNSPECIFIED_ADDRESS_PORT_RISK_ID RR_Exposes
        (Some DockerUnspecifiedAddressPortPublication)
  | fact_daemon_state c :
      c ∈ s_containers s → daemon_state_source s c = true →
      (DOCKER_DAEMON_STATE_RISK_ID ∉ rn_id <$> given) →
      count_if (λ n, rn_id n == runtime_container_id c) (given ++ inventory_nodes s) = 1 →
      docker_fact s given (runtime_container_id c) DOCKER_DAEMON_STATE_RISK_ID RR_ExposesDaemonState
        (Some DockerDaemonStateBindMount).

(** The edge for a fact. *)
Definition fact_edge (s : DockerSnapshot) (revision source target : rstr)
    (relationship : RuntimeRelationshipKind) (kind : option RuntimeEvidenceKind) : RuntimeMapEdge := {|
  re_source := source; re_target := target; re_relationship := relationship; re_metadata := ∅;
  re_evidence_refs :=
    match kind ≫= λ k, docker_runtime_evidence s source target k revision with
    | Some evidence => [evidence] | None => [] end |}.

Lemma docker_edge_total s revision source target kind relationship :
  is_some (kind_id kind) = true →
  docker_edge s revision source target kind relationship
  = Some (fact_edge s revision source target relationship (Some kind)).
Proof. by destruct kind. Qed.

Lemma listener_edge_total s revision c port :
  listener_edge s revision c port
  = Some (fact_edge s revision (runtime_container_id c) (listener_node_id c port) RR_Exposes
            (if is_host_published_docker_port port then Some DockerPortPublication else None)).
Proof. unfold listener_edge. by destruct (is_host_published_docker_port port). Qed.

(** *** Identity *)

Lemma runtime_index_lookup containers c m :
  default 0 (foldl (λ counts c, if c_id c != [] then bump counts (runtime_container_id c) else counts)
    m containers !! runtime_container_id c)
  = default 0 (m !! runtime_container_id c)
    + count_if (λ c', (c_id c' != []) && (runtime_container_id c' == runtime_container_id c)) containers.
Proof.
  revert m. induction containers as [|c' l IH]; intros m; cbn [foldl count_if]; [lia|].
  rewrite IH. destruct (c_id c' != []); cbn [andb]; [|lia]. unfold bump.
  case_bool_decide as E; [rewrite E, lookup_insert_eq; unfold id; cbn [default]; lia|].
  rewrite lookup_insert_ne by done. lia.
Qed.

Lemma has_unique_id_spec s c :
  has_unique_id (index_from_containers (s_containers s)) c = true ↔ runtime_names_one s c.
Proof.
  unfold has_unique_id, runtime_names_one. rewrite andb_true_iff, negb_true_iff, bool_decide_eq_false, bool_decide_eq_true.
  pose proof (runtime_index_lookup (s_containers s) c ∅) as E. rewrite lookup_empty in E. cbn [default from_option] in E.
  fold (index_from_containers (s_containers s)) in E.
  rewrite Nat.add_0_l in E. rewrite <- E.
  destruct (index_from_containers (s_containers s) !! runtime_container_id c) as [n|]; cbn [default from_option]; unfold id;
    split; intros [? ?]; split; try done; congruence.
Qed.

Lemma dependency_edges_total s revision i c dependency :
  s_containers s !! i = Some c →
  ∃ r, runtime_dependency_edges s revision i c dependency = Some r ∧ ∀ e, e ∈ r ↔
    ∃ target, depends_target s dependency target ∧ runtime_names_one s c ∧
      runtime_names_one s target ∧ runtime_container_id c ≠ runtime_container_id target ∧
      e = fact_edge s revision (runtime_container_id c) (runtime_container_id target) RR_DependsOn
            (Some DockerComposeDependsOn).
Proof.
  intros Hi. unfold runtime_dependency_edges.
  destruct (resolve_dependency _ dependency) as [t|] eqn:Er; cycle 1.
  { exists []. split; [done|]. intros e. rewrite elem_of_nil. split; [done|].
    intros (target & Ht & _). pose proof Ht as (_ & _ & [t Et]%list_elem_of_lookup & _).
    apply (resolve_dependency_target s _ t target Et) in Ht. congruence. }
  pose proof Er as (_ & _ & Hone & target & Et & Ha)%resolve_dependency_spec.
  rewrite Et. cbn [mbind option_bind]. apply (resolve_dependency_target s dependency t target Et) in Er.
  assert (Huniq : ∀ target', depends_target s dependency target' → target' = target).
  { intros t' (_ & _ & Hin & Ha' & _). eapply count_if_one_unique; [exact Hone|done| |done|done].
    by eapply list_elem_of_lookup_2. }
  destruct (negb (has_unique_id _ c) || negb (has_unique_id _ target) || (i == t)) eqn:Eb.
  - exists []. split; [done|]. intros e. rewrite elem_of_nil. split; [done|].
    intros (t' & Ht & Hc & Htn & Hne & _). pose proof (Huniq _ Ht) as ->.
    apply has_unique_id_spec in Hc, Htn. rewrite Hc, Htn in Eb. cbn [negb orb] in Eb.
    apply bool_decide_eq_true in Eb. congruence.
  - apply orb_false_elim in Eb as [[Hc Htn]%orb_false_elim _]. rewrite negb_false_iff, has_unique_id_spec in Hc, Htn.
    case_bool_decide as Eid.
    + exists []. split; [done|]. intros e. rewrite elem_of_nil. split; [done|].
      intros (t' & Ht & _ & _ & Hne & _). apply Huniq in Ht. congruence.
    + rewrite docker_edge_total by done. cbn [mbind option_bind]. eexists. split; [done|]. intros e.
      rewrite list_elem_of_singleton. split; [intros ->; eauto 10|].
      intros (t' & Ht & _ & _ & _ & ->). apply Huniq in Ht. by subst t'.
Qed.

(** *** The loops *)

Lemma container_edges_total s revision i c :
  s_containers s !! i = Some c →
  ∃ r, runtime_container_edges s revision i c = Some r ∧ ∀ e, e ∈ r ↔
    ((∃ network, network ∈ c_networks c ∧
        e = fact_edge s revision (runtime_container_id c) (network_node_id network) RR_ConnectedTo
              (Some DockerNetworkMembership)) ∨
     (∃ port, port ∈ c_ports c ∧
        e = fact_edge s revision (runtime_container_id c) (listener_node_id c port) RR_Exposes
              (if is_host_published_docker_port port then Some DockerPortPublication else None)) ∨
     (∃ dependency, dependency ∈ c_depends_on c ∧ ∃ target, depends_target s dependency target ∧
        runtime_names_one s c ∧ runtime_names_one s target ∧
        runtime_container_id c ≠ runtime_container_id target ∧
        e = fact_edge s revision (runtime_container_id c) (runtime_container_id target) RR_DependsOn
              (Some DockerComposeDependsOn))).
Proof.
  intros Hi. unfold runtime_container_edges.
  rewrite (mapM_total (λ network, docker_edge s revision _ (network_node_id network) _ _) _ _
    (λ network, docker_edge_total s revision _ (network_node_id network) DockerNetworkMembership _ eq_refl)).
  cbn [mbind option_bind]. rewrite (mapM_total _ _ _ (listener_edge_total s revision c)).
  cbn [mbind option_bind].
  destruct (mapM_members (runtime_dependency_edges s revision i c) _ (c_depends_on c)
    (λ d _, dependency_edges_total s revision i c d Hi)) as (rs & -> & Hrs).
  cbn [mbind option_bind]. eexists. split; [done|]. intros e.
  rewrite !elem_of_app, !list_elem_of_fmap, Hrs. naive_solver.
Qed.

Lemma volume_edges_total s revision volume :
  ∃ r, runtime_volume_edges s revision volume = Some r ∧ ∀ e, e ∈ r ↔
    ∃ attached, attached ∈ v_attached_to volume ∧ ∃ c,
      find (λ c, c_name c == attached) (s_containers s) = Some c ∧
      e = fact_edge s revision (runtime_container_id c) (volume_node_id (v_id volume)) RR_Mounts
            (Some DockerVolumeMount).
Proof.
  unfold runtime_volume_edges.
  destruct (mapM_members (attachment_edges s revision volume) (λ attached e, ∃ c,
      find (λ c, c_name c == attached) (s_containers s) = Some c ∧
      e = fact_edge s revision (runtime_container_id c) (volume_node_id (v_id volume)) RR_Mounts
            (Some DockerVolumeMount)) (v_attached_to volume)) as (rs & -> & Hrs).
  - intros attached _. unfold attachment_edges.
    destruct (find _ _) as [c|]; [rewrite docker_edge_total by done; cbn [mbind option_bind]|];
      (eexists; split; [done|]); intros e.
    + rewrite list_elem_of_singleton. naive_solver.
    + rewrite elem_of_nil. naive_solver.
  - eexists. split; [done|]. exact Hrs.
Qed.

(** The facts other than the aggregate risks. *)
Definition inventory_fact s source target relationship kind : Prop :=
  docker_fact s [] source target relationship kind ∧
  kind ≠ Some DockerUnspecifiedAddressPortPublication ∧ kind ≠ Some DockerDaemonStateBindMount.

Lemma inventory_edges_total s revision :
  ∃ r, inventory_edges s revision = Some r ∧ ∀ e, e ∈ r ↔
    ∃ source target relationship kind, inventory_fact s source target relationship kind ∧
      e = fact_edge s revision source target relationship kind.
Proof.
  unfold inventory_edges.
  destruct (mapM_imap_members (runtime_container_edges s revision) _ (s_containers s)
    (container_edges_total s revision)) as (rs & -> & Hrs). cbn [mbind option_bind].
  destruct (mapM_members (runtime_volume_edges s revision) _ (s_volumes s)
    (λ v _, volume_edges_total s revision v)) as (vs & -> & Hvs). cbn [mbind option_bind].
  eexists. split; [done|]. intros e. rewrite elem_of_app, Hrs, Hvs. unfold inventory_fact. split.
  - intros [(c & Hc & [(n & Hn & ->)|[(p & Hp & ->)|(d & Hd & t & Ht & H1 & H2 & H3 & ->)]])
           |(v & Hv & a & Ha & c & Hc & ->)]; eexists _, _, _, _; (split; [|done]);
      (split; [|by try case_if E]).
    + by constructor.
    + case_if E; by constructor.
    + by econstructor.
    + by econstructor.
  - intros (src & tgt & rel & k & (Hf & Hk1 & Hk2) & ->). destruct Hf; try done.
    + left. eauto 10.
    + left. exists c. split; [done|]. right; left. exists port. split; [done|]. by case_match.
    + left. exists c. split; [done|]. right; left. exists port. split; [done|]. by case_match.
    + left. exists c. split; [done|]. right; right. eauto 10.
    + right. eauto 10.
Qed.

(** *** The aggregate risks *)

Lemma starts_with_neq (s t p : rstr) : starts_with s p = true → starts_with t p = false → s ≠ t.
Proof. intros Hs Ht ->. congruence. Qed.

Lemma container_id_prefix c : starts_with (runtime_container_id c) "docker_container_" = true.
Proof. apply starts_with_rapp. Qed.

Lemma container_id_not_unspecified c : runtime_container_id c ≠ DOCKER_UNSPECIFIED_ADDRESS_PORT_RISK_ID.
Proof. apply (starts_with_neq _ _ "docker_container_"); [apply container_id_prefix|by vm_compute]. Qed.

Lemma container_id_not_daemon c : runtime_container_id c ≠ DOCKER_DAEMON_STATE_RISK_ID.
Proof. apply (starts_with_neq _ _ "docker_container_"); [apply container_id_prefix|by vm_compute]. Qed.

Lemma existsb_bool_decide {A} (f : A → bool) (l : list A) : existsb f l = true ↔ ∃ x, x ∈ l ∧ f x = true.
Proof. rewrite existsb_exists. by setoid_rewrite list_elem_of_In. Qed.

Lemma elem_of_risk_sources s is_source id :
  id ∈ risk_sources s is_source ↔
  ∃ c, c ∈ s_containers s ∧ is_source c = true ∧ id = runtime_container_id c.
Proof.
  unfold risk_sources. rewrite elem_of_btree_set, list_elem_of_fmap.
  setoid_rewrite elem_of_filterb. naive_solver.
Qed.

(** Whether a risk node is added. *)
Definition risk_active (s : DockerSnapshot) (is_source : ContainerRecord → bool) (risk_id : rstr)
    (nodes : list RuntimeMapNode) : bool :=
  existsb is_source (s_containers s) && negb (existsb (λ node, rn_id node == risk_id) nodes).

Lemma risk_active_guard s is_source risk_id nodes :
  (risk_sources s is_source != []) && negb (existsb (λ node, rn_id node == risk_id) nodes)
  = risk_active s is_source risk_id nodes.
Proof.
  unfold risk_active. f_equal. apply eq_bool_prop_intro. rewrite !Is_true_true.
  rewrite negb_true_iff, bool_decide_eq_false, existsb_bool_decide. split.
  - intros Hne. destruct (risk_sources s is_source) as [|id l] eqn:E; [done|].
    assert (id ∈ risk_sources s is_source) as (c & ? & ? & _)%elem_of_risk_sources by (rewrite E; left). eauto.
  - intros (c & Hc & Hs) E.
    assert (runtime_container_id c ∈ risk_sources s is_source) as Hin by (apply elem_of_risk_sources; eauto).
    rewrite E in Hin. by apply elem_of_nil in Hin.
Qed.

Lemma existsb_id_spec (nodes : list RuntimeMapNode) (id : rstr) :
  existsb (λ node, rn_id node == id) nodes = false ↔ id ∉ rn_id <$> nodes.
Proof.
  rewrite <- not_true_iff_false, existsb_bool_decide, list_elem_of_fmap.
  setoid_rewrite bool_decide_eq_true. naive_solver.
Qed.

Lemma push_risk_total s revision risk_id label is_source kind relationship nodes edges :
  is_some (kind_id kind) = true → (∀ c, runtime_container_id c ≠ risk_id) →
  ∃ edges', push_risk s revision risk_id label is_source kind relationship (nodes, edges)
    = Some (nodes ++ (if risk_active s is_source risk_id nodes then [risk_node risk_id label] else []), edges') ∧
  ∀ e, e ∈ edges' ↔ e ∈ edges ∨ ∃ c, c ∈ s_containers s ∧ is_source c = true ∧
    (risk_id ∉ rn_id <$> nodes) ∧ count_if (λ n, rn_id n == runtime_container_id c) nodes = 1 ∧
    e = fact_edge s revision (runtime_container_id c) risk_id relationship (Some kind).
Proof.
  intros Hk Hid. unfold push_risk. rewrite risk_active_guard.
  destruct (risk_active s is_source risk_id nodes) eqn:Ea; cycle 1.
  { exists edges. rewrite app_nil_r. split; [done|]. intros e. split; [by left|].
    intros [?|(c & Hc & Hs & Hr & _)]; [done|]. unfold risk_active in Ea.
    apply existsb_id_spec in Hr. rewrite Hr, andb_true_r, <- not_true_iff_false, existsb_bool_decide in Ea.
    exfalso. eauto. }
  rewrite (mapM_total (λ source, docker_edge s revision source risk_id kind relationship) _ _
    (λ source, docker_edge_total s revision source risk_id kind relationship Hk)).
  cbn [mbind option_bind]. eexists. split; [done|]. intros e.
  unfold risk_active in Ea. apply andb_prop in Ea as [_ Ea%negb_true_iff%existsb_id_spec].
  rewrite elem_of_app, list_elem_of_fmap. setoid_rewrite elem_of_filterb.
  setoid_rewrite elem_of_risk_sources. setoid_rewrite bool_decide_eq_true.
  assert (Hcount : ∀ c, count_if (λ n, rn_id n == runtime_container_id c) (nodes ++ [risk_node risk_id label])
    = count_if (λ n, rn_id n == runtime_container_id c) nodes).
  { intros c. rewrite count_if_app. cbn [count_if rn_id risk_node].
    rewrite bool_decide_eq_false_2 by (intros E; by eapply Hid). lia. }
  split.
  - intros [?|(id & -> & Hc & c & Hin & Hs & ->)]; [by left|right]. rewrite Hcount in Hc. eauto 10.
  - intros [?|(c & Hin & Hs & _ & Hc & ->)]; [by left|right]. rewrite <- Hcount in Hc. eauto 10.
Qed.

(** No node of the inventory has the id of a risk. *)
Lemma inventory_ids_not id s :
  Forall (λ p, starts_with id p = false)
    ["docker_container_" : rstr; "network_listener_" : rstr; "docker_network_" : rstr; "docker_volume_" : rstr] →
  id ∉ rn_id <$> inventory_nodes s.
Proof.
  rewrite !Forall_cons. intros (H1 & H2 & H3 & H4 & _). unfold inventory_nodes.
  rewrite list_elem_of_fmap. intros (n & -> & Hn).
  rewrite !elem_of_app, list_elem_of_bind, !list_elem_of_fmap in Hn.
  destruct Hn as [(c & Hn & _)|[(n' & -> & _)|(v & -> & _)]].
  - apply elem_of_cons in Hn as [->|(p & -> & _)%list_elem_of_fmap]; simpl in *.
    + unfold runtime_container_id in H1. by rewrite starts_with_rapp in H1.
    + unfold listener_node_id in H2. by rewrite starts_with_rapp in H2.
  - simpl in *. unfold network_node_id in H3. by rewrite starts_with_rapp in H3.
  - simpl in *. unfold volume_node_id in H4. by rewrite starts_with_rapp in H4.
Qed.

Lemma risk_active_app s is_source risk_id nodes more :
  (risk_id ∉ rn_id <$> more) → risk_active s is_source risk_id (nodes ++ more) = risk_active s is_source risk_id nodes.
Proof.
  intros Hm%existsb_id_spec. unfold risk_active. by rewrite existsb_app, Hm, orb_false_r.
Qed.

(** The risk nodes the map has besides the nodes of the other providers. *)
Definition risk_nodes (s : DockerSnapshot) (given : list RuntimeMapNode) : list RuntimeMapNode :=
  (if risk_active s (unspecified_address_source s) DOCKER_UNSPECIFIED_ADDRESS_PORT_RISK_ID given
   then [risk_node DOCKER_UNSPECIFIED_ADDRESS_PORT_RISK_ID "Unspecified-address Docker port publication"]
   else [])
  ++ (if risk_active s (daemon_state_source s) DOCKER_DAEMON_STATE_RISK_ID given
      then [risk_node DOCKER_DAEMON_STATE_RISK_ID "Docker daemon state exposure"] else []).

Lemma inventory_not_unspecified s : DOCKER_UNSPECIFIED_ADDRESS_PORT_RISK_ID ∉ rn_id <$> inventory_nodes s.
Proof. apply inventory_ids_not. by repeat constructor. Qed.

Lemma inventory_not_daemon s : DOCKER_DAEMON_STATE_RISK_ID ∉ rn_id <$> inventory_nodes s.
Proof. apply inventory_ids_not. by repeat constructor. Qed.

Lemma notin_app_ids (id : rstr) (l l' : list RuntimeMapNode) :
  (id ∉ rn_id <$> l') → (id ∉ rn_id <$> l ++ l') ↔ id ∉ rn_id <$> l.
Proof. rewrite fmap_app, elem_of_app. naive_solver. Qed.

(** Both risk steps together. *)
Lemma push_risks_total s revision given edges :
  ∃ edges1 edges2,
    push_unspecified_address_risk s revision (given ++ inventory_nodes s, edges) = Some edges1 ∧
    push_daemon_state_risk s revision edges1
    = Some (given ++ inventory_nodes s ++ risk_nodes s given, edges2) ∧
    ∀ e, e ∈ edges2 ↔ e ∈ edges ∨ ∃ source target relationship kind,
      docker_fact s given source target relationship (Some kind) ∧
      (kind = DockerUnspecifiedAddressPortPublication ∨ kind = DockerDaemonStateBindMount) ∧
      e = fact_edge s revision source target relationship (Some kind).
Proof.
  pose proof (inventory_not_unspecified s) as Hnu. pose proof (inventory_not_daemon s) as Hnd.
  unfold push_unspecified_address_risk, push_daemon_state_risk.
  destruct (push_risk_total s revision DOCKER_UNSPECIFIED_ADDRESS_PORT_RISK_ID
    "Unspecified-address Docker port publication" (unspecified_address_source s)
    DockerUnspecifiedAddressPortPublication RR_Exposes (given ++ inventory_nodes s) edges eq_refl
    container_id_not_unspecified) as (edges1 & -> & He1).
  rewrite risk_active_app by done.
  set (r1 := if risk_active s _ _ given then _ else _).
  assert (Hr1d : DOCKER_DAEMON_STATE_RISK_ID ∉ rn_id <$> r1).
  { unfold r1. case_if E; [intros HH; refute HH|apply not_elem_of_nil]. }
  destruct (push_risk_total s revision DOCKER_DAEMON_STATE_RISK_ID
    "Docker daemon state exposure" (daemon_state_source s)
    DockerDaemonStateBindMount RR_ExposesDaemonState ((given ++ inventory_nodes s) ++ r1) edges1 eq_refl
    container_id_not_daemon) as (edges2 & Hp2 & He2).
  rewrite !risk_active_app in Hp2 by done.
  eexists _, edges2. split; [done|]. split.
  { rewrite Hp2. unfold risk_nodes. by rewrite <- !app_assoc. }
  intros e. rewrite He2, He1. setoid_rewrite (notin_app_ids _ _ _ Hr1d).
  setoid_rewrite (notin_app_ids _ _ _ Hnd). setoid_rewrite (notin_app_ids _ _ _ Hnu).
  assert (Hcount : ∀ c, count_if (λ n, rn_id n == runtime_container_id c) ((given ++ inventory_nodes s) ++ r1)
    = count_if (λ n, rn_id n == runtime_container_id c) (given ++ inventory_nodes s)).
  { intros c. rewrite count_if_app. unfold r1. case_if E; cbn [count_if rn_id risk_node]; [|lia].
    rewrite bool_decide_eq_false_2; [lia|]. intros E'. by eapply container_id_not_unspecified. }
  setoid_rewrite Hcount. split.
  - intros [[?|(c & ? & ? & ? & ? & ->)]|(c & ? & ? & ? & ? & ->)]; [by left|right..];
      eexists _, _, _, _; [split; [by apply (fact_unspecified_address _ _ c)|]
                          |split; [by apply (fact_daemon_state _ _ c)|]]; auto.
  - intros [?|(src & tgt & rel & k & Hf & Hk & ->)]; [tauto|].
    inversion Hf; subst; try (by destruct Hk); [left; right|right]; eauto 10.
Qed.

End facts.

Section runtime_map_theorems.
Context `{Sha256} `{Json RuntimeMapNode} `{Json RuntimeMapEdge}.

(** The map without the option: total for a non-empty revision. *)
Lemma derive_runtime_map_total s nodes edges diagnostics (revision : rstr) :
  revision ≠ [] → ∃ m, derive_runtime_map s nodes edges diagnostics revision = Some m ∧
    rm_nodes m = sort_by_json (nodes ++ inventory_nodes s ++ risk_nodes s nodes) ∧
    rm_diagnostics m = diagnostics ++ ((λ _, duplicate_id_diagnostic)
      <$> duplicate_runtime_node_ids (nodes ++ inventory_nodes s ++ risk_nodes s nodes)) ∧
    rm_last_updated m = s_last_updated s ∧ NoDup (rm_edges m) ∧
    ∀ e, e ∈ rm_edges m ↔ e ∈ edges ∨ ∃ source target relationship kind,
      docker_fact s nodes source target relationship kind ∧
      e = fact_edge s revision source target relationship kind.
Proof.
  intros Hr. unfold derive_runtime_map. rewrite bool_decide_eq_false_2 by done.
  destruct (inventory_edges_total s revision) as (inv & -> & Hinv). cbn [mbind option_bind].
  destruct (push_risks_total s revision nodes (edges ++ inv)) as (acc & edges2 & -> & Hp & He).
  cbn [mbind option_bind]. rewrite Hp. cbn [mbind option_bind]. eexists. split; [done|].
  cbn [rm_nodes rm_diagnostics rm_last_updated rm_edges]. split_and!; [done..| |].
  - eapply dedup_NoDup; [apply key_leb_antisym|apply sort_by_json_sorted].
  - intros e. rewrite elem_of_dedup, elem_of_sort_by_json, He, elem_of_app, Hinv. split.
    + intros [[?|(src & tgt & rel & k & [Hf [Hk1 Hk2]] & ->)]|(src & tgt & rel & k & Hf & _ & ->)];
        [by left|right..]; [|eauto 10].
      eexists src, tgt, rel, k. split; [|done]. destruct Hf; by econstructor.
    + intros [?|(src & tgt & rel & k & Hf & ->)]; [tauto|]. unfold inventory_fact.
      destruct Hf; try (left; right; eexists _, _, _, _; split; [|reflexivity]; split; [by econstructor|done]).
      * right. eexists _, _, _, _. split; [by apply (fact_unspecified_address _ _ c)|]. auto.
      * right. eexists _, _, _, _. split; [by apply (fact_daemon_state _ _ c)|]. auto.
Qed.

(** C17: [derive_runtime_map] panics exactly on an empty observation revision. Otherwise the map
    has the nodes of the other providers, one node per container, port, network and volume, and
    a risk node exactly when some container exposes the host that way and the id is free;
    and its edges are the given ones and one edge per fact that Docker states: evidence of a
    port publication only for a port with a host binding, dependencies and risks only between
    records that one id names. *)
Theorem derive_runtime_map_spec s nodes edges diagnostics (revision : rstr) :
  match derive_runtime_map s nodes edges diagnostics revision with
  | None => revision = []
  | Some m =>
      revision ≠ [] ∧
      rm_nodes m ≡ₚ nodes ++ inventory_nodes s ++ risk_nodes s nodes ∧
      NoDup (rm_edges m) ∧
      (∀ e, e ∈ rm_edges m ↔ e ∈ edges ∨ ∃ source target relationship kind,
        docker_fact s nodes source target relationship kind ∧
        e = fact_edge s revision source target relationship kind)
  end.
Proof.
  destruct (decide (revision = [])) as [->|Hr].
  { unfold derive_runtime_map. by rewrite bool_decide_eq_true_2. }
  destruct (derive_runtime_map_total s nodes edges diagnostics revision Hr)
    as (m & -> & -> & _ & _ & Hnd & He).
  split_and!; [done|apply sort_by_json_Permutation|done|done].
Qed.

(** A derived map reports one diagnostic per id that several of its nodes share, after
    those of the other providers, and carries the collection time of the snapshot. *)
Theorem derive_runtime_map_diagnostics s nodes edges diagnostics (revision : rstr) m :
  derive_runtime_map s nodes edges diagnostics revision = Some m →
  rm_last_updated m = s_last_updated s ∧
  rm_diagnostics m = diagnostics ++ replicate (length (duplicate_runtime_node_ids (rm_nodes m)))
                                      duplicate_id_diagnostic ∧
  (rm_diagnostics m = diagnostics ↔ NoDup (rn_id <$> rm_nodes m)).
Proof.
  intros E. assert (Hr : revision ≠ []).
  { intros ->. unfold derive_runtime_map in E. by rewrite bool_decide_eq_true_2 in E. }
  destruct (derive_runtime_map_total s nodes edges diagnostics revision Hr)
    as (m' & E' & Hn & Hd & Hl & _). rewrite E in E'. injection E' as <-.
  assert (Hdup : length (duplicate_runtime_node_ids (nodes ++ inventory_nodes s ++ risk_nodes s nodes))
                 = length (duplicate_runtime_node_ids (rm_nodes m))).
  { apply duplicate_ids_length. by rewrite Hn, sort_by_json_Permutation. }
  assert (Hd' : rm_diagnostics m = diagnostics ++ replicate
    (length (duplicate_runtime_node_ids (rm_nodes m))) duplicate_id_diagnostic).
  { rewrite Hd, <- Hdup. f_equal. generalize (duplicate_runtime_node_ids (nodes ++ inventory_nodes s ++ risk_nodes s nodes)).
    intros l. induction l as [|x l IH]; [done|]. simpl. by rewrite <- IH. }
  split_and!; [done|done|]. rewrite <- no_duplicate_ids, Hd'. split.
  - intros Hl'. apply (f_equal length) in Hl'. rewrite length_app, length_replicate in Hl'.
    apply nil_length_inv. lia.
  - intros ->. by rewrite app_nil_r.
Qed.

Lemma docker_evidence_id_ok s source target kind (revision kid summary : rstr) :
  kind_id kind = Some kid → kind_summary kind = Some summary → evidence_text_ok summary = true →
  1 ≤ length kid ≤ 40 → 1 ≤ length revision ≤ 259 →
  ∃ ev, docker_runtime_evidence s source target kind revision = Some ev ∧
    ev_kind ev = kind ∧ ev_subject_ref ev = source ∧ evidence_text_ok (ev_id ev) = true ∧
    evidence_text_ok (ev_summary ev) = true ∧ evidence_text_ok (ev_provider_revision ev) = true ∧
    has_valid_versioned_shape ev = true.
Proof.
  intros Hk Hs Hok Hl Hr. unfold docker_runtime_evidence. rewrite Hk, Hs. cbn [mbind option_bind].
  assert (Hid : evidence_text_ok ("docker_evidence_" +s+ kid +s+ "_"
    +s+ collision_resistant_id_component (source +s+ [31%N] +s+ target)) = true).
  { apply evidence_text_ok_spec. unfold MAX_EVIDENCE_TEXT_CHARS.
    pose proof (id_component_length (source +s+ [31%N] +s+ target)) as Hc.
    split; [intros E; apply (f_equal length) in E|]; unfold rapp in *; rewrite !length_app in *;
      change (length (lit "docker_evidence_")) with 16 in *; change (length (lit "_")) with 1 in *;
      [simpl in E|]; lia. }
  assert (Hrev : evidence_text_ok revision = true).
  { apply evidence_text_ok_spec. unfold MAX_EVIDENCE_TEXT_CHARS. destruct revision; simpl in *; [lia|split; [done|lia]]. }
  eexists. split; [reflexivity|]. cbn [ev_kind ev_subject_ref ev_id ev_summary ev_provider_revision].
  split_and!; try done. by destruct kind.
Qed.

Lemma docker_fact_source s given source target relationship kind :
  docker_fact s given source target relationship kind → source ∈ rn_id <$> inventory_nodes s.
Proof.
  intros Hf. assert (∃ c, c ∈ s_containers s ∧ source = runtime_container_id c) as (c & Hc & ->).
  { destruct Hf as [c ? Hc _|c ? Hc _ _|c ? Hc _ _|c ? ? Hc _ _ _ _ _|? ? c _ _ Hc|c Hc _ _ _|c Hc _ _ _];
      try by eauto. apply find_Some in Hc as [? _]. eauto. }
  apply list_elem_of_fmap. exists (container_node c). split; [done|].
  unfold inventory_nodes. apply elem_of_app. left. apply list_elem_of_bind. exists c. split; [left|done].
Qed.

Lemma attests_fact s revision source target relationship kind k :
  relationship = attested_relationship k →
  in_family (λ p, starts_with source p) (λ id, source == id) (attested_families k).1 = true →
  in_family (λ p, starts_with target p) (λ id, target == id) (attested_families k).2 = true →
  (requires_distinct k = true → source ≠ target) →
  attests (fact_edge s revision source target relationship kind) k = true.
Proof.
  intros -> Hsrc Htgt Hne. unfold attests, attests_with. cbn [fact_edge re_relationship re_source re_target].
  rewrite bool_decide_eq_true_2, Hsrc, Htgt by done. simpl. destruct (requires_distinct k); [|done].
  apply negb_true_iff, bool_decide_eq_false. by apply Hne.
Qed.

(** Every fact drawn from Docker leaves a node of the inventory, and its evidence is of the
    kind of the fact and is accepted by the model on its edge, provided the observation
    revision is 1 to 259 characters. *)
Theorem docker_fact_evidence_valid s nodes source target relationship kind (revision : rstr) :
  docker_fact s nodes source target relationship kind → 1 ≤ length revision ≤ 259 →
  source ∈ rn_id <$> inventory_nodes s ∧
  has_valid_evidence_refs (fact_edge s revision source target relationship kind) = true ∧
  ev_kind <$> re_evidence_refs (fact_edge s revision source target relationship kind) = option_list kind.
Proof.
  intros Hf Hr. unfold has_valid_evidence_refs. split; [by eapply docker_fact_source|].
  assert (Hok : ∀ k kid summary, kind = Some k → kind_id k = Some kid → kind_summary k = Some summary →
    evidence_text_ok summary = true → 1 ≤ length kid ≤ 40 →
    attests (fact_edge s revision source target relationship kind) k = true →
    forallb (evidence_ref_matches_edge (fact_edge s revision source target relationship kind))
      (re_evidence_refs (fact_edge s revision source target relationship kind)) = true ∧
    ev_kind <$> re_evidence_refs (fact_edge s revision source target relationship kind) = option_list kind).
  { intros k kid sm -> Hk Hs Ht Hl Ha.
    destruct (docker_evidence_id_ok s source target k revision kid sm Hk Hs Ht Hl Hr)
      as (ev & Hev & Hek & Hsub & Hid & Hsum & Hrev & Hsh).
    unfold fact_edge at 2 3. cbn [re_evidence_refs mbind option_bind]. rewrite Hev.
    split; [|simpl; by rewrite Hek]. cbn [forallb]. rewrite andb_true_r.
    apply evidence_ref_matches_edge_spec. split_and!; try done.
    rewrite evidence_arm_attests, Hek by done. exact Ha. }
  destruct Hf; try done;
    (eapply Hok; [reflexivity|reflexivity|reflexivity|by vm_compute|by vm_compute; lia|]);
    apply attests_fact; try done; cbn [attested_families fst snd in_family]; try apply starts_with_rapp.
Qed.
End runtime_map_theorems.

(** ** Concrete instances *)

Definition example_runtime : list RuntimeMapNode :=
  [risk_node "host_local" "host"; risk_node "host_local" "host"].

Lemma derive_runtime_map_diagnostics_witness :
  ∃ m, @derive_runtime_map Toy_sha256 (Json_of_countable _) (Json_of_countable _)
         (example_snapshot example_containers) example_runtime [] [] "d-1" = Some m ∧
       rm_last_updated m = 0%N ∧
       rm_diagnostics m = replicate (length (duplicate_runtime_node_ids (rm_nodes m))) duplicate_id_diagnostic.
Proof.
  destruct (@derive_runtime_map_total Toy_sha256 (Json_of_countable _) (Json_of_countable _)
    (example_snapshot example_containers) example_runtime [] [] "d-1" ltac:(discriminate)) as (m & E & _).
  exists m. split; [exact E|].
  destruct (@derive_runtime_map_diagnostics Toy_sha256 (Json_of_countable _) (Json_of_countable _)
    _ _ _ _ _ _ E) as (Hl & Hd & _).
  split; [exact Hl|exact Hd].
Defined.

Lemma docker_fact_evidence_valid_witness :
  let c := example_container "c1" "web" ["net" : rstr] ["container_db" : rstr] in
  has_valid_evidence_refs
    (@fact_edge Toy_sha256 (example_snapshot example_containers) "d-1"
       (@runtime_container_id Toy_sha256 c) (@network_node_id Toy_sha256 "net") RR_ConnectedTo
       (Some DockerNetworkMembership)) = true.
Proof.
  intros c. apply (@docker_fact_evidence_valid Toy_sha256
    (example_snapshot example_containers) []); [|simpl; lia].
  apply (@fact_network Toy_sha256 _ _ c "net"); [left|left].
Defined.
