(* ===== verification/Findings.v ===== *)
(** * Advisory findings ([crates/dockermap-core/src/findings.rs])

    [derive_findings] as ten loops over the edges of the published runtime map, each reading
    counts that earlier loops took. An index panic ([evidence_refs[0]]) is [None]. *)

From S2P Require Import Prelude RustStr RustNum Models Identity Evidence Graph.

(** ** Texts *)

Definition SUMMARY : rstr := "An active systemd service requires a target that is inactive or failed".
Definition RECOMMENDATION : rstr := "Inspect the target service state and its declared dependency configuration.".
Definition PART_OF_SUMMARY : rstr := "An active systemd service is PartOf a unit that is inactive or failed.".
Definition PART_OF_RECOMMENDATION : rstr := "Inspect the coupling target unit's state and the declaring unit's PartOf configuration.".
Definition DECLARED_RELATIONSHIP_EVIDENCE_NOT_CURRENT_SUMMARY : rstr := "A declared systemd dependency relationship is attested only by stale or timed-out evidence.".
Definition DECLARED_RELATIONSHIP_EVIDENCE_NOT_CURRENT_RECOMMENDATION : rstr := "Inspect the systemd provider collection state before trusting dependency conclusions for this pair.".
Definition INTERNAL_NETWORK_PORT_SUMMARY : rstr := "A container on an internal Docker network also has a published host port.".
Definition INTERNAL_NETWORK_PORT_RECOMMENDATION : rstr := "Review whether the host-port publication is intended for this internal-network service.".
Definition UNSPECIFIED_ADDRESS_PORT_SUMMARY : rstr := "Docker reported a container port published on an unspecified host address.".
Definition UNSPECIFIED_ADDRESS_PORT_RECOMMENDATION : rstr := "Review whether publishing this container port beyond loopback is intended.".
Definition UNSPECIFIED_ADDRESS_PORT_EVIDENCE_SUMMARY : rstr := "Docker reported a container port published on an unspecified host address".
Definition UNSPECIFIED_ADDRESS_PORT_RISK_ID : rstr := "host_risk_docker_unspecified_address_port".
Definition DOCKER_DAEMON_STATE_SUMMARY : rstr := "A container has Docker daemon state access that may provide Docker daemon API authority.".
Definition DOCKER_DAEMON_STATE_RECOMMENDATION : rstr := "Review whether this container requires Docker daemon API authority.".
Definition DOCKER_DAEMON_STATE_PUBLISHED_PORT_SUMMARY : rstr := "A container with Docker daemon state access also has a published host port.".
Definition DOCKER_DAEMON_STATE_PUBLISHED_PORT_RECOMMENDATION : rstr := "Review whether the daemon-state access and host-port publication are both intended.".
Definition DOCKER_DAEMON_STATE_RISK_ID : rstr := "host_risk_docker_daemon_state".
Definition DOCKER_DAEMON_STATE_EVIDENCE_SUMMARY : rstr := "Docker reported a bind mount exposing Docker daemon state".
Definition COMPOSE_DECLARED_TARGET_NOT_ACTIVE_SUMMARY : rstr := "A running Docker Compose service declares a dependency whose container is not active.".
Definition COMPOSE_DECLARED_TARGET_NOT_ACTIVE_RECOMMENDATION : rstr := "Review the declared dependency and the target container state.".
Definition COMPOSE_DEPENDENCY_EVIDENCE_SUMMARY : rstr := "Docker recorded Compose dependency declaration".
Definition COMPOSE_MUTUAL_DEPENDENCY_SUMMARY : rstr := "Docker recorded mutually declared Compose dependencies between two containers.".
Definition COMPOSE_MUTUAL_DEPENDENCY_RECOMMENDATION : rstr := "Review the declared dependencies and remove any unintended mutual dependency.".
Definition RUNTIME_IDENTITY_COLLISION_SUMMARY : rstr := "DockerMap detected duplicate runtime identities after publication normalization.".
Definition RUNTIME_IDENTITY_COLLISION_RECOMMENDATION : rstr := "Review the duplicate identity condition before relying on topology relationships.".
Definition RUNTIME_IDENTITY_COLLISION_EVIDENCE_SUMMARY : rstr := "DockerMap detected duplicate runtime identities after publication normalization".
Definition RUNTIME_INTEGRITY_SCOPE_ID : rstr := "runtime_integrity_scope".
Definition RUNTIME_IDENTITY_COLLISION_RISK_ID : rstr := "runtime_integrity_risk_identity_collision".

Arguments SUMMARY : simpl never.
Arguments RECOMMENDATION : simpl never.
Arguments PART_OF_SUMMARY : simpl never.
Arguments PART_OF_RECOMMENDATION : simpl never.
Arguments DECLARED_RELATIONSHIP_EVIDENCE_NOT_CURRENT_SUMMARY : simpl never.
Arguments DECLARED_RELATIONSHIP_EVIDENCE_NOT_CURRENT_RECOMMENDATION : simpl never.
Arguments INTERNAL_NETWORK_PORT_SUMMARY : simpl never.
Arguments INTERNAL_NETWORK_PORT_RECOMMENDATION : simpl never.
Arguments UNSPECIFIED_ADDRESS_PORT_SUMMARY : simpl never.
Arguments UNSPECIFIED_ADDRESS_PORT_RECOMMENDATION : simpl never.
Arguments UNSPECIFIED_ADDRESS_PORT_EVIDENCE_SUMMARY : simpl never.
Arguments UNSPECIFIED_ADDRESS_PORT_RISK_ID : simpl never.
Arguments DOCKER_DAEMON_STATE_SUMMARY : simpl never.
Arguments DOCKER_DAEMON_STATE_RECOMMENDATION : simpl never.
Arguments DOCKER_DAEMON_STATE_PUBLISHED_PORT_SUMMARY : simpl never.
Arguments DOCKER_DAEMON_STATE_PUBLISHED_PORT_RECOMMENDATION : simpl never.
Arguments DOCKER_DAEMON_STATE_RISK_ID : simpl never.
Arguments DOCKER_DAEMON_STATE_EVIDENCE_SUMMARY : simpl never.
Arguments COMPOSE_DECLARED_TARGET_NOT_ACTIVE_SUMMARY : simpl never.
Arguments COMPOSE_DECLARED_TARGET_NOT_ACTIVE_RECOMMENDATION : simpl never.
Arguments COMPOSE_DEPENDENCY_EVIDENCE_SUMMARY : simpl never.
Arguments COMPOSE_MUTUAL_DEPENDENCY_SUMMARY : simpl never.
Arguments COMPOSE_MUTUAL_DEPENDENCY_RECOMMENDATION : simpl never.
Arguments RUNTIME_IDENTITY_COLLISION_SUMMARY : simpl never.
Arguments RUNTIME_IDENTITY_COLLISION_RECOMMENDATION : simpl never.
Arguments RUNTIME_IDENTITY_COLLISION_EVIDENCE_SUMMARY : simpl never.
Arguments RUNTIME_INTEGRITY_SCOPE_ID : simpl never.
Arguments RUNTIME_IDENTITY_COLLISION_RISK_ID : simpl never.

(** ** Nodes and edge shapes *)

Notation node_map := (gmap rstr RuntimeMapNode).

(** [(edge.source.as_str(), edge.target.as_str())]. *)
Definition edge_pair (edge : RuntimeMapEdge) : rstr * rstr := (re_source edge, re_target edge).

(** [matches!((nodes.get(source), nodes.get(target)), (Some(..), Some(..)) if ..)]. *)
Definition endpoints_match (nodes : node_map) (edge : RuntimeMapEdge)
    (guard : RuntimeMapNode → RuntimeMapNode → bool) : bool :=
  match nodes !! re_source edge, nodes !! re_target edge with
  | Some source, Some target => guard source target
  | _, _ => false
  end.

(** [matches!(edge.evidence_refs.first(), Some(evidence) if ..)]. *)
Definition first_evidence_is (edge : RuntimeMapEdge) (guard : RuntimeEvidenceRef → bool) : bool :=
  is_some_and (head (re_evidence_refs edge)) guard.

(** [edge.evidence_refs[0]]; an empty vector panics. *)
Definition evidence_0 (edge : RuntimeMapEdge) : option RuntimeEvidenceRef := re_evidence_refs edge !! 0.

Definition no_metadata (metadata : gmap rstr rstr) : bool := metadata == ∅.

Definition is_docker_container (node : RuntimeMapNode) : bool :=
  (rn_provider node == RP_Docker) && (rn_kind node == RN_Container).

Definition is_docker_daemon_state_risk (node : RuntimeMapNode) : bool :=
  (rn_provider node == RP_Docker) && (rn_kind node == RN_HostRisk)
  && (rn_id node == DOCKER_DAEMON_STATE_RISK_ID) && no_metadata (rn_metadata node).

Definition is_docker_daemon_state_shape (edge : RuntimeMapEdge) (nodes : node_map) : bool :=
  no_metadata (re_metadata edge) && (re_relationship edge == RR_ExposesDaemonState)
  && endpoints_match nodes edge (λ source target,
       is_docker_container source && is_docker_daemon_state_risk target).

Definition is_docker_daemon_state_pair_shape (edge : RuntimeMapEdge) (nodes : node_map) : bool :=
  (re_relationship edge == RR_ExposesDaemonState)
  && endpoints_match nodes edge (λ source target,
       is_docker_container source && is_docker_daemon_state_risk target).

Definition is_fresh_docker_evidence (edge : RuntimeMapEdge) (kind : RuntimeEvidenceKind) : bool :=
  has_valid_evidence_refs edge && (length (re_evidence_refs edge) =? 1)%nat
  && first_evidence_is edge (λ evidence,
       (ev_version evidence =? 1)%N && (ev_provider evidence == EP_Docker)
       && (ev_kind evidence == kind) && (ev_assertion_kind evidence == Observed)
       && (ev_freshness evidence == EF_Fresh) && (ev_subject_ref evidence == re_source edge)
       && is_none (ev_provider_slot evidence)).

Definition is_candidate_docker_daemon_state_bind_mount (edge : RuntimeMapEdge) (nodes : node_map) : bool :=
  is_docker_daemon_state_shape edge nodes
  && is_fresh_docker_evidence edge DockerDaemonStateBindMount
  && first_evidence_is edge (λ evidence, ev_summary evidence == DOCKER_DAEMON_STATE_EVIDENCE_SUMMARY).

Definition is_docker_network (node : RuntimeMapNode) : bool :=
  (rn_provider node == RP_Docker) && (rn_kind node == RN_DockerNetwork)
  && (rn_metadata node !! ("internal" : rstr) == Some ("true" : rstr)).

Definition has_published_port (node : RuntimeMapNode) : bool :=
  is_some_and (rn_metadata node !! ("port" : rstr)) is_host_published_docker_port.

Definition is_docker_listener (node : RuntimeMapNode) : bool :=
  (rn_provider node == RP_Network) && (rn_kind node == RN_NetworkListener) && has_published_port node.

Definition is_docker_membership_shape (edge : RuntimeMapEdge) (nodes : node_map) : bool :=
  (re_relationship edge == RR_ConnectedTo)
  && endpoints_match nodes edge (λ source target, is_docker_container source && is_docker_network target).

Definition is_docker_port_shape (edge : RuntimeMapEdge) (nodes : node_map) : bool :=
  (re_relationship edge == RR_Exposes)
  && endpoints_match nodes edge (λ source target, is_docker_container source && is_docker_listener target).

(** The tests the two reserved integrity nodes and the unspecified-address risk share. *)
Definition is_bare_node (node : RuntimeMapNode) (id : rstr) (provider : RuntimeProviderKind)
    (kind : RuntimeNodeKind) (label : rstr) (layer : RuntimeNodeLayer) : bool :=
  (rn_id node == id) && (rn_provider node == provider) && (rn_kind node == kind)
  && (rn_label node == label) && is_none (rn_status node) && (rn_layer node == Some layer)
  && no_metadata (rn_metadata node) && is_none (rn_service node) && is_none (rn_package node).

Definition is_runtime_integrity_scope (node : RuntimeMapNode) : bool :=
  is_bare_node node RUNTIME_INTEGRITY_SCOPE_ID RP_Other RN_IntegrityScope
    "Runtime identity integrity" L_Advisory.

Definition is_runtime_identity_collision_risk (node : RuntimeMapNode) : bool :=
  is_bare_node node RUNTIME_IDENTITY_COLLISION_RISK_ID RP_Other RN_HostRisk
    "Duplicate runtime topology identity" L_Advisory.

Definition is_candidate_runtime_identity_collision (edge : RuntimeMapEdge) (nodes : node_map) : bool :=
  no_metadata (re_metadata edge) && (re_relationship edge == RR_RelatedTo)
  && endpoints_match nodes edge (λ source target,
       is_runtime_integrity_scope source && is_runtime_identity_collision_risk target)
  && has_valid_evidence_refs edge && (length (re_evidence_refs edge) =? 1)%nat
  && first_evidence_is edge (λ evidence,
       (ev_version evidence =? 7)%N
       && (ev_id evidence == ("dockermap_evidence_runtime_identity_collision" : rstr))
       && (ev_provider evidence == EP_Dockermap) && (ev_kind evidence == RuntimeIdentityCollision)
       && (ev_assertion_kind evidence == Observed)
       && (ev_summary evidence == RUNTIME_IDENTITY_COLLISION_EVIDENCE_SUMMARY)
       && (ev_subject_ref evidence == re_source edge) && (ev_freshness evidence == EF_Fresh)
       && is_none (ev_provider_slot evidence) && (ev_provider_revision evidence != [])
       && (ev_provider_revision evidence != dec_str (ev_collected_at evidence))).

Definition is_unspecified_address_port_risk (node : RuntimeMapNode) : bool :=
  is_bare_node node UNSPECIFIED_ADDRESS_PORT_RISK_ID RP_Docker RN_HostRisk
    "Unspecified-address Docker port publication" L_Host.

Definition is_unspecified_address_port_shape (edge : RuntimeMapEdge) (nodes : node_map) : bool :=
  (re_relationship edge == RR_Exposes)
  && endpoints_match nodes edge (λ source target,
       is_docker_container source && is_unspecified_address_port_risk target).

Definition is_candidate_unspecified_address_port (edge : RuntimeMapEdge) (nodes : node_map) : bool :=
  no_metadata (re_metadata edge) && is_unspecified_address_port_shape edge nodes
  && is_fresh_docker_evidence edge DockerUnspecifiedAddressPortPublication
  && first_evidence_is edge (λ evidence, ev_summary evidence == UNSPECIFIED_ADDRESS_PORT_EVIDENCE_SUMMARY).

Definition is_docker_port_publication_pair_shape (edge : RuntimeMapEdge) (nodes : node_map) : bool :=
  (re_relationship edge == RR_Exposes)
  && endpoints_match nodes edge (λ source target,
       is_docker_container source && (rn_provider target == RP_Network)
       && (rn_kind target == RN_NetworkListener)).

Definition is_candidate_internal_network_membership (edge : RuntimeMapEdge) (nodes : node_map) : bool :=
  is_docker_membership_shape edge nodes && is_fresh_docker_evidence edge DockerNetworkMembership.

Definition is_candidate_port_publication (edge : RuntimeMapEdge) (nodes : node_map) : bool :=
  is_docker_port_shape edge nodes && is_fresh_docker_evidence edge DockerPortPublication.

Definition is_candidate_docker_daemon_state_port_publication (edge : RuntimeMapEdge) (nodes : node_map) : bool :=
  no_metadata (re_metadata edge) && is_docker_port_publication_pair_shape edge nodes
  && is_some_and (nodes !! re_target edge) has_published_port
  && is_fresh_docker_evidence edge DockerPortPublication.

(** The declared systemd relationships: [is_candidate_requires] and [is_candidate_part_of]. *)
Definition is_fresh_systemd_declaration (edge : RuntimeMapEdge) (relationship : RuntimeRelationshipKind)
    (kind : RuntimeEvidenceKind) : bool :=
  has_valid_evidence_refs edge && (re_relationship edge == relationship)
  && (re_source edge != re_target edge) && (length (re_evidence_refs edge) =? 1)%nat
  && first_evidence_is edge (λ evidence,
       (ev_version evidence =? 2)%N && (ev_provider evidence == EP_Systemd)
       && (ev_kind evidence == kind) && (ev_assertion_kind evidence == Declared)
       && (ev_freshness evidence == EF_Fresh) && (ev_subject_ref evidence == re_source edge)
       && (ev_provider_slot evidence == Some Slot_Systemd)).

Definition is_candidate_requires (edge : RuntimeMapEdge) : bool :=
  is_fresh_systemd_declaration edge RR_Requires SystemdRequires.

Definition is_candidate_part_of (edge : RuntimeMapEdge) : bool :=
  is_fresh_systemd_declaration edge RR_PartOf SystemdPartOf.

Definition is_candidate_non_current_declared_relationship (edge : RuntimeMapEdge) : bool :=
  has_valid_evidence_refs edge && (re_source edge != re_target edge)
  && (length (re_evidence_refs edge) =? 1)%nat
  && match re_relationship edge, ev_kind <$> head (re_evidence_refs edge) with
     | RR_Requires, Some SystemdRequires | RR_Wants, Some SystemdWants
     | RR_PartOf, Some SystemdPartOf => true
     | _, _ => false
     end
  && first_evidence_is edge (λ evidence,
       (ev_version evidence =? 2)%N && (ev_provider evidence == EP_Systemd)
       && (ev_assertion_kind evidence == Declared) && one_of (ev_freshness evidence) [EF_Stale; EF_TimedOut]
       && (ev_subject_ref evidence == re_source edge)
       && (ev_provider_slot evidence == Some Slot_Systemd)).

Definition is_candidate_compose_dependency (edge : RuntimeMapEdge) (nodes : node_map) : bool :=
  no_metadata (re_metadata edge) && (re_relationship edge == RR_DependsOn)
  && (re_source edge != re_target edge)
  && endpoints_match nodes edge (λ source target, is_docker_container source && is_docker_container target)
  && is_fresh_docker_evidence edge DockerComposeDependsOn
  && first_evidence_is edge (λ evidence, ev_summary evidence == COMPOSE_DEPENDENCY_EVIDENCE_SUMMARY).

(** ** Counts

    [*counts.entry(key).or_default() += 1] over the edges of one shape, and the test
    [counts.get(&key) == Some(&1)]. *)
Definition count_edges {K} `{Countable K} (shape : RuntimeMapEdge → bool) (key : RuntimeMapEdge → K)
    (edges : list RuntimeMapEdge) : gmap K nat :=
  foldl (λ counts edge, if shape edge then bump counts (key edge) else counts) ∅ edges.

Definition is_sole {K} `{Countable K} (counts : gmap K nat) (k : K) : bool := counts !! k == Some 1.

Section findings.
Context `{Sha256}.

(** ** The rules *)

(** A finding about an edge; its id is the prefix and the component of the pair. *)
Definition edge_finding (prefix : rstr) (rule : FindingRule) (severity : FindingSeverity)
    (summary recommendation : rstr) (edge : RuntimeMapEdge) (evidence : list RuntimeEvidenceRef)
    : Finding := {|
  f_id := prefix +s+ collision_resistant_id_component (re_source edge +s+ [31%N] +s+ re_target edge);
  f_rule_id := rule; f_severity := severity; f_summary := summary;
  f_recommendation := recommendation; f_subject_ref := re_source edge;
  f_target_ref := re_target edge; f_evidence_refs := evidence |}.

Definition is_systemd_service (node : RuntimeMapNode) : bool :=
  (rn_provider node == RP_Systemd) && (rn_kind node == RN_SystemdService).

(** [source.status == Some("active")] and [target.status] is inactive or failed. *)
Definition is_active (node : RuntimeMapNode) : bool := rn_status node == Some ("active" : rstr).

Definition is_inactive_or_failed (node : RuntimeMapNode) : bool :=
  one_of (rn_status node) [Some ("inactive" : rstr); Some ("failed" : rstr)].

Definition text_status (node : RuntimeMapNode) : option RuntimeServiceStatus :=
  from_status_text <$> rn_status node.

Context (edges : list RuntimeMapEdge) (nodes : node_map).

Definition non_current_finding (edge : RuntimeMapEdge) : option (list Finding) :=
  let counts := count_edges is_candidate_non_current_declared_relationship edge_pair edges in
  if negb (is_sole counts (edge_pair edge))
     || negb (is_candidate_non_current_declared_relationship edge) then Some []
  else if endpoints_match nodes edge (λ source target, is_systemd_service source && is_systemd_service target)
  then
    evidence ← evidence_0 edge;
    Some [edge_finding "finding_runtime_declared_relationship_evidence_not_current_"
            RuntimeDeclaredRelationshipEvidenceNotCurrent FS_Advisory
            DECLARED_RELATIONSHIP_EVIDENCE_NOT_CURRENT_SUMMARY
            DECLARED_RELATIONSHIP_EVIDENCE_NOT_CURRENT_RECOMMENDATION edge [evidence]]
  else Some [].

Definition integrity_edge_count : nat :=
  count_if (λ edge, (re_source edge == RUNTIME_INTEGRITY_SCOPE_ID)
                    && (re_target edge == RUNTIME_IDENTITY_COLLISION_RISK_ID)) edges.

Definition collision_finding (edge : RuntimeMapEdge) : option (list Finding) :=
  if negb (integrity_edge_count =? 1)%nat || negb (is_candidate_runtime_identity_collision edge nodes)
  then Some []
  else
    evidence ← evidence_0 edge;
    Some [{| f_id := "finding_runtime_identity_collision_detected";
             f_rule_id := RuntimeIdentityCollisionDetected; f_severity := FS_Advisory;
             f_summary := RUNTIME_IDENTITY_COLLISION_SUMMARY;
             f_recommendation := RUNTIME_IDENTITY_COLLISION_RECOMMENDATION;
             f_subject_ref := re_source edge; f_target_ref := re_target edge;
             f_evidence_refs := [evidence] |}].

Definition unspecified_address_finding (edge : RuntimeMapEdge) : option (list Finding) :=
  let counts := count_edges (λ e, is_unspecified_address_port_shape e nodes) re_source edges in
  if negb (is_sole counts (re_source edge)) || negb (is_candidate_unspecified_address_port edge nodes)
  then Some []
  else
    evidence ← evidence_0 edge;
    Some [edge_finding "finding_docker_port_published_on_unspecified_address_"
            DockerPortPublishedOnUnspecifiedAddress FS_Advisory UNSPECIFIED_ADDRESS_PORT_SUMMARY
            UNSPECIFIED_ADDRESS_PORT_RECOMMENDATION edge [evidence]].

(** The two systemd rules differ in the candidate, the severity and the texts. *)
Definition target_not_active_finding (candidate : RuntimeMapEdge → bool) (prefix : rstr)
    (rule : FindingRule) (severity : FindingSeverity) (summary recommendation : rstr)
    (edge : RuntimeMapEdge) : option (list Finding) :=
  let counts := count_edges candidate edge_pair edges in
  if negb (is_sole counts (edge_pair edge)) || negb (candidate edge) then Some []
  else
    evidence ← evidence_0 edge;
    if endpoints_match nodes edge (λ source target,
         is_systemd_service source && is_systemd_service target && is_active source
         && is_inactive_or_failed target)
    then Some [edge_finding prefix rule severity summary recommendation edge [evidence]]
    else Some [].

Definition requires_finding : RuntimeMapEdge → option (list Finding) :=
  target_not_active_finding is_candidate_requires "finding_systemd_requires_target_not_active_"
    SystemdRequiresTargetNotActive FS_Warning SUMMARY RECOMMENDATION.

Definition part_of_finding : RuntimeMapEdge → option (list Finding) :=
  target_not_active_finding is_candidate_part_of "finding_systemd_part_of_target_not_active_"
    SystemdPartOfTargetNotActive FS_Advisory PART_OF_SUMMARY PART_OF_RECOMMENDATION.

(** Both pieces of evidence are of one observation. *)
Definition same_observation (a b : RuntimeEvidenceRef) : bool :=
  (ev_collected_at a =? ev_collected_at b)%N && (ev_provider_revision a == ev_provider_revision b).

Definition daemon_state_port_finding (daemon_edge : RuntimeMapEdge) : option (list Finding) :=
  let daemon_counts := count_edges (λ e, is_docker_daemon_state_pair_shape e nodes) re_source edges in
  let port_counts := count_edges (λ e, is_docker_port_publication_pair_shape e nodes) re_source edges in
  if negb (is_sole daemon_counts (re_source daemon_edge)) || negb (is_sole port_counts (re_source daemon_edge))
     || negb (is_candidate_docker_daemon_state_bind_mount daemon_edge nodes) then Some []
  else
    match find (λ candidate, (re_source candidate == re_source daemon_edge)
                 && is_candidate_docker_daemon_state_port_publication candidate nodes) edges with
    | None => Some []
    | Some port_edge =>
        daemon_evidence ← evidence_0 daemon_edge;
        port_evidence ← evidence_0 port_edge;
        if negb (same_observation daemon_evidence port_evidence) then Some []
        else Some [edge_finding "finding_docker_daemon_state_bind_mount_publishes_port_"
                     DockerDaemonStateBindMountPublishesPort FS_Warning
                     DOCKER_DAEMON_STATE_PUBLISHED_PORT_SUMMARY
                     DOCKER_DAEMON_STATE_PUBLISHED_PORT_RECOMMENDATION daemon_edge
                     [daemon_evidence; port_evidence]]
    end.

Definition depends_on_counts : gmap (rstr * rstr) nat :=
  count_edges (λ e, re_relationship e == RR_DependsOn) edge_pair edges.

Definition compose_dependency_counts : gmap (rstr * rstr) nat :=
  count_edges (λ e, is_candidate_compose_dependency e nodes) edge_pair edges.

Definition mutual_dependency_finding (edge : RuntimeMapEdge) : option (list Finding) :=
  let reverse := (re_target edge, re_source edge) in
  if str_leb (re_target edge) (re_source edge) || negb (is_sole depends_on_counts (edge_pair edge))
     || negb (is_sole compose_dependency_counts (edge_pair edge))
     || negb (is_candidate_compose_dependency edge nodes) then Some []
  else if negb (is_sole depends_on_counts reverse) || negb (is_sole compose_dependency_counts reverse)
  then Some []
  else
    match find (λ candidate, (re_source candidate == re_target edge)
                 && (re_target candidate == re_source edge)
                 && is_candidate_compose_dependency candidate nodes) edges with
    | None => Some []
    | Some reverse_edge =>
        evidence ← evidence_0 edge;
        reverse_evidence ← evidence_0 reverse_edge;
        if negb (same_observation evidence reverse_evidence) then Some []
        else Some [edge_finding "finding_docker_compose_mutual_dependency_" DockerComposeMutualDependency
                     FS_Advisory COMPOSE_MUTUAL_DEPENDENCY_SUMMARY COMPOSE_MUTUAL_DEPENDENCY_RECOMMENDATION
                     edge [evidence; reverse_evidence]]
    end.

Definition compose_target_finding (edge : RuntimeMapEdge) : option (list Finding) :=
  if negb (is_sole depends_on_counts (edge_pair edge))
     || negb (is_sole compose_dependency_counts (edge_pair edge))
     || negb (is_candidate_compose_dependency edge nodes) then Some []
  else if endpoints_match nodes edge (λ source target,
            is_docker_container source && is_docker_container target
            && (text_status source == Some Running)
            && one_of (text_status target) [Some Stopped; Some Failed])
  then
    evidence ← evidence_0 edge;
    Some [edge_finding "finding_docker_compose_declared_target_not_active_"
            DockerComposeDeclaredTargetNotActive FS_Advisory COMPOSE_DECLARED_TARGET_NOT_ACTIVE_SUMMARY
            COMPOSE_DECLARED_TARGET_NOT_ACTIVE_RECOMMENDATION edge [evidence]]
  else Some [].

Definition daemon_state_finding (edge : RuntimeMapEdge) : option (list Finding) :=
  let counts := count_edges (λ e, is_docker_daemon_state_shape e nodes) edge_pair edges in
  if negb (is_sole counts (edge_pair edge)) || negb (is_candidate_docker_daemon_state_bind_mount edge nodes)
  then Some []
  else
    evidence ← evidence_0 edge;
    Some [edge_finding "finding_docker_daemon_state_bind_mount_" Rule_DockerDaemonStateBindMount FS_Warning
            DOCKER_DAEMON_STATE_SUMMARY DOCKER_DAEMON_STATE_RECOMMENDATION edge [evidence]].

(** One finding per published port of a member of an internal network. *)
Definition internal_port_finding (edge port_edge : RuntimeMapEdge) : option Finding :=
  network_evidence ← evidence_0 edge;
  port_evidence ← evidence_0 port_edge;
  Some {|
    f_id := "finding_docker_internal_network_member_publishes_port_"
            +s+ collision_resistant_id_component
                  (re_source edge +s+ [31%N] +s+ re_target edge +s+ [31%N] +s+ re_target port_edge);
    f_rule_id := DockerInternalNetworkMemberPublishesPort; f_severity := FS_Advisory;
    f_summary := INTERNAL_NETWORK_PORT_SUMMARY; f_recommendation := INTERNAL_NETWORK_PORT_RECOMMENDATION;
    f_subject_ref := re_source edge; f_target_ref := re_target edge;
    f_evidence_refs := [network_evidence; port_evidence] |}.

Definition internal_network_findings (edge : RuntimeMapEdge) : option (list Finding) :=
  let membership_counts := count_edges (λ e, is_docker_membership_shape e nodes) edge_pair edges in
  let port_counts := count_edges (λ e, is_docker_port_publication_pair_shape e nodes) edge_pair edges in
  if negb (is_sole membership_counts (edge_pair edge))
     || negb (is_candidate_internal_network_membership edge nodes) then Some []
  else mapM (internal_port_finding edge)
         (filterb (λ candidate, (re_source candidate == re_source edge)
            && is_sole port_counts (edge_pair candidate)
            && is_candidate_port_publication candidate nodes) edges).

(** The loops, in order. *)
Definition rules : list (RuntimeMapEdge → option (list Finding)) :=
  [non_current_finding; collision_finding; unspecified_address_finding; requires_finding;
   part_of_finding; daemon_state_port_finding; mutual_dependency_finding; compose_target_finding;
   daemon_state_finding; internal_network_findings].

Definition run_rule (rule : RuntimeMapEdge → option (list Finding)) : option (list Finding) :=
  findings ← mapM rule edges; Some (concat findings).
End findings.

(** [nodes] of [derive_findings]: the nodes whose id no other node has. *)
Definition unique_nodes (nodes : list RuntimeMapNode) : node_map :=
  let node_counts := counts_of (rn_id <$> nodes) in
  foldl (λ m node, <[rn_id node := node]> m) ∅
    (filterb (λ node, is_sole node_counts (rn_id node)) nodes).

(** The comparison of the final sort. *)
Definition finding_leb (left right : Finding) : bool :=
  if f_id left == f_id right then
    if f_subject_ref left == f_subject_ref right then str_leb (f_target_ref left) (f_target_ref right)
    else str_leb (f_subject_ref left) (f_subject_ref right)
  else str_leb (f_id left) (f_id right).

Definition derive_findings `{Sha256} (m : RuntimeMap) : option (list Finding) :=
  if rm_source m == Some Mode_Mock then Some []
  else
    let nodes := unique_nodes (rm_nodes m) in
    findings ← mapM (run_rule (rm_edges m)) (rules (rm_edges m) nodes);
    Some (sort_by finding_leb (concat findings)).

(** ** What the tests establish *)

Lemma counts_of_edges {K} `{Countable K} (shape : RuntimeMapEdge → bool) (key : RuntimeMapEdge → K) edges :
  count_edges shape key edges = counts_of (key <$> filterb shape edges).
Proof. apply counts_of_where. Qed.

(** Exactly one edge of the shape has this key. *)
Definition sole {K} `{EqDecision K} (edges : list RuntimeMapEdge) (shape : RuntimeMapEdge → bool)
    (key : RuntimeMapEdge → K) (k : K) : Prop :=
  count_if (λ e, shape e && (key e == k)) edges = 1.

Lemma is_sole_spec {K} `{Countable K} shape (key : RuntimeMapEdge → K) edges k :
  is_sole (count_edges shape key edges) k = true ↔ sole edges shape key k.
Proof.
  unfold is_sole. rewrite counts_of_edges, counts_of_one. unfold sole.
  by rewrite count_if_fmap_filterb.
Qed.

(** The only edge of a shape with a key. *)
Lemma sole_unique {K} `{EqDecision K} edges shape (key : RuntimeMapEdge → K) k e e' :
  sole edges shape key k → e ∈ edges → e' ∈ edges → shape e = true → shape e' = true →
  key e = k → key e' = k → e = e'.
Proof.
  intros Hs He He' Hse Hse' Hk Hk'. eapply count_if_one_unique; [exact Hs|done|done|..];
    by rewrite andb_true_iff, bool_decide_eq_true.
Qed.

(** The evidence of an edge is one reference, of this kind and freshness, that the model
    accepts on the edge. *)
Definition attested (e : RuntimeMapEdge) (kind : RuntimeEvidenceKind)
    (freshness : list RuntimeEvidenceFreshness) (ev : RuntimeEvidenceRef) : Prop :=
  re_evidence_refs e = [ev] ∧ evidence_ref_matches_edge e ev = true ∧ ev_kind ev = kind ∧
  ev_freshness ev ∈ freshness.

Lemma attested_subject e kind fr ev : attested e kind fr ev → ev_subject_ref ev = re_source e.
Proof. intros (_ & (_ & _ & _ & ? & _)%evidence_ref_matches_edge_spec & _). done. Qed.

Lemma attested_shape e kind fr ev :
  attested e kind fr ev → has_valid_versioned_shape ev = true ∧ attests e kind = true.
Proof.
  intros (_ & (_ & _ & _ & _ & Hs & Ha)%evidence_ref_matches_edge_spec & <- & _).
  split; [done|]. by rewrite <- evidence_arm_attests.
Qed.

Lemma one_evidence e (guard : RuntimeEvidenceRef → bool) :
  (length (re_evidence_refs e) =? 1)%nat && first_evidence_is e guard = true ↔
  ∃ ev, re_evidence_refs e = [ev] ∧ guard ev = true.
Proof.
  unfold first_evidence_is. rewrite andb_true_iff, Nat.eqb_eq. split.
  - intros [Hl Hg]. destruct (re_evidence_refs e) as [|ev [|ev' l]]; [done| |done]. eauto.
  - intros (ev & -> & Hg). done.
Qed.

Lemma single_valid e ev :
  re_evidence_refs e = [ev] → has_valid_evidence_refs e = evidence_ref_matches_edge e ev.
Proof. intros E. unfold has_valid_evidence_refs. rewrite E. simpl. apply andb_true_r. Qed.

Lemma attested_evidence_0 e kind fr ev : attested e kind fr ev → evidence_0 e = Some ev.
Proof. intros (E & _). unfold evidence_0. by rewrite E. Qed.

Lemma attested_inj e kind fr ev kind' fr' ev' : attested e kind fr ev → attested e kind' fr' ev' → ev = ev'.
Proof. intros (E & _) (E' & _). congruence. Qed.

(** The relationship and the distinctness of the endpoints follow from the evidence. *)
Lemma attested_edge e kind fr ev :
  attested e kind fr ev →
  re_relationship e = attested_relationship kind ∧ (requires_distinct kind = true → re_source e ≠ re_target e).
Proof.
  intros [_ Ha]%attested_shape. unfold attests, attests_with in Ha. rewrite !andb_true_iff in Ha.
  destruct Ha as [[[Hr _] _] Hd]. apply bool_decide_eq_true in Hr. split; [done|].
  intros E. rewrite E in Hd. by apply negb_true_iff, bool_decide_eq_false in Hd.
Qed.

Lemma fresh_docker_spec e kind :
  shape_row kind = (1%N, EP_Docker, Observed, None) →
  is_fresh_docker_evidence e kind = true ↔ ∃ ev, attested e kind [EF_Fresh] ev.
Proof.
  intros Hrow. unfold is_fresh_docker_evidence. rewrite <- andb_assoc, andb_true_iff, one_evidence. split.
  - intros (Hv & ev & E & Hg). exists ev. rewrite (single_valid e ev E) in Hv.
    rewrite !andb_true_iff, !bool_decide_eq_true in Hg. destruct Hg as [[[[[[_ _] Hk] _] Hf] _] _].
    split_and!; [done|done|done|]. rewrite Hf. left.
  - intros (ev & Hat). pose proof Hat as (E & Hm & Hk & Hf%list_elem_of_singleton).
    pose proof (attested_subject _ _ _ _ Hat) as Hsub.
    apply attested_shape in Hat as [Hs _]. apply shape_row_spec in Hs as [Hs _].
    rewrite Hk, Hrow in Hs. injection Hs as Hv Hp Ha Hsl.
    split; [by rewrite (single_valid e ev E)|]. exists ev. split; [done|].
    rewrite Hv, Hp, Hk, Ha, Hf, Hsub, Hsl. unfold is_none. simpl. by rewrite !bool_decide_eq_true_2.
Qed.

Lemma fresh_systemd_spec e kind :
  shape_row kind = (2%N, EP_Systemd, Declared, Some Slot_Systemd) → requires_distinct kind = true →
  is_fresh_systemd_declaration e (attested_relationship kind) kind = true ↔
  ∃ ev, attested e kind [EF_Fresh] ev.
Proof.
  intros Hrow Hd. unfold is_fresh_systemd_declaration.
  rewrite <- andb_assoc, andb_true_iff, one_evidence, !andb_true_iff, bool_decide_eq_true,
    negb_true_iff, bool_decide_eq_false. split.
  - intros ([[Hv _] _] & ev & E & Hg). exists ev. rewrite (single_valid e ev E) in Hv.
    rewrite !andb_true_iff, !bool_decide_eq_true in Hg. destruct Hg as [[[[[[_ _] Hk] _] Hf] _] _].
    split_and!; [done|done|done|]. rewrite Hf. left.
  - intros (ev & Hat). pose proof Hat as (E & Hm & Hk & Hf%list_elem_of_singleton).
    pose proof (attested_subject _ _ _ _ Hat) as Hsub. destruct (attested_edge _ _ _ _ Hat) as [Hrel Hne].
    apply attested_shape in Hat as [Hs _]. apply shape_row_spec in Hs as [Hs _].
    rewrite Hk, Hrow in Hs. injection Hs as Hv Hp Ha Hsl.
    split; [split; [by rewrite (single_valid e ev E)|by apply Hne]|]. exists ev. split; [done|].
    rewrite Hv, Hp, Hk, Ha, Hf, Hsub, Hsl. simpl. by rewrite !bool_decide_eq_true_2.
Qed.

Definition systemd_declarations : list RuntimeEvidenceKind := [SystemdRequires; SystemdWants; SystemdPartOf].

Lemma non_current_spec e :
  is_candidate_non_current_declared_relationship e = true ↔
  ∃ kind ev, kind ∈ systemd_declarations ∧ attested e kind [EF_Stale; EF_TimedOut] ev.
Proof.
  unfold is_candidate_non_current_declared_relationship. rewrite !andb_true_iff. split.
  - intros [[[[Hv _] Hl] Hrel] Hg]. assert (Hone := conj Hl Hg).
    rewrite <- andb_true_iff, one_evidence in Hone. destruct Hone as (ev & E & Hg').
    rewrite (single_valid e ev E) in Hv. rewrite E in Hrel. cbn [head fmap option_fmap option_map] in Hrel.
    rewrite !andb_true_iff in Hg'. destruct Hg' as [[[_ Hf%bool_decide_eq_true] _] _].
    exists (ev_kind ev), ev. split; [|by split_and!].
    unfold systemd_declarations. destruct (re_relationship e), (ev_kind ev); try done; set_solver.
  - intros (kind & ev & Hk & Hat). pose proof Hat as (E & Hm & Hkind & Hf).
    pose proof (attested_subject _ _ _ _ Hat) as Hsub. destruct (attested_edge _ _ _ _ Hat) as [Hrel Hne].
    apply attested_shape in Hat as [Hs _]. apply shape_row_spec in Hs as [Hs _]. rewrite Hkind in Hs.
    assert (Hrow : shape_row kind = (2%N, EP_Systemd, Declared, Some Slot_Systemd) ∧ requires_distinct kind = true).
    { unfold systemd_declarations in Hk. rewrite !elem_of_cons, elem_of_nil in Hk.
      by destruct Hk as [->|[->|[->|[]]]]. }
    destruct Hrow as [Hrow Hd]. rewrite Hrow in Hs. injection Hs as Hv Hp Ha Hsl.
    rewrite (single_valid e ev E), Hm, E, Hrel, negb_true_iff, bool_decide_eq_false. unfold first_evidence_is.
    rewrite E. cbn [head fmap option_fmap option_map is_some_and]. rewrite Hkind, Hv, Hp, Ha, Hsub, Hsl.
    unfold one_of. rewrite !bool_decide_eq_true_2 by done.
    split_and!; [done|by apply Hne|done| |done].
    unfold systemd_declarations in Hk. rewrite !elem_of_cons, elem_of_nil in Hk.
    by destruct Hk as [->|[->|[->|[]]]].
Qed.

(** The evidence of the collision fact has fixed texts and an opaque revision. *)
Definition integrity_evidence (ev : RuntimeEvidenceRef) : Prop :=
  ev_id ev = "dockermap_evidence_runtime_identity_collision" ∧
  ev_summary ev = RUNTIME_IDENTITY_COLLISION_EVIDENCE_SUMMARY ∧
  ev_provider_revision ev ≠ dec_str (ev_collected_at ev).

Lemma collision_candidate_spec e nodes :
  is_candidate_runtime_identity_collision e nodes = true ↔
  re_metadata e = ∅ ∧
  endpoints_match nodes e (λ source target,
    is_runtime_integrity_scope source && is_runtime_identity_collision_risk target) = true ∧
  ∃ ev, attested e RuntimeIdentityCollision [EF_Fresh] ev ∧ integrity_evidence ev.
Proof.
  unfold is_candidate_runtime_identity_collision, no_metadata.
  rewrite <- andb_assoc, andb_true_iff, one_evidence, !andb_true_iff, !bool_decide_eq_true. split.
  - intros ([[[Hmd _] Hend] Hv] & ev & E & Hg). split_and!; [done|done|]. exists ev.
    rewrite (single_valid e ev E) in Hv.
    rewrite !andb_true_iff, !bool_decide_eq_true, !negb_true_iff, !bool_decide_eq_false in Hg.
    destruct Hg as [[[[[[[[[[_ Hid] _] Hk] _] Hsum] _] Hf] _] _] Hrev].
    split; [split_and!; [done|done|done|rewrite Hf; left]|done].
  - intros (Hmd & Hend & ev & Hat & Hid & Hsum & Hrev). pose proof Hat as (E & Hm & Hk & Hf%list_elem_of_singleton).
    pose proof (attested_subject _ _ _ _ Hat) as Hsub. destruct (attested_edge _ _ _ _ Hat) as [Hrel _].
    apply attested_shape in Hat as [Hs _]. apply shape_row_spec in Hs as [Hs _].
    rewrite Hk in Hs. injection Hs as Hv Hp Ha Hsl. pose proof Hm as (_ & _ & Hr & _)%evidence_ref_matches_edge_spec.
    apply evidence_text_ok_spec in Hr as [Hr _].
    split; [split_and!; [done|done|done|by rewrite (single_valid e ev E)]|]. exists ev. split; [done|].
    rewrite Hv, Hid, Hp, Hk, Ha, Hsum, Hsub, Hf, Hsl, !bool_decide_eq_true_2 by done.
    unfold is_none. simpl. by rewrite !bool_decide_eq_false_2.
Qed.

(** ** Unique nodes *)

(** The id names this node and no other. *)
Definition named_once (nodes : list RuntimeMapNode) (id : rstr) (n : RuntimeMapNode) : Prop :=
  n ∈ nodes ∧ rn_id n = id ∧ count_if (λ n', rn_id n' == id) nodes = 1.

Lemma count_if_map {A B} (g : A → B) (f : B → bool) (l : list A) : count_if f (g <$> l) = count_if (f ∘ g) l.
Proof. induction l as [|x l IH]; [done|]. rewrite fmap_cons. cbn [count_if]. by rewrite IH. Qed.

Lemma insert_nodes_lookup (l : list RuntimeMapNode) (m : node_map) id n :
  (∀ a b, a ∈ l → b ∈ l → rn_id a = rn_id b → a = b) →
  foldl (λ m node, <[rn_id node := node]> m) m l !! id = Some n ↔
  (n ∈ l ∧ rn_id n = id) ∨ (m !! id = Some n ∧ ∀ a, a ∈ l → rn_id a ≠ id).
Proof.
  revert m. induction l as [|a l IH]; intros m Hl; simpl; [set_solver|].
  rewrite IH by (intros; apply Hl; [by right..|done]). setoid_rewrite elem_of_cons.
  destruct (decide (rn_id a = id)) as [<-|Hne].
  - rewrite lookup_insert_eq. split.
    + intros [[? ?]|[[= ->] ?]]; [left; tauto|left; tauto].
    + intros [[[->|Hn] E]|[_ Hno]]; [|left; tauto|exfalso; by apply (Hno a); [left|]].
      destruct (decide (a ∈ l)) as [Ha|Ha]; [left; tauto|right; split; [done|]].
      intros b Hb E'. assert (b = a) as -> by (apply Hl; [by right|by left|done]). done.
  - rewrite lookup_insert_ne by done. naive_solver.
Qed.

Lemma unique_nodes_spec nodes id n : unique_nodes nodes !! id = Some n ↔ named_once nodes id n.
Proof.
  unfold unique_nodes, named_once.
  assert (Hsole : ∀ k, is_sole (counts_of (rn_id <$> nodes)) k = true ↔ count_if (λ n', rn_id n' == k) nodes = 1).
  { intros k. unfold is_sole. by rewrite counts_of_one, count_if_map. }
  rewrite insert_nodes_lookup.
  - setoid_rewrite elem_of_filterb. setoid_rewrite Hsole. rewrite lookup_empty. naive_solver.
  - intros a b [Ha Hina]%elem_of_filterb [Hb Hinb]%elem_of_filterb E. apply Hsole in Ha.
    eapply count_if_one_unique; [exact Ha|done|done|..]; by rewrite bool_decide_eq_true.
Qed.

(** ** The findings a map should have *)

Definition endpoints (m : RuntimeMap) (e : RuntimeMapEdge) (guard : RuntimeMapNode → RuntimeMapNode → bool)
    : Prop :=
  ∃ s t, named_once (rm_nodes m) (re_source e) s ∧ named_once (rm_nodes m) (re_target e) t ∧ guard s t = true.

Lemma endpoints_spec m e guard :
  endpoints_match (unique_nodes (rm_nodes m)) e guard = true ↔ endpoints m e guard.
Proof.
  unfold endpoints_match, endpoints. setoid_rewrite <- unique_nodes_spec.
  destruct (unique_nodes (rm_nodes m) !! re_source e) as [s|]; [|naive_solver].
  destruct (unique_nodes (rm_nodes m) !! re_target e) as [t|]; naive_solver.
Qed.

Lemma candidate_edge_nodes e k ev fr : attested e k fr ev → has_valid_evidence_refs e = true.
Proof. intros (E & Hm & _). by rewrite (single_valid e ev E). Qed.

Section findings_of.
Context `{Sha256} (m : RuntimeMap).

#[local] Notation edges := (rm_edges m).
#[local] Notation nodes := (unique_nodes (rm_nodes m)).

(** The edge is the only one of its shape between its endpoints. *)
Definition sole_pair (shape : RuntimeMapEdge → bool) (e : RuntimeMapEdge) : Prop :=
  sole edges shape edge_pair (edge_pair e).

(** The edge is the only one of its shape from its source. *)
Definition sole_source (shape : RuntimeMapEdge → bool) (e : RuntimeMapEdge) : Prop :=
  sole edges shape re_source (re_source e).

Definition depends_on_shape (e : RuntimeMapEdge) : bool := re_relationship e == RR_DependsOn.
Definition compose_shape (e : RuntimeMapEdge) : bool := is_candidate_compose_dependency e nodes.
Definition daemon_shape (e : RuntimeMapEdge) : bool := is_docker_daemon_state_shape e nodes.
Definition daemon_pair_shape (e : RuntimeMapEdge) : bool := is_docker_daemon_state_pair_shape e nodes.
Definition port_pair_shape (e : RuntimeMapEdge) : bool := is_docker_port_publication_pair_shape e nodes.
Definition membership_shape (e : RuntimeMapEdge) : bool := is_docker_membership_shape e nodes.
Definition unspecified_shape (e : RuntimeMapEdge) : bool := is_unspecified_address_port_shape e nodes.

(** A Compose dependency between two containers, stated by Docker, and the only dependency
    edge between them. *)
Definition compose_dependency (e : RuntimeMapEdge) (ev : RuntimeEvidenceRef) : Prop :=
  e ∈ edges ∧ attested e DockerComposeDependsOn [EF_Fresh] ev ∧ compose_shape e = true ∧
  sole_pair depends_on_shape e ∧ sole_pair compose_shape e.

(** A container that mounts daemon state, stated by Docker. *)
Definition daemon_state_mount (e : RuntimeMapEdge) (ev : RuntimeEvidenceRef) : Prop :=
  e ∈ edges ∧ attested e DockerDaemonStateBindMount [EF_Fresh] ev ∧
  is_candidate_docker_daemon_state_bind_mount e nodes = true.

Definition systemd_pair (s t : RuntimeMapNode) : bool := is_systemd_service s && is_systemd_service t.

Definition systemd_target_down (s t : RuntimeMapNode) : bool :=
  is_systemd_service s && is_systemd_service t && is_active s && is_inactive_or_failed t.

Definition compose_target_down (s t : RuntimeMapNode) : bool :=
  is_docker_container s && is_docker_container t && (text_status s == Some Running)
  && one_of (text_status t) [Some Stopped; Some Failed].

Inductive finding_of : Finding → Prop :=
  | of_non_current e kind ev :
      e ∈ edges → kind ∈ systemd_declarations → attested e kind [EF_Stale; EF_TimedOut] ev →
      sole_pair is_candidate_non_current_declared_relationship e → endpoints m e systemd_pair →
      finding_of (edge_finding "finding_runtime_declared_relationship_evidence_not_current_"
        RuntimeDeclaredRelationshipEvidenceNotCurrent FS_Advisory
        DECLARED_RELATIONSHIP_EVIDENCE_NOT_CURRENT_SUMMARY
        DECLARED_RELATIONSHIP_EVIDENCE_NOT_CURRENT_RECOMMENDATION e [ev])
  | of_collision e ev :
      e ∈ edges → attested e RuntimeIdentityCollision [EF_Fresh] ev → integrity_evidence ev →
      re_metadata e = ∅ →
      endpoints m e (λ s t, is_runtime_integrity_scope s && is_runtime_identity_collision_risk t) →
      count_if (λ e, (re_source e == RUNTIME_INTEGRITY_SCOPE_ID)
                     && (re_target e == RUNTIME_IDENTITY_COLLISION_RISK_ID)) edges = 1 →
      finding_of {| f_id := "finding_runtime_identity_collision_detected";
        f_rule_id := RuntimeIdentityCollisionDetected; f_severity := FS_Advisory;
        f_summary := RUNTIME_IDENTITY_COLLISION_SUMMARY;
        f_recommendation := RUNTIME_IDENTITY_COLLISION_RECOMMENDATION;
        f_subject_ref := re_source e; f_target_ref := re_target e; f_evidence_refs := [ev] |}
  | of_unspecified_address e ev :
      e ∈ edges → attested e DockerUnspecifiedAddressPortPublication [EF_Fresh] ev →
      is_candidate_unspecified_address_port e nodes = true → sole_source unspecified_shape e →
      finding_of (edge_finding "finding_docker_port_published_on_unspecified_address_"
        DockerPortPublishedOnUnspecifiedAddress FS_Advisory UNSPECIFIED_ADDRESS_PORT_SUMMARY
        UNSPECIFIED_ADDRESS_PORT_RECOMMENDATION e [ev])
  | of_requires e ev :
      e ∈ edges → attested e SystemdRequires [EF_Fresh] ev → sole_pair is_candidate_requires e →
      endpoints m e systemd_target_down →
      finding_of (edge_finding "finding_systemd_requires_target_not_active_"
        SystemdRequiresTargetNotActive FS_Warning SUMMARY RECOMMENDATION e [ev])
  | of_part_of e ev :
      e ∈ edges → attested e SystemdPartOf [EF_Fresh] ev → sole_pair is_candidate_part_of e →
      endpoints m e systemd_target_down →
      finding_of (edge_finding "finding_systemd_part_of_target_not_active_"
        SystemdPartOfTargetNotActive FS_Advisory PART_OF_SUMMARY PART_OF_RECOMMENDATION e [ev])
  | of_daemon_state_port e ev p pev :
      daemon_state_mount e ev → sole_source daemon_pair_shape e → sole_source port_pair_shape e →
      p ∈ edges → re_source p = re_source e → attested p DockerPortPublication [EF_Fresh] pev →
      is_candidate_docker_daemon_state_port_publication p nodes = true → same_observation ev pev = true →
      finding_of (edge_finding "finding_docker_daemon_state_bind_mount_publishes_port_"
        DockerDaemonStateBindMountPublishesPort FS_Warning DOCKER_DAEMON_STATE_PUBLISHED_PORT_SUMMARY
        DOCKER_DAEMON_STATE_PUBLISHED_PORT_RECOMMENDATION e [ev; pev])
  | of_mutual_dependency e ev r rev :
      compose_dependency e ev → compose_dependency r rev →
      re_source r = re_target e → re_target r = re_source e →
      str_ltb (re_source e) (re_target e) = true → same_observation ev rev = true →
      finding_of (edge_finding "finding_docker_compose_mutual_dependency_" DockerComposeMutualDependency
        FS_Advisory COMPOSE_MUTUAL_DEPENDENCY_SUMMARY COMPOSE_MUTUAL_DEPENDENCY_RECOMMENDATION e [ev; rev])
  | of_compose_target e ev :
      compose_dependency e ev → endpoints m e compose_target_down →
      finding_of (edge_finding "finding_docker_compose_declared_target_not_active_"
        DockerComposeDeclaredTargetNotActive FS_Advisory COMPOSE_DECLARED_TARGET_NOT_ACTIVE_SUMMARY
        COMPOSE_DECLARED_TARGET_NOT_ACTIVE_RECOMMENDATION e [ev])
  | of_daemon_state e ev :
      daemon_state_mount e ev → sole_pair daemon_shape e →
      finding_of (edge_finding "finding_docker_daemon_state_bind_mount_" Rule_DockerDaemonStateBindMount
        FS_Warning DOCKER_DAEMON_STATE_SUMMARY DOCKER_DAEMON_STATE_RECOMMENDATION e [ev])
  | of_internal_port e ev p pev f :
      e ∈ edges → attested e DockerNetworkMembership [EF_Fresh] ev →
      membership_shape e = true → sole_pair membership_shape e →
      p ∈ edges → re_source p = re_source e → attested p DockerPortPublication [EF_Fresh] pev →
      is_docker_port_shape p nodes = true → sole_pair port_pair_shape p →
      internal_port_finding e p = Some f → finding_of f.

(** *** Each rule finds exactly these *)

(** The part of the specification that one rule covers. *)
Definition covers (rule : RuntimeMapEdge → option (list Finding)) (P : RuntimeMapEdge → Finding → Prop) : Prop :=
  ∀ e, e ∈ edges → ∃ r, rule e = Some r ∧ ∀ f, f ∈ r ↔ P e f.

Lemma covers_nothing (P : Finding → Prop) :
  (∀ f, ¬ P f) → ∃ r : list Finding, Some [] = Some r ∧ ∀ f, f ∈ r ↔ P f.
Proof. intros HP. exists []. split; [done|]. intros f. rewrite elem_of_nil. split; [done|apply HP]. Qed.

Lemma covers_single (P : Finding → Prop) mk :
  (∀ f, P f ↔ f = mk) → ∃ r : list Finding, Some [mk] = Some r ∧ ∀ f, f ∈ r ↔ P f.
Proof. intros HP. exists [mk]. split; [done|]. intros f. by rewrite list_elem_of_singleton, HP. Qed.

(** A boolean test that fails contradicts what it decides. *)
#[local] Ltac by_spec E spec := exfalso; rewrite <- not_true_iff_false in E; apply E, spec; first [assumption|by eauto 10].

(** No finding: a test that fails is a premise of the specification. *)
#[local] Ltac rejects E spec :=
  let f := fresh in apply covers_nothing; intros f ?;
  repeat match goal with H : ∃ _, _ |- _ => destruct H | H : _ ∧ _ |- _ => destruct H end;
  by_spec E spec.

Lemma non_current_covers :
  covers (non_current_finding edges nodes) (λ e f, ∃ kind ev, kind ∈ systemd_declarations ∧
    attested e kind [EF_Stale; EF_TimedOut] ev ∧
    sole_pair is_candidate_non_current_declared_relationship e ∧ endpoints m e systemd_pair ∧
    f = edge_finding "finding_runtime_declared_relationship_evidence_not_current_"
        RuntimeDeclaredRelationshipEvidenceNotCurrent FS_Advisory
        DECLARED_RELATIONSHIP_EVIDENCE_NOT_CURRENT_SUMMARY
        DECLARED_RELATIONSHIP_EVIDENCE_NOT_CURRENT_RECOMMENDATION e [ev]).
Proof.
  intros e _. unfold non_current_finding.
  destruct (is_sole _ _) eqn:Es; cbn [negb orb]; cycle 1.
  { rejects Es @is_sole_spec. }
  destruct (is_candidate_non_current_declared_relationship e) eqn:Ec; cbn [negb]; cycle 1.
  { rejects Ec non_current_spec. }
  destruct (endpoints_match _ _ _) eqn:Ee; cycle 1.
  { rejects Ee endpoints_spec. }
  apply is_sole_spec in Es. apply endpoints_spec in Ee. apply non_current_spec in Ec as (k & ev & Hk & Ha).
  rewrite (attested_evidence_0 _ _ _ _ Ha). cbn [mbind option_bind]. apply covers_single. intros f. split.
  - intros (k' & ev' & _ & Ha' & _ & _ & ->). by rewrite (attested_inj _ _ _ _ _ _ _ Ha Ha').
  - intros ->. eauto 10.
Qed.

Lemma collision_covers :
  covers (collision_finding edges nodes) (λ e f, ∃ ev, attested e RuntimeIdentityCollision [EF_Fresh] ev ∧
    integrity_evidence ev ∧ re_metadata e = ∅ ∧
    endpoints m e (λ s t, is_runtime_integrity_scope s && is_runtime_identity_collision_risk t) ∧
    integrity_edge_count edges = 1 ∧
    f = {| f_id := "finding_runtime_identity_collision_detected";
        f_rule_id := RuntimeIdentityCollisionDetected; f_severity := FS_Advisory;
        f_summary := RUNTIME_IDENTITY_COLLISION_SUMMARY;
        f_recommendation := RUNTIME_IDENTITY_COLLISION_RECOMMENDATION;
        f_subject_ref := re_source e; f_target_ref := re_target e; f_evidence_refs := [ev] |}).
Proof.
  intros e _. unfold collision_finding.
  destruct (integrity_edge_count edges =? 1)%nat eqn:Es; cbn [negb orb]; cycle 1.
  { rejects Es Nat.eqb_eq. }
  pose proof (collision_candidate_spec e nodes) as Hspec. setoid_rewrite endpoints_spec in Hspec.
  destruct (is_candidate_runtime_identity_collision e nodes) eqn:Ec; cbn [negb]; cycle 1.
  { apply covers_nothing. intros f (ev & Ha & Hi & Hmd & He & _).
    discriminate (proj2 Hspec (conj Hmd (conj He (ex_intro _ ev (conj Ha Hi))))). }
  apply Nat.eqb_eq in Es. destruct (proj1 Hspec eq_refl) as (Hmd & He & ev & Ha & Hi).
  rewrite (attested_evidence_0 _ _ _ _ Ha). cbn [mbind option_bind]. apply covers_single. intros f. split.
  - intros (ev' & Ha' & _ & _ & _ & _ & ->). by rewrite (attested_inj _ _ _ _ _ _ _ Ha Ha').
  - intros ->. eauto 10.
Qed.

Lemma unspecified_address_attested e :
  is_candidate_unspecified_address_port e nodes = true →
  ∃ ev, attested e DockerUnspecifiedAddressPortPublication [EF_Fresh] ev.
Proof.
  unfold is_candidate_unspecified_address_port. rewrite !andb_true_iff. intros [[_ Hf] _].
  by apply fresh_docker_spec.
Qed.

Lemma unspecified_address_covers :
  covers (unspecified_address_finding edges nodes) (λ e f, ∃ ev,
    attested e DockerUnspecifiedAddressPortPublication [EF_Fresh] ev ∧
    is_candidate_unspecified_address_port e nodes = true ∧ sole_source unspecified_shape e ∧
    f = edge_finding "finding_docker_port_published_on_unspecified_address_"
        DockerPortPublishedOnUnspecifiedAddress FS_Advisory UNSPECIFIED_ADDRESS_PORT_SUMMARY
        UNSPECIFIED_ADDRESS_PORT_RECOMMENDATION e [ev]).
Proof.
  intros e _. unfold unspecified_address_finding.
  destruct (is_sole _ _) eqn:Es; cbn [negb orb]; cycle 1.
  { rejects Es @is_sole_spec. }
  destruct (is_candidate_unspecified_address_port e nodes) eqn:Ec; cbn [negb]; cycle 1.
  { apply covers_nothing. naive_solver. }
  apply is_sole_spec in Es. destruct (unspecified_address_attested e Ec) as (ev & Ha).
  rewrite (attested_evidence_0 _ _ _ _ Ha). cbn [mbind option_bind]. apply covers_single. intros f. split.
  - intros (ev' & Ha' & _ & _ & ->). by rewrite (attested_inj _ _ _ _ _ _ _ Ha Ha').
  - intros ->. eauto 10.
Qed.

Lemma target_not_active_covers kind prefix rule severity summary recommendation :
  shape_row kind = (2%N, EP_Systemd, Declared, Some Slot_Systemd) → requires_distinct kind = true →
  let candidate e := is_fresh_systemd_declaration e (attested_relationship kind) kind in
  covers (target_not_active_finding edges nodes candidate prefix rule severity summary recommendation)
    (λ e f, ∃ ev, attested e kind [EF_Fresh] ev ∧ sole_pair candidate e ∧
      endpoints m e systemd_target_down ∧
      f = edge_finding prefix rule severity summary recommendation e [ev]).
Proof.
  intros Hrow Hd candidate e _. unfold target_not_active_finding.
  destruct (is_sole _ _) eqn:Es; cbn [negb orb]; cycle 1.
  { rejects Es @is_sole_spec. }
  destruct (candidate e) eqn:Ec; cbn [negb]; cycle 1.
  { rejects Ec (fresh_systemd_spec e kind Hrow Hd). }
  apply is_sole_spec in Es. apply (fresh_systemd_spec e kind Hrow Hd) in Ec as (ev & Ha).
  rewrite (attested_evidence_0 _ _ _ _ Ha). cbn [mbind option_bind].
  destruct (endpoints_match _ _ _) eqn:Ee; cycle 1.
  { rejects Ee endpoints_spec. }
  apply endpoints_spec in Ee. apply covers_single. intros f. split.
  - intros (ev' & Ha' & _ & _ & ->). by rewrite (attested_inj _ _ _ _ _ _ _ Ha Ha').
  - intros ->. eauto 10.
Qed.

Lemma daemon_state_attested e :
  is_candidate_docker_daemon_state_bind_mount e nodes = true →
  ∃ ev, attested e DockerDaemonStateBindMount [EF_Fresh] ev.
Proof.
  unfold is_candidate_docker_daemon_state_bind_mount. rewrite !andb_true_iff. intros [[_ Hf] _].
  by apply fresh_docker_spec.
Qed.

Lemma daemon_state_covers :
  covers (daemon_state_finding edges nodes) (λ e f, ∃ ev, daemon_state_mount e ev ∧ sole_pair daemon_shape e ∧
    f = edge_finding "finding_docker_daemon_state_bind_mount_" Rule_DockerDaemonStateBindMount
        FS_Warning DOCKER_DAEMON_STATE_SUMMARY DOCKER_DAEMON_STATE_RECOMMENDATION e [ev]).
Proof.
  intros e He. unfold daemon_state_finding.
  destruct (is_sole _ _) eqn:Es; cbn [negb orb]; cycle 1.
  { rejects Es @is_sole_spec. }
  destruct (is_candidate_docker_daemon_state_bind_mount e nodes) eqn:Ec; cbn [negb]; cycle 1.
  { apply covers_nothing. intros f (ev & (_ & _ & Hc) & _). congruence. }
  apply is_sole_spec in Es. destruct (daemon_state_attested e Ec) as (ev & Ha).
  rewrite (attested_evidence_0 _ _ _ _ Ha). cbn [mbind option_bind]. apply covers_single. intros f. split.
  - intros (ev' & (_ & Ha' & _) & _ & ->). by rewrite (attested_inj _ _ _ _ _ _ _ Ha Ha').
  - intros ->. exists ev. done.
Qed.

Lemma daemon_port_attested p :
  is_candidate_docker_daemon_state_port_publication p nodes = true →
  port_pair_shape p = true ∧ ∃ pev, attested p DockerPortPublication [EF_Fresh] pev.
Proof.
  unfold is_candidate_docker_daemon_state_port_publication. rewrite !andb_true_iff. intros [[[_ Hs] _] Hf].
  split; [done|]. by apply fresh_docker_spec.
Qed.

(** The edge [find] returns is any edge with the property, when the edges with it are equal. *)
Lemma find_unique {A} (f : A → bool) (l : list A) (P : A → Prop) :
  (∀ x y, x ∈ l → y ∈ l → f x = true → f y = true → x = y) →
  (∀ x, x ∈ l → f x = true ↔ P x) →
  match find f l with
  | Some x => x ∈ l ∧ P x ∧ ∀ y, y ∈ l → P y → y = x
  | None => ∀ x, x ∈ l → ¬ P x
  end.
Proof.
  intros Hu HP. destruct (find f l) as [x|] eqn:E.
  - apply find_Some in E as [Hin Hf]. split_and!; [done|by apply HP|].
    intros y Hy Py. apply Hu; [done|done|by apply HP|done].
  - rewrite find_None in E. intros x Hx Px%HP; [|done]. specialize (E x Hx). congruence.
Qed.

Lemma daemon_state_port_covers :
  covers (daemon_state_port_finding edges nodes) (λ e f, ∃ ev p pev, daemon_state_mount e ev ∧
    sole_source daemon_pair_shape e ∧ sole_source port_pair_shape e ∧
    p ∈ edges ∧ re_source p = re_source e ∧ attested p DockerPortPublication [EF_Fresh] pev ∧
    is_candidate_docker_daemon_state_port_publication p nodes = true ∧ same_observation ev pev = true ∧
    f = edge_finding "finding_docker_daemon_state_bind_mount_publishes_port_"
        DockerDaemonStateBindMountPublishesPort FS_Warning DOCKER_DAEMON_STATE_PUBLISHED_PORT_SUMMARY
        DOCKER_DAEMON_STATE_PUBLISHED_PORT_RECOMMENDATION e [ev; pev]).
Proof.
  intros e He. unfold daemon_state_port_finding.
  destruct (is_sole _ _) eqn:Es at 1; cbn [negb orb]; cycle 1.
  { rejects Es @is_sole_spec. }
  destruct (is_sole _ _) eqn:Ep at 1; cbn [negb orb]; cycle 1.
  { rejects Ep @is_sole_spec. }
  destruct (is_candidate_docker_daemon_state_bind_mount e nodes) eqn:Ec; cbn [negb]; cycle 1.
  { apply covers_nothing. intros f (ev & p & pev & (_ & _ & Hc) & _). congruence. }
  apply is_sole_spec in Es, Ep. destruct (daemon_state_attested e Ec) as (ev & Ha).
  pose proof (find_unique (λ candidate, (re_source candidate == re_source e)
    && is_candidate_docker_daemon_state_port_publication candidate nodes) edges
    (λ p, re_source p = re_source e ∧ is_candidate_docker_daemon_state_port_publication p nodes = true)) as Hfind.
  destruct (find _ edges) as [p|]; cycle 1.
  { apply covers_nothing. intros f (ev' & p & pev & _ & _ & _ & Hp & Hs & _ & Hc & _).
    refine (Hfind _ _ p Hp (conj Hs Hc)).
    - intros x y Hx Hy [Hxs%bool_decide_eq_true Hxc]%andb_prop [Hys%bool_decide_eq_true Hyc]%andb_prop.
      eapply (sole_unique edges port_pair_shape re_source); [exact Ep|done|done| | |done|done];
        by apply daemon_port_attested.
    - intros x _. by rewrite andb_true_iff, bool_decide_eq_true. }
  destruct Hfind as (Hp & [Hps Hpc] & Hpu).
  { intros x y Hx Hy [Hxs%bool_decide_eq_true Hxc]%andb_prop [Hys%bool_decide_eq_true Hyc]%andb_prop.
    eapply (sole_unique edges port_pair_shape re_source); [exact Ep|done|done| | |done|done];
      by apply daemon_port_attested. }
  { intros x _. by rewrite andb_true_iff, bool_decide_eq_true. }
  destruct (daemon_port_attested p Hpc) as (_ & pev & Hpa).
  rewrite (attested_evidence_0 _ _ _ _ Ha), (attested_evidence_0 _ _ _ _ Hpa). cbn [mbind option_bind].
  destruct (same_observation ev pev) eqn:Eo; cbn [negb].
  - apply covers_single. intros f. split.
    + intros (ev' & p' & pev' & (_ & Ha' & _) & _ & _ & Hp' & Hs' & Hpa' & Hc' & _ & ->).
      rewrite (attested_inj _ _ _ _ _ _ _ Ha Ha'). assert (p' = p) as -> by (by apply Hpu).
      by rewrite (attested_inj _ _ _ _ _ _ _ Hpa Hpa').
    + intros ->. exists ev, p, pev. done.
  - apply covers_nothing. intros f (ev' & p' & pev' & (_ & Ha' & _) & _ & _ & Hp' & Hs' & Hpa' & Hc' & Ho & _).
    assert (p' = p) as -> by (by apply Hpu). rewrite (attested_inj _ _ _ _ _ _ _ Ha' Ha),
      (attested_inj _ _ _ _ _ _ _ Hpa' Hpa) in Ho. congruence.
Qed.

Lemma compose_attested e :
  is_candidate_compose_dependency e nodes = true → ∃ ev, attested e DockerComposeDependsOn [EF_Fresh] ev.
Proof.
  unfold is_candidate_compose_dependency. rewrite !andb_true_iff. intros [[_ Hf] _].
  by apply fresh_docker_spec.
Qed.

(** The guards that the two Compose rules share. *)
Lemma compose_guard_spec e :
  e ∈ edges →
  is_sole (depends_on_counts edges) (edge_pair e) = true →
  is_sole (compose_dependency_counts edges nodes) (edge_pair e) = true →
  is_candidate_compose_dependency e nodes = true → ∃ ev, compose_dependency e ev.
Proof.
  intros He Hd%is_sole_spec Hc%is_sole_spec Hcand. destruct (compose_attested e Hcand) as (ev & Ha).
  by exists ev.
Qed.

Lemma compose_guard_fails e :
  is_sole (depends_on_counts edges) (edge_pair e)
  && is_sole (compose_dependency_counts edges nodes) (edge_pair e)
  && is_candidate_compose_dependency e nodes = false → ∀ ev, ¬ compose_dependency e ev.
Proof.
  intros Hf ev (_ & _ & Hc & Hd & Hs). apply is_sole_spec in Hd, Hs.
  unfold depends_on_counts, compose_dependency_counts in Hf. unfold depends_on_shape, compose_shape in *.
  rewrite Hd, Hs, Hc in Hf. done.
Qed.

Lemma compose_target_covers :
  covers (compose_target_finding edges nodes) (λ e f, ∃ ev, compose_dependency e ev ∧
    endpoints m e compose_target_down ∧
    f = edge_finding "finding_docker_compose_declared_target_not_active_"
        DockerComposeDeclaredTargetNotActive FS_Advisory COMPOSE_DECLARED_TARGET_NOT_ACTIVE_SUMMARY
        COMPOSE_DECLARED_TARGET_NOT_ACTIVE_RECOMMENDATION e [ev]).
Proof.
  intros e He. unfold compose_target_finding. rewrite <- !negb_andb.
  destruct (_ && _ && _) eqn:Eg; cbn [negb]; cycle 1.
  { apply covers_nothing. intros f (ev & Hc & _). by eapply compose_guard_fails. }
  apply andb_prop in Eg as [[Hd Hs]%andb_prop Hc]. destruct (compose_guard_spec e He Hd Hs Hc) as (ev & Hcd).
  destruct (endpoints_match _ _ _) eqn:Ee; cycle 1.
  { rejects Ee endpoints_spec. }
  apply endpoints_spec in Ee. pose proof Hcd as (_ & Ha & _).
  rewrite (attested_evidence_0 _ _ _ _ Ha). cbn [mbind option_bind]. apply covers_single. intros f. split.
  - intros (ev' & (_ & Ha' & _) & _ & ->). by rewrite (attested_inj _ _ _ _ _ _ _ Ha Ha').
  - intros ->. by exists ev.
Qed.

Lemma reverse_pair e r : re_source r = re_target e → re_target r = re_source e → edge_pair r = (re_target e, re_source e).
Proof. intros E1 E2. unfold edge_pair. by rewrite E1, E2. Qed.

Lemma mutual_dependency_covers :
  covers (mutual_dependency_finding edges nodes) (λ e f, ∃ ev r rev, compose_dependency e ev ∧
    compose_dependency r rev ∧ re_source r = re_target e ∧ re_target r = re_source e ∧
    str_ltb (re_source e) (re_target e) = true ∧ same_observation ev rev = true ∧
    f = edge_finding "finding_docker_compose_mutual_dependency_" DockerComposeMutualDependency
        FS_Advisory COMPOSE_MUTUAL_DEPENDENCY_SUMMARY COMPOSE_MUTUAL_DEPENDENCY_RECOMMENDATION e [ev; rev]).
Proof.
  intros e He. unfold mutual_dependency_finding.
  destruct (str_leb (re_target e) (re_source e)) eqn:El; cbn [orb].
  { apply covers_nothing. intros f (ev & r & rev & _ & _ & _ & _ & Hl & _). unfold str_ltb in Hl.
    rewrite El in Hl. done. }
  rewrite <- !negb_andb. destruct (_ && _ && _) eqn:Eg; cbn [negb]; cycle 1.
  { apply covers_nothing. intros f (ev & r & rev & Hc & _). by eapply compose_guard_fails. }
  apply andb_prop in Eg as [[Hd Hs]%andb_prop Hc]. destruct (compose_guard_spec e He Hd Hs Hc) as (ev & Hcd).
  destruct (_ && _) eqn:Er; cbn [negb]; cycle 1.
  { apply covers_nothing. intros f (ev' & r & rev & _ & (_ & _ & Hrc & Hrd & Hrs) & E1 & E2 & _).
    apply is_sole_spec in Hrd, Hrs. rewrite (reverse_pair e r E1 E2) in Hrd, Hrs.
    unfold depends_on_counts, compose_dependency_counts in Er. unfold depends_on_shape, compose_shape in *.
    rewrite Hrd, Hrs in Er. done. }
  apply andb_prop in Er as [Hrd Hrs].
  pose proof Hrs as Hsole. apply is_sole_spec in Hsole.
  pose proof (find_unique (λ candidate, (re_source candidate == re_target e)
    && (re_target candidate == re_source e) && is_candidate_compose_dependency candidate nodes) edges
    (λ r, re_source r = re_target e ∧ re_target r = re_source e ∧ compose_shape r = true)) as Hfind.
  assert (Huniq : ∀ x y, x ∈ edges → y ∈ edges →
    (re_source x == re_target e) && (re_target x == re_source e) && is_candidate_compose_dependency x nodes = true →
    (re_source y == re_target e) && (re_target y == re_source e) && is_candidate_compose_dependency y nodes = true → x = y).
  { intros x y Hx Hy. rewrite !andb_true_iff, !bool_decide_eq_true. intros [[Hx1 Hx2] Hxc] [[Hy1 Hy2] Hyc].
    eapply (sole_unique edges compose_shape edge_pair); [exact Hsole|done|done|done|done|by apply reverse_pair..]. }
  specialize (Hfind Huniq). destruct (find _ edges) as [r|]; cycle 1.
  { apply covers_nothing. intros f (ev' & r & rev & _ & (Hr & _ & Hrc & _) & E1 & E2 & _).
    refine (Hfind _ r Hr (conj E1 (conj E2 Hrc))).
    intros x _. rewrite !andb_true_iff, !bool_decide_eq_true. unfold compose_shape. tauto. }
  destruct Hfind as (Hr & (E1 & E2 & Hrc) & Hru).
  { intros x _. rewrite !andb_true_iff, !bool_decide_eq_true. unfold compose_shape. tauto. }
  rewrite <- (reverse_pair e r E1 E2) in Hrd, Hrs.
  destruct (compose_guard_spec r Hr Hrd Hrs Hrc) as (rev & Hcr).
  pose proof Hcd as (_ & Ha & _). pose proof Hcr as (_ & Har & _).
  rewrite (attested_evidence_0 _ _ _ _ Ha), (attested_evidence_0 _ _ _ _ Har). cbn [mbind option_bind].
  destruct (same_observation ev rev) eqn:Eo; cbn [negb].
  - apply covers_single. intros f. split.
    + intros (ev' & r' & rev' & (_ & Ha' & _) & (Hr' & Har' & Hrc' & _) & E1' & E2' & _ & _ & ->).
      rewrite (attested_inj _ _ _ _ _ _ _ Ha Ha'). assert (r' = r) as -> by (by apply Hru).
      by rewrite (attested_inj _ _ _ _ _ _ _ Har Har').
    + intros ->. exists ev, r, rev. unfold str_ltb. by rewrite El.
  - apply covers_nothing.
    intros f (ev' & r' & rev' & (_ & Ha' & _) & (Hr' & Har' & Hrc' & _) & E1' & E2' & _ & Ho & _).
    assert (r' = r) as -> by (by apply Hru). rewrite (attested_inj _ _ _ _ _ _ _ Ha' Ha),
      (attested_inj _ _ _ _ _ _ _ Har' Har) in Ho. congruence.
Qed.

Lemma internal_network_covers :
  covers (internal_network_findings edges nodes) (λ e f, ∃ ev p pev,
    attested e DockerNetworkMembership [EF_Fresh] ev ∧ membership_shape e = true ∧
    sole_pair membership_shape e ∧ p ∈ edges ∧ re_source p = re_source e ∧
    attested p DockerPortPublication [EF_Fresh] pev ∧ is_docker_port_shape p nodes = true ∧
    sole_pair port_pair_shape p ∧ internal_port_finding e p = Some f).
Proof.
  intros e He. unfold internal_network_findings.
  destruct (is_sole _ _) eqn:Es; cbn [negb orb]; cycle 1.
  { rejects Es @is_sole_spec. }
  unfold is_candidate_internal_network_membership.
  destruct (is_docker_membership_shape e nodes) eqn:Em; cbn [andb negb]; cycle 1.
  { apply covers_nothing. intros f (ev & p & pev & _ & Hm & _). unfold membership_shape in Hm. congruence. }
  destruct (is_fresh_docker_evidence e DockerNetworkMembership) eqn:Ef; cbn [negb]; cycle 1.
  { rejects Ef (fresh_docker_spec e DockerNetworkMembership eq_refl). }
  apply is_sole_spec in Es. apply (fresh_docker_spec e DockerNetworkMembership eq_refl) in Ef as (ev & Ha).
  set (ports := filterb _ edges).
  assert (Hports : ∀ p, p ∈ ports ↔ p ∈ edges ∧ re_source p = re_source e ∧ sole_pair port_pair_shape p ∧
    is_docker_port_shape p nodes = true ∧ ∃ pev, attested p DockerPortPublication [EF_Fresh] pev).
  { intros p. unfold ports, is_candidate_port_publication. rewrite elem_of_filterb, !andb_true_iff.
    rewrite bool_decide_eq_true, is_sole_spec, (fresh_docker_spec p DockerPortPublication eq_refl).
    unfold sole_pair, port_pair_shape. tauto. }
  assert (Htotal : ∀ p, p ∈ ports → ∃ f, internal_port_finding e p = Some f).
  { intros p (_ & _ & _ & _ & pev & Hp)%Hports. unfold internal_port_finding.
    rewrite (attested_evidence_0 _ _ _ _ Ha), (attested_evidence_0 _ _ _ _ Hp). eexists; done. }
  destruct (mapM_Some_exists (internal_port_finding e) ports Htotal) as (fs & Hfs & Hin).
  exists fs. split; [done|]. intros f. rewrite Hin. setoid_rewrite Hports. split.
  - intros (p & (Hp & Hs & Hsole & Hsh & pev & Hpa) & Hf). by exists ev, p, pev.
  - intros (ev' & p & pev & _ & _ & _ & Hp & Hs & Hpa & Hsh & Hsole & Hf). exists p. eauto 10.
Qed.

Lemma run_rule_covers rule P :
  covers rule P → ∃ r, run_rule edges rule = Some r ∧ ∀ f, f ∈ r ↔ ∃ e, e ∈ edges ∧ P e f.
Proof.
  intros Hc. unfold run_rule. destruct (mapM_members rule P edges Hc) as (rs & -> & Hrs).
  by exists (concat rs).
Qed.

Lemma run_rules_total :
  ∃ rs, mapM (run_rule edges) (rules edges nodes) = Some rs ∧ ∀ f, f ∈ concat rs ↔ finding_of f.
Proof.
  unfold rules. cbn [mapM].
  destruct (run_rule_covers _ _ non_current_covers) as (r1 & -> & H1). cbn [mbind option_bind].
  destruct (run_rule_covers _ _ collision_covers) as (r2 & -> & H2). cbn [mbind option_bind].
  destruct (run_rule_covers _ _ unspecified_address_covers) as (r3 & -> & H3). cbn [mbind option_bind].
  destruct (run_rule_covers _ _ (target_not_active_covers SystemdRequires
    "finding_systemd_requires_target_not_active_" SystemdRequiresTargetNotActive FS_Warning
    SUMMARY RECOMMENDATION eq_refl eq_refl)) as (r4 & E4 & H4).
  change (run_rule edges (requires_finding edges nodes) = Some r4) in E4. rewrite E4. cbn [mbind option_bind].
  destruct (run_rule_covers _ _ (target_not_active_covers SystemdPartOf
    "finding_systemd_part_of_target_not_active_" SystemdPartOfTargetNotActive FS_Advisory
    PART_OF_SUMMARY PART_OF_RECOMMENDATION eq_refl eq_refl)) as (r5 & E5 & H5).
  change (run_rule edges (part_of_finding edges nodes) = Some r5) in E5. rewrite E5. cbn [mbind option_bind].
  destruct (run_rule_covers _ _ daemon_state_port_covers) as (r6 & -> & H6). cbn [mbind option_bind].
  destruct (run_rule_covers _ _ mutual_dependency_covers) as (r7 & -> & H7). cbn [mbind option_bind].
  destruct (run_rule_covers _ _ compose_target_covers) as (r8 & -> & H8). cbn [mbind option_bind].
  destruct (run_rule_covers _ _ daemon_state_covers) as (r9 & -> & H9). cbn [mbind option_bind].
  destruct (run_rule_covers _ _ internal_network_covers) as (r10 & -> & H10). cbn [mbind option_bind].
  eexists. split; [reflexivity|]. intros f. cbn [concat].
  rewrite !elem_of_app, elem_of_nil, H1, H2, H3, H4, H5, H6, H7, H8, H9, H10. split.
  - intros [(e & He & k & ev & Hk & Ha & Hs & Hend & ->)|Hf]; [by eapply of_non_current|].
    destruct Hf as [(e & He & ev & Ha & Hi & Hmd & Hend & Hc & ->)|Hf]; [by eapply of_collision|].
    destruct Hf as [(e & He & ev & Ha & Hc & Hs & ->)|Hf]; [by apply of_unspecified_address|].
    destruct Hf as [(e & He & ev & Ha & Hs & Hend & ->)|Hf]; [by apply of_requires|].
    destruct Hf as [(e & He & ev & Ha & Hs & Hend & ->)|Hf]; [by apply of_part_of|].
    destruct Hf as [(e & He & ev & p & pev & ? & ? & ? & ? & ? & ? & ? & ? & ->)|Hf];
      [by eapply of_daemon_state_port|].
    destruct Hf as [(e & He & ev & r & rev & ? & ? & ? & ? & ? & ? & ->)|Hf]; [by eapply of_mutual_dependency|].
    destruct Hf as [(e & He & ev & ? & ? & ->)|Hf]; [by apply of_compose_target|].
    destruct Hf as [(e & He & ev & ? & ? & ->)|Hf]; [by apply of_daemon_state|].
    destruct Hf as [(e & He & ev & p & pev & ? & ? & ? & ? & ? & ? & ? & ? & ?)|Hf]; [by apply (of_internal_port e ev p pev)|].
    done.
  - intros Hf. destruct Hf as [e k ev He|e ev He|e ev He|e ev He|e ev He|e ev p pev Hm|e ev r rev Hc
      |e ev Hc|e ev Hm|e ev p pev f He].
    + left. exists e. split; [done|]. by exists k, ev.
    + right; left. exists e. split; [done|]. by exists ev.
    + do 2 right; left. exists e. split; [done|]. by exists ev.
    + do 3 right; left. exists e. split; [done|]. by exists ev.
    + do 4 right; left. exists e. split; [done|]. by exists ev.
    + do 5 right; left. exists e. split; [by destruct Hm|]. by exists ev, p, pev.
    + do 6 right; left. exists e. split; [by destruct Hc|]. by exists ev, r, rev.
    + do 7 right; left. exists e. split; [by destruct Hc|]. by exists ev.
    + do 8 right; left. exists e. split; [by destruct Hm|]. by exists ev.
    + do 9 right; left. exists e. split; [done|]. by exists ev, p, pev.
Qed.

(** *** What every finding says *)

Lemma endpoints_match_named e guard :
  endpoints_match nodes e guard = true →
  ∃ s t, named_once (rm_nodes m) (re_source e) s ∧ named_once (rm_nodes m) (re_target e) t.
Proof. intros (s & t & ? & ? & _)%endpoints_spec. by exists s, t. Qed.

Lemma shape_named (b : bool) e guard :
  b && endpoints_match nodes e guard = true →
  ∃ s t, named_once (rm_nodes m) (re_source e) s ∧ named_once (rm_nodes m) (re_target e) t.
Proof. intros [_ Hm]%andb_prop. by eapply endpoints_match_named. Qed.

(** The evidence is on an edge of the map between the two entities. *)
Definition evidence_on_map (f : Finding) (ev : RuntimeEvidenceRef) : Prop :=
  ∃ e, e ∈ edges ∧ re_evidence_refs e = [ev] ∧ evidence_ref_matches_edge e ev = true ∧
    ev_subject_ref ev = re_source e ∧
    (re_source e = f_subject_ref f ∨ (re_source e = f_target_ref f ∧ re_target e = f_subject_ref f)).

Lemma attested_on_map f e kind fr ev :
  e ∈ edges → attested e kind fr ev → re_source e = f_subject_ref f → evidence_on_map f ev.
Proof.
  intros He Ha Hs. exists e. pose proof (attested_subject _ _ _ _ Ha). destruct Ha as (? & ? & _).
  split_and!; auto.
Qed.

Lemma finding_explained f :
  finding_of f →
  (∃ s t, named_once (rm_nodes m) (f_subject_ref f) s ∧ named_once (rm_nodes m) (f_target_ref f) t) ∧
  f_evidence_refs f ≠ [] ∧ Forall (evidence_on_map f) (f_evidence_refs f).
Proof.
  intros Hf. destruct Hf as [e k ev He _ Ha _ Hend|e ev He Ha _ _ Hend|e ev He Ha Hc|e ev He Ha _ Hend
    |e ev He Ha _ Hend|e ev p pev (He & Ha & Hc) _ _ Hp Hps Hpa|e ev r rev (He & Ha & Hc & _) (Hr & Hra & _) E1 E2
    |e ev (He & Ha & _) Hend|e ev (He & Ha & Hc)|e ev p pev f He Ha Hm _ Hp Hps Hpa _ _ Hf].
  all: try (split; [destruct Hend as (s & t & ? & ? & _); by exists s, t|split; [done|]];
    apply Forall_singleton; by eapply (attested_on_map _ e)).
  - split; [|split; [done|apply Forall_singleton; by eapply (attested_on_map _ e)]].
    unfold is_candidate_unspecified_address_port in Hc. rewrite !andb_true_iff in Hc.
    destruct Hc as [[[_ Hc] _] _]. by eapply shape_named.
  - split; [|split; [done|apply Forall_cons; split; [by eapply (attested_on_map _ e)|]]].
    + unfold is_candidate_docker_daemon_state_bind_mount in Hc. rewrite !andb_true_iff in Hc.
      destruct Hc as [[Hc _] _]. by eapply shape_named.
    + apply Forall_singleton. by apply (attested_on_map _ p DockerPortPublication [EF_Fresh]).
  - split; [|split; [done|apply Forall_cons; split; [by eapply (attested_on_map _ e)|]]].
    + unfold compose_shape, is_candidate_compose_dependency in Hc. rewrite !andb_true_iff in Hc.
      destruct Hc as [[[_ Hc] _] _]. by eapply endpoints_match_named.
    + apply Forall_singleton. exists r. pose proof (attested_subject _ _ _ _ Hra).
      destruct Hra as (? & ? & _). split_and!; auto.
  - split; [|split; [done|apply Forall_singleton; by eapply (attested_on_map _ e)]].
    unfold is_candidate_docker_daemon_state_bind_mount in Hc. rewrite !andb_true_iff in Hc.
    destruct Hc as [[Hc _] _]. by eapply shape_named.
  - unfold internal_port_finding in Hf.
    rewrite (attested_evidence_0 _ _ _ _ Ha), (attested_evidence_0 _ _ _ _ Hpa) in Hf.
    cbn [mbind option_bind] in Hf. injection Hf as <-. cbn [f_subject_ref f_target_ref f_evidence_refs].
    split; [by eapply shape_named|]. split; [done|].
    apply Forall_cons; split; [by apply (attested_on_map _ e DockerNetworkMembership [EF_Fresh])|].
    apply Forall_singleton. by apply (attested_on_map _ p DockerPortPublication [EF_Fresh]).
Qed.
End findings_of.

(** ** The final order *)

Lemma finding_leb_total x y : finding_leb x y = true ∨ finding_leb y x = true.
Proof.
  unfold finding_leb. destruct (decide (f_id x = f_id y)) as [E|E].
  - rewrite (bool_decide_eq_true_2 _ E), (bool_decide_eq_true_2 _ (eq_sym E)).
    destruct (decide (f_subject_ref x = f_subject_ref y)) as [E'|E'].
    + rewrite (bool_decide_eq_true_2 _ E'), (bool_decide_eq_true_2 _ (eq_sym E')). apply str_leb_total.
    + rewrite !bool_decide_eq_false_2 by congruence. apply str_leb_total.
  - rewrite !bool_decide_eq_false_2 by congruence. apply str_leb_total.
Qed.

(** The order as a proposition: lexicographic on the three texts. *)
Lemma finding_leb_spec x y :
  finding_leb x y = true ↔
  (f_id x ≠ f_id y ∧ str_leb (f_id x) (f_id y) = true) ∨
  (f_id x = f_id y ∧ f_subject_ref x ≠ f_subject_ref y ∧ str_leb (f_subject_ref x) (f_subject_ref y) = true) ∨
  (f_id x = f_id y ∧ f_subject_ref x = f_subject_ref y ∧ str_leb (f_target_ref x) (f_target_ref y) = true).
Proof. unfold finding_leb. case_bool_decide; [case_bool_decide|]; naive_solver. Qed.

Lemma str_lt_trans a b c :
  a ≠ b → str_leb a b = true → b ≠ c → str_leb b c = true → a ≠ c ∧ str_leb a c = true.
Proof.
  intros H1 H2 H3 H4. split; [|by eapply str_leb_trans]. intros ->. apply H1. by apply str_leb_antisym.
Qed.

Lemma finding_leb_trans x y z : finding_leb x y = true → finding_leb y z = true → finding_leb x z = true.
Proof.
  rewrite !finding_leb_spec. intros [[H1 H2]|[(E1 & H1 & H2)|(E1 & E2 & H2)]] [[H3 H4]|[(E3 & H3 & H4)|(E3 & E4 & H4)]].
  - left. by eapply str_lt_trans.
  - left. by rewrite <- E3.
  - left. by rewrite <- E3.
  - left. by rewrite E1.
  - right; left. split; [congruence|]. by eapply str_lt_trans.
  - right; left. rewrite <- E4. split; [congruence|done].
  - left. by rewrite E1.
  - right; left. rewrite E2. split; [congruence|done].
  - right; right. split_and!; [congruence..|by eapply str_leb_trans].
Qed.

Section findings_theorems.
Context `{Sha256}.

Lemma derive_findings_total m :
  ∃ fs, derive_findings m = Some fs ∧ StronglySorted (λ a b, finding_leb a b = true) fs ∧
    ∀ f, f ∈ fs ↔ rm_source m ≠ Some Mode_Mock ∧ finding_of m f.
Proof.
  unfold derive_findings. case_bool_decide as Em.
  { exists []. split_and!; [done|constructor|]. intros f. rewrite elem_of_nil. naive_solver. }
  destruct (run_rules_total m) as (rs & -> & Hrs). cbn [mbind option_bind].
  eexists. split_and!; [done|apply sort_by_sorted; [apply finding_leb_total|apply finding_leb_trans]|].
  intros f. rewrite elem_of_sort_by, Hrs. tauto.
Qed.

(** C18: [derive_findings] never panics and finds exactly what its ten rules specify: each rule
    needs the one edge of its shape between two entities that one id names, with a single
    reference of evidence that the model accepts on that edge; a mock map has no finding. The
    findings come sorted by id, subject and target. *)
Theorem derive_findings_spec m :
  ∃ fs, derive_findings m = Some fs ∧ StronglySorted (λ a b, finding_leb a b = true) fs ∧
    ∀ f, f ∈ fs ↔ rm_source m ≠ Some Mode_Mock ∧ finding_of m f.
Proof. apply derive_findings_total. Qed.

(** Every finding can be explained from the map: its subject and its target are each the
    id of exactly one node, and it carries evidence, all of which the model accepts on an edge
    of the map that leaves the subject (or, for the second half of a mutual dependency, goes
    from the target back to the subject). *)
Theorem findings_explained m fs f :
  derive_findings m = Some fs → f ∈ fs →
  (∃ s t, named_once (rm_nodes m) (f_subject_ref f) s ∧ named_once (rm_nodes m) (f_target_ref f) t) ∧
  f_evidence_refs f ≠ [] ∧ Forall (evidence_on_map m f) (f_evidence_refs f).
Proof.
  intros E Hf. destruct (derive_findings_total m) as (fs' & E' & _ & Hfs). rewrite E in E'.
  injection E' as <-. apply Hfs in Hf as [_ Hf]. by apply finding_explained.
Qed.

(** *** The order of the map does not matter *)

Definition same_topology (m m' : RuntimeMap) : Prop :=
  rm_nodes m ≡ₚ rm_nodes m' ∧ rm_edges m ≡ₚ rm_edges m' ∧ rm_source m = rm_source m'.

Lemma unique_nodes_same m m' : same_topology m m' → unique_nodes (rm_nodes m) = unique_nodes (rm_nodes m').
Proof.
  intros (Hn & _). apply map_eq. intros id. apply option_eq. intros n.
  rewrite !unique_nodes_spec. unfold named_once. by rewrite Hn.
Qed.

Lemma sole_same {K} `{EqDecision K} m m' shape (key : RuntimeMapEdge → K) k :
  same_topology m m' → sole (rm_edges m) shape key k → sole (rm_edges m') shape key k.
Proof. intros (_ & He & _). unfold sole. by rewrite He. Qed.

Lemma endpoints_same m m' e guard : same_topology m m' → endpoints m e guard → endpoints m' e guard.
Proof. intros (Hn & _). unfold endpoints, named_once. by setoid_rewrite Hn. Qed.

Lemma edge_same m m' e : same_topology m m' → e ∈ rm_edges m → e ∈ rm_edges m'.
Proof. intros (_ & He & _). by rewrite He. Qed.

Lemma compose_dependency_same m m' e ev :
  same_topology m m' → compose_dependency m e ev → compose_dependency m' e ev.
Proof.
  intros E (He & Ha & Hc & Hd & Hs). pose proof (unique_nodes_same _ _ E) as En.
  unfold compose_dependency, sole_pair, compose_shape in *. rewrite <- En.
  split_and!; [by eapply edge_same|done|done|by eapply sole_same..].
Qed.

Lemma daemon_state_same m m' e ev :
  same_topology m m' → daemon_state_mount m e ev → daemon_state_mount m' e ev.
Proof.
  intros E (He & Ha & Hc). unfold daemon_state_mount. rewrite <- (unique_nodes_same _ _ E).
  split_and!; [by eapply edge_same|done..].
Qed.

Lemma finding_of_same m m' f : same_topology m m' → finding_of m f → finding_of m' f.
Proof.
  intros E Hf. pose proof (unique_nodes_same _ _ E) as En.
  assert (Hpair : ∀ shape e, sole_pair m shape e → sole_pair m' shape e) by (intros; by eapply sole_same).
  assert (Hsrc : ∀ shape e, sole_source m shape e → sole_source m' shape e) by (intros; by eapply sole_same).
  unfold unspecified_shape, daemon_pair_shape, port_pair_shape, daemon_shape, membership_shape in *.
  destruct Hf as [e k ev He Hk Ha Hs Hend|e ev He Ha Hi Hmd Hend Hc|e ev He Ha Hc Hs|e ev He Ha Hs Hend
    |e ev He Ha Hs Hend|e ev p pev Hm Hs1 Hs2 Hp Hps Hpa Hpc Ho|e ev r rev Hc Hr E1 E2 Hl Ho
    |e ev Hc Hend|e ev Hm Hs|e ev p pev f He Ha Hm Hs Hp Hps Hpa Hsh Hs2 Hf].
  - apply of_non_current with k; [by eapply edge_same|done|done|by apply Hpair|by eapply endpoints_same].
  - apply of_collision; [by eapply edge_same|done|done|done|by eapply endpoints_same|].
    destruct E as (_ & Ee & _). by rewrite <- Ee.
  - apply of_unspecified_address; unfold unspecified_shape; rewrite <- ?En;
      [by eapply edge_same|done|done|by apply Hsrc].
  - apply of_requires; [by eapply edge_same|done|by apply Hpair|by eapply endpoints_same].
  - apply of_part_of; [by eapply edge_same|done|by apply Hpair|by eapply endpoints_same].
  - apply (of_daemon_state_port m' e ev p pev); unfold daemon_pair_shape, port_pair_shape; rewrite <- ?En;
      [by eapply daemon_state_same|by apply Hsrc|by apply Hsrc|by eapply edge_same|done..].
  - apply (of_mutual_dependency m' e ev r rev); try done; by eapply compose_dependency_same.
  - apply of_compose_target; [by eapply compose_dependency_same|by eapply endpoints_same].
  - apply of_daemon_state; unfold daemon_shape; rewrite <- ?En; [by eapply daemon_state_same|by apply Hpair].
  - apply (of_internal_port m' e ev p pev); unfold membership_shape, port_pair_shape; rewrite <- ?En; try done;
      [by eapply edge_same|by apply Hpair|by eapply edge_same|by apply Hpair].
Qed.

(** The findings of a map do not depend on the order in which collectors produced its nodes
    and edges. *)
Theorem findings_order_irrelevant m m' :
  same_topology m m' →
  ∃ fs fs', derive_findings m = Some fs ∧ derive_findings m' = Some fs' ∧ ∀ f, f ∈ fs ↔ f ∈ fs'.
Proof.
  intros E. destruct (derive_findings_total m) as (fs & Hfs & _ & Hf).
  destruct (derive_findings_total m') as (fs' & Hfs' & _ & Hf').
  exists fs, fs'. split_and!; [done|done|]. intros f. rewrite Hf, Hf'.
  assert (E' : same_topology m' m) by (destruct E as (? & ? & ?); by split_and!).
  pose proof E as (_ & _ & ->). split; intros [? ?]; (split; [done|]); by eapply finding_of_same.
Qed.
End findings_theorems.

(** The summary of any list of findings counts, up to the 32-bit saturation of its counters,
    the findings of each severity and of each rule category; every finding is counted in one
    severity and one category. *)
Theorem summary_counts findings :
  let n (p : Finding → bool) := N.min u32_max (N.of_nat (count_if p findings)) in
  from_findings findings = {|
    warning_count := n (λ f, f_severity f == FS_Warning);
    advisory_count := n (λ f, f_severity f == FS_Advisory);
    declared_dependency_count := n (λ f, category (f_rule_id f) == DeclaredDependency);
    docker_daemon_authority_count := n (λ f, category (f_rule_id f) == DockerDaemonAuthority);
    host_port_publication_count := n (λ f, category (f_rule_id f) == HostPortPublication);
    evidence_integrity_count := n (λ f, category (f_rule_id f) == EvidenceIntegrity) |} ∧
  count_if (λ f, f_severity f == FS_Warning) findings + count_if (λ f, f_severity f == FS_Advisory) findings
  = length findings ∧
  count_if (λ f, category (f_rule_id f) == DeclaredDependency) findings
  + count_if (λ f, category (f_rule_id f) == DockerDaemonAuthority) findings
  + count_if (λ f, category (f_rule_id f) == HostPortPublication) findings
  + count_if (λ f, category (f_rule_id f) == EvidenceIntegrity) findings = length findings.
Proof.
  cbv zeta. split; [|split].
  - unfold from_findings.
    assert (Hsel : ∀ (sel : FindingSummary → N) (p : Finding → bool), (∀ s f, sel (count_category (count_severity s (f_severity f)) (category (f_rule_id f)))
        = if p f then bump_u32 (sel s) else sel s) → sel summary_default = 0%N →
      sel (foldl (λ s f, count_category (count_severity s (f_severity f)) (category (f_rule_id f)))
             summary_default findings) = N.min u32_max (N.of_nat (count_if p findings))).
    { intros sel p Hp H0. rewrite (from_findings_count sel p findings Hp) by (rewrite H0; lia). by rewrite H0. }
    destruct (foldl _ _ findings) as [w a d k h i] eqn:E.
    pose proof (Hsel warning_count (λ f, f_severity f == FS_Warning)) as H1.
    pose proof (Hsel advisory_count (λ f, f_severity f == FS_Advisory)) as H2.
    pose proof (Hsel declared_dependency_count (λ f, category (f_rule_id f) == DeclaredDependency)) as H3.
    pose proof (Hsel docker_daemon_authority_count (λ f, category (f_rule_id f) == DockerDaemonAuthority)) as H4.
    pose proof (Hsel host_port_publication_count (λ f, category (f_rule_id f) == HostPortPublication)) as H5.
    pose proof (Hsel evidence_integrity_count (λ f, category (f_rule_id f) == EvidenceIntegrity)) as H6.
    simpl in H1, H2, H3, H4, H5, H6.
    rewrite <- H1, <- H2, <- H3, <- H4, <- H5, <- H6; try done;
      intros s f; by destruct (f_severity f), (f_rule_id f).
  - induction findings as [|f l IH]; [done|]. cbn [count_if length]. destruct (f_severity f); simpl; lia.
  - induction findings as [|f l IH]; [done|]. cbn [count_if length]. destruct (f_rule_id f); simpl; lia.
Qed.

(** ** A concrete map: an active service that requires a failed one *)

Definition example_service (id status : rstr) : RuntimeMapNode := {|
  rn_id := id; rn_provider := RP_Systemd; rn_kind := RN_SystemdService; rn_label := id;
  rn_status := Some status; rn_layer := None; rn_metadata := ∅; rn_service := None; rn_package := None |}.

Definition example_requires : RuntimeMapEdge := {|
  re_source := "systemd_service_a"; re_target := "systemd_service_b"; re_relationship := RR_Requires;
  re_metadata := ∅;
  re_evidence_refs := [{|
    ev_version := 2; ev_id := "e"; ev_provider := EP_Systemd; ev_kind := SystemdRequires;
    ev_assertion_kind := Declared; ev_summary := "declared"; ev_subject_ref := "systemd_service_a";
    ev_collected_at := 0; ev_provider_revision := "r"; ev_provider_slot := Some Slot_Systemd;
    ev_freshness := EF_Fresh |}] |}.

Definition example_map (nodes : list RuntimeMapNode) : RuntimeMap := {|
  rm_nodes := nodes; rm_edges := [example_requires]; rm_diagnostics := []; rm_last_updated := 0;
  rm_model_revision := "r"; rm_provider_states := []; rm_source := Some Mode_Docker |}.

Definition example_nodes : list RuntimeMapNode :=
  [example_service "systemd_service_a" "active"; example_service "systemd_service_b" "failed"].

Lemma example_has_finding :
  (length <$> @derive_findings Toy_sha256 (example_map example_nodes)) = Some 1.
Proof. by vm_compute. Qed.

(** An ambiguous target yields nothing. *)
Lemma example_ambiguous :
  @derive_findings Toy_sha256 (example_map (example_nodes ++ example_nodes)) = Some [].
Proof. by vm_compute. Qed.

Lemma findings_explained_witness :
  ∃ fs f, @derive_findings Toy_sha256 (example_map example_nodes) = Some fs ∧ f ∈ fs ∧
    f_evidence_refs f ≠ [].
Proof.
  assert (Hl := example_has_finding).
  destruct (@derive_findings Toy_sha256 (example_map example_nodes)) as [[|f fs]|] eqn:E; [done| |done].
  exists (f :: fs), f. split; [done|]. split; [left|].
  destruct (@findings_explained Toy_sha256 _ _ f E ltac:(left)) as (_ & Hne & _). exact Hne.
Defined.

Lemma findings_order_irrelevant_witness :
  same_topology (example_map example_nodes) (example_map (reverse example_nodes)) ∧
  ∃ fs fs', @derive_findings Toy_sha256 (example_map example_nodes) = Some fs ∧
    @derive_findings Toy_sha256 (example_map (reverse example_nodes)) = Some fs' ∧ length fs' = 1 ∧
    ∀ f, f ∈ fs ↔ f ∈ fs'.
Proof.
  assert (E : same_topology (example_map example_nodes) (example_map (reverse example_nodes))).
  { split; [symmetry; apply reverse_Permutation|done]. }
  split; [exact E|]. destruct (@findings_order_irrelevant Toy_sha256 _ _ E) as (fs & fs' & H1 & H2 & H3).
  exists fs, fs'. split; [exact H1|]. split; [exact H2|]. split; [|exact H3].
  assert (Hl : (length <$> @derive_findings Toy_sha256 (example_map (reverse example_nodes))) = Some 1)
    by (vm_compute; reflexivity).
  rewrite H2 in Hl. by injection Hl.
Defined.
