(* ===== verification/Scheduler.v ===== *)
(** * Provider slots and their scheduler ([crates/dockermap-daemon/src/cache_refresh.rs],
      [provider_contract.rs] and the slot table of [runtime_collection.rs])

    The eight fixed provider slots: what each retains, when it is due, how the outcome of a
    collection changes it, which public state it projects and what evidence its edges may
    carry. [Duration]s are nanoseconds; the wall clock ([wall_clock_millis]) is an argument;
    the panics of the source ([expect], a slot missing from the fixed table, an overflow of a
    revision) are [None]. *)

From S2P Require Import Prelude RustStr RustNum Models Serial Identity Evidence Redaction Publication.

(** ** Collections *)

Record ProviderCollection := {
  pc_nodes : list RuntimeMapNode;
  pc_edges : list RuntimeMapEdge;
  pc_diagnostics : list RuntimeMapDiagnostic;
  pc_states : list ProviderState
}.

Definition empty_collection : ProviderCollection :=
  {| pc_nodes := []; pc_edges := []; pc_diagnostics := []; pc_states := [] |}.

(** [STATIC_PROVIDER_SLOTS], in the order of the scheduler. *)
Definition STATIC_PROVIDER_SLOTS : list ProviderSlot :=
  [NetworkInfrastructure; HostScoped; Slot_Tmux; Slot_Cron; Slot_Systemd; PythonProcesses;
   NativeProcesses; ProjectNpm].

Definition from_secs (s : N) : N := (s * 1000000000)%N.

Definition slot_interval (slot : ProviderSlot) : N :=
  match slot with
  | NetworkInfrastructure => from_secs 10
  | HostScoped => from_secs 15
  | Slot_Tmux => from_secs 15
  | Slot_Cron => from_secs 15
  | Slot_Systemd => from_secs 15
  | PythonProcesses => from_secs 10
  | NativeProcesses => from_secs 10
  | ProjectNpm => from_secs 60
  end.

(** ** Slot state *)

Inductive RuntimeProviderState :=
  | Obs_Unavailable
  | Obs_Fresh (collection : ProviderCollection)
  | Obs_Collecting (collection : option ProviderCollection)
  | Obs_Degraded (collection : option ProviderCollection)
  | Obs_TimedOut (collection : option ProviderCollection).

Inductive ProviderCollectionOutcome :=
  | Collected (collection : ProviderCollection)
  | InFlight
  | Outcome_Failed
  | Outcome_TimedOut.

Record SlotDataRevision := { sd_boot : rstr; sd_sequence : N }.

(** [SlotDataRevision::first], with the boot component of the process. *)
Definition revision_first (boot : rstr) : SlotDataRevision := {| sd_boot := boot; sd_sequence := 1 |}.

Definition revision_advance (r : SlotDataRevision) : option SlotDataRevision :=
  sequence ← checked_add u64_max (sd_sequence r) 1;
  Some {| sd_boot := sd_boot r; sd_sequence := sequence |}.

Definition revision_public (r : SlotDataRevision) : rstr := sd_boot r +s+ "-" +s+ dec_str (sd_sequence r).

Record SlotFreshness := {
  sf_last_attempt_ms : option N;
  sf_last_success_ms : option N;
  sf_last_duration_ms : option N;
  sf_consecutive_failure_count : N;
  sf_data_revision : option SlotDataRevision;
  sf_data_observable : option rstr;
  sf_status_reason : option ProviderStatusReason
}.

Definition freshness_default : SlotFreshness := {|
  sf_last_attempt_ms := None; sf_last_success_ms := None; sf_last_duration_ms := None;
  sf_consecutive_failure_count := 0; sf_data_revision := None; sf_data_observable := None;
  sf_status_reason := None |}.

Record SlotRuntimeState := {
  ss_observation : RuntimeProviderState;
  ss_completed_at : option N;
  ss_freshness : SlotFreshness
}.

Definition slot_default : SlotRuntimeState :=
  {| ss_observation := Obs_Unavailable; ss_completed_at := None; ss_freshness := freshness_default |}.

Notation RuntimeProviderSlots := (gmap ProviderSlot SlotRuntimeState).

Definition unavailable_provider_slots : RuntimeProviderSlots :=
  list_to_map ((λ slot, (slot, slot_default)) <$> STATIC_PROVIDER_SLOTS).

Definition with_reason (f : SlotFreshness) (reason : option ProviderStatusReason) : SlotFreshness := {|
  sf_last_attempt_ms := sf_last_attempt_ms f; sf_last_success_ms := sf_last_success_ms f;
  sf_last_duration_ms := sf_last_duration_ms f;
  sf_consecutive_failure_count := sf_consecutive_failure_count f;
  sf_data_revision := sf_data_revision f; sf_data_observable := sf_data_observable f;
  sf_status_reason := reason |}.

(** The loop over [slots.values_mut()]. *)
Definition source_reset_provider_slots : RuntimeProviderSlots :=
  (λ slot, {| ss_observation := ss_observation slot; ss_completed_at := ss_completed_at slot;
              ss_freshness := with_reason (ss_freshness slot) (Some SourceReset) |})
  <$> unavailable_provider_slots.

Definition retained_collection (state : RuntimeProviderState) : option ProviderCollection :=
  match state with
  | Obs_Fresh collection
  | Obs_Collecting (Some collection)
  | Obs_Degraded (Some collection)
  | Obs_TimedOut (Some collection) => Some collection
  | _ => None
  end.

(** ** Claiming slots *)

Definition MAX_CONCURRENT_PROVIDER_SLOTS : nat := 2.

Definition is_collecting (state : RuntimeProviderState) : bool :=
  match state with Obs_Collecting _ => true | _ => false end.

Definition states_disabled (slot : ProviderSlot) (states : list ProviderState) : bool :=
  existsb (λ state, (ps_slot state == slot) && (ps_state state == PS_Disabled)) states.

(** A fresh collection that says its slot is disabled. *)
Definition is_disabled_fact (slot : ProviderSlot) (state : RuntimeProviderState) : bool :=
  match state with Obs_Fresh collection => states_disabled slot (pc_states collection) | _ => false end.

Definition is_due (slot : ProviderSlot) (current : SlotRuntimeState) (now : N) : bool :=
  match ss_completed_at current with
  | Some at_ => (slot_interval slot <=? saturating_sub now at_)%N
  | None => true
  end.

Definition claimed_state (current : SlotRuntimeState) (wall : option N) : SlotRuntimeState := {|
  ss_observation := Obs_Collecting (retained_collection (ss_observation current));
  ss_completed_at := ss_completed_at current;
  ss_freshness := {|
    sf_last_attempt_ms := wall;
    sf_last_success_ms := sf_last_success_ms (ss_freshness current);
    sf_last_duration_ms := sf_last_duration_ms (ss_freshness current);
    sf_consecutive_failure_count := sf_consecutive_failure_count (ss_freshness current);
    sf_data_revision := sf_data_revision (ss_freshness current);
    sf_data_observable := sf_data_observable (ss_freshness current);
    sf_status_reason := Some Refreshing |} |}.

(** The loop over the fixed slots; [wall slot] is the clock read when the slot is claimed. *)
Fixpoint claim_loop (order : list ProviderSlot) (wall : ProviderSlot → option N) (now : N)
    (slots : RuntimeProviderSlots) (remaining : nat) : option (list ProviderSlot * RuntimeProviderSlots) :=
  match order with
  | [] => Some ([], slots)
  | slot :: order =>
      if (remaining =? 0)%nat then Some ([], slots)
      else
        current ← slots !! slot;
        if is_collecting (ss_observation current) || negb (is_due slot current now)
           || is_disabled_fact slot (ss_observation current)
        then claim_loop order wall now slots remaining
        else
          '(claimed, slots) ← claim_loop order wall now
            (<[slot := claimed_state current (wall slot)]> slots) (remaining - 1);
          Some (slot :: claimed, slots)
  end.

Definition occupied (slots : RuntimeProviderSlots) : nat :=
  count_if (λ p, is_collecting (ss_observation p.2)) (map_to_list slots).

Definition claim_due_slots_with_active_workers (slots : RuntimeProviderSlots)
    (wall : ProviderSlot → option N) (now : N) (max_concurrency active_workers : nat)
    : option (list ProviderSlot * RuntimeProviderSlots) :=
  claim_loop STATIC_PROVIDER_SLOTS wall now slots
    (max_concurrency - Nat.max (occupied slots) active_workers).

(** ** Outcomes *)

Section outcomes.
Context `{Json RuntimeMapNode} `{Json RuntimeMapEdge} `{Json RuntimeEvidenceRef}.
Context `{Json (list RuntimeMapNode * list RuntimeMapEdge * list RuntimeMapDiagnostic * list ProviderState)}.

(** [ProviderCollection::sanitized_for_retention]: every retained field, without topology
    normalization. *)
Definition sanitized_for_retention (c : ProviderCollection) : ProviderCollection := {|
  pc_nodes := redact_runtime_nodes (pc_nodes c);
  pc_edges := redact_runtime_edges (pc_edges c);
  pc_diagnostics := redact_runtime_diagnostics (pc_diagnostics c);
  pc_states := pc_states c |}.

Definition sanitized_observable_identity (c : ProviderCollection) : rstr :=
  to_json (pc_nodes c, pc_edges c, pc_diagnostics c, pc_states c).

(** [boot] is the boot component of the process. *)
Definition update_slot_data_revision (boot : rstr) (f : SlotFreshness) (c : ProviderCollection)
    : option SlotFreshness :=
  let observable := sanitized_observable_identity c in
  if sf_data_observable f == Some observable then Some f
  else
    revision ← match sf_data_revision f with
               | Some revision => revision_advance revision
               | None => Some (revision_first boot)
               end;
    Some {| sf_last_attempt_ms := sf_last_attempt_ms f; sf_last_success_ms := sf_last_success_ms f;
            sf_last_duration_ms := sf_last_duration_ms f;
            sf_consecutive_failure_count := sf_consecutive_failure_count f;
            sf_data_revision := Some revision; sf_data_observable := Some observable;
            sf_status_reason := sf_status_reason f |}.

Definition successful_duration_ms (attempt_ms completed_ms : option N) : option N :=
  completed ← completed_ms; attempt ← attempt_ms; Some (saturating_sub completed attempt).

(** The two successful arms: the same completion metadata, fresh or degraded. *)
Definition collected_state (boot : rstr) (wall : option N) (completed_at : N) (same_evidence : bool)
    (collection : ProviderCollection) (s : SlotRuntimeState) : option SlotRuntimeState :=
  let collection := sanitized_for_retention collection in
  f ← update_slot_data_revision boot (ss_freshness s) collection;
  Some {|
    ss_observation := if same_evidence then Obs_Fresh collection else Obs_Degraded (Some collection);
    ss_completed_at := Some completed_at;
    ss_freshness := {|
      sf_last_attempt_ms := sf_last_attempt_ms f; sf_last_success_ms := wall;
      sf_last_duration_ms := successful_duration_ms (sf_last_attempt_ms f) wall;
      sf_consecutive_failure_count := 0; sf_data_revision := sf_data_revision f;
      sf_data_observable := sf_data_observable f; sf_status_reason := None |} |}.

Definition failed_freshness (f : SlotFreshness) (reason : ProviderStatusReason) : SlotFreshness := {|
  sf_last_attempt_ms := sf_last_attempt_ms f; sf_last_success_ms := sf_last_success_ms f;
  sf_last_duration_ms := sf_last_duration_ms f;
  sf_consecutive_failure_count := saturating_add u32_max (sf_consecutive_failure_count f) 1;
  sf_data_revision := sf_data_revision f; sf_data_observable := sf_data_observable f;
  sf_status_reason := Some reason |}.

(** The [match] on the outcome in [apply_provider_slot_outcome]. *)
Definition slot_outcome (boot : rstr) (wall : option N) (completed_at : N) (same_evidence : bool)
    (outcome : ProviderCollectionOutcome) (s : SlotRuntimeState) : option SlotRuntimeState :=
  let retained := retained_collection (ss_observation s) in
  match outcome with
  | Collected collection => collected_state boot wall completed_at same_evidence collection s
  | InFlight =>
      Some {| ss_observation := Obs_TimedOut retained; ss_completed_at := ss_completed_at s;
              ss_freshness := failed_freshness (ss_freshness s) CollectionTimedOut |}
  | Outcome_Failed =>
      Some {| ss_observation := Obs_Degraded retained; ss_completed_at := Some completed_at;
              ss_freshness := failed_freshness (ss_freshness s) CollectionFailed |}
  | Outcome_TimedOut =>
      Some {| ss_observation := Obs_TimedOut retained; ss_completed_at := Some completed_at;
              ss_freshness := failed_freshness (ss_freshness s) CollectionTimedOut |}
  end.
End outcomes.

(** [expect("fixed network slot exists")]. *)
Definition mark_network_observation_stale (slots : RuntimeProviderSlots) : option RuntimeProviderSlots :=
  network ← slots !! NetworkInfrastructure;
  match ss_observation network with
  | Obs_Fresh collection =>
      Some (<[NetworkInfrastructure := {| ss_observation := Obs_Degraded (Some collection);
        ss_completed_at := ss_completed_at network; ss_freshness := ss_freshness network |}]> slots)
  | _ => Some slots
  end.

(** ** Public states *)

Definition unavailable_provider_states : list ProviderState :=
  (λ slot, {| ps_slot := slot; ps_state := PS_Unavailable; ps_last_attempt_ms := None;
              ps_last_success_ms := None; ps_last_duration_ms := None;
              ps_consecutive_failure_count := 0; ps_data_revision := None;
              ps_status_reason := None |}) <$> STATIC_PROVIDER_SLOTS.

(** The state the retained collection gives its own slot. *)
Definition base_state (slot : ProviderSlot) (observation : RuntimeProviderState) : ProviderStateKind :=
  let states := default [] (pc_states <$> retained_collection observation) in
  default PS_Unavailable (ps_state <$> find (λ candidate, ps_slot candidate == slot) states).

Definition public_state (slot : ProviderSlot) (observation : RuntimeProviderState) : ProviderStateKind :=
  let base := base_state slot observation in
  match observation with
  | Obs_Fresh _ => base
  | Obs_Collecting _ =>
      if base == PS_Disabled then PS_Disabled
      else if base == PS_Unavailable then PS_Collecting else PS_Stale
  | Obs_Degraded collection =>
      if base == PS_Disabled then PS_Disabled
      else match collection with Some _ => PS_Stale | None => PS_Unavailable end
  | Obs_TimedOut _ => if base == PS_Disabled then PS_Disabled else PS_TimedOut
  | Obs_Unavailable => PS_Unavailable
  end.

Definition provider_state_for (slot : ProviderSlot) (s : SlotRuntimeState) : ProviderState :=
  let state := public_state slot (ss_observation s) in
  let freshness := ss_freshness s in
  {| ps_slot := slot; ps_state := state; ps_last_attempt_ms := sf_last_attempt_ms freshness;
     ps_last_success_ms := sf_last_success_ms freshness;
     ps_last_duration_ms := sf_last_duration_ms freshness;
     ps_consecutive_failure_count := sf_consecutive_failure_count freshness;
     ps_data_revision := revision_public <$> sf_data_revision freshness;
     ps_status_reason := if state == PS_Disabled then Some Reason_Disabled
                         else sf_status_reason freshness |}.

(** [&slots[&slot]] panics on a missing slot. *)
Definition provider_states_for (slots : RuntimeProviderSlots) : option (list ProviderState) :=
  mapM (λ slot, provider_state_for slot <$> slots !! slot) STATIC_PROVIDER_SLOTS.

Definition slot_diagnostic (state : RuntimeProviderState) : option rstr :=
  match state with
  | Obs_Collecting (Some _) => Some ("Runtime provider slot refresh is in progress; serving retained observations (stale)" : rstr)
  | Obs_Collecting None => Some ("Runtime provider slot refresh is in progress; no successful observations are available" : rstr)
  | Obs_Degraded (Some _) => Some ("Runtime provider slot refresh failed or observed older Docker evidence; serving retained observations (stale)" : rstr)
  | Obs_Degraded None => Some ("Runtime provider slot refresh failed; no successful observations are available" : rstr)
  | Obs_TimedOut (Some _) => Some ("Runtime provider slot refresh timed out; serving retained observations (stale)" : rstr)
  | Obs_TimedOut None => Some ("Runtime provider slot refresh timed out; no successful observations are available" : rstr)
  | Obs_Unavailable => Some ("Runtime provider observations are unavailable until the first successful collection" : rstr)
  | Obs_Fresh _ => None
  end.

(** ** Evidence of the provider slots *)

Definition CRON_EVIDENCE_SCHEDULE_MARKER : rstr := "__dockermapCronScheduleDeclaration".
Definition TMUX_EVIDENCE_SESSION_LISTING_MARKER : rstr := "__dockermapTmuxSessionListing".
Definition NPM_EVIDENCE_DEPENDENCY_MARKER : rstr := "__dockermapNpmManifestDependency".
Definition SYSTEMD_EVIDENCE_KIND_MARKER : rstr := "__dockermapSystemdEvidenceKind".
Definition SYSTEMD_EVIDENCE_REQUIRES : rstr := "requires".
Definition SYSTEMD_EVIDENCE_WANTS : rstr := "wants".
Definition SYSTEMD_EVIDENCE_PART_OF : rstr := "part_of".

Arguments CRON_EVIDENCE_SCHEDULE_MARKER : simpl never.
Arguments TMUX_EVIDENCE_SESSION_LISTING_MARKER : simpl never.
Arguments NPM_EVIDENCE_DEPENDENCY_MARKER : simpl never.
Arguments SYSTEMD_EVIDENCE_KIND_MARKER : simpl never.

(** The freshness, revision and collection time a slot can attest; the four binders compute
    it alike, in different orders. [None]: the slot attests nothing. *)
Definition slot_attestation (slot : ProviderSlot) (state : SlotRuntimeState)
    : option (RuntimeEvidenceFreshness * rstr * N) :=
  let disabled := is_some_and (retained_collection (ss_observation state))
                    (λ collection, states_disabled slot (pc_states collection)) in
  freshness ← match ss_observation state with
    | Obs_Fresh _ => Some EF_Fresh
    | Obs_Collecting (Some _) | Obs_Degraded (Some _) => Some EF_Stale
    | Obs_TimedOut (Some _) => Some EF_TimedOut
    | Obs_Unavailable | Obs_Collecting None | Obs_Degraded None | Obs_TimedOut None => None
    end;
  revision ← revision_public <$> sf_data_revision (ss_freshness state);
  collected_at ← sf_last_success_ms (ss_freshness state);
  if disabled then None else Some (freshness, revision, collected_at).

(** [edge.metadata.remove(marker)] and [edge.evidence_refs = refs]. *)
Definition with_evidence (edge : RuntimeMapEdge) (marker : rstr) (refs : list RuntimeEvidenceRef)
    : RuntimeMapEdge := {|
  re_source := re_source edge; re_target := re_target edge; re_relationship := re_relationship edge;
  re_metadata := delete marker (re_metadata edge); re_evidence_refs := refs |}.

Definition clear_evidence (marker : rstr) (edges : list RuntimeMapEdge) : list RuntimeMapEdge :=
  (λ edge, with_evidence edge marker []) <$> edges.

Section binders.
Context `{Sha256}.

Definition slot_evidence (edge : RuntimeMapEdge) (version : N) (prefix : rstr)
    (provider : RuntimeEvidenceProvider) (kind : RuntimeEvidenceKind)
    (assertion : RuntimeEvidenceAssertionKind) (summary : rstr) (slot : ProviderSlot)
    (at_ : RuntimeEvidenceFreshness * rstr * N) : RuntimeEvidenceRef :=
  let '(freshness, revision, collected_at) := at_ in {|
  ev_version := version;
  ev_id := prefix +s+ collision_resistant_id_component (re_source edge +s+ [31%N] +s+ re_target edge);
  ev_provider := provider; ev_kind := kind; ev_assertion_kind := assertion; ev_summary := summary;
  ev_subject_ref := re_source edge; ev_collected_at := collected_at;
  ev_provider_revision := revision; ev_provider_slot := Some slot; ev_freshness := freshness |}.

Definition bind_cron_edge (at_ : RuntimeEvidenceFreshness * rstr * N) (edge : RuntimeMapEdge) : RuntimeMapEdge :=
  let marker := re_metadata edge !! CRON_EVIDENCE_SCHEDULE_MARKER in
  with_evidence edge CRON_EVIDENCE_SCHEDULE_MARKER
    (if (marker != Some ("declared" : rstr)) || (re_relationship edge != RR_RunsOn)
        || negb (starts_with (re_source edge) "scheduled_job_") || (re_target edge != ("host_local" : rstr))
        || (re_source edge == re_target edge)
     then []
     else [slot_evidence edge 4 "cron_evidence_schedule_" EP_Cron CronScheduleDeclaration Declared
             "cron declared a scheduled job" Slot_Cron at_]).

Definition bind_cron_evidence (edges : list RuntimeMapEdge) (state : SlotRuntimeState) : list RuntimeMapEdge :=
  match slot_attestation Slot_Cron state with
  | None => clear_evidence CRON_EVIDENCE_SCHEDULE_MARKER edges
  | Some at_ => bind_cron_edge at_ <$> edges
  end.

Definition bind_tmux_edge (at_ : RuntimeEvidenceFreshness * rstr * N) (edge : RuntimeMapEdge) : RuntimeMapEdge :=
  let marker := re_metadata edge !! TMUX_EVIDENCE_SESSION_LISTING_MARKER in
  with_evidence edge TMUX_EVIDENCE_SESSION_LISTING_MARKER
    (if (marker != Some ("observed" : rstr)) || (re_relationship edge != RR_RunsOn)
        || negb (starts_with (re_source edge) "tmux_session_") || (re_target edge != ("host_local" : rstr))
        || (re_source edge == re_target edge)
     then []
     else [slot_evidence edge 5 "tmux_evidence_session_listing_" EP_Tmux TmuxSessionListing Observed
             "tmux listed a local session" Slot_Tmux at_]).

Definition bind_tmux_evidence (edges : list RuntimeMapEdge) (state : SlotRuntimeState) : list RuntimeMapEdge :=
  match slot_attestation Slot_Tmux state with
  | None => clear_evidence TMUX_EVIDENCE_SESSION_LISTING_MARKER edges
  | Some at_ => bind_tmux_edge at_ <$> edges
  end.

Definition bind_npm_edge (at_ : RuntimeEvidenceFreshness * rstr * N) (edge : RuntimeMapEdge) : RuntimeMapEdge :=
  let marker := re_metadata edge !! NPM_EVIDENCE_DEPENDENCY_MARKER in
  with_evidence edge NPM_EVIDENCE_DEPENDENCY_MARKER
    (if (marker != Some ("declared" : rstr)) || (re_relationship edge != RR_DependsOn)
        || negb (starts_with (re_source edge) "npm_project_")
        || negb (starts_with (re_target edge) "npm_package_") || (re_source edge == re_target edge)
     then []
     else [slot_evidence edge 3 "npm_evidence_manifest_dependency_" EP_Npm NpmPackageManifestDependency
             Declared "package manifest declared a dependency" ProjectNpm at_]).

Definition bind_npm_evidence (edges : list RuntimeMapEdge) (state : SlotRuntimeState) : list RuntimeMapEdge :=
  match slot_attestation ProjectNpm state with
  | None => clear_evidence NPM_EVIDENCE_DEPENDENCY_MARKER edges
  | Some at_ => bind_npm_edge at_ <$> edges
  end.

(** The marker's kind, with the relationship, id part and summary of that kind; the
    [unreachable!] arms of the three later [match]es are never taken, since the first one
    returns only these kinds. *)
Definition systemd_kind (marker : option rstr)
    : option (RuntimeEvidenceKind * RuntimeRelationshipKind * rstr * rstr) :=
  if marker == Some SYSTEMD_EVIDENCE_REQUIRES then
    Some (SystemdRequires, RR_Requires, "requires" : rstr, "systemd declared a Requires dependency" : rstr)
  else if marker == Some SYSTEMD_EVIDENCE_WANTS then
    Some (SystemdWants, RR_Wants, "wants" : rstr, "systemd declared a Wants dependency" : rstr)
  else if marker == Some SYSTEMD_EVIDENCE_PART_OF then
    Some (SystemdPartOf, RR_PartOf, "part-of" : rstr, "systemd declared a PartOf dependency" : rstr)
  else None.

Definition bind_systemd_edge (at_ : RuntimeEvidenceFreshness * rstr * N) (edge : RuntimeMapEdge) : RuntimeMapEdge :=
  with_evidence edge SYSTEMD_EVIDENCE_KIND_MARKER
    (match systemd_kind (re_metadata edge !! SYSTEMD_EVIDENCE_KIND_MARKER) with
     | None => []
     | Some (kind, expected_relationship, kid, summary) =>
         if (re_relationship edge != expected_relationship)
            || negb (starts_with (re_source edge) "systemd_service_")
            || negb (starts_with (re_target edge) "systemd_service_") || (re_source edge == re_target edge)
         then []
         else [slot_evidence edge 2 ("systemd_evidence_" +s+ kid +s+ "_") EP_Systemd kind Declared summary
                 Slot_Systemd at_]
     end).

Definition bind_systemd_evidence (edges : list RuntimeMapEdge) (state : SlotRuntimeState) : list RuntimeMapEdge :=
  match slot_attestation Slot_Systemd state with
  | None => clear_evidence SYSTEMD_EVIDENCE_KIND_MARKER edges
  | Some at_ => bind_systemd_edge at_ <$> edges
  end.

(** The [if] chain over the slot in [runtime_map_for_snapshot]. *)
Definition bind_slot_evidence (slot : ProviderSlot) (edges : list RuntimeMapEdge) (state : SlotRuntimeState)
    : list RuntimeMapEdge :=
  match slot with
  | Slot_Systemd => bind_systemd_evidence edges state
  | ProjectNpm => bind_npm_evidence edges state
  | Slot_Cron => bind_cron_evidence edges state
  | Slot_Tmux => bind_tmux_evidence edges state
  | _ => edges
  end.
End binders.

(** ** Claiming *)

(** The table has every fixed slot. *)
Definition all_slots (slots : RuntimeProviderSlots) : Prop := ∀ slot, is_Some (slots !! slot).

(** A slot that may be claimed now. *)
Definition claimable (slot : ProviderSlot) (current : SlotRuntimeState) (now : N) : bool :=
  negb (is_collecting (ss_observation current)) && is_due slot current now
  && negb (is_disabled_fact slot (ss_observation current)).

Lemma claimable_guard slot current now :
  is_collecting (ss_observation current) || negb (is_due slot current now)
  || is_disabled_fact slot (ss_observation current) = negb (claimable slot current now).
Proof.
  unfold claimable. by destruct (is_collecting _), (is_due _ _ _), (is_disabled_fact _ _).
Qed.

Lemma occupied_insert slots slot (old new : SlotRuntimeState) :
  slots !! slot = Some old → is_collecting (ss_observation old) = false →
  is_collecting (ss_observation new) = true → occupied (<[slot := new]> slots) = S (occupied slots).
Proof.
  intros Hl Ho Hn. unfold occupied.
  assert (E : slots = <[slot := old]> (delete slot slots)) by (by rewrite insert_delete_id).
  rewrite E at 2. rewrite <- (insert_delete_eq slots slot new).
  rewrite !map_to_list_insert by apply lookup_delete_eq.
  cbn [count_if snd]. rewrite Ho, Hn. done.
Qed.

Lemma claim_loop_spec order wall now slots remaining :
  NoDup order → (∀ slot, slot ∈ order → is_Some (slots !! slot)) →
  ∃ claimed slots', claim_loop order wall now slots remaining = Some (claimed, slots') ∧
    claimed `sublist_of` order ∧ length claimed ≤ remaining ∧
    (∀ slot, slot ∈ claimed → ∃ current, slots !! slot = Some current ∧ claimable slot current now = true ∧
       slots' !! slot = Some (claimed_state current (wall slot))) ∧
    (∀ slot, slot ∉ claimed → slots' !! slot = slots !! slot) ∧
    occupied slots' = occupied slots + length claimed ∧
    (length claimed < remaining → ∀ slot current, slot ∈ order → slots !! slot = Some current →
       claimable slot current now = true → slot ∈ claimed).
Proof.
  revert slots remaining. induction order as [|slot order IH]; intros slots remaining Hnd Hall.
  { exists [], slots. split_and!; try done; simpl; try lia; set_solver. }
  apply NoDup_cons in Hnd as [Hslot Hnd]. cbn [claim_loop].
  destruct (Nat.eqb_spec remaining 0) as [->|Hr].
  { exists [], slots. split_and!; try done; simpl; try lia; [apply sublist_nil_l|set_solver]. }
  destruct (Hall slot) as [current Hc]; [left|]. rewrite Hc. cbn [mbind option_bind].
  rewrite claimable_guard. destruct (claimable slot current now) eqn:Ecl; cbn [negb]; cycle 1.
  { destruct (IH slots remaining Hnd) as (claimed & slots' & E & Hsub & Hlen & Hin & Hout & Hocc & Hwork).
    { intros s Hs. apply Hall. by right. }
    exists claimed, slots'. split_and!; try done; [by apply sublist_cons|].
    intros Hl s cur [->|Hs]%elem_of_cons Hcur Hclm; [congruence|eauto]. }
  assert (Hnc : is_collecting (ss_observation current) = false).
  { unfold claimable in Ecl. apply andb_prop in Ecl as [[Ecl _]%andb_prop _]. by apply negb_true_iff in Ecl. }
  destruct (IH (<[slot := claimed_state current (wall slot)]> slots) (remaining - 1) Hnd)
    as (claimed & slots' & E & Hsub & Hlen & Hin & Hout & Hocc & Hwork).
  { intros s Hs. rewrite lookup_insert_ne by (intros ->; done). apply Hall. by right. }
  assert (Hns : slot ∉ claimed) by (intros Hs; apply Hslot; by eapply sublist_subseteq).
  exists (slot :: claimed), slots'. rewrite E. split_and!; [done|by constructor|simpl; lia|..].
  - intros s [->|Hs]%elem_of_cons.
    + exists current. rewrite Hout, lookup_insert_eq by done. done.
    + destruct (Hin s Hs) as (cur & Hcur & ?). exists cur.
      rewrite lookup_insert_ne in Hcur by (intros ->; done). done.
  - intros s Hs. rewrite not_elem_of_cons in Hs. destruct Hs as [Hne Hs].
    rewrite Hout, lookup_insert_ne by done. done.
  - rewrite Hocc, (occupied_insert _ _ _ _ Hc Hnc) by done. simpl. lia.
  - intros Hl s cur [->|Hs]%elem_of_cons Hcur Hclm; [by left|right].
    apply (Hwork ltac:(simpl in Hl; lia) s cur Hs); [|done].
    rewrite lookup_insert_ne by (intros ->; done). done.
Qed.

Lemma static_slots_all slot : slot ∈ STATIC_PROVIDER_SLOTS.
Proof. destruct slot; repeat (by left) || right; by left. Qed.

Lemma static_slots_NoDup : NoDup STATIC_PROVIDER_SLOTS.
Proof. apply (bool_decide_unpack _). by vm_compute. Qed.

(** The observation is fresh and says that its own slot is disabled. *)
Definition fresh_disabled (slot : ProviderSlot) (current : SlotRuntimeState) : Prop :=
  ∃ collection st, ss_observation current = Obs_Fresh collection ∧ st ∈ pc_states collection ∧
    ps_slot st = slot ∧ ps_state st = PS_Disabled.

(** No collection of the slot runs, and its interval has passed since the last one ended. *)
Definition idle_and_due (slot : ProviderSlot) (current : SlotRuntimeState) (now : N) : Prop :=
  (∀ retained, ss_observation current ≠ Obs_Collecting retained) ∧
  (∀ at_, ss_completed_at current = Some at_ → (slot_interval slot <= now - at_)%N).

Lemma is_disabled_fact_spec slot current :
  is_disabled_fact slot (ss_observation current) = true ↔ fresh_disabled slot current.
Proof.
  unfold fresh_disabled, is_disabled_fact, states_disabled.
  destruct (ss_observation current) as [|collection|c|c|c]; try (split; [done|by intros (? & ? & [=] & _)]).
  rewrite existsb_exists. split.
  - intros (st & Hst%list_elem_of_In & E). bool_unfold. by exists collection, st.
  - intros (c & st & [= <-] & Hst%list_elem_of_In & Hs & Hd). exists st. split; [done|].
    by rewrite (bool_decide_eq_true_2 _ Hs), (bool_decide_eq_true_2 _ Hd).
Qed.

Lemma claimable_spec slot current now :
  claimable slot current now = true ↔ idle_and_due slot current now ∧ ¬ fresh_disabled slot current.
Proof.
  unfold claimable, idle_and_due. rewrite !andb_true_iff, !negb_true_iff, <- is_disabled_fact_spec, not_true_iff_false.
  assert ((is_collecting (ss_observation current) = false) ↔ ∀ retained, ss_observation current ≠ Obs_Collecting retained) as ->
    by (destruct (ss_observation current); naive_solver).
  assert (is_due slot current now = true ↔ ∀ at_, ss_completed_at current = Some at_ → (slot_interval slot <= now - at_)%N) as ->.
  { unfold is_due, saturating_sub. destruct (ss_completed_at current) as [at_|]; [rewrite N.leb_le|]; naive_solver. }
  tauto.
Qed.

(** C19: Claiming never misses a slot of the table and never over-commits: it claims distinct
    slots in the fixed order; each keeps its retained data while it collects, every other slot
    is untouched; and together with the slots already collecting and the workers still
    unwinding it stays within the limit. What it may claim, and below the limit does claim, is
    every slot that is idle and due and whose observation is not a fresh one saying that the
    slot is disabled. So a slot is held back only while the observation that disabled it is
    fresh: one published as disabled whose observation has since become degraded or timed out is
    claimed again whenever it is due (where the comment of the loop says never). *)
Theorem claim_due_slots_spec slots wall now max active :
  all_slots slots →
  ∃ claimed slots', claim_due_slots_with_active_workers slots wall now max active = Some (claimed, slots') ∧
    claimed `sublist_of` STATIC_PROVIDER_SLOTS ∧ NoDup claimed ∧ all_slots slots' ∧
    (∀ slot, slot ∈ claimed → ∃ current, slots !! slot = Some current ∧
       idle_and_due slot current now ∧ ¬ fresh_disabled slot current ∧
       slots' !! slot = Some (claimed_state current (wall slot))) ∧
    (∀ slot, slot ∉ claimed → slots' !! slot = slots !! slot) ∧
    occupied slots' = occupied slots + length claimed ∧
    (claimed = [] ∨ Nat.max (occupied slots) active + length claimed ≤ max) ∧
    (Nat.max (occupied slots) active + length claimed < max → ∀ slot current,
       slots !! slot = Some current → idle_and_due slot current now →
       (slot ∈ claimed ↔ ¬ fresh_disabled slot current) ∧
       (ps_state (provider_state_for slot current) = PS_Disabled →
        (∃ retained, ss_observation current ∈ [Obs_Degraded retained; Obs_TimedOut retained]) → slot ∈ claimed)).
Proof.
  intros Hall. unfold claim_due_slots_with_active_workers.
  destruct (claim_loop_spec STATIC_PROVIDER_SLOTS wall now slots (max - Nat.max (occupied slots) active)
    static_slots_NoDup (λ s _, Hall s)) as (claimed & slots' & E & Hsub & Hlen & Hin & Hout & Hocc & Hwork).
  exists claimed, slots'. split_and!; try done.
  - by eapply sublist_NoDup; [apply static_slots_NoDup|].
  - intros s. destruct (decide (s ∈ claimed)) as [Hs|Hs]; [|by rewrite Hout].
    destruct (Hin s Hs) as (c & _ & _ & ->). eauto.
  - intros slot (current & Hc & [Hi Hd]%claimable_spec & Hs)%Hin. by exists current.
  - destruct claimed; [by left|right]. simpl in *. lia.
  - intros Hlt slot current Hc Hi.
    assert (Hclaim : ¬ fresh_disabled slot current → slot ∈ claimed).
    { intros Hd. apply (Hwork ltac:(lia) slot current (static_slots_all _) Hc). by apply claimable_spec. }
    split; [split; [|done]|].
    + intros (current' & Hc' & [_ Hd]%claimable_spec & _)%Hin. congruence.
    + intros _ (retained & Hr). apply Hclaim. intros (collection & st & E' & _).
      rewrite E' in Hr. set_solver.
Qed.

(** ** Outcomes and data revisions *)

Section outcome_theorems.
Context `{Json RuntimeMapNode} `{Json RuntimeMapEdge} `{Json RuntimeEvidenceRef}.
Context `{Json (list RuntimeMapNode * list RuntimeMapEdge * list RuntimeMapDiagnostic * list ProviderState)}.

Lemma observable_identity_inj c c' :
  sanitized_observable_identity c = sanitized_observable_identity c' → c = c'.
Proof.
  unfold sanitized_observable_identity. intros E. apply (inj to_json) in E.
  destruct c, c'. simpl in E. by injection E as -> -> -> ->.
Qed.

Definition slot_retained (s : SlotRuntimeState) : option ProviderCollection :=
  retained_collection (ss_observation s).

Definition slot_revision (s : SlotRuntimeState) : option SlotDataRevision :=
  sf_data_revision (ss_freshness s).

Definition slot_observable (s : SlotRuntimeState) : option rstr := sf_data_observable (ss_freshness s).

Lemma checked_add_None max a b : checked_add max a b = None → (max < a + b)%N.
Proof. unfold checked_add. destruct (N.leb_spec (a + b) max); done. Qed.

Lemma checked_add_Some max a b n : checked_add max a b = Some n → n = (a + b)%N ∧ (a + b <= max)%N.
Proof. unfold checked_add. destruct (N.leb_spec (a + b) max); [|done]. by intros [= <-]. Qed.

Lemma update_revision_cases boot f c :
  match update_slot_data_revision boot f c with
  | None => ∃ r, sf_data_revision f = Some r ∧ (u64_max <= sd_sequence r)%N
  | Some f' =>
      sf_data_observable f' = Some (sanitized_observable_identity c) ∧
      sf_last_attempt_ms f' = sf_last_attempt_ms f ∧
      (f' = f ∨ sf_data_observable f ≠ Some (sanitized_observable_identity c) ∧ ∃ r', sf_data_revision f' = Some r' ∧
         match sf_data_revision f with
         | None => r' = revision_first boot
         | Some r => sd_boot r' = sd_boot r ∧ sd_sequence r' = (sd_sequence r + 1)%N
         end)
  end.
Proof.
  unfold update_slot_data_revision. case_bool_decide as E; [by auto|].
  destruct (sf_data_revision f) as [r|] eqn:Er.
  - unfold revision_advance. destruct (checked_add _ _ _) as [n|] eqn:Ea; cbn [mbind option_bind].
    + apply checked_add_Some in Ea as [-> _]. split_and!; [done|done|]. right. eauto.
    + apply checked_add_None in Ea. exists r. split; [done|lia].
  - cbn [mbind option_bind]. split_and!; [done|done|]. right. eauto.
Qed.

(** C20: A provider that fails, times out or is still running loses nothing: the retained
    collection, its revision and the time of its success stay, no such slot is fresh, and the
    failure is counted (saturating). A successful one is retained with every string sanitized,
    resets the failures, and is fresh exactly when the Docker evidence it ran against is still
    the published one; it panics only when the 64-bit revision counter is exhausted. *)
Theorem slot_outcome_spec boot wall completed_at same outcome s :
  match outcome with
  | Collected collection =>
      let kept := sanitized_for_retention collection in
      Forall safe_text (pc_nodes kept ≫= node_strings) ∧ Forall safe_text (pc_edges kept ≫= edge_strings) ∧
      match slot_outcome boot wall completed_at same outcome s with
      | Some s' =>
          ss_observation s' = (if same then Obs_Fresh kept else Obs_Degraded (Some kept)) ∧
          slot_retained s' = Some kept ∧ ss_completed_at s' = Some completed_at ∧
          sf_consecutive_failure_count (ss_freshness s') = 0%N ∧ sf_last_success_ms (ss_freshness s') = wall
      | None => ∃ r, slot_revision s = Some r ∧ (u64_max <= sd_sequence r)%N
      end
  | _ =>
      ∃ s', slot_outcome boot wall completed_at same outcome s = Some s' ∧
        slot_retained s' = slot_retained s ∧ slot_revision s' = slot_revision s ∧
        sf_last_success_ms (ss_freshness s') = sf_last_success_ms (ss_freshness s) ∧
        (∀ c, ss_observation s' ≠ Obs_Fresh c) ∧
        sf_consecutive_failure_count (ss_freshness s')
        = N.min u32_max (sf_consecutive_failure_count (ss_freshness s) + 1)
  end.
Proof.
  destruct outcome as [collection| | |];
    try (eexists; split; [reflexivity|]; unfold slot_retained; cbn [ss_observation ss_freshness];
         split_and!; try done; by destruct (retained_collection (ss_observation s))).
  cbv zeta. split_and!.
  - apply Forall_bind. intros n (n0 & -> & _)%list_elem_of_fmap. apply redact_node_safe.
  - apply Forall_bind. intros e (e0 & -> & _)%list_elem_of_fmap. apply redact_edge_safe.
  - unfold slot_outcome, collected_state.
    pose proof (update_revision_cases boot (ss_freshness s) (sanitized_for_retention collection)) as Hu.
    destruct (update_slot_data_revision _ _ _) as [f|]; cbn [mbind option_bind]; [|done].
    split_and!; try done. unfold slot_retained. by destruct same.
Qed.

(** *** Runs of one slot *)

(** What happens to a slot between two resets of the source: it is claimed, an outcome is
    applied, or Docker changes under its fresh data. *)
Inductive slot_step (boot : rstr) : SlotRuntimeState → SlotRuntimeState → Prop :=
  | step_claimed s wall : slot_step boot s (claimed_state s wall)
  | step_outcome s s' wall completed_at same outcome :
      slot_outcome boot wall completed_at same outcome s = Some s' → slot_step boot s s'
  | step_stale s c :
      ss_observation s = Obs_Fresh c →
      slot_step boot s {| ss_observation := Obs_Degraded (Some c);
                          ss_completed_at := ss_completed_at s; ss_freshness := ss_freshness s |}.

(** The retained data is what the revision was taken of. *)
Definition slot_coherent (s : SlotRuntimeState) : Prop :=
  ∀ c, slot_retained s = Some c → slot_observable s = Some (sanitized_observable_identity c).

(** The revision only advances, and an equal revision means equal data. *)
Definition revision_le (s s' : SlotRuntimeState) : Prop :=
  ∀ r, slot_revision s = Some r → ∃ r', slot_revision s' = Some r' ∧ sd_boot r' = sd_boot r ∧
    (sd_sequence r <= sd_sequence r')%N ∧
    (sd_sequence r = sd_sequence r' → slot_observable s' = slot_observable s).

#[local] Instance revision_le_preorder : PreOrder revision_le.
Proof.
  split.
  - intros s r Hr. exists r. split_and!; [done|done|lia|done].
  - intros s1 s2 s3 H12 H23 r1 Hr1. destruct (H12 r1 Hr1) as (r2 & Hr2 & Hb2 & Hle2 & He2).
    destruct (H23 r2 Hr2) as (r3 & Hr3 & Hb3 & Hle3 & He3).
    exists r3. split_and!; [done|congruence|lia|]. intros E.
    rewrite He3, He2 by lia. done.
Qed.

Lemma retained_claimed s wall : slot_retained (claimed_state s wall) = slot_retained s.
Proof. unfold slot_retained. simpl. by destruct (retained_collection (ss_observation s)). Qed.

Lemma revision_le_same s s' :
  slot_revision s' = slot_revision s → slot_observable s' = slot_observable s → revision_le s s'.
Proof. intros Hr Ho r E. exists r. split_and!; [congruence|done|lia|done]. Qed.

Lemma slot_step_coherent boot s s' :
  slot_step boot s s' → slot_coherent s → slot_coherent s' ∧ revision_le s s'.
Proof.
  intros [s0 wall|s0 s1 wall at_ same outcome Ho|s0 c0 Hf] Hc.
  - split; [|by apply revision_le_same]. intros c. rewrite retained_claimed. apply Hc.
  - destruct outcome as [collection| | |]; cycle 1.
    1-3: injection Ho as <-; split; [|by apply revision_le_same]; intros c; unfold slot_retained; simpl;
      destruct (retained_collection (ss_observation s0)) eqn:E; [|done]; intros [= <-]; by apply Hc.
    unfold slot_outcome, collected_state in Ho.
    pose proof (update_revision_cases boot (ss_freshness s0) (sanitized_for_retention collection)) as Hu.
    destruct (update_slot_data_revision _ _ _) as [f|]; cbn [mbind option_bind] in Ho; [|done].
    injection Ho as <-. destruct Hu as (Hobs & _ & Hcase). split.
    + intros c Hr. unfold slot_observable. cbn [ss_freshness sf_data_observable]. rewrite Hobs.
      unfold slot_retained in Hr. destruct same; by injection Hr as <-.
    + intros r Hr. unfold slot_revision, slot_observable in *. cbn [ss_freshness sf_data_revision sf_data_observable].
      destruct Hcase as [->|(_ & r' & Hr' & Hm)]; [exists r; split_and!; [done|done|lia|done]|].
      rewrite Hr in Hm. destruct Hm as [Hb Hs]. exists r'. split_and!; [done|done|lia|lia].
  - split; [|by apply revision_le_same]. intros c Hr. injection Hr as <-. apply Hc. unfold slot_retained. by rewrite Hf.
Qed.

Lemma slot_run_coherent boot s s' :
  rtc (slot_step boot) s s' → slot_coherent s → slot_coherent s' ∧ revision_le s s'.
Proof.
  induction 1 as [s|s1 s2 s3 Hs _ IH]; intros Hc; [done|].
  destruct (slot_step_coherent _ _ _ Hs Hc) as [Hc2 H12]. destruct (IH Hc2) as [Hc3 H23].
  split; [done|by etrans].
Qed.

Lemma revision_public_inj r r' : sd_boot r = sd_boot r' → revision_public r = revision_public r' → r = r'.
Proof.
  destruct r as [b n], r' as [b' n']. simpl. intros -> E. unfold revision_public, rapp in E. simpl in E.
  apply app_inv_head in E. injection E as E. f_equal. by apply dec_str_inj.
Qed.

(** Between two resets of the source, the public data revision of a slot identifies its
    data: whenever two states of a run that starts without data have the same public revision,
    what they retain is equal, however the slot was claimed, failed, timed out or went stale in
    between. *)
Theorem data_revision_identifies_data boot start s1 s2 r1 r2 c1 c2 :
  slot_retained start = None →
  rtc (slot_step boot) start s1 → rtc (slot_step boot) s1 s2 →
  slot_revision s1 = Some r1 → slot_revision s2 = Some r2 → revision_public r1 = revision_public r2 →
  slot_retained s1 = Some c1 → slot_retained s2 = Some c2 → c1 = c2.
Proof.
  intros Hs0 H01 H12 Hr1 Hr2 Er Hc1 Hc2.
  destruct (slot_run_coherent _ _ _ H01) as [Hco1 _]; [intros c Hc; congruence|].
  destruct (slot_run_coherent _ _ _ H12 Hco1) as [Hco2 Hle].
  destruct (Hle r1 Hr1) as (r2' & Hr2' & Hb & _ & He). rewrite Hr2 in Hr2'. injection Hr2' as <-.
  apply revision_public_inj in Er; [|done]. subst r2.
  apply observable_identity_inj. apply Hco1 in Hc1. apply Hco2 in Hc2.
  rewrite (He eq_refl) in Hc2. congruence.
Qed.
End outcome_theorems.

(** ** Public states *)

(** Collections say of their own slot that it is fresh or disabled ([collect_provider_slot]
    sets one of the two). *)
Definition states_own_slot (slot : ProviderSlot) (c : ProviderCollection) : Prop :=
  ∃ st, find (λ candidate, ps_slot candidate == slot) (pc_states c) = Some st ∧
    ps_state st ∈ [PS_Fresh; PS_Disabled].

(** The retained collection says that its slot is disabled. *)
Definition retained_disabled (slot : ProviderSlot) (observation : RuntimeProviderState) : Prop :=
  base_state slot observation = PS_Disabled.

Lemma base_state_retained slot o o' :
  retained_collection o = retained_collection o' → base_state slot o = base_state slot o'.
Proof. intros E. unfold base_state. by rewrite E. Qed.

Lemma base_state_cases slot o :
  (∀ c, retained_collection o = Some c → states_own_slot slot c) →
  base_state slot o = match retained_collection o with
                      | None => PS_Unavailable
                      | Some _ => base_state slot o
                      end ∧
  (is_Some (retained_collection o) → base_state slot o ∈ [PS_Fresh; PS_Disabled]).
Proof.
  intros Ho. unfold base_state. destruct (retained_collection o) as [c|]; [|split; [done|by intros [? ?]]].
  split; [done|]. intros _. destruct (Ho c eq_refl) as (st & Hst & Hin). simpl. by rewrite Hst.
Qed.

(** The table of the scheduling document: what each observation projects. *)
Definition documented_state (slot : ProviderSlot) (o : RuntimeProviderState) : ProviderStateKind :=
  if base_state slot o == PS_Disabled then PS_Disabled
  else match o with
  | Obs_Fresh _ => PS_Fresh
  | Obs_Collecting (Some _) | Obs_Degraded (Some _) => PS_Stale
  | Obs_Collecting None => PS_Collecting
  | Obs_TimedOut _ => PS_TimedOut
  | Obs_Degraded None | Obs_Unavailable => PS_Unavailable
  end.

Lemma public_state_documented slot o :
  (∀ c, retained_collection o = Some c → states_own_slot slot c) →
  public_state slot o = documented_state slot o.
Proof.
  intros Ho. pose proof (base_state_cases slot o Ho) as [Hn Hs]. unfold public_state, documented_state.
  assert (Hb : is_Some (retained_collection o) → base_state slot o = PS_Fresh ∨ base_state slot o = PS_Disabled)
    by (intros ?%Hs; set_solver).
  destruct o as [|c|[c|]|[c|]|[c|]]; simpl retained_collection in *;
    try (destruct (Hb ltac:(eauto)) as [->| ->]; done); rewrite Hn; done.
Qed.

Lemma mapM_provider_slots slots (order : list ProviderSlot) states :
  all_slots slots → mapM (λ slot, provider_state_for slot <$> slots !! slot) order = Some states →
  ps_slot <$> states = order.
Proof.
  intros Hall. revert states. induction order as [|slot order IH]; intros states; simpl.
  { by intros [= <-]. }
  destruct (Hall slot) as [s ->]. cbn [fmap option_fmap option_map mbind option_bind].
  destruct (mapM _ order) as [rest|] eqn:E; [|done]. intros [= <-]. rewrite fmap_cons. f_equal. by apply IH.
Qed.

(** The published state vector has the eight fixed slots once each, in order. Each entry
    follows the documented table: a slot is fresh only on an observation made against the
    published Docker evidence, stale whenever older data is served, unavailable, collecting or
    timed out without data; a slot disabled by its retained collection stays disabled whatever
    happens until a new collection succeeds, and says so as its reason. *)
Theorem provider_states_spec slots :
  all_slots slots →
  (∀ slot s c, slots !! slot = Some s → slot_retained s = Some c → states_own_slot slot c) →
  ∃ states, provider_states_for slots = Some states ∧ ps_slot <$> states = STATIC_PROVIDER_SLOTS ∧
    ∀ st, st ∈ states → ∃ s, slots !! ps_slot st = Some s ∧
      ps_state st = documented_state (ps_slot st) (ss_observation s) ∧
      (ps_state st = PS_Fresh → ∃ c, ss_observation s = Obs_Fresh c) ∧
      (ps_state st = PS_Disabled → ps_status_reason st = Some Reason_Disabled) ∧
      ps_data_revision st = revision_public <$> slot_revision s ∧
      ∀ s' : SlotRuntimeState, slot_retained s' = slot_retained s → ps_state st = PS_Disabled →
        ps_state (provider_state_for (ps_slot st) s') = PS_Disabled.
Proof.
  intros Hall Hown. unfold provider_states_for.
  destruct (mapM_Some_exists (λ slot, provider_state_for slot <$> slots !! slot) STATIC_PROVIDER_SLOTS)
    as (states & Hstates & Hin).
  { intros slot _. destruct (Hall slot) as [s ->]. by eexists. }
  exists states. split; [done|]. split.
  { eapply mapM_provider_slots; [exact Hall|exact Hstates]. }
  intros st Hst. apply Hin in Hst as (slot & _ & E).
  apply fmap_Some in E as (s & Hs & ->). exists s. cbn [provider_state_for ps_slot ps_state ps_status_reason ps_data_revision].
  assert (Hdoc : public_state slot (ss_observation s) = documented_state slot (ss_observation s)).
  { apply public_state_documented. intros c Hc. by apply (Hown slot s c). }
  split_and!; [done|done| | |done|].
  - rewrite Hdoc. unfold documented_state. case_bool_decide; [done|].
    destruct (ss_observation s) as [|c|[c|]|[c|]|[c|]]; try done. eauto.
  - intros ->. by rewrite bool_decide_eq_true_2.
  - intros s' Hr Hd. rewrite Hdoc in Hd. unfold documented_state in Hd.
    assert (Hb : base_state slot (ss_observation s) = PS_Disabled).
    { case_bool_decide; [done|]. by destruct (ss_observation s) as [|c|[c|]|[c|]|[c|]]. }
    rewrite <- (base_state_retained slot (ss_observation s') (ss_observation s) Hr) in Hb.
    unfold public_state. rewrite Hb. destruct (ss_observation s') as [|c|c|[c|]|c]; done.
Qed.

(** ** Evidence of provider edges *)

(** The private marker of a slot and the kind of evidence its value stands for. *)
Definition slot_marker (slot : ProviderSlot) : option rstr :=
  match slot with
  | Slot_Cron => Some CRON_EVIDENCE_SCHEDULE_MARKER
  | Slot_Tmux => Some TMUX_EVIDENCE_SESSION_LISTING_MARKER
  | ProjectNpm => Some NPM_EVIDENCE_DEPENDENCY_MARKER
  | Slot_Systemd => Some SYSTEMD_EVIDENCE_KIND_MARKER
  | _ => None
  end.

Definition marked_kind (slot : ProviderSlot) (value : option rstr) : option RuntimeEvidenceKind :=
  match slot with
  | Slot_Cron => if value == Some ("declared" : rstr) then Some CronScheduleDeclaration else None
  | Slot_Tmux => if value == Some ("observed" : rstr) then Some TmuxSessionListing else None
  | ProjectNpm => if value == Some ("declared" : rstr) then Some NpmPackageManifestDependency else None
  | Slot_Systemd => (λ k, k.1.1.1) <$> systemd_kind value
  | _ => None
  end.

(** The slot may attest this edge as this kind. *)
Definition slot_attests (slot : ProviderSlot) (edge : RuntimeMapEdge) (marker : rstr) : option RuntimeEvidenceKind :=
  kind ← marked_kind slot (re_metadata edge !! marker);
  if attests edge kind then Some kind else None.

Section evidence_theorems.
Context `{Sha256}.

(** Evidence that is valid on its edge as soon as the revision has a legal length. *)
Definition evidence_of (slot : ProviderSlot) (edge : RuntimeMapEdge) (kind : RuntimeEvidenceKind)
    (at_ : RuntimeEvidenceFreshness * rstr * N) (ev : RuntimeEvidenceRef) : Prop :=
  ev_kind ev = kind ∧ ev_freshness ev = at_.1.1 ∧ ev_provider_revision ev = at_.1.2 ∧
  ev_collected_at ev = at_.2 ∧ ev_provider_slot ev = Some slot ∧
  (1 ≤ length at_.1.2 ≤ 259 → evidence_ref_matches_edge edge ev = true).

Lemma slot_evidence_of edge version prefix provider kind assertion summary slot at_ :
  shape_row kind = (version, provider, assertion, Some slot) → evidence_text_ok summary = true →
  1 ≤ length prefix ≤ 100 → attests edge kind = true →
  evidence_of slot edge kind at_ (slot_evidence edge version prefix provider kind assertion summary slot at_).
Proof.
  intros Hrow Hsum Hpre Hatt. destruct at_ as [[fr rev] at_]. unfold evidence_of, slot_evidence.
  cbn [fst snd ev_kind ev_freshness ev_provider_revision ev_collected_at ev_provider_slot].
  split_and!; try done. intros Hrev.
  set (ev := {| ev_version := _ |}).
  assert (Hshape : has_valid_versioned_shape ev = true).
  { unfold ev, has_valid_versioned_shape, ev_row.
    cbn [ev_version ev_provider ev_kind ev_assertion_kind ev_freshness ev_provider_slot].
    destruct kind; try discriminate Hrow; injection Hrow as <- <- <- <-; by destruct fr. }
  apply evidence_ref_matches_edge_spec. rewrite evidence_arm_attests by done.
  split_and!; try done; apply evidence_text_ok_spec; cbn [ev_id ev_provider_revision ev]; unfold MAX_EVIDENCE_TEXT_CHARS.
  - pose proof (id_component_length (re_source edge +s+ [31%N] +s+ re_target edge)) as Hc.
    unfold rapp in *. split; [intros E; apply (f_equal length) in E|]; rewrite length_app in *; simpl in *; lia.
  - split; [|lia]. intros ->. simpl in Hrev. lia.
Qed.

(** What a binder makes of one edge. *)
Definition bound_edge (slot : ProviderSlot) (marker : rstr) (at_ : RuntimeEvidenceFreshness * rstr * N)
    (edge bound : RuntimeMapEdge) : Prop :=
  ∃ refs, bound = with_evidence edge marker refs ∧
    match slot_attests slot edge marker with
    | None => refs = []
    | Some kind => ∃ ev, refs = [ev] ∧ evidence_of slot edge kind at_ ev
    end.

Lemma attests_runs_on edge kind prefix :
  attested_relationship kind = RR_RunsOn → attested_families kind = ((prefix, false), ("host_local" : rstr, true)) →
  requires_distinct kind = true →
  negb ((re_relationship edge != RR_RunsOn) || negb (starts_with (re_source edge) prefix)
        || (re_target edge != ("host_local" : rstr)) || (re_source edge == re_target edge)) = attests edge kind.
Proof.
  intros Hr Hf Hd. unfold attests, attests_with, in_family. rewrite Hr, Hf, Hd. cbn [fst snd].
  by rewrite !negb_orb, !negb_involutive.
Qed.

Lemma attests_prefixes edge kind p q rel :
  attested_relationship kind = rel → attested_families kind = ((p, false), (q, false)) →
  requires_distinct kind = true →
  negb ((re_relationship edge != rel) || negb (starts_with (re_source edge) p)
        || negb (starts_with (re_target edge) q) || (re_source edge == re_target edge)) = attests edge kind.
Proof.
  intros Hr Hf Hd. unfold attests, attests_with, in_family. rewrite Hr, Hf, Hd. cbn [fst snd].
  by rewrite !negb_orb, !negb_involutive.
Qed.

(** The refs chosen by [if bad then [] else [ev]], where [bad] is the negated attestation. *)
Lemma bound_if slot marker at_ edge kind (bad : bool) ev :
  marked_kind slot (re_metadata edge !! marker) = Some kind → negb bad = attests edge kind →
  (attests edge kind = true → evidence_of slot edge kind at_ ev) →
  bound_edge slot marker at_ edge (with_evidence edge marker (if bad then [] else [ev])).
Proof.
  intros Hk Hb Hev. eexists. split; [done|]. unfold slot_attests. rewrite Hk. cbn [mbind option_bind].
  rewrite <- Hb in *. destruct bad; simpl in *; [done|]. eauto.
Qed.

Lemma bound_none slot marker at_ edge :
  marked_kind slot (re_metadata edge !! marker) = None → bound_edge slot marker at_ edge (with_evidence edge marker []).
Proof. intros Hk. exists []. split; [done|]. unfold slot_attests. by rewrite Hk. Qed.

Lemma bind_cron_bound at_ edge : bound_edge Slot_Cron CRON_EVIDENCE_SCHEDULE_MARKER at_ edge (bind_cron_edge at_ edge).
Proof.
  unfold bind_cron_edge. destruct (bool_decide_reflect (re_metadata edge !! CRON_EVIDENCE_SCHEDULE_MARKER
    = Some ("declared" : rstr))) as [E|E]; cbn [negb orb].
  - eapply bound_if; [unfold marked_kind; by rewrite E|by apply attests_runs_on|].
    intros Ha. apply slot_evidence_of; [done|by vm_compute|by vm_compute; lia|done].
  - apply bound_none. unfold marked_kind. by rewrite bool_decide_eq_false_2.
Qed.

Lemma bind_tmux_bound at_ edge :
  bound_edge Slot_Tmux TMUX_EVIDENCE_SESSION_LISTING_MARKER at_ edge (bind_tmux_edge at_ edge).
Proof.
  unfold bind_tmux_edge. destruct (bool_decide_reflect (re_metadata edge !! TMUX_EVIDENCE_SESSION_LISTING_MARKER
    = Some ("observed" : rstr))) as [E|E]; cbn [negb orb].
  - eapply bound_if; [unfold marked_kind; by rewrite E|by apply attests_runs_on|].
    intros Ha. apply slot_evidence_of; [done|by vm_compute|by vm_compute; lia|done].
  - apply bound_none. unfold marked_kind. by rewrite bool_decide_eq_false_2.
Qed.

Lemma bind_npm_bound at_ edge :
  bound_edge ProjectNpm NPM_EVIDENCE_DEPENDENCY_MARKER at_ edge (bind_npm_edge at_ edge).
Proof.
  unfold bind_npm_edge. destruct (bool_decide_reflect (re_metadata edge !! NPM_EVIDENCE_DEPENDENCY_MARKER
    = Some ("declared" : rstr))) as [E|E]; cbn [negb orb].
  - eapply bound_if; [unfold marked_kind; by rewrite E|by apply attests_prefixes|].
    intros Ha. apply slot_evidence_of; [done|by vm_compute|by vm_compute; lia|done].
  - apply bound_none. unfold marked_kind. by rewrite bool_decide_eq_false_2.
Qed.

Lemma systemd_kind_row value kind rel kid summary :
  systemd_kind value = Some (kind, rel, kid, summary) →
  shape_row kind = (2%N, EP_Systemd, Declared, Some Slot_Systemd) ∧ attested_relationship kind = rel ∧
  attested_families kind = (("systemd_service_" : rstr, false), ("systemd_service_" : rstr, false)) ∧
  requires_distinct kind = true ∧ evidence_text_ok summary = true ∧
  1 ≤ length ("systemd_evidence_" +s+ kid +s+ "_") ≤ 100.
Proof.
  unfold systemd_kind. repeat case_bool_decide; intros E; try discriminate E; injection E as <- <- <- <-;
    (split_and!; [done|done|done|done|by vm_compute|by vm_compute; lia..]).
Qed.

Lemma bind_systemd_bound at_ edge :
  bound_edge Slot_Systemd SYSTEMD_EVIDENCE_KIND_MARKER at_ edge (bind_systemd_edge at_ edge).
Proof.
  unfold bind_systemd_edge.
  destruct (systemd_kind (re_metadata edge !! SYSTEMD_EVIDENCE_KIND_MARKER)) as [[[[kind rel] kid] summary]|] eqn:E.
  - pose proof (systemd_kind_row _ _ _ _ _ E) as (Hrow & Hrel & Hfam & Hd & Hs & Hl).
    eapply bound_if; [unfold marked_kind; by rewrite E|by apply attests_prefixes|].
    intros Ha. by apply slot_evidence_of.
  - apply bound_none. unfold marked_kind. by rewrite E.
Qed.

(** C21: The edges of the four evidence-bearing slots. Binding keeps each edge, removes the
    private marker from its metadata, and leaves it with no evidence, unless the slot can
    attest (it retains a collection, is not disabled, has a revision and a success time) and
    the marker names a kind that the edge itself attests: then the edge has exactly one
    reference, of that kind, with the freshness, revision and success time of the slot, and
    the model accepts it. Fresh evidence comes only from a fresh slot. *)
Theorem bound_evidence_spec slot marker edges state :
  slot_marker slot = Some marker →
  Forall2 (λ edge bound,
      re_source bound = re_source edge ∧ re_target bound = re_target edge ∧
      re_relationship bound = re_relationship edge ∧ re_metadata bound = delete marker (re_metadata edge) ∧
      match slot_attestation slot state, slot_attests slot edge marker with
      | Some at_, Some kind => ∃ ev, re_evidence_refs bound = [ev] ∧ evidence_of slot edge kind at_ ev ∧
          (ev_freshness ev = EF_Fresh → ∃ c, ss_observation state = Obs_Fresh c)
      | _, _ => re_evidence_refs bound = []
      end)
    edges (bind_slot_evidence slot edges state).
Proof.
  intros Hm.
  assert (Hfresh : ∀ fr rev at_, slot_attestation slot state = Some (fr, rev, at_) → fr = EF_Fresh →
    ∃ c, ss_observation state = Obs_Fresh c).
  { intros fr rev at_ Ha ->. unfold slot_attestation in Ha.
    destruct (ss_observation state) as [|c|[c|]|[c|]|[c|]]; try discriminate Ha; eauto;
      cbn [mbind option_bind] in Ha; destruct (revision_public <$> _); cbn [mbind option_bind] in Ha; try discriminate Ha;
      destruct (sf_last_success_ms _); cbn [mbind option_bind] in Ha; try discriminate Ha;
      destruct (is_some_and _ _); discriminate Ha. }
  assert (Hgen : ∀ bind_edge : (RuntimeEvidenceFreshness * rstr * N) → RuntimeMapEdge → RuntimeMapEdge,
    (∀ at_ edge, bound_edge slot marker at_ edge (bind_edge at_ edge)) →
    bind_slot_evidence slot edges state = (match slot_attestation slot state with
      | None => clear_evidence marker edges | Some at_ => bind_edge at_ <$> edges end) →
    Forall2 (λ edge bound,
      re_source bound = re_source edge ∧ re_target bound = re_target edge ∧
      re_relationship bound = re_relationship edge ∧ re_metadata bound = delete marker (re_metadata edge) ∧
      match slot_attestation slot state, slot_attests slot edge marker with
      | Some at_, Some kind => ∃ ev, re_evidence_refs bound = [ev] ∧ evidence_of slot edge kind at_ ev ∧
          (ev_freshness ev = EF_Fresh → ∃ c, ss_observation state = Obs_Fresh c)
      | _, _ => re_evidence_refs bound = []
      end) edges (bind_slot_evidence slot edges state)).
  { intros bind_edge Hb ->. destruct (slot_attestation slot state) as [[[fr rev] at_]|] eqn:Ea;
      unfold clear_evidence; apply Forall2_fmap_r, Forall_Forall2_diag, Forall_true; intros edge; unfold compose; cbv beta.
    - destruct (Hb (fr, rev, at_) edge) as (refs & E & Hr). rewrite E.
      cbn [with_evidence re_source re_target re_relationship re_metadata re_evidence_refs].
      split_and!; try done.
      destruct (slot_attests slot edge marker) as [kind|]; [|done].
      destruct Hr as (ev & -> & Hev). exists ev. split_and!; [done|done|].
      pose proof Hev as (_ & Hf & _). simpl in Hf. rewrite Hf. by eapply Hfresh.
    - cbn [with_evidence re_source re_target re_relationship re_metadata re_evidence_refs]. by split_and!. }
  destruct slot; try discriminate Hm; injection Hm as <-.
  - apply (Hgen bind_tmux_edge); [apply bind_tmux_bound|done].
  - apply (Hgen bind_cron_edge); [apply bind_cron_bound|done].
  - apply (Hgen bind_systemd_edge); [apply bind_systemd_bound|done].
  - apply (Hgen bind_npm_edge); [apply bind_npm_bound|done].
Qed.
End evidence_theorems.

(** ** Examples *)

(** The cron slot after a successful collection of [collection], the others untouched. *)
Definition example_slots (collection : ProviderCollection) : RuntimeProviderSlots :=
  <[Slot_Cron := {| ss_observation := Obs_Fresh collection; ss_completed_at := Some 0%N;
      ss_freshness := {| sf_last_attempt_ms := Some 5%N; sf_last_success_ms := Some 7%N;
        sf_last_duration_ms := Some 2%N; sf_consecutive_failure_count := 0;
        sf_data_revision := Some (revision_first "boot"); sf_data_observable := None;
        sf_status_reason := None |} |}]> unavailable_provider_slots.

Definition example_states (kind : ProviderStateKind) : list ProviderState := [{|
  ps_slot := Slot_Cron; ps_state := kind; ps_last_attempt_ms := None; ps_last_success_ms := None;
  ps_last_duration_ms := None; ps_consecutive_failure_count := 0; ps_data_revision := None;
  ps_status_reason := None |}].

Definition example_cron_edge : RuntimeMapEdge := {|
  re_source := "scheduled_job_backup"; re_target := "host_local"; re_relationship := RR_RunsOn;
  re_metadata := {[ CRON_EVIDENCE_SCHEDULE_MARKER := "declared" : rstr ]}; re_evidence_refs := [] |}.

Definition example_cron (kind : ProviderStateKind) : ProviderCollection := {|
  pc_nodes := []; pc_edges := [example_cron_edge]; pc_diagnostics := []; pc_states := example_states kind |}.

Lemma example_all_slots collection : all_slots (example_slots collection).
Proof. intros []; vm_compute; eauto. Qed.

(** Two idle slots of eight are claimed while the cron slot is not due. *)
Lemma claim_due_slots_spec_witness :
  let slots := example_slots (example_cron PS_Fresh) in
  all_slots slots ∧
  (∃ claimed slots', claim_due_slots_with_active_workers slots (λ _, Some 9%N) 0
     MAX_CONCURRENT_PROVIDER_SLOTS 0 = Some (claimed, slots') ∧
     claimed = [NetworkInfrastructure; HostScoped] ∧ NoDup claimed).
Proof.
  intros slots. pose proof (example_all_slots (example_cron PS_Fresh)) as Hall. split; [exact Hall|].
  destruct (claim_due_slots_spec slots (λ _, Some 9%N) 0 MAX_CONCURRENT_PROVIDER_SLOTS 0 Hall)
    as (claimed & slots' & E & _ & Hnd & _).
  exists claimed, slots'. split; [exact E|]. split; [|exact Hnd].
  assert (Hc : fst <$> Some (claimed, slots') = Some [NetworkInfrastructure; HostScoped]).
  { rewrite <- E. vm_compute. reflexivity. }
  injection Hc as Hc. exact Hc.
Defined.

Section data_revision_witness.
#[local] Instance node_json : Json RuntimeMapNode := Json_of_countable _.
#[local] Instance edge_json : Json RuntimeMapEdge := Json_of_countable _.
#[local] Instance evidence_json : Json RuntimeEvidenceRef := Json_of_countable _.
#[local] Instance observable_json :
  Json (list RuntimeMapNode * list RuntimeMapEdge * list RuntimeMapDiagnostic * list ProviderState) :=
  Json_of_countable _.

(** A collection is applied and applied again after a claim: the revision and the data stay. *)
Lemma data_revision_identifies_data_witness :
  let c := sanitized_for_retention {| pc_nodes := []; pc_edges := []; pc_diagnostics := [];
             pc_states := example_states PS_Fresh |} in
  ∃ s1 s2, rtc (slot_step "b") slot_default s1 ∧ rtc (slot_step "b") s1 s2 ∧ s1 ≠ s2 ∧
    slot_revision s1 = Some (revision_first "b") ∧ slot_revision s2 = Some (revision_first "b") ∧
    ∀ c1 c2, slot_retained s1 = Some c1 → slot_retained s2 = Some c2 → c1 = c2.
Proof.
  intros c.
  destruct (slot_outcome "b" (Some 1%N) 1 true (Collected c) slot_default) as [s1|] eqn:E1; [|vm_compute in E1; discriminate].
  destruct (slot_outcome "b" (Some 2%N) 2 true (Collected c) (claimed_state s1 (Some 2%N))) as [s2|] eqn:E2.
  2:{ vm_compute in E1. injection E1 as <-. vm_compute in E2. discriminate. }
  assert (R1 : rtc (slot_step "b") slot_default s1) by (eapply rtc_once, step_outcome, E1).
  assert (R2 : rtc (slot_step "b") s1 s2) by (eapply rtc_l; [apply step_claimed|eapply rtc_once, step_outcome, E2]).
  assert (V1 : slot_revision s1 = Some (revision_first "b") ∧ ss_completed_at s1 = Some 1%N).
  { vm_compute in E1. injection E1 as <-. vm_compute. done. }
  assert (V2 : slot_revision s2 = Some (revision_first "b") ∧ ss_completed_at s2 = Some 2%N).
  { vm_compute in E1. injection E1 as <-. vm_compute in E2. injection E2 as <-. vm_compute. done. }
  destruct V1 as [V1 D1], V2 as [V2 D2]. exists s1, s2. split_and!; try done; [congruence|].
  intros c1 c2 H1 H2.
  exact (data_revision_identifies_data "b" slot_default s1 s2 _ _ c1 c2 eq_refl R1 R2 V1 V2 eq_refl H1 H2).
Defined.
End data_revision_witness.

(** A disabled cron slot is published as disabled, with that reason. *)
Lemma provider_states_spec_witness :
  ∃ states, provider_states_for (example_slots (example_cron PS_Disabled)) = Some states ∧
    ps_slot <$> states = STATIC_PROVIDER_SLOTS ∧
    ∀ st, st ∈ states → ps_slot st = Slot_Cron → ps_state st = PS_Disabled ∧ ps_status_reason st = Some Reason_Disabled.
Proof.
  destruct (provider_states_spec (example_slots (example_cron PS_Disabled)) (example_all_slots _))
    as (states & E & Hslots & Hst).
  { intros slot s c Hs Hc. destruct slot; vm_compute in Hs; injection Hs as <-; vm_compute in Hc; try discriminate Hc.
    injection Hc as <-. eexists. split; [reflexivity|]. right. left. }
  exists states. split; [exact E|]. split; [exact Hslots|]. intros st Hin Hcron.
  destruct (Hst st Hin) as (s & Hs & Hdoc & _ & Hdis & _). rewrite Hcron in Hs, Hdoc.
  assert (Hd : ps_state st = PS_Disabled) by (rewrite Hdoc; vm_compute in Hs; injection Hs as <-; reflexivity).
  split; [exact Hd|]. exact (Hdis Hd).
Defined.

(** A marked edge of a fresh cron slot carries one fresh reference and no marker. *)
Lemma bound_evidence_spec_witness :
  ∃ s bound, example_slots (example_cron PS_Fresh) !! Slot_Cron = Some s ∧
    @bind_slot_evidence Toy_sha256 Slot_Cron [example_cron_edge] s = [bound] ∧
    re_metadata bound = ∅ ∧ (∃ ev, re_evidence_refs bound = [ev] ∧ ev_freshness ev = EF_Fresh).
Proof.
  destruct (example_slots (example_cron PS_Fresh) !! Slot_Cron) as [s|] eqn:Es; [|vm_compute in Es; discriminate].
  pose proof (@bound_evidence_spec Toy_sha256 Slot_Cron CRON_EVIDENCE_SCHEDULE_MARKER [example_cron_edge] s eq_refl) as Hb.
  destruct (@bind_slot_evidence Toy_sha256 Slot_Cron [example_cron_edge] s) as [|bound rest] eqn:E; [inversion Hb|].
  apply Forall2_cons in Hb as [(_ & _ & _ & Hm & Hev) Hrest]. apply Forall2_nil_inv_l in Hrest as ->.
  assert (Ha : slot_attestation Slot_Cron s = Some (EF_Fresh, revision_public (revision_first "boot"), 7%N)).
  { vm_compute in Es. injection Es as <-. vm_compute. reflexivity. }
  assert (Hk : slot_attests Slot_Cron example_cron_edge CRON_EVIDENCE_SCHEDULE_MARKER = Some CronScheduleDeclaration)
    by (vm_compute; reflexivity).
  rewrite Ha, Hk in Hev. destruct Hev as (ev & Hev & (_ & Hf & _) & _).
  exists s, bound. split_and!; [done|done| |by eauto].
  rewrite Hm. vm_compute. reflexivity.
Defined.

(** A disabled profile fact that completes against older Docker evidence is kept as degraded,
    and a degraded slot is claimed again when it is due: only a fresh disabled slot is never
    queued. *)
Lemma disabled_slot_requeued :
  ∃ slots claimed slots', provider_state_for Slot_Cron <$> slots !! Slot_Cron
      = Some (provider_state_for Slot_Cron {| ss_observation := Obs_Degraded (Some (example_cron PS_Disabled));
                ss_completed_at := Some 0%N; ss_freshness := freshness_default |}) ∧
    ps_state <$> (provider_state_for Slot_Cron <$> slots !! Slot_Cron) = Some PS_Disabled ∧
    claim_due_slots_with_active_workers slots (λ _, None) (from_secs 15) 8 0 = Some (claimed, slots') ∧
    Slot_Cron ∈ claimed.
Proof.
  set (s := {| ss_observation := Obs_Degraded (Some (example_cron PS_Disabled));
               ss_completed_at := Some 0%N; ss_freshness := freshness_default |}).
  set (slots := <[Slot_Cron := s]> unavailable_provider_slots : RuntimeProviderSlots).
  assert (Hall : all_slots slots).
  { intros slot. destruct (decide (slot = Slot_Cron)) as [->|Hne].
    - exists s. apply lookup_insert_eq.
    - unfold slots. rewrite lookup_insert_ne by done. destruct slot; vm_compute; eauto. }
  assert (Hs : slots !! Slot_Cron = Some s) by apply lookup_insert_eq.
  destruct (claim_loop_spec STATIC_PROVIDER_SLOTS (λ _, None) (from_secs 15) slots 8 static_slots_NoDup (λ s _, Hall s))
    as (claimed & slots' & E & Hsub & Hlen & _ & _ & _ & Hwork).
  assert (Ho : occupied slots = 0) by (by vm_compute).
  exists slots, claimed, slots'. rewrite Hs. split_and!; [done|by vm_compute| |].
  { unfold claim_due_slots_with_active_workers. by rewrite Ho. }
  destruct (decide (length claimed < 8)) as [Hl|Hl].
  - by apply (Hwork Hl Slot_Cron s (static_slots_all _) Hs); vm_compute.
  - assert (Hle : length STATIC_PROVIDER_SLOTS ≤ length claimed) by (cbn [STATIC_PROVIDER_SLOTS length]; lia).
    apply (elem_of_Permutation_proper Slot_Cron _ _ (submseteq_length_Permutation _ _ (sublist_submseteq _ _ Hsub) Hle)).
    apply static_slots_all.
Qed.
