(* ===== verification/ComposeBinding.v ===== *)
(** * Compose declarations bound to running containers
      ([crates/dockermap-core/src/compose_runtime_binding.rs])

    The one rule that compares a Compose declaration with the container it is exactly bound
    to: a declared mount that the container does not have. [BTreeSet<String>] is [gset rstr]. *)

From S2P Require Import Prelude RustStr RustNum Models Identity Evidence.

Definition SUMMARY : rstr := "A Compose-declared mount is absent from its exactly bound runtime container".
Definition RECOMMENDATION : rstr :=
  "Inspect the Compose mount declaration and the bound container's current mount configuration.".
Definition MAX_COMPOSE_RUNTIME_BINDING_CONTAINERS : nat := 64.
Definition MAX_COMPOSE_RUNTIME_BINDING_CONFIG_FILES : nat := 8.
Definition MAX_COMPOSE_RUNTIME_BINDING_SERVICES : nat := 128.
Definition MAX_COMPOSE_RUNTIME_BINDING_MOUNTS : nat := 256.
Definition MAX_RUNTIME_MOUNTS_PER_BOUND_CONTAINER : nat := 128.
Definition MAX_PRIVATE_ID_CHARS : nat := 259.

Record ComposeRuntimeContainer := {
  crc_container_id : rstr;
  crc_project : rstr;
  crc_service : rstr;
  crc_config_files : gset rstr;
  crc_mounts : list ContainerMount
}.

Record ComposeRuntimeBinding := {
  crb_project : rstr;
  crb_config_files : gset rstr;
  crb_containers : list ComposeRuntimeContainer;
  crb_collected_at : N;
  crb_provider_revision : rstr;
  crb_fresh : bool
}.

(** [value.len()] counts bytes; a byte outside ASCII is no hexadecimal digit. *)
Definition is_docker_container_id (value : rstr) : bool :=
  (str_len value =? 64)%nat && forallb is_hex_lower (utf8_bytes value).

Definition too_long (value : rstr) : bool := (MAX_PRIVATE_ID_CHARS <? char_count value)%nat.

Definition container_rejected (c : ComposeRuntimeContainer) : bool :=
  (crc_container_id c == []) || negb (is_docker_container_id (crc_container_id c))
  || too_long (crc_container_id c) || too_long (crc_project c)
  || (crc_service c == []) || too_long (crc_service c)
  || (MAX_COMPOSE_RUNTIME_BINDING_CONFIG_FILES <? size (crc_config_files c))%nat
  || existsb too_long (elements (crc_config_files c))
  || (MAX_RUNTIME_MOUNTS_PER_BOUND_CONTAINER <? length (crc_mounts c))%nat.

(** The guard at the head of [derive_compose_runtime_mount_findings]. *)
Definition binding_rejected (scan : ComposeScan) (b : ComposeRuntimeBinding) : bool :=
  negb (crb_fresh b) || (crb_project b == []) || too_long (crb_project b)
  || (crb_config_files b == ∅)
  || (MAX_COMPOSE_RUNTIME_BINDING_CONFIG_FILES <? size (crb_config_files b))%nat
  || (crb_provider_revision b == [])
  || (MAX_COMPOSE_RUNTIME_BINDING_CONTAINERS <? length (crb_containers b))%nat
  || (MAX_COMPOSE_RUNTIME_BINDING_SERVICES <? length (csc_services scan))%nat
  || (MAX_COMPOSE_RUNTIME_BINDING_MOUNTS <? length (csc_mounts scan))%nat
  || ((list_to_set (csc_files scan) : gset rstr) != crb_config_files b)
  || existsb (λ d, cd_severity d != Sev_Info) (csc_diagnostics scan)
  || existsb too_long (elements (crb_config_files b))
  || existsb container_rejected (crb_containers b).

(** [Option::or] and the comparison of the two optional sources. *)
Definition mounts_match (declared : ComposeMount) (runtime : ContainerMount) : bool :=
  (cmt_kind declared == cm_kind runtime) && (cmt_target declared == cm_target runtime)
  && match cmt_kind declared with
     | Bind => (match cmt_resolved_source declared with Some s => Some s | None => cmt_source declared end)
               == cm_source runtime
     | NamedVolume => cmt_source declared == cm_source runtime
     | _ => false
     end.

(** Same project and configuration files as the binding. *)
Definition in_project (b : ComposeRuntimeBinding) (c : ComposeRuntimeContainer) : bool :=
  (crc_project c == crb_project b) && (crc_config_files c == crb_config_files b).

Definition container_id_counts (b : ComposeRuntimeBinding) : gmap rstr nat :=
  foldl (λ counts c, bump counts (crc_container_id c)) ∅ (crb_containers b).

Definition service_counts (b : ComposeRuntimeBinding) : gmap rstr nat :=
  foldl (λ counts c, if in_project b c then bump counts (crc_service c) else counts)
    ∅ (crb_containers b).

Definition is_bound_candidate (b : ComposeRuntimeBinding) (mount : ComposeMount)
    (c : ComposeRuntimeContainer) : bool :=
  in_project b c && (crc_service c == cmt_service mount) && (crc_container_id c != [])
  && (container_id_counts b !! crc_container_id c == Some 1)
  && (service_counts b !! crc_service c == Some 1).

Section binding.
Context `{Sha256}.

Definition opaque_id (value : rstr) : rstr := sha256_hex value.

(** [unreachable!()] for any other kind; the two callers pass these two. *)
Definition evidence_summary (kind : RuntimeEvidenceKind) : option rstr :=
  match kind with
  | ComposeDeclaredMount => Some ("Compose declared a mount for the bound service" : rstr)
  | DockerComposeRuntimeBinding =>
      Some ("Docker confirmed an exact Compose project, service, and config binding" : rstr)
  | _ => None
  end.

Definition binding_evidence (prefix : rstr) (provider : RuntimeEvidenceProvider)
    (kind : RuntimeEvidenceKind) (assertion : RuntimeEvidenceAssertionKind) (subject_ref : rstr)
    (b : ComposeRuntimeBinding) (seed : rstr) : option RuntimeEvidenceRef :=
  summary ← evidence_summary kind;
  Some {|
    ev_version := 6; ev_id := prefix +s+ "_" +s+ opaque_id seed; ev_provider := provider;
    ev_kind := kind; ev_assertion_kind := assertion; ev_summary := summary;
    ev_subject_ref := subject_ref; ev_collected_at := crb_collected_at b;
    ev_provider_revision := crb_provider_revision b; ev_provider_slot := None;
    ev_freshness := EF_Fresh |}.

(** The finding pushed for a declaration, by its ordinal and the container it is bound to. *)
Definition missing_mount_finding (b : ComposeRuntimeBinding) (mount_ordinal : nat)
    (c : ComposeRuntimeContainer) : option Finding :=
  let subject_ref := "compose_runtime_binding_" +s+ opaque_id (crc_container_id c) in
  let seed := crc_container_id c +s+ [31%N] +s+ dec_str (N.of_nat mount_ordinal) in
  declared ← binding_evidence "compose_declared_mount" EP_Compose ComposeDeclaredMount Declared
               subject_ref b seed;
  bound ← binding_evidence "docker_compose_runtime_binding" EP_Docker DockerComposeRuntimeBinding
            Observed subject_ref b seed;
  Some {|
    f_id := "finding_compose_declared_mount_missing_at_bound_container_" +s+ opaque_id seed;
    f_rule_id := ComposeDeclaredMountMissingAtBoundContainer; f_severity := FS_Warning;
    f_summary := SUMMARY; f_recommendation := RECOMMENDATION;
    f_subject_ref := subject_ref; f_target_ref := subject_ref;
    f_evidence_refs := [declared; bound] |}.

(** One turn of the loop over [scan.mounts]. *)
Definition mount_findings (b : ComposeRuntimeBinding) (mount_ordinal : nat) (mount : ComposeMount)
    : option (list Finding) :=
  if negb (one_of (cmt_kind mount) [Bind; NamedVolume]) then Some []
  else match find (is_bound_candidate b mount) (crb_containers b) with
  | None => Some []
  | Some c =>
      if existsb (mounts_match mount) (crc_mounts c) then Some []
      else f ← missing_mount_finding b mount_ordinal c; Some [f]
  end.

Definition derive_compose_runtime_mount_findings (scan : ComposeScan) (b : ComposeRuntimeBinding)
    : option (list Finding) :=
  if binding_rejected scan b then Some []
  else
    findings ← mapM id (imap (mount_findings b) (csc_mounts scan));
    Some (sort_by (λ x y, str_leb (f_id x) (f_id y)) (concat findings)).
End binding.

(** ** Bindings *)

(** The container is the only one that can be the one the declaration speaks of: the same
    project, configuration files and service, no other container of the observation has its
    id, and no other container of the project has its service. *)
Definition bound_to (b : ComposeRuntimeBinding) (mount : ComposeMount) (c : ComposeRuntimeContainer) : Prop :=
  c ∈ crb_containers b ∧ crc_project c = crb_project b ∧ crc_config_files c = crb_config_files b ∧
  crc_service c = cmt_service mount ∧ crc_container_id c ≠ [] ∧
  count_if (λ c', crc_container_id c' == crc_container_id c) (crb_containers b) = 1 ∧
  count_if (λ c', in_project b c' && (crc_service c' == crc_service c)) (crb_containers b) = 1.

Lemma in_project_spec b c :
  in_project b c = true ↔ crc_project c = crb_project b ∧ crc_config_files c = crb_config_files b.
Proof. unfold in_project. by rewrite andb_true_iff, !bool_decide_eq_true. Qed.

Lemma container_id_counts_one b k :
  (container_id_counts b !! k == Some 1) = true ↔
  count_if (λ c, crc_container_id c == k) (crb_containers b) = 1.
Proof.
  unfold container_id_counts. pose proof (counts_of_where (λ _, true) crc_container_id (crb_containers b)) as E.
  cbv beta iota in E. rewrite E. clear E. by rewrite counts_of_one, count_if_fmap_filterb.
Qed.

Lemma service_counts_one b k :
  (service_counts b !! k == Some 1) = true ↔
  count_if (λ c, in_project b c && (crc_service c == k)) (crb_containers b) = 1.
Proof. unfold service_counts. by rewrite counts_of_where, counts_of_one, count_if_fmap_filterb. Qed.

Lemma is_bound_candidate_spec b mount c :
  c ∈ crb_containers b → is_bound_candidate b mount c = true ↔ bound_to b mount c.
Proof.
  intros Hc. unfold is_bound_candidate, bound_to.
  rewrite !andb_true_iff, in_project_spec, container_id_counts_one, service_counts_one.
  rewrite negb_true_iff, bool_decide_eq_false, bool_decide_eq_true. tauto.
Qed.

(** The loop's first candidate is the only one. *)
Lemma bound_to_unique b mount c c' : bound_to b mount c → bound_to b mount c' → c = c'.
Proof.
  intros (Hc & Hp & Hf & Hs & _ & _ & H1) (Hc' & Hp' & Hf' & Hs' & _ & _ & _).
  eapply count_if_one_unique; [exact H1|done|done|..];
    (rewrite andb_true_iff, in_project_spec, bool_decide_eq_true; split; [done|congruence]).
Qed.

Lemma find_bound b mount c : find (is_bound_candidate b mount) (crb_containers b) = Some c ↔ bound_to b mount c.
Proof.
  split.
  - intros [Hc Hb]%find_Some. by apply is_bound_candidate_spec.
  - intros Hb. pose proof Hb as [Hc _].
    destruct (find _ _) as [c'|] eqn:E.
    + apply find_Some in E as [Hc' Hb']. apply is_bound_candidate_spec in Hb'; [|done].
      f_equal. by eapply bound_to_unique.
    + rewrite find_None in E. specialize (E c Hc). apply is_bound_candidate_spec in Hb; [|done]. congruence.
Qed.

(** ** The findings *)

Section theorems.
Context `{Sha256}.

(** A declared mount of a bound container that the container does not have. *)
Definition missing_mount (scan : ComposeScan) (b : ComposeRuntimeBinding) (i : nat)
    (c : ComposeRuntimeContainer) : Prop :=
  ∃ mount, csc_mounts scan !! i = Some mount ∧ cmt_kind mount ∈ [Bind; NamedVolume] ∧ bound_to b mount c ∧
    ∀ runtime, runtime ∈ crc_mounts c → mounts_match mount runtime = false.

Lemma missing_mount_finding_total b i c : ∃ f, missing_mount_finding b i c = Some f.
Proof. eexists. reflexivity. Qed.

Lemma mount_findings_spec b i mount :
  ∃ r, mount_findings b i mount = Some r ∧ ∀ f, f ∈ r ↔
    cmt_kind mount ∈ [Bind; NamedVolume] ∧ ∃ c, bound_to b mount c ∧
    (∀ runtime, runtime ∈ crc_mounts c → mounts_match mount runtime = false) ∧
    missing_mount_finding b i c = Some f.
Proof.
  unfold mount_findings, one_of. case_bool_decide as Hk; cbn [negb]; [|exists []; set_solver].
  destruct (find _ _) as [c|] eqn:E.
  2:{ exists []. split; [done|]. intros f. split; [by intros ?%elem_of_nil|].
      intros (_ & c & Hb & _). apply find_bound in Hb. congruence. }
  apply find_bound in E.
  destruct (existsb _ _) eqn:Em.
  - exists []. split; [done|]. intros f. split; [by intros ?%elem_of_nil|].
    intros (_ & c' & Hb & Hm & _). rewrite (bound_to_unique _ _ _ _ Hb E) in Hm.
    apply existsb_exists in Em as (r & Hr%list_elem_of_In & Hrm). rewrite Hm in Hrm; done.
  - destruct (missing_mount_finding_total b i c) as [f0 Hf0]. rewrite Hf0. cbn [mbind option_bind].
    exists [f0]. split; [done|]. intros f. rewrite list_elem_of_singleton. split.
    + intros ->. split; [done|]. exists c. split_and!; try done. intros r Hr.
      destruct (mounts_match mount r) eqn:Er; [|done].
      rewrite <- Em. symmetry. apply existsb_exists. exists r. by rewrite <- list_elem_of_In.
    + intros (_ & c' & Hb & _ & Hf). rewrite (bound_to_unique _ _ _ _ Hb E), Hf0 in Hf. by injection Hf.
Qed.

Lemma derive_compose_findings_total scan b :
  ∃ fs, derive_compose_runtime_mount_findings scan b = Some fs ∧
    StronglySorted (λ x y, str_leb (f_id x) (f_id y) = true) fs ∧
    (∀ f, f ∈ fs ↔ binding_rejected scan b = false ∧
       ∃ i c, missing_mount scan b i c ∧ missing_mount_finding b i c = Some f) ∧
    (∀ f, f ∈ fs → length (f_evidence_refs f) = 2 ∧ ∀ ev, ev ∈ f_evidence_refs f →
       has_valid_versioned_shape ev = true ∧ ev_subject_ref ev = f_subject_ref f ∧
       ev_provider_revision ev = crb_provider_revision b).
Proof.
  assert (Hev : ∀ i c f, missing_mount_finding b i c = Some f → length (f_evidence_refs f) = 2 ∧
    ∀ ev, ev ∈ f_evidence_refs f → has_valid_versioned_shape ev = true ∧ ev_subject_ref ev = f_subject_ref f ∧
       ev_provider_revision ev = crb_provider_revision b).
  { intros i c f [= <-]. split; [done|]. cbn [f_evidence_refs].
    intros ev [->|[->|[]%elem_of_nil]%elem_of_cons]%elem_of_cons; by split_and!. }
  unfold derive_compose_runtime_mount_findings.
  destruct (binding_rejected scan b) eqn:Er.
  { exists []. split; [done|]. split; [constructor|]. set_solver. }
  destruct (mapM_imap_lookup (mount_findings b) (λ i mount f, cmt_kind mount ∈ [Bind; NamedVolume] ∧ ∃ c, bound_to b mount c ∧
    (∀ runtime, runtime ∈ crc_mounts c → mounts_match mount runtime = false) ∧
    missing_mount_finding b i c = Some f) (csc_mounts scan) (λ i x _, mount_findings_spec b i x)) as (rs & Hrs & Hin).
  rewrite Hrs. cbn [mbind option_bind]. eexists. split; [done|].
  assert (Hiff : ∀ f, f ∈ sort_by (λ x y, str_leb (f_id x) (f_id y)) (concat rs) ↔
    false = false ∧ ∃ i c, missing_mount scan b i c ∧ missing_mount_finding b i c = Some f).
  { intros f. rewrite elem_of_sort_by, Hin. unfold missing_mount. naive_solver. }
  split_and!.
  - apply sort_by_sorted; [|by eauto using str_leb_trans]. intros x y. apply str_leb_total.
  - exact Hiff.
  - intros f (_ & i & c & _ & Hf)%Hiff. by eapply Hev.
Qed.

(** A Compose declaration yields a finding exactly when the request is within every bound
    (fresh, named, the scanned files are the bound ones, no diagnostic above information,
    sizes capped), the declaration is a bind or a named volume, exactly one container is bound
    to it, and no mount of that container matches. The findings are sorted by id, never panic,
    and name the container and the declaration only through digests and an ordinal; both
    pieces of evidence have the shape the model accepts, the subject of the finding and the
    revision of the binding. *)
Theorem missing_mount_findings_spec scan b :
  ∃ fs, derive_compose_runtime_mount_findings scan b = Some fs ∧
    StronglySorted (λ x y, str_leb (f_id x) (f_id y) = true) fs ∧
    (∀ f, f ∈ fs ↔ binding_rejected scan b = false ∧
       ∃ i c, missing_mount scan b i c ∧ missing_mount_finding b i c = Some f) ∧
    (∀ f, f ∈ fs → length (f_evidence_refs f) = 2 ∧ ∀ ev, ev ∈ f_evidence_refs f →
       has_valid_versioned_shape ev = true ∧ ev_subject_ref ev = f_subject_ref f ∧
       ev_provider_revision ev = crb_provider_revision b).
Proof. apply derive_compose_findings_total. Qed.
End theorems.
