(* ===== verification/Fixtures.v ===== *)
(** * Demo data ([crates/dockermap-core/src/fixtures.rs])

    The snapshot the daemon serves while Docker is unavailable. *)

From S2P Require Import Prelude RustStr RustNum Models.

(** [mock_snapshot], at the time [now] of [unix_timestamp_millis]. *)
Definition mock_snapshot (now : N) : DockerSnapshot := {|
  s_containers :=
    [{| c_id := "container_gateway"; c_name := "gateway"; c_image := "nginx:1.27-alpine"; c_status := "running"; c_role := "edge proxy";
       c_networks := ["network_edge" : rstr; "network_app" : rstr]; c_ports := ["3233:80/tcp" : rstr];
       c_publishes_on_unspecified_address := false;
       c_mounts := [];
       c_depends_on := ["container_api" : rstr] |};
     {| c_id := "container_api"; c_name := "api"; c_image := "python:3.11-slim"; c_status := "running"; c_role := "api";
       c_networks := ["network_app" : rstr; "network_data" : rstr]; c_ports := ["3233:3233/tcp" : rstr];
       c_publishes_on_unspecified_address := false;
       c_mounts := [{| cm_id := "container_api:/workspace/src:/srv/dockermap/src"; cm_kind := Bind; cm_source := Some ("/srv/dockermap/src" : rstr); cm_target := "/workspace/src"; cm_read_only := false |};
         {| cm_id := "container_api:/workspace/.cache:api-cache"; cm_kind := NamedVolume; cm_source := Some ("api-cache" : rstr); cm_target := "/workspace/.cache"; cm_read_only := false |}];
       c_depends_on := ["container_db" : rstr; "container_cache" : rstr] |};
     {| c_id := "container_worker"; c_name := "worker"; c_image := "python:3.11-slim"; c_status := "running"; c_role := "worker";
       c_networks := ["network_app" : rstr; "network_data" : rstr]; c_ports := [];
       c_publishes_on_unspecified_address := false;
       c_mounts := [{| cm_id := "container_worker:/var/log/dockermap:logs"; cm_kind := NamedVolume; cm_source := Some ("logs" : rstr); cm_target := "/var/log/dockermap"; cm_read_only := false |}];
       c_depends_on := ["container_db" : rstr; "container_cache" : rstr] |};
     {| c_id := "container_db"; c_name := "postgres"; c_image := "postgres:16-alpine"; c_status := "running"; c_role := "primary database";
       c_networks := ["network_data" : rstr]; c_ports := ["5432:5432/tcp" : rstr];
       c_publishes_on_unspecified_address := false;
       c_mounts := [{| cm_id := "container_db:/var/lib/postgresql/data:postgres_data"; cm_kind := NamedVolume; cm_source := Some ("postgres_data" : rstr); cm_target := "/var/lib/postgresql/data"; cm_read_only := false |}];
       c_depends_on := [] |};
     {| c_id := "container_cache"; c_name := "redis"; c_image := "redis:7-alpine"; c_status := "running"; c_role := "cache and queue broker";
       c_networks := ["network_data" : rstr]; c_ports := ["6379:6379/tcp" : rstr];
       c_publishes_on_unspecified_address := false;
       c_mounts := [];
       c_depends_on := [] |};
     {| c_id := "container_registry"; c_name := "registry"; c_image := "ghcr.io/dockermap/example:1.0"; c_status := "running"; c_role := "registry mirror";
       c_networks := []; c_ports := [];
       c_publishes_on_unspecified_address := false;
       c_mounts := [];
       c_depends_on := [] |}];
  s_images :=
    [{| im_image := "nginx:1.27-alpine"; im_containers := ["gateway" : rstr]; im_status := "running" |};
     {| im_image := "python:3.11-slim"; im_containers := ["api" : rstr; "worker" : rstr]; im_status := "running" |};
     {| im_image := "postgres:16-alpine"; im_containers := ["postgres" : rstr]; im_status := "running" |};
     {| im_image := "redis:7-alpine"; im_containers := ["redis" : rstr]; im_status := "running" |};
     {| im_image := "ghcr.io/dockermap/example:1.0"; im_containers := ["registry" : rstr]; im_status := "running" |}];
  s_networks :=
    [{| n_id := "network_edge"; n_name := "edge"; n_driver := "bridge"; n_internal := false;
       n_members := ["gateway" : rstr] |};
     {| n_id := "network_app"; n_name := "application"; n_driver := "bridge"; n_internal := false;
       n_members := ["gateway" : rstr; "api" : rstr; "worker" : rstr] |};
     {| n_id := "network_data"; n_name := "data"; n_driver := "bridge"; n_internal := true;
       n_members := ["api" : rstr; "worker" : rstr; "postgres" : rstr; "redis" : rstr] |}];
  s_volumes :=
    [{| v_id := "volume_postgres_data"; v_name := "postgres_data"; v_attached_to := ["postgres" : rstr] |};
     {| v_id := "volume_app_cache"; v_name := "app_cache"; v_attached_to := ["api" : rstr; "worker" : rstr] |}];
  s_last_updated := now; s_model_revision := []; s_source := None |}.
