(* ===== verification/Assembly.v ===== *)
(** * The public runtime map of a snapshot and the slots
      ([runtime_map_for_snapshot] in [crates/dockermap-daemon/src/cache_refresh.rs] and
      [runtime_map_from_collection] in [runtime_collection.rs])

    Retained provider collections are joined in the fixed slot order, their evidence is bound,
    relationships that name the local host are gated on an unambiguous host, the facts of
    Docker are derived around them and the whole is published. *)

From S2P Require Import Prelude RustStr RustNum Models Serial Identity Evidence Redaction Publication RuntimeTopology Findings Scheduler.

Section assembly.
Context `{Sha256} `{Json RuntimeMapNode} `{Json RuntimeMapEdge} `{Json RuntimeEvidenceRef}.

(** [edge.evidence_refs.clear()]. *)
Definition clear_refs (edge : RuntimeMapEdge) : RuntimeMapEdge := {|
  re_source := re_source edge; re_target := re_target edge; re_relationship := re_relationship edge;
  re_metadata := re_metadata edge; re_evidence_refs := [] |}.

Definition runtime_map_from_collection (snapshot : DockerSnapshot) (c : ProviderCollection)
    (docker_observation_revision : rstr) (mode : RuntimeMode) : option RuntimeMap :=
  runtime_map ← derive_runtime_map snapshot (pc_nodes c) (pc_edges c) (pc_diagnostics c)
                  docker_observation_revision;
  Some (redact_runtime_map
    (if mode != Mode_Docker
     then with_topology runtime_map (rm_nodes runtime_map) (clear_refs <$> rm_edges runtime_map)
     else runtime_map)).

(** The parts one slot adds, and its degradation diagnostic. *)
Definition slot_parts (slots : RuntimeProviderSlots) (slot : ProviderSlot)
    : option (ProviderCollection * list RuntimeMapDiagnostic) :=
  slot_state ← slots !! slot;
  let observation := ss_observation slot_state in
  let parts := match retained_collection observation with
    | Some c => {| pc_nodes := pc_nodes c; pc_edges := bind_slot_evidence slot (pc_edges c) slot_state;
                   pc_diagnostics := pc_diagnostics c; pc_states := [] |}
    | None => empty_collection
    end in
  match observation with
  | Obs_Fresh _ => Some (parts, [])
  | _ => message ← slot_diagnostic observation;
         Some (parts, [{| rd_provider := RP_Other; rd_severity := Sev_Warning; rd_message := message |}])
  end.

Definition is_canonical_host (node : RuntimeMapNode) : bool :=
  (rn_provider node == RP_Host) && (rn_kind node == RN_Host).

Definition has_exactly_one_canonical_host (nodes : list RuntimeMapNode) : bool :=
  match filterb (λ node, rn_id node == ("host_local" : rstr)) nodes with
  | [node] => is_canonical_host node
  | _ => false
  end.

(** One entry of the fold over [BTreeMap<String, (usize, bool)>]. *)
Definition count_identity (counts : gmap rstr (nat * bool)) (node : RuntimeMapNode) : gmap rstr (nat * bool) :=
  let '(count, is_tmux_session) := default (0, false) (counts !! rn_id node) in
  <[rn_id node := (S count, is_tmux_session || ((rn_provider node == RP_Tmux) && (rn_kind node == RN_TmuxSession)))]>
    counts.

Definition tmux_source_identities (nodes : list RuntimeMapNode) : gmap rstr (nat * bool) :=
  foldl count_identity ∅ nodes.

(** The closure of [retain]. *)
Definition host_gate (mode : RuntimeMode) (nodes : list RuntimeMapNode) (edge : RuntimeMapEdge) : bool :=
  if (re_target edge != ("host_local" : rstr)) || (re_relationship edge != RR_RunsOn) then true
  else if starts_with (re_source edge) "scheduled_job_" then has_exactly_one_canonical_host nodes
  else if starts_with (re_source edge) "tmux_session_" then
    (mode == Mode_Docker) && has_exactly_one_canonical_host nodes
    && is_some_and (tmux_source_identities nodes !! re_source edge)
         (λ p, let '(count, is_tmux_session) := p in (count =? 1)%nat && is_tmux_session)
  else true.

(** The collection the loop over the fixed slots builds, before the gate. *)
Definition combined_collection (parts : list ProviderCollection) : ProviderCollection := {|
  pc_nodes := parts ≫= pc_nodes; pc_edges := parts ≫= pc_edges;
  pc_diagnostics := parts ≫= pc_diagnostics; pc_states := [] |}.

Definition gated_collection (mode : RuntimeMode) (c : ProviderCollection) : ProviderCollection := {|
  pc_nodes := pc_nodes c; pc_edges := filterb (host_gate mode (pc_nodes c)) (pc_edges c);
  pc_diagnostics := pc_diagnostics c; pc_states := pc_states c |}.

Definition runtime_map_for_snapshot (snapshot : DockerSnapshot) (mode : RuntimeMode)
    (slots : RuntimeProviderSlots) (docker_observation_revision : rstr) : option RuntimeMap :=
  parts ← mapM (slot_parts slots) STATIC_PROVIDER_SLOTS;
  m ← runtime_map_from_collection snapshot (gated_collection mode (combined_collection parts.*1))
        docker_observation_revision mode;
  states ← provider_states_for slots;
  Some {| rm_nodes := rm_nodes m; rm_edges := rm_edges m;
          rm_diagnostics := rm_diagnostics m ++ concat parts.*2;
          rm_last_updated := rm_last_updated m; rm_model_revision := rm_model_revision m;
          rm_provider_states := states; rm_source := rm_source m |}.
End assembly.

Definition empty_runtime_map (last_updated : N) : RuntimeMap := {|
  rm_nodes := []; rm_edges := []; rm_diagnostics := []; rm_last_updated := last_updated;
  rm_model_revision := []; rm_provider_states := unavailable_provider_states; rm_source := None |}.

(** ** Names that publication keeps apart *)

Lemma redacted_value_plain : redact REDACTED_VALUE = REDACTED_VALUE.
Proof. by vm_compute. Qed.

(** A text is published either as the redaction mark or character by character. *)
Lemma redact_cases t : redact t = REDACTED_VALUE ∨ redact t = normalize_runtime_display_string t.
Proof.
  unfold redact_runtime_display_text, redact_sensitive_text.
  destruct (is_sensitive_text t); [left; by vm_compute|by right].
Qed.

Lemma redact_eq_inv t u : plain u = true → u ≠ REDACTED_VALUE → redact t = u → t = u.
Proof.
  intros Hp Hu E. destruct (redact_cases t) as [E'|E']; [congruence|].
  rewrite E' in E. by apply (proj1 (normalize_eq_plain u t Hp)).
Qed.

Lemma redact_starts_inv t p :
  plain p = true → starts_with REDACTED_VALUE p = false →
  starts_with (redact t) p = true → starts_with t p = true.
Proof.
  intros Hp Hr. destruct (redact_cases t) as [->| ->]; [by rewrite Hr|]. by rewrite starts_with_normalize.
Qed.

Lemma starts_with_disjoint t c p d q :
  starts_with t (c :: p) = true → c ≠ d → starts_with t (d :: q) = false.
Proof.
  rewrite starts_with_spec. intros (r & ->) Hcd. apply not_true_iff_false. rewrite starts_with_spec.
  intros (r' & E). injection E as E _. done.
Qed.

Section assembly_theorems.
Context `{Sha256} `{Json RuntimeMapNode} `{Json RuntimeMapEdge} `{Json RuntimeEvidenceRef}.

(** Docker contributes no node under the names of hosts and sessions. *)
Lemma docker_ids_apart s given n p :
  n ∈ inventory_nodes s ++ risk_nodes s given → one_of (head p) [Some 104; Some 116]%N = true →
  plain p = true → starts_with REDACTED_VALUE p = false →
  starts_with DOCKER_UNSPECIFIED_ADDRESS_PORT_RISK_ID p = false →
  starts_with DOCKER_DAEMON_STATE_RISK_ID p = false → starts_with (redact (rn_id n)) p = false.
Proof.
  intros Hn Hc Hp Hr Hu Hd. apply not_true_iff_false. intros Hs. apply redact_starts_inv in Hs; [|done..].
  apply elem_of_app in Hn as [Hn|Hn].
  - apply (inventory_ids_not (rn_id n) s); [|by apply list_elem_of_fmap_2].
    unfold one_of in Hc. apply bool_decide_eq_true in Hc.
    destruct p as [|c p]; [refute Hc|]. assert (Hcd : c ≠ 100%N ∧ c ≠ 110%N) by (split; intros ->; refute Hc).
    repeat apply Forall_cons_2; try apply Forall_nil_2; (eapply starts_with_disjoint; [exact Hs|naive_solver]).
  - unfold risk_nodes in Hn. apply elem_of_app in Hn as [Hn|Hn]; case_match; try (by apply elem_of_nil in Hn);
      apply list_elem_of_singleton in Hn as ->; first [exact (eq_true_false_abs _ Hs Hu)|exact (eq_true_false_abs _ Hs Hd)].
Qed.

(** ** The gates *)

Lemma has_exactly_one_spec nodes :
  has_exactly_one_canonical_host nodes = true →
  ∃ host, named_once nodes "host_local" host ∧ is_canonical_host host = true.
Proof.
  unfold has_exactly_one_canonical_host. destruct (filterb _ _) as [|n [|n' l]] eqn:E; try done.
  intros Hc. exists n. split; [|done].
  assert (Hn : n ∈ filterb (λ node, rn_id node == ("host_local" : rstr)) nodes) by (rewrite E; left).
  apply elem_of_filterb in Hn as [Hid Hn]. apply bool_decide_eq_true in Hid.
  split_and!; [done|done|]. by rewrite count_if_filterb, E.
Qed.

Definition is_tmux_session (node : RuntimeMapNode) : bool :=
  (rn_provider node == RP_Tmux) && (rn_kind node == RN_TmuxSession).

Lemma count_identities nodes m id :
  default (0, false) (foldl count_identity m nodes !! id)
  = ((default (0, false) (m !! id)).1 + count_if (λ n, rn_id n == id) nodes,
     (default (0, false) (m !! id)).2 || existsb (λ n, (rn_id n == id) && is_tmux_session n) nodes).
Proof.
  revert m. induction nodes as [|n nodes IH]; intros m; cbn [foldl count_if existsb].
  { rewrite Nat.add_0_r, orb_false_r. by destruct (default _ _). }
  rewrite IH. unfold count_identity at 1 2. fold (is_tmux_session n).
  destruct (decide (rn_id n = id)) as [->|Hne].
  - rewrite bool_decide_eq_true_2 by done. destruct (default (0, false) (m !! id)) as [c b].
    rewrite lookup_insert_eq. unfold default, Datatypes.id. cbn [from_option fst snd andb]. f_equal; [lia|]. by rewrite orb_assoc.
  - rewrite bool_decide_eq_false_2 by done. destruct (default (0, false) (m !! rn_id n)) as [c b].
    by rewrite !lookup_insert_ne by done.
Qed.

Lemma tmux_identity_spec nodes id :
  is_some_and (tmux_source_identities nodes !! id)
    (λ p, let '(count, is_tmux) := p in (count =? 1)%nat && is_tmux) = true →
  ∃ n, named_once nodes id n ∧ is_tmux_session n = true.
Proof.
  pose proof (count_identities nodes ∅ id) as Hc. rewrite lookup_empty in Hc. cbn [default fst snd orb] in Hc.
  unfold tmux_source_identities. destruct (foldl _ _ _ !! id) as [[c b]|]; [|done].
  cbn [is_some_and default] in *. unfold Datatypes.id in Hc. simpl in Hc. injection Hc as -> ->.
  intros [Hone%Nat.eqb_eq Hb]%andb_prop. apply existsb_bool_decide in Hb as (n & Hn & [Hid Ht]%andb_prop).
  exists n. split; [|done]. apply bool_decide_eq_true in Hid. by split_and!.
Qed.

(** ** The assembled map *)

(** What a slot retains went through [sanitized_for_retention]. *)
Definition sanitized (c : ProviderCollection) : Prop := ∃ c0, c = sanitized_for_retention c0.

Definition slots_sanitized (slots : RuntimeProviderSlots) : Prop :=
  ∀ slot s c, slots !! slot = Some s → retained_collection (ss_observation s) = Some c → sanitized c.

Lemma sanitized_node_id c n : sanitized c → n ∈ pc_nodes c → redact (rn_id n) = rn_id n.
Proof. intros [c0 ->] (n0 & -> & _)%list_elem_of_fmap. apply redact_idem. Qed.

Lemma sanitized_edge_source c e : sanitized c → e ∈ pc_edges c → redact (re_source e) = re_source e.
Proof.
  intros [c0 ->] (e0 & -> & _)%list_elem_of_fmap. unfold redact_runtime_edge.
  case_match; cbn [re_source]; apply redact_idem.
Qed.

(** Binding evidence keeps the ends of every edge. *)
Lemma with_evidence_source e marker refs : re_source (with_evidence e marker refs) = re_source e.
Proof. done. Qed.

Lemma bind_sources slot edges s : re_source <$> bind_slot_evidence slot edges s = re_source <$> edges.
Proof.
  assert (Hf : ∀ (f : RuntimeMapEdge → RuntimeMapEdge) (l : list RuntimeMapEdge), (∀ e, re_source (f e) = re_source e) →
    re_source <$> (f <$> l) = re_source <$> l).
  { intros f l Hf. rewrite <- list_fmap_compose. apply list_fmap_ext. intros i e _. apply Hf. }
  destruct slot; cbn [bind_slot_evidence]; try done;
    unfold bind_systemd_evidence, bind_npm_evidence, bind_cron_evidence, bind_tmux_evidence, clear_evidence;
    destruct (slot_attestation _ _); apply Hf; done.
Qed.

(** The parts of one slot. *)
Definition slot_part_of (slots : RuntimeProviderSlots) (slot : ProviderSlot) : ProviderCollection :=
  match slots !! slot with
  | None => empty_collection
  | Some s => match retained_collection (ss_observation s) with
    | Some c => {| pc_nodes := pc_nodes c; pc_edges := bind_slot_evidence slot (pc_edges c) s;
                   pc_diagnostics := pc_diagnostics c; pc_states := [] |}
    | None => empty_collection
    end
  end.

Lemma slot_parts_total slots slot :
  is_Some (slots !! slot) → ∃ ds, slot_parts slots slot = Some (slot_part_of slots slot, ds) ∧
    Forall (λ d, safe_text (rd_message d)) ds.
Proof.
  intros [s Hs]. unfold slot_parts, slot_part_of. rewrite Hs. cbn [mbind option_bind].
  assert (Hsafe : ∀ t : rstr, redact t = t → safe_text t) by (intros t <-; apply redact_safe).
  destruct (ss_observation s) as [|c|[c|]|[c|]|[c|]]; cbn [slot_diagnostic mbind option_bind];
    eexists; (split; [reflexivity|]); try apply Forall_nil_2; apply Forall_singleton, Hsafe; by vm_compute.
Qed.

Lemma slot_parts_all slots order :
  (∀ slot, slot ∈ order → is_Some (slots !! slot)) →
  ∃ parts, mapM (slot_parts slots) order = Some parts ∧ parts.*1 = slot_part_of slots <$> order ∧
    Forall (λ d, safe_text (rd_message d)) (concat parts.*2).
Proof.
  induction order as [|slot order IH]; intros Hall; [by exists []|].
  destruct (slot_parts_total slots slot) as (ds & E & Hds); [apply Hall; left|].
  destruct IH as (parts & Hp & Hp1 & Hp2); [intros ? ?; apply Hall; by right|].
  exists ((slot_part_of slots slot, ds) :: parts). cbn [mapM]. rewrite E. cbn [mbind option_bind].
  rewrite Hp. split; [done|]. rewrite !fmap_cons. cbn [fst snd concat]. rewrite Hp1, Forall_app. done.
Qed.

(** The collection that is published around the facts of Docker. *)
Definition assembled (mode : RuntimeMode) (slots : RuntimeProviderSlots) : ProviderCollection :=
  gated_collection mode (combined_collection (slot_part_of slots <$> STATIC_PROVIDER_SLOTS)).

Lemma assembled_node mode slots n :
  n ∈ pc_nodes (assembled mode slots) ↔
  ∃ slot s c, slots !! slot = Some s ∧ retained_collection (ss_observation s) = Some c ∧ n ∈ pc_nodes c.
Proof.
  cbn [assembled gated_collection combined_collection pc_nodes]. rewrite list_elem_of_bind.
  setoid_rewrite list_elem_of_fmap. split.
  - intros (part & Hn & slot & -> & _). unfold slot_part_of in Hn.
    destruct (slots !! slot) as [s|] eqn:Es; [|by apply elem_of_nil in Hn].
    destruct (retained_collection _) as [c|] eqn:Ec; [|by apply elem_of_nil in Hn]. by exists slot, s, c.
  - intros (slot & s & c & Hs & Hc & Hn). exists (slot_part_of slots slot). split; [|exists slot; split; [done|apply static_slots_all]].
    unfold slot_part_of. by rewrite Hs, Hc.
Qed.

Lemma assembled_edge mode slots e :
  e ∈ pc_edges (assembled mode slots) → host_gate mode (pc_nodes (assembled mode slots)) e = true ∧
  ∃ slot s c, slots !! slot = Some s ∧ retained_collection (ss_observation s) = Some c ∧
    re_source e ∈ re_source <$> pc_edges c.
Proof.
  cbn [assembled gated_collection combined_collection pc_nodes pc_edges].
  intros [Hg He]%elem_of_filterb. split; [done|].
  apply list_elem_of_bind in He as (part & He & (slot & -> & _)%list_elem_of_fmap). unfold slot_part_of in He.
  destruct (slots !! slot) as [s|] eqn:Es; [|by apply elem_of_nil in He].
  destruct (retained_collection _) as [c|] eqn:Ec; [|by apply elem_of_nil in He].
  exists slot, s, c. split_and!; [done|done|]. rewrite <- (bind_sources slot (pc_edges c) s).
  by apply list_elem_of_fmap_2.
Qed.

(** Counting published ids among the records of providers and of Docker. *)
Lemma published_count (given others : list RuntimeMapNode) (id : rstr) :
  (∀ n, n ∈ given → redact (rn_id n) = rn_id n) →
  (∀ n, n ∈ others → redact (rn_id n) ≠ id) →
  count_if (λ n, rn_id n == id) (redact_runtime_nodes (given ++ others)) = count_if (λ n, rn_id n == id) given.
Proof.
  intros Hg Ho. unfold redact_runtime_nodes. rewrite count_if_map, count_if_app.
  rewrite (proj2 (count_if_zero _ others)), Nat.add_0_r.
  2:{ intros n Hn. unfold compose. cbn [rn_id redact_runtime_node]. apply bool_decide_eq_false. by apply Ho. }
  induction given as [|n l IH]; [done|]. cbn [count_if]. unfold compose at 1. cbn [rn_id redact_runtime_node].
  rewrite Hg by left. rewrite IH by (intros ? ?; apply Hg; by right). done.
Qed.

Lemma published_named_once (m : RuntimeMap) (given others : list RuntimeMapNode) (id : rstr) n :
  rm_nodes m ≡ₚ redact_runtime_nodes (given ++ others) →
  (∀ n, n ∈ given → redact (rn_id n) = rn_id n) →
  (∀ n, n ∈ others → redact (rn_id n) ≠ id) →
  named_once given id n → named_once (rm_nodes m) id (redact_runtime_node n).
Proof.
  intros Hp Hg Ho (Hn & Hid & Hc). unfold named_once. rewrite Hp. split_and!.
  - unfold redact_runtime_nodes. apply list_elem_of_fmap_2, elem_of_app. by left.
  - cbn [rn_id redact_runtime_node]. rewrite Hg; done.
  - by rewrite published_count.
Qed.

(** The two gated relationships. *)
Definition gated_source (source : rstr) : Prop :=
  starts_with source "scheduled_job_" = true ∨ starts_with source "tmux_session_" = true.

Lemma host_gate_spec mode nodes e :
  host_gate mode nodes e = true → re_target e = "host_local" → re_relationship e = RR_RunsOn →
  gated_source (re_source e) →
  (∃ host, named_once nodes "host_local" host ∧ is_canonical_host host = true) ∧
  (starts_with (re_source e) "tmux_session_" = true → mode = Mode_Docker ∧
   ∃ n, named_once nodes (re_source e) n ∧ is_tmux_session n = true).
Proof.
  unfold host_gate. intros Hg Ht Hr Hs. rewrite Ht, Hr in Hg.
  rewrite !bool_decide_eq_true_2 in Hg by done. cbn [negb orb] in Hg.
  destruct (starts_with (re_source e) "scheduled_job_") eqn:Es.
  - split; [by apply has_exactly_one_spec|]. intros Ht'.
    assert (Hn : starts_with (re_source e) "tmux_session_" = false) by (eapply starts_with_disjoint; [exact Es|done]).
    congruence.
  - destruct Hs as [?|Hs]; [congruence|]. rewrite Hs in Hg.
    apply andb_prop in Hg as [[Hm%bool_decide_eq_true Hh]%andb_prop Ht'].
    split; [by apply has_exactly_one_spec|]. intros _. split; [done|]. by apply tmux_identity_spec.
Qed.

(** No fact of Docker has such a source. *)
Lemma fact_source_not_gated s given source target relationship kind :
  docker_fact s given source target relationship kind → ¬ gated_source (redact source).
Proof.
  intros Hf%docker_fact_source. apply list_elem_of_fmap in Hf as (n & -> & Hn).
  assert (Hin : n ∈ inventory_nodes s ++ risk_nodes s given) by (apply elem_of_app; by left).
  intros [Hs|Hs]; [|rewrite (docker_ids_apart s given n) in Hs; done].
  apply redact_starts_inv in Hs; [|done..].
  apply (inventory_ids_not (rn_id n) s); [|by apply list_elem_of_fmap_2].
  repeat apply Forall_cons_2; try apply Forall_nil_2; (eapply starts_with_disjoint; [exact Hs|done]).
Qed.

Lemma redacted_edge_ends e :
  re_source (redact_runtime_edge e) = redact (re_source e) ∧ re_target (redact_runtime_edge e) = redact (re_target e) ∧
  re_relationship (redact_runtime_edge e) = re_relationship e ∧
  (re_evidence_refs e = [] → re_evidence_refs (redact_runtime_edge e) = []).
Proof.
  unfold redact_runtime_edge. case_match; cbn [re_source re_target re_relationship re_evidence_refs];
    split_and!; try done. intros ->. done.
Qed.

(** What publishing a collection around the facts of Docker gives. *)
Lemma from_collection_facts snapshot c (revision : rstr) mode :
  revision ≠ [] →
  ∃ m, runtime_map_from_collection snapshot c revision mode = Some m ∧
    rm_nodes m ≡ₚ redact_runtime_nodes (pc_nodes c ++ inventory_nodes snapshot ++ risk_nodes snapshot (pc_nodes c)) ∧
    Forall safe_text (map_strings m) ∧ endpoints_exist m ∧ NoDup (rm_edges m) ∧
    rm_last_updated m = s_last_updated snapshot ∧
    ∀ e, e ∈ rm_edges m → has_valid_evidence_refs e = true ∧ (mode ≠ Mode_Docker → re_evidence_refs e = []) ∧
      ∃ e0, re_source e = redact (re_source e0) ∧ re_target e = redact (re_target e0) ∧
        re_relationship e = re_relationship e0 ∧
        (e0 ∈ pc_edges c ∨ ∃ target relationship kind,
           docker_fact snapshot (pc_nodes c) (re_source e0) target relationship kind).
Proof.
  intros Hr. unfold runtime_map_from_collection.
  destruct (derive_runtime_map_total snapshot (pc_nodes c) (pc_edges c) (pc_diagnostics c) revision Hr)
    as (m1 & -> & Hn & _ & Hl & _ & He). cbn [mbind option_bind].
  set (m2 := if mode != Mode_Docker then _ else m1).
  assert (Hm2 : rm_nodes m2 = rm_nodes m1 ∧ rm_last_updated m2 = rm_last_updated m1 ∧
    ∀ e, e ∈ rm_edges m2 → (mode ≠ Mode_Docker → re_evidence_refs e = []) ∧
      ∃ e1, e1 ∈ rm_edges m1 ∧ re_source e = re_source e1 ∧ re_target e = re_target e1 ∧
        re_relationship e = re_relationship e1).
  { unfold m2. case_bool_decide as Hm; cbn [negb with_topology rm_nodes rm_last_updated rm_edges]; split_and!; try done.
    - intros e Hin. split; [done|]. eauto.
    - intros e (e1 & -> & Hin)%list_elem_of_fmap. split; [done|]. eauto. }
  destruct Hm2 as (Hn2 & Hl2 & He2).
  destruct (redact_map_facts m2) as (Hnodes & Hsafe & Hend & Hnd & Hedges). eexists. split; [done|].
  split_and!; try done.
  - by rewrite Hnodes, Hn2, Hn, sort_by_json_Permutation.
  - cbn [redact_runtime_map normalize_runtime_map_topology with_topology rm_last_updated]. congruence.
  - intros e Hin. rewrite Forall_forall in Hedges. destruct (Hedges e Hin) as (Hv & e2 & Hin2 & ->).
    destruct (He2 e2 Hin2) as (Hmock & e1 & Hin1 & Hs & Ht & Hrel).
    destruct (redacted_edge_ends e2) as (Es & Et & Er & Ev). split_and!; [done|intros Hm; by apply Ev, Hmock|].
    exists e1. split_and!; [congruence..|]. apply He in Hin1 as [?|(src & tgt & rel & kind & Hf & ->)]; [by left|right].
    eauto.
Qed.

(** The public state of every slot, and nothing else. *)
Lemma provider_states_all slots : all_slots slots →
  ∃ states, provider_states_for slots = Some states ∧
    ∀ st, st ∈ states → ∃ slot s, slots !! slot = Some s ∧ st = provider_state_for slot s.
Proof.
  intros Hall. destruct (mapM_Some_exists (λ slot, provider_state_for slot <$> slots !! slot) STATIC_PROVIDER_SLOTS)
    as (states & Hs & Hin); [intros slot _; destruct (Hall slot) as [s ->]; by eexists|].
  exists states. split; [done|]. intros st (slot & _ & Es)%Hin. apply fmap_Some in Es as (s & Hl & ->). eauto.
Qed.

Lemma runtime_map_for_snapshot_total snapshot mode slots (revision : rstr) :
  all_slots slots → slots_sanitized slots → revision ≠ [] →
  ∃ m, runtime_map_for_snapshot snapshot mode slots revision = Some m ∧
    rm_last_updated m = s_last_updated snapshot ∧ provider_states_for slots = Some (rm_provider_states m) ∧
    (∀ slot s c n, slots !! slot = Some s → retained_collection (ss_observation s) = Some c →
       n ∈ pc_nodes c → redact_runtime_node n ∈ rm_nodes m) ∧
    Forall safe_text (map_strings m) ∧ endpoints_exist m ∧ NoDup (rm_edges m) ∧
    ∀ e, e ∈ rm_edges m →
      has_valid_evidence_refs e = true ∧ (mode ≠ Mode_Docker → re_evidence_refs e = []) ∧
      (re_target e = "host_local" → re_relationship e = RR_RunsOn → gated_source (re_source e) →
       (∃ host, named_once (rm_nodes m) "host_local" host ∧ is_canonical_host host = true) ∧
       (starts_with (re_source e) "tmux_session_" = true → mode = Mode_Docker ∧
        ∃ n, named_once (rm_nodes m) (re_source e) n ∧ is_tmux_session n = true)).
Proof.
  intros Hall Hsan Hrev. unfold runtime_map_for_snapshot.
  destruct (slot_parts_all slots STATIC_PROVIDER_SLOTS (λ s _, Hall s)) as (parts & -> & Hparts & Hdiag).
  cbn [mbind option_bind]. rewrite Hparts. fold (assembled mode slots).
  destruct (from_collection_facts snapshot (assembled mode slots) revision mode Hrev)
    as (m & -> & Hnodes & Hsafe & Hend & Hnd & Hl & Hedges). cbn [mbind option_bind].
  destruct (provider_states_all slots Hall) as (states & Hst & _). rewrite Hst. cbn [mbind option_bind].
  assert (Hgiven : ∀ n, n ∈ pc_nodes (assembled mode slots) → redact (rn_id n) = rn_id n).
  { intros n (slot & s & c & Hs & Hc & Hn)%assembled_node. eapply sanitized_node_id; [|done]. by eapply Hsan. }
  assert (Hothers : ∀ p n, one_of (head p) [Some 104; Some 116]%N = true → plain p = true →
    starts_with REDACTED_VALUE p = false → starts_with DOCKER_UNSPECIFIED_ADDRESS_PORT_RISK_ID p = false →
    starts_with DOCKER_DAEMON_STATE_RISK_ID p = false →
    n ∈ inventory_nodes snapshot ++ risk_nodes snapshot (pc_nodes (assembled mode slots)) →
    starts_with (redact (rn_id n)) p = false) by eauto using docker_ids_apart.
  eexists. split; [reflexivity|]. cbn [rm_nodes rm_edges rm_last_updated rm_provider_states].
  split_and!; try done.
  - intros slot s c n Hs Hc Hn. rewrite Hnodes. unfold redact_runtime_nodes.
    apply list_elem_of_fmap_2, elem_of_app. left. apply assembled_node. by exists slot, s, c.
  - unfold map_strings in *. cbn [rm_nodes rm_edges rm_diagnostics]. rewrite !Forall_app in Hsafe |- *.
    destruct Hsafe as (? & ? & ?). split_and!; try done. rewrite fmap_app, Forall_app. split; [done|].
    by apply Forall_fmap.
  - intros e He. destruct (Hedges e He) as (Hv & Hmock & e0 & Es & Et & Er & Horig). split_and!; [done|done|].
    intros Ht Hr Hg. rewrite Es in Hg |- *. rewrite Et in Ht.
    destruct Horig as [He0|(tgt & rel & kind & Hf)].
    2:{ by apply fact_source_not_gated in Hf. }
    apply assembled_edge in He0 as (Hgate & slot & s & c & Hs & Hc & Hsrc).
    apply list_elem_of_fmap in Hsrc as (e1 & Hsrc & He1).
    assert (Hid : redact (re_source e0) = re_source e0).
    { rewrite Hsrc. eapply sanitized_edge_source; [by eapply Hsan|done]. }
    rewrite Hid in Hg |- *. apply redact_eq_inv in Ht; [|done|done].
    destruct (host_gate_spec _ _ _ Hgate Ht ltac:(congruence) Hg) as [(host & Hh & Hcan) Htmux].
    assert (Hnamed : ∀ id n, named_once (pc_nodes (assembled mode slots)) id n →
      (∀ n, n ∈ inventory_nodes snapshot ++ risk_nodes snapshot (pc_nodes (assembled mode slots)) → redact (rn_id n) ≠ id) →
      named_once (rm_nodes m) id (redact_runtime_node n)).
    { intros id n Hn Ho. by eapply published_named_once. }
    split.
    + exists (redact_runtime_node host). split; [|done]. apply Hnamed; [done|]. intros n Hn E.
      pose proof (Hothers ("host_local" : rstr) n eq_refl eq_refl eq_refl eq_refl eq_refl Hn) as Hs'. by rewrite E in Hs'.
    + intros Hts. destruct (Htmux Hts) as (Hm & n & Hn & Hnt). split; [done|].
      exists (redact_runtime_node n). split; [|done]. apply Hnamed; [done|]. intros n' Hn' E.
      pose proof (Hothers ("tmux_session_" : rstr) n' eq_refl eq_refl eq_refl eq_refl eq_refl Hn') as Hs'. congruence.
Qed.

(** C22: The assembled map. With every fixed slot present and its retained data sanitized, and a
    docker observation revision, assembling never panics and gives a map with the time of the
    snapshot and the public states of the slots, in which: every retained provider node
    appears; every string is safe; every edge joins two nodes and carries only evidence the
    model accepts on it, and none at all when the source is not Docker; and a scheduled job or
    a tmux session runs on the local host only when exactly one published node has that id and
    is the canonical host, and for a session only from live Docker and when its id names one
    published tmux session and nothing else. *)
Theorem runtime_map_for_snapshot_spec snapshot mode slots (revision : rstr) :
  all_slots slots → slots_sanitized slots → revision ≠ [] →
  ∃ m, runtime_map_for_snapshot snapshot mode slots revision = Some m ∧
    rm_last_updated m = s_last_updated snapshot ∧ provider_states_for slots = Some (rm_provider_states m) ∧
    (∀ slot s c n, slots !! slot = Some s → retained_collection (ss_observation s) = Some c →
       n ∈ pc_nodes c → redact_runtime_node n ∈ rm_nodes m) ∧
    Forall safe_text (map_strings m) ∧ endpoints_exist m ∧ NoDup (rm_edges m) ∧
    ∀ e, e ∈ rm_edges m →
      has_valid_evidence_refs e = true ∧ (mode ≠ Mode_Docker → re_evidence_refs e = []) ∧
      (re_target e = "host_local" → re_relationship e = RR_RunsOn → gated_source (re_source e) →
       (∃ host, named_once (rm_nodes m) "host_local" host ∧ is_canonical_host host = true) ∧
       (starts_with (re_source e) "tmux_session_" = true → mode = Mode_Docker ∧
        ∃ n, named_once (rm_nodes m) (re_source e) n ∧ is_tmux_session n = true)).
Proof. apply runtime_map_for_snapshot_total. Qed.
End assembly_theorems.

(** ** Examples *)

(** A host, a cron job that runs on it, and no container. *)
Definition example_host_node : RuntimeMapNode := {|
  rn_id := "host_local"; rn_provider := RP_Host; rn_kind := RN_Host; rn_label := "host"; rn_status := None;
  rn_layer := None; rn_metadata := ∅; rn_service := None; rn_package := None |}.

Definition example_job_node : RuntimeMapNode := {|
  rn_id := "scheduled_job_backup"; rn_provider := RP_ScheduledJob; rn_kind := RN_Host; rn_label := "backup";
  rn_status := None; rn_layer := None; rn_metadata := ∅; rn_service := None; rn_package := None |}.

Section example.
#[local] Existing Instance Toy_sha256.
#[local] Instance example_node_json : Json RuntimeMapNode := Json_of_countable _.
#[local] Instance example_edge_json : Json RuntimeMapEdge := Json_of_countable _.
#[local] Instance example_evidence_json : Json RuntimeEvidenceRef := Json_of_countable _.

Definition example_retained : ProviderCollection :=
  sanitized_for_retention {| pc_nodes := [example_host_node; example_job_node];
    pc_edges := [example_cron_edge]; pc_diagnostics := []; pc_states := example_states PS_Fresh |}.

Definition example_empty_snapshot : DockerSnapshot := {|
  s_containers := []; s_images := []; s_networks := []; s_volumes := []; s_last_updated := 3;
  s_model_revision := []; s_source := None |}.

Lemma example_sanitized : slots_sanitized (example_slots example_retained).
Proof.
  intros slot s c Hs Hc. destruct (decide (slot = Slot_Cron)) as [->|Hne].
  - unfold example_slots in Hs. rewrite lookup_insert_eq in Hs. injection Hs as <-. injection Hc as <-. by eexists.
  - unfold example_slots in Hs. rewrite lookup_insert_ne in Hs by done.
    assert (E : unavailable_provider_slots !! slot = Some slot_default) by (destruct slot; by vm_compute).
    rewrite E in Hs. injection Hs as <-. discriminate Hc.
Qed.

Lemma runtime_map_for_snapshot_spec_witness :
  ∃ m e host, runtime_map_for_snapshot example_empty_snapshot Mode_Docker (example_slots example_retained) "r" = Some m ∧
    e ∈ rm_edges m ∧ re_source e = "scheduled_job_backup" ∧ named_once (rm_nodes m) "host_local" host.
Proof.
  destruct (runtime_map_for_snapshot_spec example_empty_snapshot Mode_Docker (example_slots example_retained) "r"
    (example_all_slots _) example_sanitized ltac:(done)) as (m & E & _ & _ & _ & _ & _ & _ & Hedges).
  assert (Hin : existsb (λ e, (re_source e == ("scheduled_job_backup" : rstr)) && (re_target e == ("host_local" : rstr))
      && (re_relationship e == RR_RunsOn)) (default [] (rm_edges <$> Some m)) = true).
  { rewrite <- E. vm_compute. reflexivity. }
  apply existsb_bool_decide in Hin as (e & He & [[Hs%bool_decide_eq_true Ht%bool_decide_eq_true]%andb_prop
    Hr%bool_decide_eq_true]%andb_prop).
  destruct (Hedges e He) as (_ & _ & Hgate).
  destruct (Hgate Ht Hr) as [(host & Hh & _) _].
  { left. rewrite Hs. vm_compute. reflexivity. }
  exists m, e, host. split; [exact E|]. split; [exact He|]. split; [exact Hs|exact Hh].
Defined.
End example.
