(* ===== verification/Cache.v ===== *)
(** * The daemon's cache ([crates/dockermap-daemon/src/cache_refresh.rs])

    The published snapshot, health, runtime map and findings, the provider slots, the opaque
    revisions and the observed history, with every operation on them. The bytes of the OS
    CSPRNG, the process boot component, the clocks and the results of the collectors are
    arguments; a panic of the source ([expect]) is [None]. *)

From S2P Require Import Prelude RustStr RustNum Models Serial Identity Evidence Redaction Publication ObservedHistory Graph RuntimeTopology Findings ComposeBinding Scheduler Assembly Fixtures.

(** ** Opaque revisions

    [PublicationRevision], [DockerObservationRevision] and [IntegrityObservationRevision] have
    the same fields and the same rule; they differ in what they observe. *)

Record Revision (A : Type) := { rv_boot : rstr; rv_sequence : N; rv_last : option A }.
Arguments rv_boot {A} _.
Arguments rv_sequence {A} _.
Arguments rv_last {A} _.

Notation PublicationRevision := (Revision rstr).
Notation DockerObservationRevision := (Revision rstr).
Notation IntegrityObservationRevision := (Revision bool).

Definition revision_new {A} (boot : rstr) : Revision A := {| rv_boot := boot; rv_sequence := 0; rv_last := None |}.

Definition revision_current {A} (r : Revision A) : rstr := rv_boot r +s+ "-" +s+ dec_str (rv_sequence r).

(** [if self.last != Some(seen) { self.sequence = checked_add(1).expect(..); self.last = .. }]. *)
Definition revision_see {A} `{EqDecision A} (r : Revision A) (seen : A) : option (Revision A) :=
  if rv_last r == Some seen then Some r
  else
    sequence ← checked_add u64_max (rv_sequence r) 1;
    Some {| rv_boot := rv_boot r; rv_sequence := sequence; rv_last := Some seen |}.

(** ** The cache *)

Record DaemonCache := {
  dc_snapshot : DockerSnapshot;
  dc_health : HealthResponse;
  dc_runtime_map : RuntimeMap;
  dc_findings : FindingsResponse;
  dc_compose_runtime_binding : option (ComposeScan * ComposeRuntimeBinding);
  dc_runtime_providers : RuntimeProviderSlots;
  dc_source_generation : N;
  dc_docker_observation_revision : DockerObservationRevision;
  dc_integrity_observation_revision : IntegrityObservationRevision;
  dc_revision : PublicationRevision;
  dc_observed_history : ObservedHistoryCache
}.

Definition dc_mode (c : DaemonCache) : RuntimeMode := h_mode (dc_health c).

(** *** What a publication is compared by *)

Definition with_snapshot_markers (s : DockerSnapshot) (last_updated : N) (revision : rstr) : DockerSnapshot := {|
  s_containers := s_containers s; s_images := s_images s; s_networks := s_networks s; s_volumes := s_volumes s;
  s_last_updated := last_updated; s_model_revision := revision; s_source := s_source s |}.

Definition clear_collected_at (ev : RuntimeEvidenceRef) : RuntimeEvidenceRef := {|
  ev_version := ev_version ev; ev_id := ev_id ev; ev_provider := ev_provider ev; ev_kind := ev_kind ev;
  ev_assertion_kind := ev_assertion_kind ev; ev_summary := ev_summary ev; ev_subject_ref := ev_subject_ref ev;
  ev_collected_at := 0; ev_provider_revision := ev_provider_revision ev;
  ev_provider_slot := ev_provider_slot ev; ev_freshness := ev_freshness ev |}.

Definition clear_edge_times (e : RuntimeMapEdge) : RuntimeMapEdge := {|
  re_source := re_source e; re_target := re_target e; re_relationship := re_relationship e;
  re_metadata := re_metadata e; re_evidence_refs := clear_collected_at <$> re_evidence_refs e |}.

Definition clear_volatile_observation_markers (s : DockerSnapshot) (h : HealthResponse) (m : RuntimeMap)
    : DockerSnapshot * HealthResponse * RuntimeMap :=
  (with_snapshot_markers s 0 [],
   {| h_status := h_status h; h_mode := h_mode h; h_docker_reachable := h_docker_reachable h;
      h_last_updated := 0; h_snapshot_version := []; h_model_revision := []; h_message := h_message h |},
   {| rm_nodes := rm_nodes m; rm_edges := clear_edge_times <$> rm_edges m; rm_diagnostics := rm_diagnostics m;
      rm_last_updated := 0; rm_model_revision := []; rm_provider_states := rm_provider_states m;
      rm_source := rm_source m |}).

Definition snapshot_observation_token (last_updated : N) : rstr := dec_str last_updated.

Section cache.
Context `{Sha256} `{Json RuntimeMapNode} `{Json RuntimeMapEdge} `{Json RuntimeEvidenceRef}.
Context `{Json (list RuntimeMapNode * list RuntimeMapEdge * list RuntimeMapDiagnostic * list ProviderState)}.
Context `{Json (DockerSnapshot * HealthResponse * RuntimeMap)} `{Json (RuntimeMode * DockerSnapshot)}.

(** The model that routes expose, without the observation markers. *)
Definition public_model (s : DockerSnapshot) (h : HealthResponse) (m : RuntimeMap)
    : DockerSnapshot * HealthResponse * RuntimeMap :=
  clear_volatile_observation_markers (publish_docker_snapshot s) (redact_health_response h) (redact_runtime_map m).

Definition with_health_revision (h : HealthResponse) (revision : rstr) : HealthResponse := {|
  h_status := h_status h; h_mode := h_mode h; h_docker_reachable := h_docker_reachable h;
  h_last_updated := h_last_updated h; h_snapshot_version := h_snapshot_version h;
  h_model_revision := revision; h_message := h_message h |}.

Definition with_map_revision (m : RuntimeMap) (revision : rstr) : RuntimeMap := {|
  rm_nodes := rm_nodes m; rm_edges := rm_edges m; rm_diagnostics := rm_diagnostics m;
  rm_last_updated := rm_last_updated m; rm_model_revision := revision;
  rm_provider_states := rm_provider_states m; rm_source := rm_source m |}.

(** [PublicationRevision::assign]. *)
Definition publication_assign (r : PublicationRevision) (s : DockerSnapshot) (h : HealthResponse) (m : RuntimeMap)
    : option (PublicationRevision * DockerSnapshot * HealthResponse * RuntimeMap) :=
  r ← revision_see r (to_json (public_model s h m));
  let revision := revision_current r in
  Some (r, with_snapshot_markers s (s_last_updated s) revision, with_health_revision h revision,
        with_map_revision m revision).

(** [DockerObservationRevision::assign]. *)
Definition docker_observation_assign (r : DockerObservationRevision) (s : DockerSnapshot) (mode : RuntimeMode)
    : option DockerObservationRevision :=
  revision_see r (to_json (mode, with_snapshot_markers (publish_docker_snapshot s) 0 [])).

Definition docker_observation_token (c : DaemonCache) : rstr :=
  revision_current (dc_docker_observation_revision c).

Definition with_binding_revision (b : ComposeRuntimeBinding) (revision : rstr) : ComposeRuntimeBinding := {|
  crb_project := crb_project b; crb_config_files := crb_config_files b; crb_containers := crb_containers b;
  crb_collected_at := crb_collected_at b; crb_provider_revision := revision; crb_fresh := crb_fresh b |}.

(** The findings of a publication: of the map, and of the Compose binding in Docker mode. *)
Definition cache_findings (m : RuntimeMap) (mode : RuntimeMode)
    (binding : option (ComposeScan * ComposeRuntimeBinding)) (token : rstr) : option (list Finding) :=
  findings ← derive_findings m;
  more ← match mode, binding with
         | Mode_Docker, Some (scan, b) => derive_compose_runtime_mount_findings scan (with_binding_revision b token)
         | _, _ => Some []
         end;
  Some (sort_by (λ left right, str_leb (f_id left) (f_id right)) (findings ++ more)).

Definition assign_revision (c : DaemonCache) : option DaemonCache :=
  '(r, s, h, m) ← publication_assign (dc_revision c) (dc_snapshot c) (dc_health c) (dc_runtime_map c);
  findings ← cache_findings m (h_mode h) (dc_compose_runtime_binding c) (docker_observation_token c);
  Some {|
    dc_snapshot := s; dc_health := h; dc_runtime_map := m;
    dc_findings := {| fr_findings := findings; fr_summary := from_findings findings;
                      fr_model_revision := rm_model_revision m; fr_source := None |};
    dc_compose_runtime_binding := dc_compose_runtime_binding c; dc_runtime_providers := dc_runtime_providers c;
    dc_source_generation := dc_source_generation c;
    dc_docker_observation_revision := dc_docker_observation_revision c;
    dc_integrity_observation_revision := dc_integrity_observation_revision c;
    dc_revision := r; dc_observed_history := dc_observed_history c |}.

(** [assign_docker_observation_revision]. *)
Definition assign_docker_observation_revision (c : DaemonCache) : option DaemonCache :=
  r ← docker_observation_assign (dc_docker_observation_revision c) (dc_snapshot c) (dc_mode c);
  Some {|
    dc_snapshot := dc_snapshot c; dc_health := dc_health c; dc_runtime_map := dc_runtime_map c;
    dc_findings := dc_findings c; dc_compose_runtime_binding := dc_compose_runtime_binding c;
    dc_runtime_providers := dc_runtime_providers c; dc_source_generation := dc_source_generation c;
    dc_docker_observation_revision := r;
    dc_integrity_observation_revision := dc_integrity_observation_revision c;
    dc_revision := dc_revision c; dc_observed_history := dc_observed_history c |}.

Definition with_map (c : DaemonCache) (m : RuntimeMap) (integrity : IntegrityObservationRevision) : DaemonCache := {|
  dc_snapshot := dc_snapshot c; dc_health := dc_health c; dc_runtime_map := m;
  dc_findings := dc_findings c; dc_compose_runtime_binding := dc_compose_runtime_binding c;
  dc_runtime_providers := dc_runtime_providers c; dc_source_generation := dc_source_generation c;
  dc_docker_observation_revision := dc_docker_observation_revision c;
  dc_integrity_observation_revision := integrity;
  dc_revision := dc_revision c; dc_observed_history := dc_observed_history c |}.

Definition apply_runtime_identity_collision_fact (c : DaemonCache) : option DaemonCache :=
  let active := (dc_mode c == Mode_Docker) && runtime_map_has_identity_collision (dc_runtime_map c) in
  integrity ← revision_see (dc_integrity_observation_revision c) active;
  Some (with_map c
    (if active
     then (append_runtime_identity_collision_fact (dc_runtime_map c) (revision_current integrity)
             (s_last_updated (dc_snapshot c))).1
     else dc_runtime_map c) integrity).

Definition rebuild_runtime_map (c : DaemonCache) : option DaemonCache :=
  c ← assign_docker_observation_revision c;
  m ← runtime_map_for_snapshot (dc_snapshot c) (dc_mode c) (dc_runtime_providers c) (docker_observation_token c);
  apply_runtime_identity_collision_fact (with_map c m (dc_integrity_observation_revision c)).

Definition observed_history_response (c : DaemonCache) : ObservedChangeHistoryResponse :=
  history_response (dc_observed_history c) (dc_mode c) (s_model_revision (dc_snapshot c))
    (docker_observation_token c).

(** *** New caches *)

(** The random components of a new cache: of its two observation revisions and its history. *)
Record Boots := { boot_docker : list N; boot_integrity : list N; boot_history : list N }.

(** The parts every new cache starts from; [process_boot] is [boot_instance_component()]. *)
Definition fresh_cache (process_boot : rstr) (b : Boots) (s : DockerSnapshot) (h : HealthResponse) (m : RuntimeMap)
    (binding : option (ComposeScan * ComposeRuntimeBinding)) : DaemonCache := {|
  dc_snapshot := s; dc_health := h; dc_runtime_map := m;
  dc_findings := {| fr_findings := []; fr_summary := summary_default; fr_model_revision := []; fr_source := None |};
  dc_compose_runtime_binding := binding; dc_runtime_providers := unavailable_provider_slots;
  dc_source_generation := 0;
  dc_docker_observation_revision := revision_new (opaque_revision_boot_component (boot_docker b));
  dc_integrity_observation_revision := revision_new (opaque_revision_boot_component (boot_integrity b));
  dc_revision := revision_new process_boot;
  dc_observed_history := history_new (boot_history b) |}.

Definition with_images (s : DockerSnapshot) : DockerSnapshot := {|
  s_containers := s_containers s; s_images := derive_images s; s_networks := s_networks s;
  s_volumes := s_volumes s; s_last_updated := s_last_updated s; s_model_revision := s_model_revision s;
  s_source := s_source s |}.

Definition mock_health (last_updated : N) : HealthResponse := redact_health_response {|
  h_status := Health_Degraded; h_mode := Mode_Mock; h_docker_reachable := false; h_last_updated := last_updated;
  h_snapshot_version := snapshot_observation_token last_updated; h_model_revision := [];
  h_message := Some ("Docker unavailable, serving mock data" : rstr) |}.

(** [DaemonCache::mock], at the time [now]. *)
Definition cache_mock (process_boot : rstr) (b : Boots) (now : N) : option DaemonCache :=
  let snapshot := with_images (mock_snapshot now) in
  cache ← assign_docker_observation_revision
    (fresh_cache process_boot b snapshot (mock_health (s_last_updated snapshot))
       (empty_runtime_map (s_last_updated snapshot)) None);
  assign_revision cache.

(** *** Results of a Docker read *)

Inductive DockerRead :=
  | Read_forced_mock
  | Read_observed (snapshot : DockerSnapshot) (binding : option (ComposeScan * ComposeRuntimeBinding))
  | Read_failed (error : rstr)
  | Read_timed_out
  | Read_no_collector (error : rstr).

Definition with_message (c : DaemonCache) (message : rstr) : DaemonCache := {|
  dc_snapshot := dc_snapshot c;
  dc_health := {| h_status := h_status (dc_health c); h_mode := h_mode (dc_health c);
    h_docker_reachable := h_docker_reachable (dc_health c); h_last_updated := h_last_updated (dc_health c);
    h_snapshot_version := h_snapshot_version (dc_health c); h_model_revision := h_model_revision (dc_health c);
    h_message := Some message |};
  dc_runtime_map := dc_runtime_map c; dc_findings := dc_findings c;
  dc_compose_runtime_binding := dc_compose_runtime_binding c; dc_runtime_providers := dc_runtime_providers c;
  dc_source_generation := dc_source_generation c;
  dc_docker_observation_revision := dc_docker_observation_revision c;
  dc_integrity_observation_revision := dc_integrity_observation_revision c;
  dc_revision := dc_revision c; dc_observed_history := dc_observed_history c |}.

Definition with_redacted_health (c : DaemonCache) : DaemonCache := {|
  dc_snapshot := dc_snapshot c; dc_health := redact_health_response (dc_health c);
  dc_runtime_map := dc_runtime_map c; dc_findings := dc_findings c;
  dc_compose_runtime_binding := dc_compose_runtime_binding c; dc_runtime_providers := dc_runtime_providers c;
  dc_source_generation := dc_source_generation c;
  dc_docker_observation_revision := dc_docker_observation_revision c;
  dc_integrity_observation_revision := dc_integrity_observation_revision c;
  dc_revision := dc_revision c; dc_observed_history := dc_observed_history c |}.

(** The success arm of [collect_docker_snapshot_candidate]. *)
Definition docker_candidate (process_boot : rstr) (b : Boots) (observed : DockerSnapshot)
    (binding : option (ComposeScan * ComposeRuntimeBinding)) : DaemonCache :=
  let snapshot := with_images observed in
  fresh_cache process_boot b snapshot
    {| h_status := Health_Ok; h_mode := Mode_Docker; h_docker_reachable := true;
       h_last_updated := s_last_updated snapshot;
       h_snapshot_version := snapshot_observation_token (s_last_updated snapshot); h_model_revision := [];
       h_message := Some ("Docker engine connected" : rstr) |}
    (empty_runtime_map 0) binding.

(** [collect_snapshot_with_projection], on the result of the read. *)
Definition collect_snapshot (process_boot : rstr) (b : Boots) (now : N) (read : DockerRead) : option DaemonCache :=
  let mock (message : rstr) :=
    cache ← cache_mock process_boot b now; Some (with_redacted_health (with_message cache message)) in
  match read with
  | Read_forced_mock => mock "Mock mode forced by DOCKERMAP_FORCE_MOCK"
  | Read_observed snapshot binding => Some (with_redacted_health (docker_candidate process_boot b snapshot binding))
  | Read_failed error => mock ("Docker read failed, serving mock data: " +s+ error)
  | Read_timed_out => mock "Docker snapshot read timed out, serving mock data"
  | Read_no_collector error => mock ("Docker unavailable, serving mock data: " +s+ error)
  end.

(** *** Publishing a read *)

Definition same_collection_evidence (left right : DockerSnapshot) : bool :=
  with_snapshot_markers (publish_docker_snapshot left) (s_last_updated left) []
  == with_snapshot_markers (publish_docker_snapshot right) (s_last_updated right) [].

Definition with_history (c : DaemonCache) (h : ObservedHistoryCache) : DaemonCache := {|
  dc_snapshot := dc_snapshot c; dc_health := dc_health c; dc_runtime_map := dc_runtime_map c;
  dc_findings := dc_findings c; dc_compose_runtime_binding := dc_compose_runtime_binding c;
  dc_runtime_providers := dc_runtime_providers c; dc_source_generation := dc_source_generation c;
  dc_docker_observation_revision := dc_docker_observation_revision c;
  dc_integrity_observation_revision := dc_integrity_observation_revision c;
  dc_revision := dc_revision c; dc_observed_history := h |}.

(** What the update takes over from the cache before it is rebuilt; [boot] are the bytes of a
    new history. *)
Definition carried_over (cache updated : DaemonCache) (boot : list N) : option DaemonCache :=
  let same_source := dc_mode cache == dc_mode updated in
  generation ← if same_source then Some (dc_source_generation cache)
               else checked_add u64_max (dc_source_generation cache) 1;
  let providers := if same_source then dc_runtime_providers cache else source_reset_provider_slots in
  providers ← if same_source && negb (same_collection_evidence (dc_snapshot cache) (dc_snapshot updated))
              then mark_network_observation_stale providers else Some providers;
  Some {|
    dc_snapshot := dc_snapshot updated; dc_health := dc_health updated; dc_runtime_map := dc_runtime_map updated;
    dc_findings := dc_findings updated; dc_compose_runtime_binding := dc_compose_runtime_binding updated;
    dc_runtime_providers := providers; dc_source_generation := generation;
    dc_docker_observation_revision := dc_docker_observation_revision cache;
    dc_integrity_observation_revision :=
      if same_source then dc_integrity_observation_revision cache else dc_integrity_observation_revision updated;
    dc_revision := dc_revision updated;
    dc_observed_history := if same_source then dc_observed_history cache else history_new boot |}.

Definition with_revision (c : DaemonCache) (r : PublicationRevision) : DaemonCache := {|
  dc_snapshot := dc_snapshot c; dc_health := dc_health c; dc_runtime_map := dc_runtime_map c;
  dc_findings := dc_findings c; dc_compose_runtime_binding := dc_compose_runtime_binding c;
  dc_runtime_providers := dc_runtime_providers c; dc_source_generation := dc_source_generation c;
  dc_docker_observation_revision := dc_docker_observation_revision c;
  dc_integrity_observation_revision := dc_integrity_observation_revision c;
  dc_revision := r; dc_observed_history := dc_observed_history c |}.

(** [publish_docker_snapshot_cache]; [boot] and [epoch] are the random bytes of a history that
    starts anew, for a new source or for a clock that went backwards. *)
Definition publish_docker_snapshot_cache (cache updated : DaemonCache) (boot epoch : list N) : option DaemonCache :=
  updated' ← carried_over cache updated boot;
  updated' ← rebuild_runtime_map updated';
  updated' ← assign_revision (with_revision updated' (dc_revision cache));
  if dc_mode updated' == Mode_Docker then
    let published := with_snapshot_markers (publish_docker_snapshot (dc_snapshot updated'))
                       (s_last_updated (dc_snapshot updated')) [] in
    history ← observe_published_snapshot (dc_observed_history updated') published epoch;
    Some (with_history updated' history)
  else Some updated'.

(** *** The slots *)

Definition with_slots (c : DaemonCache) (slots : RuntimeProviderSlots) : DaemonCache := {|
  dc_snapshot := dc_snapshot c; dc_health := dc_health c; dc_runtime_map := dc_runtime_map c;
  dc_findings := dc_findings c; dc_compose_runtime_binding := dc_compose_runtime_binding c;
  dc_runtime_providers := slots; dc_source_generation := dc_source_generation c;
  dc_docker_observation_revision := dc_docker_observation_revision c;
  dc_integrity_observation_revision := dc_integrity_observation_revision c;
  dc_revision := dc_revision c; dc_observed_history := dc_observed_history c |}.

Definition republish (c : DaemonCache) : option DaemonCache :=
  c ← rebuild_runtime_map c; assign_revision c.

Definition claim_due_provider_slots (cache : DaemonCache) (wall : ProviderSlot → option N) (now : N)
    (active_workers : nat) : option (list ProviderSlot * DaemonCache) :=
  '(due, slots) ← claim_due_slots_with_active_workers (dc_runtime_providers cache) wall now
                    MAX_CONCURRENT_PROVIDER_SLOTS active_workers;
  let cache := with_slots cache slots in
  if due == [] then Some (due, cache)
  else cache ← republish cache; Some (due, cache).

(** [apply_provider_slot_outcome] up to the release of the lock; the flag says whether the
    outcome was taken (a late one leaves the cache as it is and returns). *)
Definition apply_provider_slot_outcome (process_boot : rstr) (cache : DaemonCache) (slot : ProviderSlot)
    (observed_snapshot : DockerSnapshot) (observed_mode : RuntimeMode) (observed_generation : N)
    (outcome : ProviderCollectionOutcome) (completed_at : N) (wall : option N) : option (bool * DaemonCache) :=
  if (dc_mode cache != observed_mode) || negb (dc_source_generation cache =? observed_generation)%N
  then Some (false, cache)
  else
    let same_evidence := same_collection_evidence (dc_snapshot cache) observed_snapshot in
    match dc_runtime_providers cache !! slot with
    | None => Some (false, cache)
    | Some slot_state =>
        slot_state ← slot_outcome process_boot wall completed_at same_evidence outcome slot_state;
        cache ← republish (with_slots cache (<[slot := slot_state]> (dc_runtime_providers cache)));
        Some (true, cache)
    end.
End cache.

(** ** Revisions *)

Section revisions.
Context {A : Type} `{EqDecision A}.

Definition rev_le (r r' : Revision A) : Prop :=
  rv_boot r' = rv_boot r ∧ (rv_sequence r <= rv_sequence r')%N ∧ (rv_sequence r = rv_sequence r' → r' = r).

#[export] Instance rev_le_preorder : PreOrder rev_le.
Proof.
  split.
  - intros r. by split_and!.
  - intros r1 r2 r3 (B1 & L1 & E1) (B2 & L2 & E2). split_and!; [congruence|lia|].
    intros E. rewrite E2, E1 by lia. done.
Qed.

Lemma revision_see_spec (r r' : Revision A) x :
  revision_see r x = Some r' → rv_last r' = Some x ∧ rev_le r r' ∧ (rv_sequence r' <= rv_sequence r + 1)%N.
Proof.
  unfold revision_see. case_bool_decide as E.
  - intros [= <-]. split_and!; [done|reflexivity|lia].
  - destruct (checked_add _ _ _) as [n|] eqn:Ea; [|done]. apply checked_add_Some in Ea as [-> _].
    intros [= <-]. split_and!; [done| |simpl; lia]. unfold rev_le. simpl. split_and!; [done|lia|lia].
Qed.

Lemma revision_see_same (r r' : Revision A) x : revision_see r x = Some r' → rv_last r = Some x → r' = r.
Proof. unfold revision_see. intros E Hx. rewrite bool_decide_eq_true_2 in E by done. by injection E as <-. Qed.

Lemma revision_see_total (r : Revision A) x : (rv_sequence r < u64_max)%N → ∃ r', revision_see r x = Some r'.
Proof.
  intros Hr. unfold revision_see, checked_add. case_bool_decide; [eauto|].
  destruct (N.leb_spec (rv_sequence r + 1) u64_max); [|lia]. cbn [mbind option_bind]. eauto.
Qed.

Lemma revision_current_inj (r r' : Revision A) :
  rv_boot r = rv_boot r' → revision_current r = revision_current r' → rv_sequence r = rv_sequence r'.
Proof.
  intros B E. unfold revision_current, rapp in E. rewrite B in E. apply app_inv_head in E.
  injection E as E. by apply dec_str_inj.
Qed.

Lemma revision_current_ne (r : Revision A) : revision_current r ≠ [].
Proof. unfold revision_current, rapp. intros E%(f_equal length). rewrite !length_app in E. simpl in E. lia. Qed.
End revisions.

(** ** A coherent cache *)

Section cache_facts.
Context `{Sha256} `{Json RuntimeMapNode} `{Json RuntimeMapEdge} `{Json RuntimeEvidenceRef}.
Context `{Json (list RuntimeMapNode * list RuntimeMapEdge * list RuntimeMapDiagnostic * list ProviderState)}.
Context `{Json (DockerSnapshot * HealthResponse * RuntimeMap)} `{Json (RuntimeMode * DockerSnapshot)}.

Definition cache_public_model (c : DaemonCache) : DockerSnapshot * HealthResponse * RuntimeMap :=
  public_model (dc_snapshot c) (dc_health c) (dc_runtime_map c).

(** The four envelopes attest one publication, whose revision stands for the public model, and
    the findings are those of the cached map. *)
Definition coherent (c : DaemonCache) : Prop :=
  let revision := revision_current (dc_revision c) in
  s_model_revision (dc_snapshot c) = revision ∧ h_model_revision (dc_health c) = revision ∧
  rm_model_revision (dc_runtime_map c) = revision ∧ fr_model_revision (dc_findings c) = revision ∧
  rv_last (dc_revision c) = Some (to_json (cache_public_model c)) ∧
  cache_findings (dc_runtime_map c) (dc_mode c) (dc_compose_runtime_binding c) (docker_observation_token c)
  = Some (fr_findings (dc_findings c)) ∧
  fr_summary (dc_findings c) = from_findings (fr_findings (dc_findings c)).

(** The revision fields are not part of what is compared. *)
Lemma public_model_markers s h m revision :
  public_model (with_snapshot_markers s (s_last_updated s) revision) (with_health_revision h revision)
    (with_map_revision m revision) = public_model s h m.
Proof. done. Qed.

Lemma cache_findings_total m mode binding token : ∃ fs, cache_findings m mode binding token = Some fs.
Proof.
  unfold cache_findings. destruct (derive_findings_total m) as (fs & -> & _). cbn [mbind option_bind].
  destruct mode; [destruct binding as [[scan b]|]|]; try (cbn [mbind option_bind]; eauto).
  destruct (derive_compose_findings_total scan (with_binding_revision b token)) as (fs' & -> & _).
  cbn [mbind option_bind]. eauto.
Qed.

(** [assign_revision] changes the revision, its copies and the findings. *)
Definition reassigned (c c' : DaemonCache) : Prop :=
  rev_le (dc_revision c) (dc_revision c') ∧ (rv_sequence (dc_revision c') <= rv_sequence (dc_revision c) + 1)%N ∧
  dc_snapshot c' = with_snapshot_markers (dc_snapshot c) (s_last_updated (dc_snapshot c)) (revision_current (dc_revision c')) ∧
  dc_runtime_map c' = with_map_revision (dc_runtime_map c) (revision_current (dc_revision c')) ∧
  dc_mode c' = dc_mode c ∧ dc_runtime_providers c' = dc_runtime_providers c ∧
  dc_source_generation c' = dc_source_generation c ∧
  dc_docker_observation_revision c' = dc_docker_observation_revision c ∧
  dc_integrity_observation_revision c' = dc_integrity_observation_revision c ∧
  dc_observed_history c' = dc_observed_history c ∧
  (rv_last (dc_revision c) = Some (to_json (cache_public_model c')) → dc_revision c' = dc_revision c).

Lemma assign_revision_facts c c' : assign_revision c = Some c' → coherent c' ∧ reassigned c c'.
Proof.
  unfold assign_revision, publication_assign.
  destruct (revision_see _ _) as [r|] eqn:Er; cbn [mbind option_bind]; [|done].
  pose proof (revision_see_same _ _ _ Er) as Hsame. apply revision_see_spec in Er as (Hlast & Hle & Hseq).
  destruct (cache_findings _ _ _ _) as [fs|] eqn:Ef; cbn [mbind option_bind]; [|done].
  intros [= <-]. split; [|by unfold reassigned]. unfold coherent, cache_public_model.
  cbn [dc_snapshot dc_health dc_runtime_map dc_findings dc_revision dc_compose_runtime_binding].
  rewrite public_model_markers. by split_and!.
Qed.

Lemma assign_revision_total c : (rv_sequence (dc_revision c) < u64_max)%N → ∃ c', assign_revision c = Some c'.
Proof.
  intros Hs. unfold assign_revision, publication_assign.
  destruct (revision_see_total (dc_revision c) (to_json (cache_public_model c)) Hs) as [r E].
  unfold cache_public_model in E. rewrite E. cbn [mbind option_bind].
  edestruct cache_findings_total as [fs ->]. cbn [mbind option_bind]. eauto.
Qed.

(** ** The cached map *)

(** Scheduled jobs and sessions run on an unambiguous host. *)
Definition gate_ok (mode : RuntimeMode) (m : RuntimeMap) : Prop :=
  ∀ e, e ∈ rm_edges m → re_target e = "host_local" → re_relationship e = RR_RunsOn → gated_source (re_source e) →
    (∃ host, named_once (rm_nodes m) "host_local" host ∧ is_canonical_host host = true) ∧
    (starts_with (re_source e) "tmux_session_" = true → mode = Mode_Docker ∧
     ∃ n, named_once (rm_nodes m) (re_source e) n ∧ is_tmux_session n = true).

Definition map_ok (snapshot : DockerSnapshot) (mode : RuntimeMode) (slots : RuntimeProviderSlots) (m : RuntimeMap) : Prop :=
  rm_last_updated m = s_last_updated snapshot ∧ provider_states_for slots = Some (rm_provider_states m) ∧
  endpoints_exist m ∧ gate_ok mode m ∧
  ∀ e, e ∈ rm_edges m → has_valid_evidence_refs e = true ∧ (mode ≠ Mode_Docker → re_evidence_refs e = []).

Definition cache_map_ok (c : DaemonCache) : Prop :=
  map_ok (dc_snapshot c) (dc_mode c) (dc_runtime_providers c) (dc_runtime_map c).

Lemma append_collision_topology m revision at_ :
  let m' := (append_runtime_identity_collision_fact m revision at_).1 in
  m' = m ∨
  (∃ extra, rn_id <$> extra = [SCOPE_ID; RISK_ID] ∧ rm_nodes m' ≡ₚ rm_nodes m ++ extra ∧
   rm_edges m' ≡ₚ rm_edges m ++ [collision_edge revision at_] ∧
   rm_last_updated m' = rm_last_updated m ∧ rm_provider_states m' = rm_provider_states m).
Proof.
  unfold append_runtime_identity_collision_fact. case_match; [by left|right].
  eexists. split; [|split_and!; [apply sort_by_json_Permutation..|done|done]]. done.
Qed.

Lemma named_once_extra nodes extra id n :
  named_once nodes id n → (id ∉ rn_id <$> extra) → named_once (nodes ++ extra) id n.
Proof.
  intros (Hn & Hid & Hc) He. split_and!; [apply elem_of_app; by left|done|].
  rewrite count_if_app, Hc. rewrite (proj2 (count_if_zero _ extra)); [done|].
  intros n' Hn'. apply bool_decide_eq_false. intros <-. apply He. by apply list_elem_of_fmap_2.
Qed.

Lemma named_once_Permutation nodes nodes' id n : nodes ≡ₚ nodes' → named_once nodes id n → named_once nodes' id n.
Proof. intros Hp. unfold named_once. by rewrite Hp. Qed.

Lemma map_ok_collision snapshot slots m revision at_ :
  evidence_text_ok revision = true → map_ok snapshot Mode_Docker slots m →
  map_ok snapshot Mode_Docker slots (append_runtime_identity_collision_fact m revision at_).1.
Proof.
  intros Hrev Hok. destruct (append_collision_topology m revision at_) as [->|(extra & Hids & Hn & He & Hl & Hp)]; [done|].
  destruct Hok as (Hl0 & Hp0 & Hend & Hgate & Hev). unfold map_ok.
  assert (Hreserved : ∀ id, id ≠ SCOPE_ID → id ≠ RISK_ID → (id ∉ rn_id <$> extra)).
  { intros id H1' H2'. rewrite Hids. intros [?|[?|[]%elem_of_nil]%elem_of_cons]%elem_of_cons; done. }
  split_and!; [congruence|congruence| | |].
  - intros e Hin. rewrite He in Hin. rewrite Hn, fmap_app, Hids, !elem_of_app.
    apply elem_of_app in Hin as [Hin| ->%list_elem_of_singleton].
    + destruct (Hend e Hin). tauto.
    + cbn [collision_edge re_source re_target]. split; right; set_solver.
  - intros e Hin Ht Hr Hs. rewrite He in Hin. apply elem_of_app in Hin as [Hin| ->%list_elem_of_singleton].
    2:{ exfalso. cbn [collision_edge re_target] in Ht. refute Ht. }
    destruct (Hgate e Hin Ht Hr Hs) as [(host & Hh & Hc) Htmux]. split.
    + exists host. split; [|done]. eapply named_once_Permutation; [by symmetry|].
      apply named_once_extra; [done|]. apply Hreserved; intros E; refute E.
    + intros Hts. destruct (Htmux Hts) as (Hm & n & Hnn & Hnt). split; [done|]. exists n. split; [|done].
      eapply named_once_Permutation; [by symmetry|]. apply named_once_extra; [done|].
      apply Hreserved; intros E; rewrite E in Hts; vm_compute in Hts; discriminate Hts.
  - intros e Hin. rewrite He in Hin. apply elem_of_app in Hin as [Hin| ->%list_elem_of_singleton]; [by apply Hev|].
    split; [by apply collision_edge_valid|done].
Qed.

(** *** Rebuilding *)

(** A revision with a boot component of 16 random bytes. *)
Definition revision_ok {A} (r : Revision A) : Prop := length (rv_boot r) = 32 ∧ (rv_sequence r <= u64_max)%N.

Lemma revision_see_ok {A} `{EqDecision A} (r r' : Revision A) x :
  revision_see r x = Some r' → revision_ok r → revision_ok r'.
Proof.
  intros E [Hb Hs]. pose proof (revision_see_spec _ _ _ E) as (_ & (B & _ & _) & _).
  split; [congruence|]. unfold revision_see in E. case_bool_decide; [by injection E as <-|].
  destruct (checked_add _ _ _) as [n|] eqn:Ea; [|done]. apply checked_add_Some in Ea as [-> Hn].
  by injection E as <-.
Qed.

Lemma revision_ok_text {A} (r : Revision A) : revision_ok r → evidence_text_ok (revision_current r) = true.
Proof.
  intros [Hb Hs%dec_str_length_u64]. apply evidence_text_ok_spec. split; [apply revision_current_ne|].
  unfold revision_current, rapp, MAX_EVIDENCE_TEXT_CHARS. rewrite !length_app, Hb. simpl. lia.
Qed.

(** What [rebuild_runtime_map] keeps. *)
Definition rebuilt (c c' : DaemonCache) : Prop :=
  dc_snapshot c' = dc_snapshot c ∧ dc_health c' = dc_health c ∧ dc_runtime_providers c' = dc_runtime_providers c ∧
  dc_source_generation c' = dc_source_generation c ∧ dc_revision c' = dc_revision c ∧
  dc_observed_history c' = dc_observed_history c ∧
  rev_le (dc_docker_observation_revision c) (dc_docker_observation_revision c') ∧
  rev_le (dc_integrity_observation_revision c) (dc_integrity_observation_revision c') ∧
  (rv_sequence (dc_docker_observation_revision c') <= rv_sequence (dc_docker_observation_revision c) + 1)%N ∧
  (rv_sequence (dc_integrity_observation_revision c') <= rv_sequence (dc_integrity_observation_revision c) + 1)%N ∧
  revision_ok (dc_integrity_observation_revision c').

(** What a publication needs of its slots and of its integrity revision. *)
Definition publishable (c : DaemonCache) : Prop :=
  all_slots (dc_runtime_providers c) ∧ slots_sanitized (dc_runtime_providers c) ∧
  revision_ok (dc_integrity_observation_revision c).

Lemma rebuild_facts c c' :
  publishable c → rebuild_runtime_map c = Some c' → cache_map_ok c' ∧ rebuilt c c'.
Proof.
  intros (Hall & Hsan & Hiok). unfold rebuild_runtime_map, assign_docker_observation_revision, docker_observation_assign.
  destruct (revision_see _ _) as [r|] eqn:Er; cbn [mbind option_bind]; [|done].
  apply revision_see_spec in Er as (_ & Hle & Hseq). unfold docker_observation_token.
  cbn [dc_snapshot dc_health dc_mode dc_runtime_providers dc_docker_observation_revision].
  destruct (runtime_map_for_snapshot_total (dc_snapshot c) (dc_mode c) (dc_runtime_providers c) (revision_current r)
    Hall Hsan (revision_current_ne r)) as (m & Em & Hl & Hp & _ & _ & Hend & _ & Hedges).
  unfold dc_mode in *. cbn [dc_health]. rewrite Em. cbn [mbind option_bind].
  assert (Hok : map_ok (dc_snapshot c) (h_mode (dc_health c)) (dc_runtime_providers c) m).
  { unfold map_ok, gate_ok. split_and!; try done; intros e He; destruct (Hedges e He) as (? & ? & ?); auto. }
  unfold apply_runtime_identity_collision_fact, dc_mode.
  cbn [with_map dc_snapshot dc_health dc_runtime_map dc_integrity_observation_revision].
  destruct (revision_see (dc_integrity_observation_revision c) _) as [i|] eqn:Ei; cbn [mbind option_bind]; [|done].
  pose proof (revision_see_ok _ _ _ Ei Hiok) as Hi. apply revision_see_spec in Ei as (_ & Hile & Hiseq).
  intros [= <-]. split; [|by unfold rebuilt].
  unfold cache_map_ok, dc_mode. cbn [with_map dc_snapshot dc_health dc_runtime_providers dc_runtime_map].
  destruct (bool_decide (h_mode (dc_health c) = Mode_Docker) && _) eqn:Ea; [|done].
  apply andb_prop in Ea as [Hm%bool_decide_eq_true _]. rewrite Hm in Hok |- *.
  apply map_ok_collision; [by apply revision_ok_text|done].
Qed.

(** No counter of the publication is exhausted. *)
Definition counters_left (c : DaemonCache) : Prop :=
  (rv_sequence (dc_docker_observation_revision c) < u64_max)%N ∧
  (rv_sequence (dc_integrity_observation_revision c) < u64_max)%N ∧ (rv_sequence (dc_revision c) < u64_max)%N.

Lemma rebuild_total c : publishable c → counters_left c → ∃ c', rebuild_runtime_map c = Some c'.
Proof.
  intros (Hall & Hsan & Hiok) (Hd & Hi & _).
  unfold rebuild_runtime_map, assign_docker_observation_revision, docker_observation_assign.
  edestruct (revision_see_total (dc_docker_observation_revision c)) as [r ->]; [done|]. cbn [mbind option_bind].
  unfold docker_observation_token, dc_mode.
  cbn [dc_snapshot dc_health dc_runtime_providers dc_docker_observation_revision].
  destruct (runtime_map_for_snapshot_total (dc_snapshot c) (dc_mode c) (dc_runtime_providers c) (revision_current r)
    Hall Hsan (revision_current_ne r)) as (m & Em & _). unfold dc_mode in Em. rewrite Em. cbn [mbind option_bind].
  unfold apply_runtime_identity_collision_fact.
  edestruct (revision_see_total (dc_integrity_observation_revision c)) as [i Ei]; [done|].
  cbn [with_map dc_integrity_observation_revision]. rewrite Ei. cbn [mbind option_bind]. eauto.
Qed.

(** *** Republishing *)

Definition republished (c c' : DaemonCache) : Prop :=
  s_last_updated (dc_snapshot c') = s_last_updated (dc_snapshot c) ∧
  with_snapshot_markers (dc_snapshot c') 0 [] = with_snapshot_markers (dc_snapshot c) 0 [] ∧
  dc_mode c' = dc_mode c ∧ dc_runtime_providers c' = dc_runtime_providers c ∧
  dc_source_generation c' = dc_source_generation c ∧ dc_observed_history c' = dc_observed_history c ∧
  rev_le (dc_revision c) (dc_revision c') ∧
  rv_boot (dc_docker_observation_revision c') = rv_boot (dc_docker_observation_revision c) ∧
  revision_ok (dc_integrity_observation_revision c') ∧
  (rv_last (dc_revision c) = Some (to_json (cache_public_model c')) → dc_revision c' = dc_revision c).

Lemma assign_after_rebuild c c1 c2 :
  cache_map_ok c1 → rebuilt c c1 → assign_revision c1 = Some c2 →
  cache_map_ok c2 ∧ coherent c2 ∧ republished c c2.
Proof.
  intros Hmap (Hs & Hh & Hp & Hg & Hr & Ho & Hd & Hi & _ & _ & Hiok) Ha.
  apply assign_revision_facts in Ha as [Hco (Hle & _ & Es & Em & Emode & Ep & Eg & Ed & Ei & Eo & Esame)].
  assert (Hmode : dc_mode c2 = dc_mode c) by (rewrite Emode; unfold dc_mode; by rewrite Hh).
  split_and!; [|done|].
  - unfold cache_map_ok in *. rewrite Es, Em, Emode, Ep. exact Hmap.
  - unfold republished. rewrite Es, Hs, Ep, Hp, Eg, Hg, Eo, Ho, Ed, Ei, <- Hr. split_and!; try done.
    by destruct Hd.
Qed.

Lemma republish_facts c c' :
  publishable c → republish c = Some c' → cache_map_ok c' ∧ coherent c' ∧ republished c c'.
Proof.
  intros Hp. unfold republish. destruct (rebuild_runtime_map c) as [c1|] eqn:Er; cbn [mbind option_bind]; [|done].
  destruct (rebuild_facts _ _ Hp Er) as [Hmap Hreb]. by apply assign_after_rebuild.
Qed.

Lemma republish_total c : publishable c → counters_left c → ∃ c', republish c = Some c'.
Proof.
  intros Hp Hc. destruct (rebuild_total c Hp Hc) as [c1 E]. unfold republish. rewrite E. cbn [mbind option_bind].
  apply assign_revision_total. destruct (rebuild_facts _ _ Hp E) as [_ (_ & _ & _ & _ & -> & _)]. by destruct Hc as (_ & _ & ?).
Qed.

(** ** The retained data of the slots *)

Definition retained_of (slots : RuntimeProviderSlots) : gmap ProviderSlot (option ProviderCollection) :=
  (λ s, retained_collection (ss_observation s)) <$> slots.

Lemma retained_of_all slots : all_slots slots ↔ ∀ slot, is_Some (retained_of slots !! slot).
Proof. unfold all_slots, retained_of. by setoid_rewrite lookup_fmap; setoid_rewrite fmap_is_Some. Qed.

Lemma retained_of_sanitized slots :
  slots_sanitized slots ↔ ∀ slot c, retained_of slots !! slot = Some (Some c) → sanitized c.
Proof.
  unfold slots_sanitized, retained_of. setoid_rewrite lookup_fmap. setoid_rewrite fmap_Some. naive_solver.
Qed.

(** No slot retains anything. *)
Definition nothing_retained (slots : RuntimeProviderSlots) : Prop :=
  ∀ slot o, retained_of slots !! slot = Some o → o = None.

Lemma mark_stale_retained slots slots' :
  mark_network_observation_stale slots = Some slots' → retained_of slots' = retained_of slots.
Proof.
  unfold mark_network_observation_stale. destruct (slots !! NetworkInfrastructure) as [s|] eqn:Es; cbn [mbind option_bind]; [|done].
  destruct (ss_observation s) eqn:Eo; intros [= <-]; try done.
  unfold retained_of. rewrite fmap_insert. cbn [ss_observation retained_collection].
  apply insert_id. by rewrite lookup_fmap, Es, fmap_Some_2 with (x := s) by done; rewrite Eo.
Qed.

Lemma mark_stale_total slots : all_slots slots → ∃ slots', mark_network_observation_stale slots = Some slots'.
Proof.
  intros Hall. unfold mark_network_observation_stale. destruct (Hall NetworkInfrastructure) as [s ->].
  cbn [mbind option_bind]. destruct (ss_observation s); eauto.
Qed.

Lemma reset_retained : all_slots source_reset_provider_slots ∧ nothing_retained source_reset_provider_slots.
Proof.
  assert (E : ∀ slot, ∃ s, source_reset_provider_slots !! slot = Some s ∧ retained_collection (ss_observation s) = None).
  { intros slot. destruct (source_reset_provider_slots !! slot) as [s|] eqn:Es;
      destruct slot; vm_compute in Es; try discriminate Es; injection Es as <-; eauto. }
  split.
  - intros slot. destruct (E slot) as (s & -> & _). eauto.
  - intros slot o Ho. unfold retained_of in Ho. rewrite lookup_fmap in Ho.
    destruct (E slot) as (s & Es & Er). rewrite Es in Ho. injection Ho as <-. done.
Qed.

Lemma nothing_sanitized slots : nothing_retained slots → slots_sanitized slots.
Proof. intros Hn. apply retained_of_sanitized. intros slot c Hc. by apply Hn in Hc. Qed.

Lemma claim_retained slots wall now max active due slots' :
  all_slots slots → claim_due_slots_with_active_workers slots wall now max active = Some (due, slots') →
  retained_of slots' = retained_of slots ∧ (due = [] → slots' = slots).
Proof.
  intros Hall. unfold claim_due_slots_with_active_workers.
  destruct (claim_loop_spec STATIC_PROVIDER_SLOTS wall now slots (max - Nat.max (occupied slots) active)
    static_slots_NoDup (λ s _, Hall s)) as (claimed & slots1 & -> & _ & _ & Hin & Hout & _).
  intros [= <- <-]. split.
  - apply map_eq. intros slot. unfold retained_of. rewrite !lookup_fmap.
    destruct (decide (slot ∈ claimed)) as [Hs|Hs]; [|by rewrite Hout].
    destruct (Hin slot Hs) as (cur & -> & _ & ->). cbn [fmap option_fmap option_map]. f_equal.
    exact (retained_claimed cur (wall slot)).
  - intros ->. apply map_eq. intros slot. apply Hout, not_elem_of_nil.
Qed.

Lemma claim_total slots wall now max active :
  all_slots slots → ∃ due slots', claim_due_slots_with_active_workers slots wall now max active = Some (due, slots').
Proof.
  intros Hall. unfold claim_due_slots_with_active_workers.
  edestruct (claim_loop_spec STATIC_PROVIDER_SLOTS wall now slots (max - Nat.max (occupied slots) active)
    static_slots_NoDup (λ s _, Hall s)) as (claimed & slots1 & -> & _). eauto.
Qed.

Lemma outcome_retained boot wall completed_at same outcome s s' :
  slot_outcome boot wall completed_at same outcome s = Some s' →
  retained_collection (ss_observation s') = retained_collection (ss_observation s) ∨
  ∃ c, outcome = Collected c ∧ retained_collection (ss_observation s') = Some (sanitized_for_retention c).
Proof.
  destruct outcome as [c| | |]; cbn [slot_outcome].
  - unfold collected_state. destruct (update_slot_data_revision _ _ _) as [f|]; cbn [mbind option_bind]; [|done].
    intros [= <-]. right. exists c. split; [done|]. by destruct same.
  - intros [= <-]. left. cbn [ss_observation]. by destruct (retained_collection (ss_observation s)).
  - intros [= <-]. left. cbn [ss_observation]. by destruct (retained_collection (ss_observation s)).
  - intros [= <-]. left. cbn [ss_observation]. by destruct (retained_collection (ss_observation s)).
Qed.

Lemma outcome_slots boot wall completed_at same outcome slots slot s s' :
  slots !! slot = Some s → slot_outcome boot wall completed_at same outcome s = Some s' →
  all_slots slots → slots_sanitized slots →
  all_slots (<[slot := s']> slots) ∧ slots_sanitized (<[slot := s']> slots).
Proof.
  intros Hs Ho Hall Hsan. split.
  - intros k. destruct (decide (k = slot)) as [->|]; [rewrite lookup_insert_eq; eauto|by rewrite lookup_insert_ne].
  - intros k s0 c Hk Hc. destruct (decide (k = slot)) as [->|].
    + rewrite lookup_insert_eq in Hk. injection Hk as <-.
      destruct (outcome_retained _ _ _ _ _ _ _ Ho) as [E|(c0 & _ & E)]; rewrite E in Hc; [by eapply Hsan|].
      injection Hc as <-. by eexists.
    + rewrite lookup_insert_ne in Hk by done. by eapply Hsan.
Qed.

(** ** The invariant of the published cache *)

(** In mock mode nothing live is left: no slot retains data, and the snapshot is the sample. *)
Definition mock_clean (c : DaemonCache) : Prop :=
  dc_mode c = Mode_Mock → nothing_retained (dc_runtime_providers c) ∧
  with_snapshot_markers (dc_snapshot c) 0 [] = with_snapshot_markers (with_images (mock_snapshot 0)) 0 [].

Record cache_inv (process_boot : rstr) (c : DaemonCache) : Prop := {
  inv_coherent : coherent c;
  inv_map : cache_map_ok c;
  inv_publishable : publishable c;
  inv_boot : rv_boot (dc_revision c) = process_boot;
  inv_mock : mock_clean c
}.

Definition boots_ok (b : Boots) : Prop :=
  length (boot_docker b) = 16 ∧ length (boot_integrity b) = 16 ∧ length (boot_history b) = 16.

Lemma revision_new_ok {A} bytes : length bytes = 16 → revision_ok (revision_new (A := A) (opaque_revision_boot_component bytes)).
Proof.
  intros Hl. unfold revision_ok, revision_new, opaque_revision_boot_component. cbn [rv_boot rv_sequence].
  rewrite length_hex_encode, Hl. done.
Qed.

(** Steps keep the revision moving forward and count the changes of source. *)
Definition advances (c c' : DaemonCache) : Prop :=
  rev_le (dc_revision c) (dc_revision c') ∧ (dc_source_generation c <= dc_source_generation c')%N ∧
  (dc_source_generation c = dc_source_generation c' → dc_mode c = dc_mode c').

(** A step that leaves the public model as it was leaves the revision as it was. *)
Definition keeps_revision (c c' : DaemonCache) : Prop :=
  cache_public_model c = cache_public_model c' → dc_revision c' = dc_revision c.

#[export] Instance advances_preorder : PreOrder advances.
Proof.
  split.
  - intros c. split_and!; [reflexivity|done|done].
  - intros c1 c2 c3 (R1 & G1 & M1) (R2 & G2 & M2). split_and!; [by etrans|lia|].
    intros E. rewrite M1, M2 by lia. done.
Qed.

(** *** Candidates *)

Lemma with_images_snapshot s l r :
  with_snapshot_markers (with_images (with_snapshot_markers s l r)) 0 [] = with_snapshot_markers (with_images s) 0 [].
Proof. done. Qed.

(** A new cache has a new integrity revision. *)
Definition new_integrity (b : Boots) : IntegrityObservationRevision :=
  revision_new (opaque_revision_boot_component (boot_integrity b)).

Lemma new_integrity_ok b : boots_ok b → revision_ok (new_integrity b).
Proof. intros (_ & Hi & _). by apply revision_new_ok. Qed.

Lemma cache_mock_facts process_boot b now c :
  cache_mock process_boot b now = Some c →
  dc_integrity_observation_revision c = new_integrity b ∧ dc_mode c = Mode_Mock ∧
  with_snapshot_markers (dc_snapshot c) 0 [] = with_snapshot_markers (with_images (mock_snapshot 0)) 0 [].
Proof.
  unfold cache_mock, assign_docker_observation_revision, docker_observation_assign.
  destruct (revision_see _ _) as [r|]; cbn [mbind option_bind]; [|done].
  intros [_ (_ & _ & Es & _ & Em & _ & _ & _ & Ei & _)]%assign_revision_facts.
  rewrite Ei, Em, Es. by split_and!.
Qed.

Lemma collect_facts process_boot b now read u :
  collect_snapshot process_boot b now read = Some u →
  dc_integrity_observation_revision u = new_integrity b ∧
  (dc_mode u = Mode_Mock →
   with_snapshot_markers (dc_snapshot u) 0 [] = with_snapshot_markers (with_images (mock_snapshot 0)) 0 []).
Proof.
  assert (Hmock : ∀ message, (cache ← cache_mock process_boot b now; Some (with_redacted_health (with_message cache message))) = Some u →
    dc_integrity_observation_revision u = new_integrity b ∧ (dc_mode u = Mode_Mock →
      with_snapshot_markers (dc_snapshot u) 0 [] = with_snapshot_markers (with_images (mock_snapshot 0)) 0 [])).
  { intros message. destruct (cache_mock _ _ _) as [c|] eqn:Ec; cbn [mbind option_bind]; [|done]. intros [= <-].
    destruct (cache_mock_facts _ _ _ _ Ec) as (? & _ & ?). by split. }
  destruct read; cbn [collect_snapshot]; try apply Hmock. intros [= <-]. by split.
Qed.

Lemma fresh_counters {A} boot : (rv_sequence (revision_new (A := A) boot) < u64_max)%N.
Proof. done. Qed.

Lemma cache_mock_total process_boot b now : ∃ c, cache_mock process_boot b now = Some c.
Proof.
  unfold cache_mock, assign_docker_observation_revision, docker_observation_assign.
  edestruct (revision_see_total (A := rstr)) as [r Er]; [apply fresh_counters|].
  cbn [fresh_cache dc_docker_observation_revision]. rewrite Er. cbn [mbind option_bind].
  apply assign_revision_total. apply fresh_counters.
Qed.

Lemma collect_total process_boot b now read : ∃ u, collect_snapshot process_boot b now read = Some u.
Proof.
  destruct (cache_mock_total process_boot b now) as [c Ec].
  destruct read; cbn [collect_snapshot]; rewrite ?Ec; cbn [mbind option_bind]; eauto.
Qed.

(** *** Publishing *)

Lemma carried_facts cache u boot c1 :
  publishable cache → revision_ok (dc_integrity_observation_revision u) → carried_over cache u boot = Some c1 →
  publishable c1 ∧ dc_snapshot c1 = dc_snapshot u ∧ dc_mode c1 = dc_mode u ∧
  (dc_source_generation cache <= dc_source_generation c1)%N ∧
  (dc_source_generation cache = dc_source_generation c1 → dc_mode cache = dc_mode c1) ∧
  (dc_mode c1 = Mode_Mock → mock_clean cache → nothing_retained (dc_runtime_providers c1)).
Proof.
  intros (Hall & Hsan & Hi) Hiu. unfold carried_over.
  destruct (bool_decide_reflect (dc_mode cache = dc_mode u)) as [Em|Em]; cbn [mbind option_bind andb].
  - assert (Hp : ∃ slots, (if negb (same_collection_evidence (dc_snapshot cache) (dc_snapshot u))
        then mark_network_observation_stale (dc_runtime_providers cache) else Some (dc_runtime_providers cache)) = Some slots
        ∧ retained_of slots = retained_of (dc_runtime_providers cache)).
    { destruct (negb _); [|eauto]. destruct (mark_stale_total _ Hall) as [slots Es].
      exists slots. split; [done|]. by apply mark_stale_retained. }
    destruct Hp as (slots & -> & Hr). cbn [mbind option_bind]. intros [= <-].
    unfold publishable, dc_mode in *. cbn [dc_runtime_providers dc_integrity_observation_revision dc_snapshot dc_health dc_source_generation].
    rewrite retained_of_all, retained_of_sanitized, Hr, <- retained_of_all, <- retained_of_sanitized.
    split_and!; try done. intros Hm Hc. unfold nothing_retained. rewrite Hr. apply Hc. unfold dc_mode. congruence.
  - destruct (checked_add _ _ _) as [g|] eqn:Eg; cbn [mbind option_bind]; [|done].
    apply checked_add_Some in Eg as [-> _]. intros [= <-].
    destruct reset_retained as [Hra Hrn].
    unfold publishable, dc_mode in *. cbn [dc_runtime_providers dc_integrity_observation_revision dc_snapshot dc_health dc_source_generation].
    split_and!; try done; [by apply nothing_sanitized|lia|lia].
Qed.

Lemma with_revision_map_ok c r : cache_map_ok c → cache_map_ok (with_revision c r).
Proof. done. Qed.

Lemma publish_facts process_boot b now read u cache boot epoch c' :
  boots_ok b → collect_snapshot process_boot b now read = Some u →
  cache_inv process_boot cache → publish_docker_snapshot_cache cache u boot epoch = Some c' →
  cache_inv process_boot c' ∧ advances cache c' ∧ keeps_revision cache c' ∧ dc_mode c' = dc_mode u.
Proof.
  intros Hb Hu Hinv. destruct (collect_facts _ _ _ _ _ Hu) as [Hiu Hmock].
  pose proof (new_integrity_ok b Hb) as Hib. rewrite <- Hiu in Hib. clear Hiu; rename Hib into Hiu.
  unfold publish_docker_snapshot_cache.
  destruct (carried_over cache u boot) as [c1|] eqn:E1; cbn [mbind option_bind]; [|done].
  destruct (carried_facts _ _ _ _ (inv_publishable _ _ Hinv) Hiu E1) as (Hp & Hs & Hm & Hg & Hgm & Hclean).
  destruct (rebuild_runtime_map c1) as [c2|] eqn:E2; cbn [mbind option_bind]; [|done].
  destruct (rebuild_facts _ _ Hp E2) as [Hmap Hreb].
  destruct (assign_revision _) as [c3|] eqn:E3; cbn [mbind option_bind]; [|done].
  assert (Hreb' : rebuilt (with_revision c1 (dc_revision cache)) (with_revision c2 (dc_revision cache))).
  { unfold rebuilt in *. cbn [with_revision dc_snapshot dc_health dc_runtime_providers dc_source_generation dc_revision
      dc_observed_history dc_docker_observation_revision dc_integrity_observation_revision]. tauto. }
  destruct (assign_after_rebuild _ _ _ (with_revision_map_ok c2 (dc_revision cache) Hmap) Hreb' E3) as (Hmap3 & Hco3 & Hrep).
  destruct Hrep as (_ & Hsnap & Hmode & Hslots & Hgen & _ & Hrev & _ & Hiok & Hsame).
  cbn [with_revision dc_snapshot dc_runtime_providers dc_source_generation dc_revision] in *.
  change (dc_mode (with_revision c1 (dc_revision cache))) with (dc_mode c1) in Hmode.
  assert (Hc3 : cache_inv process_boot c3 ∧ advances cache c3 ∧ keeps_revision cache c3 ∧ dc_mode c3 = dc_mode u).
  { split_and!; [split| | |congruence].
    - done.
    - done.
    - unfold publishable. rewrite Hslots. destruct Hp as (? & ? & _). by split_and!.
    - destruct Hrev as (-> & _). apply (inv_boot _ _ Hinv).
    - intros Hm3. rewrite Hslots, Hsnap, Hs. split; [|apply Hmock; congruence].
      apply Hclean; [congruence|apply (inv_mock _ _ Hinv)].
    - split_and!; [done|lia|]. intros Eg. rewrite Hmode. apply Hgm. lia.
    - intros Epm. apply Hsame. rewrite <- Epm. apply (inv_coherent _ _ Hinv). }
  case_bool_decide; [|by intros [= <-]].
  destruct (observe_published_snapshot _ _ _) as [h|]; cbn [mbind option_bind]; [|done]. intros [= <-].
  destruct Hc3 as ([H1' H2' H3' H4' H5'] & Ha & Hk & Hm3). split_and!; [by split|done|done|done].
Qed.

(** *** Claims and outcomes *)

Lemma republish_inv process_boot c slots c' :
  cache_inv process_boot c → all_slots slots → slots_sanitized slots →
  (dc_mode c = Mode_Mock → nothing_retained slots) → republish (with_slots c slots) = Some c' →
  cache_inv process_boot c' ∧ advances c c' ∧ keeps_revision c c' ∧ dc_mode c' = dc_mode c ∧
  dc_runtime_providers c' = slots.
Proof.
  intros Hinv Hall Hsan Hmock Hr. pose proof (inv_publishable _ _ Hinv) as (_ & _ & Hi).
  assert (Hp : publishable (with_slots c slots)) by (by split_and!).
  destruct (republish_facts _ _ Hp Hr) as (Hmap & Hco & _ & Hsnap & Hmode & Hslots & Hgen & _ & Hrev & _ & Hiok & Hsame).
  cbn [with_slots dc_snapshot dc_runtime_providers dc_source_generation dc_revision] in *.
  change (dc_mode (with_slots c slots)) with (dc_mode c) in Hmode.
  split_and!; [split| | |done|done].
  - done.
  - done.
  - unfold publishable. by rewrite Hslots.
  - destruct Hrev as (-> & _). apply (inv_boot _ _ Hinv).
  - intros Hm. rewrite Hslots, Hsnap, Hmode in *. destruct (inv_mock _ _ Hinv Hm). auto.
  - split_and!; [done|lia|congruence].
  - intros Epm. apply Hsame. rewrite <- Epm. apply (inv_coherent _ _ Hinv).
Qed.

Lemma claim_facts process_boot c wall now active due c' :
  cache_inv process_boot c → claim_due_provider_slots c wall now active = Some (due, c') →
  cache_inv process_boot c' ∧ advances c c' ∧ keeps_revision c c' ∧ dc_mode c' = dc_mode c.
Proof.
  intros Hinv. pose proof (inv_publishable _ _ Hinv) as (Hall & Hsan & _). unfold claim_due_provider_slots.
  destruct (claim_due_slots_with_active_workers _ _ _ _ _) as [[due' slots]|] eqn:Ec; cbn [mbind option_bind]; [|done].
  destruct (claim_retained _ _ _ _ _ _ _ Hall Ec) as [Hret Hnone].
  case_bool_decide as Hd.
  - intros [= <- <-]. rewrite (Hnone Hd). split_and!; [by destruct c|by destruct c|done|done].
  - destruct (republish _) as [c1|] eqn:Er; cbn [mbind option_bind]; [|done]. intros [= <- <-].
    destruct (republish_inv process_boot c slots c1 Hinv) as (? & ? & ? & ? & _); [..|done|by split_and!].
    + apply retained_of_all. rewrite Hret. by apply retained_of_all.
    + apply retained_of_sanitized. rewrite Hret. by apply retained_of_sanitized.
    + intros Hm. unfold nothing_retained. rewrite Hret. by destruct (inv_mock _ _ Hinv Hm).
Qed.

Lemma outcome_facts process_boot c slot snapshot generation outcome completed_at wall taken c' :
  cache_inv process_boot c →
  apply_provider_slot_outcome process_boot c slot snapshot Mode_Docker generation outcome completed_at wall = Some (taken, c') →
  cache_inv process_boot c' ∧ advances c c' ∧ keeps_revision c c' ∧ dc_mode c' = dc_mode c ∧
  (taken = true → dc_mode c = Mode_Docker ∧ dc_source_generation c = generation).
Proof.
  intros Hinv. pose proof (inv_publishable _ _ Hinv) as (Hall & Hsan & _). unfold apply_provider_slot_outcome.
  destruct (bool_decide_reflect (dc_mode c = Mode_Docker)) as [Hm|Hm]; cbn [negb orb].
  2:{ intros [= <- <-]. split_and!; [done|reflexivity|done|done|done]. }
  destruct (N.eqb_spec (dc_source_generation c) generation) as [Hg|Hg]; cbn [negb].
  2:{ intros [= <- <-]. split_and!; [done|reflexivity|done|done|done]. }
  destruct (dc_runtime_providers c !! slot) as [s|] eqn:Es.
  2:{ intros [= <- <-]. split_and!; [done|reflexivity|done|done|done]. }
  destruct (slot_outcome _ _ _ _ _ _) as [s'|] eqn:Eo; cbn [mbind option_bind]; [|done].
  destruct (republish _) as [c1|] eqn:Er; cbn [mbind option_bind]; [|done]. intros [= <- <-].
  destruct (outcome_slots _ _ _ _ _ _ _ _ _ Es Eo Hall Hsan) as [Hall' Hsan'].
  destruct (republish_inv _ _ _ c1 Hinv Hall' Hsan') as (? & ? & ? & ? & _); [congruence|done|].
  by split_and!.
Qed.
End cache_facts.
