(* ===== verification/CacheSystem.v ===== *)
(** * The daemon's cache under interleaving
      ([refresh_loop], [spawn_provider_slots] and the tasks they start in
      [crates/dockermap-daemon/src/cache_refresh.rs])

    Every operation holds the cache's lock from beginning to end, so a run of the daemon is a
    sequence of the operations of [Cache], in whatever order the tasks reach the lock. What a
    task carries across its awaits (a snapshot, a mode, a generation) is kept in the system
    state next to the cache. The reads of Docker, the outcomes of the collectors, the clocks,
    the random bytes and the number of workers still unwinding are left to the environment. *)

From S2P Require Import Prelude RustStr RustNum Models Serial Identity Evidence Redaction Publication ObservedHistory Graph RuntimeTopology Findings ComposeBinding Scheduler Assembly Fixtures Cache.

(** A task between two operations. [Task_claim]: a refresh (with the generation its
    publication returned) or a worker that finished (which reads the generation only when it
    spawns) is about to claim slots. [Task_spawn]: slots are claimed and the generation is
    about to be read. [Task_worker]: a collection runs. *)
Inductive Task :=
  | Task_claim (snapshot : DockerSnapshot) (mode : RuntimeMode) (generation : option N)
  | Task_spawn (snapshot : DockerSnapshot) (mode : RuntimeMode) (due : list ProviderSlot)
  | Task_worker (slot : ProviderSlot) (snapshot : DockerSnapshot) (mode : RuntimeMode) (generation : N).

Definition task_mode (t : Task) : RuntimeMode :=
  match t with Task_claim _ mode _ | Task_spawn _ mode _ | Task_worker _ _ mode _ => mode end.

Record System := { sy_cache : DaemonCache; sy_tasks : list Task }.

(** One [tokio::spawn] per slot. *)
Definition spawn_provider_slots (snapshot : DockerSnapshot) (mode : RuntimeMode) (generation : N)
    (slots : list ProviderSlot) : list Task :=
  (λ slot, Task_worker slot snapshot mode generation) <$> slots.

Section system.
Context `{Sha256} `{Json RuntimeMapNode} `{Json RuntimeMapEdge} `{Json RuntimeEvidenceRef}.
Context `{Json (list RuntimeMapNode * list RuntimeMapEdge * list RuntimeMapDiagnostic * list ProviderState)}.
Context `{Json (DockerSnapshot * HealthResponse * RuntimeMap)} `{Json (RuntimeMode * DockerSnapshot)}.

(** The follow-up of [refresh_cache]: only a Docker publication claims. *)
Definition after_publish (c : DaemonCache) : list Task :=
  if dc_mode c == Mode_Docker
  then [Task_claim (dc_snapshot c) (dc_mode c) (Some (dc_source_generation c))] else [].

(** The follow-up of [apply_provider_slot_outcome], when the outcome was taken. *)
Definition after_outcome (taken : bool) (c : DaemonCache) : list Task :=
  if taken && (dc_mode c == Mode_Docker) then [Task_claim (dc_snapshot c) (dc_mode c) None] else [].

(** After the claim: the refresh spawns at once, the other task goes on to read the generation. *)
Definition after_claim (snapshot : DockerSnapshot) (mode : RuntimeMode) (generation : option N)
    (due : list ProviderSlot) : list Task :=
  match generation with
  | Some generation => spawn_provider_slots snapshot mode generation due
  | None => [Task_spawn snapshot mode due]
  end.

Inductive system_step (process_boot : rstr) : System → System → Prop :=
  | step_refresh c tasks b now read u boot epoch c' :
      boots_ok b → collect_snapshot process_boot b now read = Some u →
      publish_docker_snapshot_cache c u boot epoch = Some c' →
      system_step process_boot {| sy_cache := c; sy_tasks := tasks |}
        {| sy_cache := c'; sy_tasks := after_publish c' ++ tasks |}
  | step_claim c before snapshot mode generation after wall now active due c' :
      claim_due_provider_slots c wall now active = Some (due, c') →
      system_step process_boot {| sy_cache := c; sy_tasks := before ++ Task_claim snapshot mode generation :: after |}
        {| sy_cache := c'; sy_tasks := before ++ after_claim snapshot mode generation due ++ after |}
  | step_spawn c before snapshot mode due after :
      system_step process_boot {| sy_cache := c; sy_tasks := before ++ Task_spawn snapshot mode due :: after |}
        {| sy_cache := c;
           sy_tasks := before ++ spawn_provider_slots snapshot mode (dc_source_generation c) due ++ after |}
  | step_outcome c before slot snapshot mode generation after outcome completed_at wall taken c' :
      apply_provider_slot_outcome process_boot c slot snapshot mode generation outcome completed_at wall
      = Some (taken, c') →
      system_step process_boot
        {| sy_cache := c; sy_tasks := before ++ Task_worker slot snapshot mode generation :: after |}
        {| sy_cache := c'; sy_tasks := before ++ after_outcome taken c' ++ after |}.

(** The daemon starts with the sample data and no task. *)
Definition initial (process_boot : rstr) (s : System) : Prop :=
  ∃ b now, boots_ok b ∧ cache_mock process_boot b now = Some (sy_cache s) ∧ sy_tasks s = [].

Definition reachable (process_boot : rstr) (s : System) : Prop :=
  ∃ s0, initial process_boot s0 ∧ rtc (system_step process_boot) s0 s.

(** ** The invariant *)

Definition system_inv (process_boot : rstr) (s : System) : Prop :=
  cache_inv process_boot (sy_cache s) ∧ Forall (λ t, task_mode t = Mode_Docker) (sy_tasks s).

Lemma unavailable_states : provider_states_for unavailable_provider_slots = Some unavailable_provider_states.
Proof. by vm_compute. Qed.

Lemma initial_inv process_boot s : initial process_boot s → system_inv process_boot s.
Proof.
  intros (b & now & Hb & E & Ht). split; [|by rewrite Ht].
  destruct (cache_mock_facts _ _ _ _ E) as (Hi & Hm & Hs).
  pose proof (new_integrity_ok b Hb) as Hib. rewrite <- Hi in Hib.
  unfold cache_mock, assign_docker_observation_revision in E.
  destruct (docker_observation_assign _ _ _) as [r|]; cbn [mbind option_bind] in E; [|discriminate E].
  apply assign_revision_facts in E as [Hco (Hle & _ & Es & Em & Emode & Ep & _ & _ & Ei & _)].
  change (dc_runtime_providers (sy_cache s) = unavailable_provider_slots) in Ep.
  assert (Hn : nothing_retained unavailable_provider_slots).
  { intros slot o Ho. unfold retained_of in Ho. rewrite lookup_fmap in Ho.
    assert (E' : unavailable_provider_slots !! slot = Some slot_default) by (destruct slot; by vm_compute).
    rewrite E' in Ho. by injection Ho as <-. }
  split.
  - done.
  - assert (e_nil : ∀ e : RuntimeMapEdge, e ∈ ([] : list RuntimeMapEdge) → False) by (by intros e ?%elem_of_nil).
    assert (Em' : dc_runtime_map (sy_cache s)
      = with_map_revision (empty_runtime_map now) (revision_current (dc_revision (sy_cache s)))) by exact Em.
    assert (El : s_last_updated (dc_snapshot (sy_cache s)) = now) by (rewrite Es; reflexivity).
    unfold cache_map_ok, map_ok. rewrite Em', Ep, El.
    clear - e_nil. split; [reflexivity|]. split; [exact unavailable_states|].
    split; [|split]; intros e He; destruct (e_nil e He).
  - unfold publishable. rewrite Ep. split_and!; [|by apply nothing_sanitized|done].
    intros slot. destruct slot; vm_compute; eauto.
  - by destruct Hle as (-> & _).
  - intros _. rewrite Ep. by split.
Qed.

Lemma step_inv process_boot s s' :
  system_step process_boot s s' → system_inv process_boot s →
  system_inv process_boot s' ∧ advances (sy_cache s) (sy_cache s') ∧ keeps_revision (sy_cache s) (sy_cache s').
Proof.
  intros Hstep [Hc Ht]. destruct Hstep as [c tasks b now read u boot epoch c' Hb Hu Hp
    |c before snapshot mode generation after wall now active due c' Hcl
    |c before snapshot mode due after
    |c before slot snapshot mode generation after outcome completed_at wall taken c' Ho];
    cbn [sy_cache sy_tasks] in *.
  - destruct (publish_facts _ _ _ _ _ _ _ _ _ Hb Hu Hc Hp) as (Hc' & Ha & Hk & _). split_and!; [split; [done|]|done|done].
    apply Forall_app. split; [|done]. unfold after_publish. case_bool_decide; [by apply Forall_singleton|constructor].
  - destruct (claim_facts _ _ _ _ _ _ _ Hc Hcl) as (Hc' & Ha & Hk & _). split_and!; [split; [done|]|done|done].
    rewrite Forall_app, Forall_cons in Ht. destruct Ht as (Hb & Hmode & Haf). cbn [task_mode] in Hmode.
    cbn [sy_tasks]. rewrite !Forall_app. split_and!; try done.
    destruct generation; [by apply Forall_fmap, Forall_true|by apply Forall_singleton].
  - split_and!; [split; [done|]|reflexivity|done].
    rewrite Forall_app, Forall_cons in Ht. destruct Ht as (Hb & Hmode & Haf). cbn [task_mode] in Hmode.
    cbn [sy_tasks]. rewrite !Forall_app. split_and!; try done. by apply Forall_fmap, Forall_true.
  - rewrite Forall_app, Forall_cons in Ht. destruct Ht as (Hb & Hmode & Haf). cbn [task_mode] in Hmode. subst mode.
    destruct (outcome_facts _ _ _ _ _ _ _ _ _ _ Hc Ho) as (Hc' & Ha & Hk & Hm & _). split_and!; [split; [done|]|done|done].
    cbn [sy_tasks]. rewrite !Forall_app. split_and!; try done. unfold after_outcome.
    case_bool_decide; rewrite ?andb_true_r, ?andb_false_r; [destruct taken|]; try constructor; [done|constructor].
Qed.

Lemma run_inv process_boot s s' :
  rtc (system_step process_boot) s s' → system_inv process_boot s →
  system_inv process_boot s' ∧ advances (sy_cache s) (sy_cache s').
Proof.
  induction 1 as [s|s1 s2 s3 Hs _ IH]; intros Hi; [split; [done|reflexivity]|].
  destruct (step_inv _ _ _ Hs Hi) as (Hi2 & H12 & _). destruct (IH Hi2) as [Hi3 H23]. split; [done|by etrans].
Qed.

Lemma reachable_inv process_boot s : reachable process_boot s → system_inv process_boot s.
Proof. intros (s0 & H0' & Hr). by apply (run_inv _ _ _ Hr), initial_inv. Qed.

(** ** Coherence *)

(** C2: Every reachable cache is one coherent publication, whatever the order in which
    refreshes, claims, spawns and outcomes reached the lock: snapshot, health, runtime map and
    findings carry the same model revision, the findings and their summary are those of the
    cached map (and, from Docker, of the Compose binding), the map has the time of the
    snapshot and the public states of the slots, its edges join its nodes and carry only
    evidence the model accepts, and scheduled jobs and sessions run on an unambiguous host. *)
Theorem published_cache_coherent process_boot s :
  reachable process_boot s → coherent (sy_cache s) ∧ cache_map_ok (sy_cache s).
Proof. intros [[] _]%reachable_inv. by split. Qed.

Lemma same_revision_same_model process_boot c c' :
  cache_inv process_boot c → cache_inv process_boot c' → rev_le (dc_revision c) (dc_revision c') →
  s_model_revision (dc_snapshot c) = s_model_revision (dc_snapshot c') → cache_public_model c = cache_public_model c'.
Proof.
  intros [Hc _ _ Hb _] [Hc' _ _ Hb' _] (_ & _ & Heq) E.
  destruct Hc as (Es & _ & _ & _ & El & _), Hc' as (Es' & _ & _ & _ & El' & _).
  rewrite Es, Es' in E. apply revision_current_inj in E; [|congruence].
  rewrite (Heq E), El in El'. injection El' as El'. by apply (inj to_json).
Qed.

(** C23: The opaque model revision of a daemon identifies what its routes expose: two caches of
    one run with the same revision have the same public model up to the observation markers
    (times, tokens of the observation, revisions), and a step that leaves the public model as
    it was leaves the revision as it was. *)
Theorem model_revision_identifies_model process_boot s1 s2 :
  reachable process_boot s1 → rtc (system_step process_boot) s1 s2 →
  (s_model_revision (dc_snapshot (sy_cache s1)) = s_model_revision (dc_snapshot (sy_cache s2)) →
   cache_public_model (sy_cache s1) = cache_public_model (sy_cache s2)) ∧
  (system_step process_boot s1 s2 → cache_public_model (sy_cache s1) = cache_public_model (sy_cache s2) →
   s_model_revision (dc_snapshot (sy_cache s1)) = s_model_revision (dc_snapshot (sy_cache s2))).
Proof.
  intros Hinv%reachable_inv Hrun. destruct (run_inv _ _ _ Hrun Hinv) as [Hinv2 (Hle & _)]. split.
  - eapply same_revision_same_model; [apply Hinv|apply Hinv2|done].
  - intros Hstep Epm. destruct (step_inv _ _ _ Hstep Hinv) as (_ & _ & Hk).
    destruct Hinv as [Hc _], Hinv2 as [Hc2 _].
    destruct (inv_coherent _ _ Hc) as (-> & _), (inv_coherent _ _ Hc2) as (-> & _). by rewrite (Hk Epm).
Qed.

(** ** The two sources never mix *)

Lemma no_evidence_no_findings m mode binding token fs :
  mode ≠ Mode_Docker → (∀ e, e ∈ rm_edges m → re_evidence_refs e = []) →
  cache_findings m mode binding token = Some fs → fs = [].
Proof.
  intros Hm He. unfold cache_findings. destruct (derive_findings_total m) as (fs0 & -> & _ & Hfs).
  cbn [mbind option_bind]. destruct mode; [done|]. cbn [mbind option_bind]. intros [= <-].
  rewrite app_nil_r. destruct fs0 as [|f l]; [done|exfalso].
  destruct (proj1 (Hfs f) ltac:(left)) as [_ Hf]. apply finding_explained in Hf as (_ & Hne & Hall).
  destruct (f_evidence_refs f) as [|ev evs]; [done|]. apply Forall_cons in Hall as [(e & Hin & Hev & _) _].
  by rewrite He in Hev.
Qed.

(** While Docker is not the source, nothing that was observed live is served under the name
    of the sample: no slot retains data, the snapshot is the sample (up to its time and
    revision), no edge carries evidence, there is no finding, and no collection still in
    flight can be taken into the cache. *)
Theorem mock_serves_nothing_live process_boot s :
  reachable process_boot s → dc_mode (sy_cache s) ≠ Mode_Docker →
  nothing_retained (dc_runtime_providers (sy_cache s)) ∧
  with_snapshot_markers (dc_snapshot (sy_cache s)) 0 [] = with_snapshot_markers (with_images (mock_snapshot 0)) 0 [] ∧
  (∀ e, e ∈ rm_edges (dc_runtime_map (sy_cache s)) → re_evidence_refs e = []) ∧
  fr_findings (dc_findings (sy_cache s)) = [] ∧
  ∀ slot snapshot mode generation outcome completed_at wall,
    Task_worker slot snapshot mode generation ∈ sy_tasks s →
    apply_provider_slot_outcome process_boot (sy_cache s) slot snapshot mode generation outcome completed_at wall
    = Some (false, sy_cache s).
Proof.
  intros [[Hco Hmap _ _ Hmock] Ht]%reachable_inv Hm.
  assert (Hm' : dc_mode (sy_cache s) = Mode_Mock) by (by destruct (dc_mode (sy_cache s))).
  destruct (Hmock Hm') as [Hn Hs]. destruct Hmap as (_ & _ & _ & _ & Hev).
  destruct Hco as (_ & _ & _ & _ & _ & Hf & _).
  assert (He : ∀ e, e ∈ rm_edges (dc_runtime_map (sy_cache s)) → re_evidence_refs e = [])
    by (intros e Hin; by apply Hev).
  split_and!; [done|done|done|by eapply no_evidence_no_findings|].
  intros slot snapshot mode generation outcome completed_at wall Hin.
  rewrite Forall_forall in Ht. specialize (Ht _ Hin). cbn [task_mode] in Ht. subst mode.
  unfold apply_provider_slot_outcome. by rewrite Hm', bool_decide_eq_false_2.
Qed.

(** C5: A collection that started before a change of source is never taken, even when the
    daemon has returned to the same source since: the generation it carries is over. *)
Theorem source_change_retires_workers process_boot s1 s2 s3 slot snapshot outcome completed_at wall :
  reachable process_boot s1 → rtc (system_step process_boot) s1 s2 → rtc (system_step process_boot) s2 s3 →
  dc_mode (sy_cache s1) ≠ dc_mode (sy_cache s2) →
  apply_provider_slot_outcome process_boot (sy_cache s3) slot snapshot (dc_mode (sy_cache s1))
    (dc_source_generation (sy_cache s1)) outcome completed_at wall = Some (false, sy_cache s3).
Proof.
  intros Hinv1%reachable_inv H12 H23 Hm.
  destruct (run_inv _ _ _ H12 Hinv1) as [Hinv2 (_ & G12 & M12)].
  destruct (run_inv _ _ _ H23 Hinv2) as [_ (_ & G23 & _)].
  assert (dc_source_generation (sy_cache s1) ≠ dc_source_generation (sy_cache s2)) by auto.
  unfold apply_provider_slot_outcome.
  assert ((dc_source_generation (sy_cache s3) =? dc_source_generation (sy_cache s1))%N = false) as ->
    by (apply N.eqb_neq; lia).
  cbn [negb]. by rewrite orb_true_r.
Qed.

(** ** The operations always answer *)

Lemma update_revision_total boot f c :
  (∀ r, sf_data_revision f = Some r → (sd_sequence r < u64_max)%N) → ∃ f', update_slot_data_revision boot f c = Some f'.
Proof.
  intros Hr. pose proof (update_revision_cases boot f c) as Hu.
  destruct (update_slot_data_revision boot f c) as [f'|]; [eauto|].
  destruct Hu as (r & Er & Hmax). specialize (Hr r Er). lia.
Qed.

Lemma outcome_total boot wall completed_at same outcome st :
  (∀ r, slot_revision st = Some r → (sd_sequence r < u64_max)%N) →
  ∃ st', slot_outcome boot wall completed_at same outcome st = Some st'.
Proof.
  intros Hr. destruct outcome as [c| | |]; cbn [slot_outcome]; eauto. unfold collected_state.
  destruct (update_revision_total boot (ss_freshness st) (sanitized_for_retention c) Hr) as [f ->].
  cbn [mbind option_bind]. eauto.
Qed.

Lemma carried_total cache u boot :
  publishable cache → (dc_source_generation cache < u64_max)%N → ∃ c1, carried_over cache u boot = Some c1 ∧
    dc_snapshot c1 = dc_snapshot u ∧ dc_docker_observation_revision c1 = dc_docker_observation_revision cache ∧
    (dc_integrity_observation_revision c1 = dc_integrity_observation_revision cache ∨
     dc_integrity_observation_revision c1 = dc_integrity_observation_revision u) ∧
    (dc_mode cache = dc_mode u ∧ dc_observed_history c1 = dc_observed_history cache ∨
     dc_observed_history c1 = history_new boot).
Proof.
  intros (Hall & _) Hg. unfold carried_over.
  destruct (bool_decide_reflect (dc_mode cache = dc_mode u)); cbn [mbind option_bind andb].
  - destruct (negb _); [destruct (mark_stale_total _ Hall) as [slots ->]|]; cbn [mbind option_bind];
      eexists; (split; [reflexivity|]); split_and!; auto.
  - unfold checked_add. destruct (N.leb_spec (dc_source_generation cache + 1) u64_max); [|lia].
    cbn [mbind option_bind]. eexists; (split; [reflexivity|]); by auto.
Qed.

Lemma publish_total process_boot cache b now read u boot epoch :
  cache_inv process_boot cache → counters_left cache → (dc_source_generation cache < u64_max)%N →
  boots_ok b → collect_snapshot process_boot b now read = Some u →
  (dc_mode cache = Mode_Docker → dc_mode u = Mode_Docker →
   history_room (dc_observed_history cache) (publish_docker_snapshot (dc_snapshot u))) →
  ∃ c', publish_docker_snapshot_cache cache u boot epoch = Some c'.
Proof.
  intros Hinv (Hd & Hi & Hr) Hg Hb Hu Hroom. pose proof (inv_publishable _ _ Hinv) as Hp.
  destruct (collect_facts _ _ _ _ _ Hu) as [Hiu _].
  destruct (carried_total cache u boot Hp Hg) as (c1 & E1 & Es & Ed & Ei & Eh).
  assert (Hp1 : publishable c1).
  { apply (carried_facts cache u boot c1 Hp); [rewrite Hiu; by apply new_integrity_ok|done]. }
  (* the docker and integrity counters, with room in the carried publication counter *)
  destruct (rebuild_total (with_revision c1 (dc_revision cache))) as [c2' E2'].
  { exact Hp1. }
  { unfold counters_left. cbn [with_revision dc_docker_observation_revision dc_integrity_observation_revision dc_revision].
    rewrite Ed. split_and!; [done| |done]. destruct Ei as [->| ->]; [done|]. rewrite Hiu. apply fresh_counters. }
  unfold publish_docker_snapshot_cache. rewrite E1. cbn [mbind option_bind].
  assert (E2 : ∃ c2, rebuild_runtime_map c1 = Some c2).
  { revert E2'. unfold rebuild_runtime_map, assign_docker_observation_revision.
    cbn [with_revision dc_docker_observation_revision dc_snapshot dc_health dc_runtime_providers].
    change (dc_mode (with_revision c1 (dc_revision cache))) with (dc_mode c1).
    destruct (docker_observation_assign _ _ _) as [r|]; cbn [mbind option_bind]; [|done].
    unfold dc_mode, docker_observation_token.
    cbn [dc_docker_observation_revision dc_snapshot dc_health dc_runtime_providers].
    destruct (runtime_map_for_snapshot _ _ _ _) as [m|]; cbn [mbind option_bind]; [|done].
    unfold apply_runtime_identity_collision_fact, dc_mode.
    cbn [with_map dc_health dc_runtime_map dc_integrity_observation_revision].
    destruct (revision_see _ _) as [i|]; cbn [mbind option_bind]; [eauto|done]. }
  destruct E2 as [c2 E2]. rewrite E2. cbn [mbind option_bind].
  destruct (rebuild_facts _ _ Hp1 E2) as [_ (Es2 & Eh2' & _ & _ & _ & Eh2 & _)].
  destruct (assign_revision_total (with_revision c2 (dc_revision cache)) Hr) as [c3 E3]. rewrite E3. cbn [mbind option_bind].
  apply assign_revision_facts in E3 as [_ (_ & _ & Es3 & _ & Em3 & _ & _ & _ & _ & Eh3 & _)].
  case_bool_decide as Hm3; [|eauto].
  destruct (observe_total (dc_observed_history c3) (with_snapshot_markers (publish_docker_snapshot (dc_snapshot c3))
    (s_last_updated (dc_snapshot c3)) []) epoch) as [h ->]; [|cbn [mbind option_bind]; eauto].
  rewrite Eh3, Es3. cbn [with_revision dc_observed_history dc_snapshot]. rewrite Eh2, Es2, Es.
  destruct Eh as [[Em ->]| ->]; [|by intros previous].
  destruct (carried_facts cache u boot c1 Hp) as (_ & _ & Em1 & _); [rewrite Hiu; by apply new_integrity_ok|done|].
  assert (dc_mode u = Mode_Docker) as Hu'.
  { rewrite <- Em1, <- Hm3, Em3. unfold dc_mode at 2. cbn [with_revision dc_health]. unfold dc_mode. by rewrite Eh2'. }
  apply Hroom; congruence.
Qed.

(** C24: No operation of the daemon ever panics or fails to answer while no 64-bit counter is
    exhausted: every read of Docker gives a candidate, whatever it returned; and on every
    reachable cache the candidate is published, due slots are claimed, and an outcome is
    applied (or discarded). *)
Theorem operations_total process_boot s :
  reachable process_boot s → counters_left (sy_cache s) → (dc_source_generation (sy_cache s) < u64_max)%N →
  (∀ b now read, boots_ok b → ∃ u, collect_snapshot process_boot b now read = Some u ∧
     ∀ boot epoch, (dc_mode (sy_cache s) = Mode_Docker → dc_mode u = Mode_Docker →
         history_room (dc_observed_history (sy_cache s)) (publish_docker_snapshot (dc_snapshot u))) →
       ∃ c', publish_docker_snapshot_cache (sy_cache s) u boot epoch = Some c') ∧
  (∀ wall now active, ∃ due c', claim_due_provider_slots (sy_cache s) wall now active = Some (due, c')) ∧
  (∀ slot snapshot mode generation outcome completed_at wall,
     (∀ st r, dc_runtime_providers (sy_cache s) !! slot = Some st → slot_revision st = Some r →
        (sd_sequence r < u64_max)%N) →
     ∃ taken c', apply_provider_slot_outcome process_boot (sy_cache s) slot snapshot mode generation outcome
       completed_at wall = Some (taken, c')).
Proof.
  intros [Hinv _]%reachable_inv Hc Hg. pose proof (inv_publishable _ _ Hinv) as (Hall & Hsan & Hi). split_and!.
  - intros b now read Hb. destruct (collect_total process_boot b now read) as [u Hu]. exists u. split; [done|].
    intros boot epoch Hroom. by eapply publish_total.
  - intros wall now active. unfold claim_due_provider_slots.
    destruct (claim_total (dc_runtime_providers (sy_cache s)) wall now MAX_CONCURRENT_PROVIDER_SLOTS active Hall)
      as (due & slots & E). rewrite E. cbn [mbind option_bind].
    destruct (claim_retained _ _ _ _ _ _ _ Hall E) as [Hret _]. case_bool_decide; [eauto|].
    destruct (republish_total (with_slots (sy_cache s) slots)) as [c' ->]; [|done|cbn [mbind option_bind]; eauto].
    split_and!; [|apply retained_of_sanitized|done]; cbn [with_slots dc_runtime_providers].
    + apply retained_of_all. rewrite Hret. by apply retained_of_all.
    + rewrite Hret. by apply retained_of_sanitized.
  - intros slot snapshot mode generation outcome completed_at wall Hrev. unfold apply_provider_slot_outcome.
    case_match; [eauto|]. destruct (dc_runtime_providers (sy_cache s) !! slot) as [st|] eqn:Est; [|eauto].
    destruct (outcome_total process_boot wall completed_at
      (same_collection_evidence (dc_snapshot (sy_cache s)) snapshot) outcome st (λ r, Hrev st r eq_refl)) as [st' E].
    rewrite E. cbn [mbind option_bind]. destruct (outcome_slots _ _ _ _ _ _ _ _ _ Est E Hall Hsan) as [Hall' Hsan'].
    destruct (republish_total (with_slots (sy_cache s) (<[slot := st']> (dc_runtime_providers (sy_cache s)))))
      as [c' ->]; [by split_and!|done|cbn [mbind option_bind]; eauto].
Qed.
End system.

(** ** Example runs *)

Section run_lemmas.
Context `{Sha256} `{Json RuntimeMapNode} `{Json RuntimeMapEdge} `{Json RuntimeEvidenceRef}.
Context `{Json (list RuntimeMapNode * list RuntimeMapEdge * list RuntimeMapDiagnostic * list ProviderState)}.
Context `{Json (DockerSnapshot * HealthResponse * RuntimeMap)} `{Json (RuntimeMode * DockerSnapshot)}.

(** All counters of a cache are at most [n], and its history is empty. *)
Definition young (n : N) (c : DaemonCache) : Prop :=
  (rv_sequence (dc_docker_observation_revision c) <= n)%N ∧
  (rv_sequence (dc_integrity_observation_revision c) <= n)%N ∧ (rv_sequence (dc_revision c) <= n)%N ∧
  (dc_source_generation c <= n)%N.

Lemma cache_mock_young process_boot b now c :
  cache_mock process_boot b now = Some c → young 1 c ∧ dc_observed_history c = history_new (boot_history b).
Proof.
  unfold cache_mock, assign_docker_observation_revision, docker_observation_assign.
  destruct (revision_see _ _) as [r|] eqn:Er; cbn [mbind option_bind]; [|done].
  apply revision_see_spec in Er as (_ & _ & Hseq).
  intros [_ (_ & Hs & _ & _ & _ & _ & Eg & Ed & Ei & Eo & _)]%assign_revision_facts.
  cbn [fresh_cache dc_docker_observation_revision dc_integrity_observation_revision dc_revision
    dc_source_generation dc_observed_history revision_new rv_sequence] in Hseq, Hs, Eg, Ed, Ei, Eo.
  unfold young. rewrite Ed, Ei, Eg. cbn [rv_sequence revision_new]. split_and!; [lia..|done].
Qed.

Lemma collect_mode process_boot b now read u :
  collect_snapshot process_boot b now read = Some u →
  dc_mode u = match read with Read_observed _ _ => Mode_Docker | _ => Mode_Mock end.
Proof.
  assert (Hmock : ∀ message, (cache ← cache_mock process_boot b now; Some (with_redacted_health (with_message cache message))) = Some u →
    dc_mode u = Mode_Mock).
  { intros message. destruct (cache_mock _ _ _) as [c|] eqn:Ec; cbn [mbind option_bind]; [|done]. intros [= <-].
    by destruct (cache_mock_facts _ _ _ _ Ec) as (_ & ? & _). }
  destruct read; cbn [collect_snapshot]; try apply Hmock. by intros [= <-].
Qed.

(** A change of source always goes through on a young cache. *)
Lemma change_of_source process_boot n s b (now : N) read :
  system_inv process_boot s → young n (sy_cache s) → (n + 1 < u64_max)%N → boots_ok b →
  dc_mode (sy_cache s) ≠ match read with Read_observed _ _ => Mode_Docker | _ => Mode_Mock end →
  ∃ s', system_step process_boot s s' ∧ young (n + 1) (sy_cache s') ∧
    dc_mode (sy_cache s') = match read with Read_observed _ _ => Mode_Docker | _ => Mode_Mock end.
Proof.
  intros [Hinv _] (Hd & Hi & Hr & Hg) Hn Hb Hmode. destruct s as [c tasks]. cbn [sy_cache] in *.
  destruct (collect_total process_boot b now read) as [u Hu]. pose proof (collect_mode _ _ _ _ _ Hu) as Hum.
  assert (Hchange : dc_mode c ≠ dc_mode u) by congruence.
  pose proof (inv_publishable _ _ Hinv) as Hp. destruct (collect_facts _ _ _ _ _ Hu) as [Hiu _].
  destruct (carried_total c u (boot_history b) Hp ltac:(lia)) as (c1 & E1 & _).
  destruct (carried_facts c u (boot_history b) c1 Hp) as (Hp1 & Es1 & Em1 & _);
    [rewrite Hiu; by apply new_integrity_ok|done|].
  assert (F1 : dc_docker_observation_revision c1 = dc_docker_observation_revision c ∧
    rv_sequence (dc_integrity_observation_revision c1) = 0%N ∧ dc_revision c1 = dc_revision u ∧
    dc_source_generation c1 = (dc_source_generation c + 1)%N ∧ dc_observed_history c1 = history_new (boot_history b)).
  { revert E1. unfold carried_over. rewrite (bool_decide_eq_false_2 _ Hchange). cbn [andb mbind option_bind].
    destruct (checked_add _ _ _) as [g|] eqn:Eg; [|done]. apply checked_add_Some in Eg as [-> _].
    cbn [mbind option_bind]. intros [= <-]. by rewrite Hiu. }
  destruct F1 as (Ed1 & Ei1 & Er1 & Eg1 & Eh1).
  destruct (publish_total process_boot c b now read u (boot_history b) [] Hinv) as [c' Hc'];
    [unfold counters_left; lia|lia|done|done|congruence|].
  destruct (publish_facts _ _ _ _ _ _ _ _ _ Hb Hu Hinv Hc') as (_ & _ & _ & Hm').
  eexists. split; [by eapply step_refresh|]. cbn [sy_cache]. split; [|congruence].
  revert Hc'. unfold publish_docker_snapshot_cache. rewrite E1. cbn [mbind option_bind].
  destruct (rebuild_runtime_map c1) as [c2|] eqn:E2; cbn [mbind option_bind]; [|done].
  destruct (rebuild_facts _ _ Hp1 E2) as [_ (_ & _ & _ & Eg2 & _ & _ & _ & _ & Hd2 & Hi2 & _)].
  destruct (assign_revision _) as [c3|] eqn:E3; cbn [mbind option_bind]; [|done].
  apply assign_revision_facts in E3 as [_ (_ & Hr3 & _ & _ & _ & _ & Eg3 & Ed3 & Ei3 & _)].
  cbn [with_revision dc_revision dc_source_generation dc_docker_observation_revision
    dc_integrity_observation_revision] in Hr3, Eg3, Ed3, Ei3.
  assert (young (n + 1) c3) by (unfold young; rewrite Ed3, Ei3, Eg3, Eg2, Eg1; rewrite Ed1 in Hd2; rewrite Ei1 in Hi2; lia).
  case_bool_decide; [|by intros [= <-]].
  destruct (observe_published_snapshot _ _ _); cbn [mbind option_bind]; [|done]. by intros [= <-].
Qed.
End run_lemmas.

Section example.
#[local] Existing Instance Toy_sha256.
#[local] Instance example_node_json : Json RuntimeMapNode := Json_of_countable _.
#[local] Instance example_edge_json : Json RuntimeMapEdge := Json_of_countable _.
#[local] Instance example_evidence_json : Json RuntimeEvidenceRef := Json_of_countable _.
#[local] Instance example_collection_json :
  Json (list RuntimeMapNode * list RuntimeMapEdge * list RuntimeMapDiagnostic * list ProviderState) := Json_of_countable _.
#[local] Instance example_model_json : Json (DockerSnapshot * HealthResponse * RuntimeMap) := Json_of_countable _.
#[local] Instance example_docker_json : Json (RuntimeMode * DockerSnapshot) := Json_of_countable _.

Definition example_boots : Boots := {|
  boot_docker := replicate 16 1%N; boot_integrity := replicate 16 2%N; boot_history := replicate 16 3%N |}.

(** A run that starts with the sample, reaches Docker, loses it, and reaches it again. *)
Lemma example_run :
  ∃ s0 s1 s2 s3, initial "boot" s0 ∧ system_step "boot" s0 s1 ∧ system_step "boot" s1 s2 ∧ system_step "boot" s2 s3 ∧
    young 2 (sy_cache s1) ∧ dc_mode (sy_cache s0) = Mode_Mock ∧
    dc_mode (sy_cache s1) = Mode_Docker ∧ dc_mode (sy_cache s2) = Mode_Mock ∧ dc_mode (sy_cache s3) = Mode_Docker.
Proof.
  assert (Hb : boots_ok example_boots) by done.
  destruct (cache_mock_total "boot" example_boots 7) as [c0 E0].
  destruct (cache_mock_young _ _ _ _ E0) as [Hy0 _]. destruct (cache_mock_facts _ _ _ _ E0) as (_ & Hm0 & _).
  set (s0 := {| sy_cache := c0; sy_tasks := [] |}).
  assert (Hi0 : initial "boot" s0) by (by exists example_boots, 7%N).
  pose proof (initial_inv _ _ Hi0) as Hv0.
  destruct (change_of_source "boot" 1 s0 example_boots 8 (Read_observed example_empty_snapshot None) Hv0 Hy0)
    as (s1 & Hs1 & Hy1 & Hm1); [done|done|by (change (dc_mode c0 ≠ Mode_Docker); rewrite Hm0)|].
  destruct (step_inv _ _ _ Hs1 Hv0) as [Hv1 _].
  destruct (change_of_source "boot" 2 s1 example_boots 9 Read_timed_out Hv1 Hy1) as (s2 & Hs2 & Hy2 & Hm2);
    [done|done|by rewrite Hm1|].
  destruct (step_inv _ _ _ Hs2 Hv1) as [Hv2 _].
  destruct (change_of_source "boot" 3 s2 example_boots 10 (Read_observed example_empty_snapshot None) Hv2 Hy2)
    as (s3 & Hs3 & _ & Hm3); [done|done|by rewrite Hm2|].
  exists s0, s1, s2, s3. by split_and!.
Qed.

Lemma published_cache_coherent_witness :
  ∃ s, reachable "boot" s ∧ dc_mode (sy_cache s) = Mode_Docker ∧ coherent (sy_cache s).
Proof.
  destruct example_run as (s0 & s1 & _ & _ & Hi & H1 & _ & _ & _ & _ & Hm1 & _).
  exists s1. assert (Hr : reachable "boot" s1) by (exists s0; split; [exact Hi|by apply rtc_once]).
  split; [exact Hr|]. split; [exact Hm1|]. exact (proj1 (published_cache_coherent "boot" s1 Hr)).
Defined.

Lemma model_revision_identifies_model_witness :
  ∃ s1 s2, system_step "boot" s1 s2 ∧ dc_mode (sy_cache s1) ≠ dc_mode (sy_cache s2) ∧
    (s_model_revision (dc_snapshot (sy_cache s1)) = s_model_revision (dc_snapshot (sy_cache s2)) →
     cache_public_model (sy_cache s1) = cache_public_model (sy_cache s2)).
Proof.
  destruct example_run as (s0 & s1 & _ & _ & Hi & H1 & _ & _ & _ & Hm0 & Hm1 & _).
  exists s0, s1. split; [exact H1|]. split; [by rewrite Hm0, Hm1|].
  assert (Hr : reachable "boot" s0) by (exists s0; split; [exact Hi|reflexivity]).
  exact (proj1 (model_revision_identifies_model "boot" s0 s1 Hr (rtc_once _ _ H1))).
Defined.

Lemma mock_serves_nothing_live_witness :
  ∃ s1 s2, system_step "boot" s1 s2 ∧ dc_mode (sy_cache s1) = Mode_Docker ∧ dc_mode (sy_cache s2) = Mode_Mock ∧
    fr_findings (dc_findings (sy_cache s2)) = [].
Proof.
  destruct example_run as (s0 & s1 & s2 & _ & Hi & H1 & H2 & _ & _ & _ & Hm1 & Hm2 & _).
  exists s1, s2. split; [exact H2|]. split; [exact Hm1|]. split; [exact Hm2|].
  assert (Hr : reachable "boot" s2) by (exists s0; split; [exact Hi|by eapply rtc_l, rtc_once]).
  apply (mock_serves_nothing_live "boot" s2 Hr). by rewrite Hm2.
Defined.

(** The collection started under the first Docker source; the daemon is back on Docker. *)
Lemma source_change_retires_workers_witness :
  ∃ s1 s3, dc_mode (sy_cache s1) = Mode_Docker ∧ dc_mode (sy_cache s3) = Mode_Docker ∧
    apply_provider_slot_outcome "boot" (sy_cache s3) Slot_Cron example_empty_snapshot Mode_Docker
      (dc_source_generation (sy_cache s1)) Outcome_Failed 5 None = Some (false, sy_cache s3).
Proof.
  destruct example_run as (s0 & s1 & s2 & s3 & Hi & H1 & H2 & H3 & _ & _ & Hm1 & Hm2 & Hm3).
  exists s1, s3. split; [exact Hm1|]. split; [exact Hm3|].
  assert (Hr : reachable "boot" s1) by (exists s0; split; [exact Hi|by apply rtc_once]).
  assert (Hne : dc_mode (sy_cache s1) ≠ dc_mode (sy_cache s2)) by (by rewrite Hm1, Hm2).
  pose proof (source_change_retires_workers "boot" s1 s2 s3 Slot_Cron example_empty_snapshot Outcome_Failed 5 None
    Hr (rtc_once _ _ H2) (rtc_once _ _ H3) Hne) as E.
  rewrite Hm1 in E. exact E.
Defined.

Lemma operations_total_witness :
  ∃ s, reachable "boot" s ∧ dc_mode (sy_cache s) = Mode_Docker ∧
    ∃ due c', claim_due_provider_slots (sy_cache s) (λ _, None) 9 2 = Some (due, c').
Proof.
  destruct example_run as (s0 & s1 & _ & _ & Hi & H1 & _ & _ & (Y1 & Y2 & Y3 & Y4) & _ & Hm1 & _).
  exists s1. assert (Hr : reachable "boot" s1) by (exists s0; split; [exact Hi|by apply rtc_once]).
  split; [exact Hr|]. split; [exact Hm1|].
  assert (Hmax : (2 < u64_max)%N) by done.
  apply (operations_total "boot" s1 Hr).
  - split; [|split]; (eapply N.le_lt_trans; [eassumption|exact Hmax]).
  - eapply N.le_lt_trans; [exact Y4|exact Hmax].
Defined.
End example.
