(* ===== verification/PublishedText.v ===== *)
(** * The text a daemon publishes ([crates/dockermap-daemon/src/cache_refresh.rs], [publication.rs])

    The strings of the bodies the cache answers with (graph, runtime map, findings, history),
    and the invariant that every string of a reachable cache's map, findings and history is
    redacted text, an opaque identifier, or a revision token of the daemon itself. *)

From S2P Require Import Prelude RustStr RustNum Models Serial Identity Evidence Redaction Publication ObservedHistory Graph RuntimeTopology Findings ComposeBinding Scheduler Assembly Fixtures Cache CacheSystem.

(** ** Strings of the bodies *)

Definition graph_strings (g : GraphResponse) : list rstr :=
  (gr_nodes g ≫= λ n, [gn_id n; gn_label n]) ++ (gr_edges g ≫= λ e, [ge_source e; ge_target e]).

(** A finding apart from its id. *)
Definition finding_strings (f : Finding) : list rstr :=
  f_summary f :: f_recommendation f :: f_subject_ref f :: f_target_ref f :: (f_evidence_refs f ≫= evidence_strings).

(** ** Text that needs no redaction *)

Definition safe_textb (t : rstr) : bool :=
  negb (is_sensitive_text t) && forallb (λ c, negb (unsafe_runtime_display_character c)) t.

Lemma safe_textb_spec t : safe_textb t = true → safe_text t.
Proof.
  unfold safe_textb. rewrite andb_true_iff, negb_true_iff, forallb_forall. intros [Hs Hc]. split; [done|].
  apply Forall_forall. intros c Hin. by apply negb_true_iff, Hc, list_elem_of_In.
Qed.

(** Lower-case letters, digits and underscores. *)
Definition word_char (c : N) : bool := is_ascii_lower c || is_ascii_digit c || (c =? 95)%N.

Lemma contains_chars (s n : rstr) c : contains s n = true → c ∈ n → c ∈ s.
Proof. intros (a & b & ->)%contains_spec Hc. rewrite !elem_of_app. tauto. Qed.

Lemma starts_with_chars (s p : rstr) c : starts_with s p = true → c ∈ p → c ∈ s.
Proof. intros (r & ->)%starts_with_spec Hc. rewrite elem_of_app. tauto. Qed.

Lemma split_whitespace_chars s token c : token ∈ split_whitespace s → c ∈ token → c ∈ s.
Proof.
  unfold split_whitespace. intros Ht Hc.
  cut (∀ cur, token ∈ split_whitespace_go cur s → c ∈ cur ∨ c ∈ s).
  { intros Hgo. destruct (Hgo [] Ht) as [?%elem_of_nil|?]; done. }
  clear Ht. induction s as [|x s IH]; intros cur Ht.
  - left. destruct cur; cbn [split_whitespace_go] in Ht; [by apply elem_of_nil in Ht|].
    apply list_elem_of_singleton in Ht as ->. by apply elem_of_reverse.
  - rewrite split_go_cons in Ht. destruct (is_whitespace x).
    + destruct cur as [|y cur]; [apply IH in Ht as [?%elem_of_nil|?]; [done|by right; right]|].
      apply elem_of_cons in Ht as [->|Ht]; [left; by apply elem_of_reverse|].
      apply IH in Ht as [?%elem_of_nil|?]; [done|by right; right].
    + apply IH in Ht as [[->|?]%elem_of_cons|?]; [right; by left|by left|right; by right].
Qed.

Lemma after_first_chars n s r c : after_first n s = Some r → c ∈ n → c ∈ s.
Proof.
  induction s as [|x s IH]; cbn [after_first]; destruct (strip_prefix n _) as [q|] eqn:E; try done.
  - intros _ Hc. apply strip_prefix_Some in E. rewrite E, elem_of_app. tauto.
  - intros _ Hc. apply strip_prefix_Some in E. rewrite E, elem_of_app. tauto.
  - intros Ha Hc. right. by apply IH.
Qed.

(** A text of such characters can only be sensitive by the marker of a test secret. *)
Lemma word_safe t :
  Forall (λ c, word_char c = true) t → contains t "dockermap_test_fake_" = false → safe_text t.
Proof.
  intros Hw Hm. rewrite Forall_forall in Hw.
  assert (Hnot : ∀ c, word_char c = false → c ∉ t) by (intros c Hc Hin; specialize (Hw c Hin); congruence).
  assert (Hlow : to_ascii_lowercase t = t).
  { unfold to_ascii_lowercase. rewrite <- (list_fmap_id t) at 2. apply list_fmap_ext. intros i c Hc.
    specialize (Hw c ltac:(by eapply list_elem_of_lookup_2)). unfold ascii_lower. destruct (is_ascii_upper c) eqn:E; [|done].
    revert E Hw. unfold is_ascii_upper, word_char, is_ascii_lower, is_ascii_digit.
    rewrite !orb_true_iff, !andb_true_iff, !N.leb_le, N.eqb_eq. lia. }
  split.
  - unfold is_sensitive_text. rewrite Hlow, Hm.
    assert (contains_url_userinfo t = false) as ->.
    { unfold contains_url_userinfo. destruct (after_first "://" t) eqn:E; [|done].
      exfalso. apply (Hnot 58%N eq_refl). eapply after_first_chars; [exact E|decided]. }
    assert (contains_sensitive_assignment t = false) as ->.
    { apply not_true_iff_false. unfold contains_sensitive_assignment. rewrite existsb_exists. intros (n & Hn & Hc).
      assert (Hk : forallb (λ n, contains_char n 58 || contains_char n 61) assignment_needles = true) by (by vm_compute).
      rewrite forallb_forall in Hk. specialize (Hk n Hn).
      apply orb_prop in Hk as [Hk|Hk]; apply bool_decide_eq_true in Hk; [apply (Hnot 58%N eq_refl)|apply (Hnot 61%N eq_refl)]; by eapply contains_chars. }
    assert (contains_sensitive_flag t = false) as ->.
    { apply not_true_iff_false. rewrite contains_sensitive_flag_tokens, existsb_exists. intros (token & Ht & Hf).
      unfold flag_token in Hf. apply existsb_exists in Hf as (flag & Hflag & Hf).
      assert (Hk : forallb (λ n, contains_char n 45) sensitive_flags = true) by (by vm_compute).
      rewrite forallb_forall in Hk. specialize (Hk flag Hflag). apply bool_decide_eq_true in Hk.
      apply (Hnot 45%N eq_refl). eapply split_whitespace_chars; [by apply list_elem_of_In|].
      apply orb_prop in Hf as [->%bool_decide_eq_true|Hf]; [done|]. eapply starts_with_chars; [exact Hf|]. unfold rapp. rewrite elem_of_app. tauto. }
    assert (contains_auth_scheme t = false) as ->; [|done].
    { apply not_true_iff_false. unfold contains_auth_scheme. rewrite orb_true_iff, existsb_exists. intros [Hs|(n & Hn & Hc)].
      - apply (Hnot 32%N eq_refl). unfold trim_start in Hs. destruct (drop_while_suffix is_whitespace t) as [p Hp].
        rewrite Hp, elem_of_app. right. eapply starts_with_chars; [exact Hs|decided].
      - assert (Hk : forallb (λ n, contains_char n 58 || contains_char n 61) auth_needles = true) by (by vm_compute).
        rewrite forallb_forall in Hk. specialize (Hk n Hn).
        apply orb_prop in Hk as [Hk|Hk]; apply bool_decide_eq_true in Hk; [apply (Hnot 58%N eq_refl)|apply (Hnot 61%N eq_refl)]; by eapply contains_chars. }
  - apply Forall_forall. intros c Hc. specialize (Hw c Hc).
    assert (Hall : forallb (λ i, implb (word_char (N.of_nat i)) (negb (unsafe_runtime_display_character (N.of_nat i))))
      (seq 0 128) = true) by (by vm_compute).
    assert (Hlt : (c < 128)%N).
    { revert Hw. unfold word_char, is_ascii_lower, is_ascii_digit.
      rewrite !orb_true_iff, !andb_true_iff, !N.leb_le, N.eqb_eq. lia. }
    rewrite forallb_forall in Hall. specialize (Hall (N.to_nat c)). rewrite in_seq, N2Nat.id, Hw in Hall.
    apply negb_true_iff, Hall. lia.
Qed.

(** A character that is not in the second part of a text is in the first. *)
Lemma occurrence_in_prefix (p h u b : rstr) x : x ∉ h → p ++ h = u ++ x :: b → ∃ b', p = u ++ x :: b'.
Proof.
  intros Hx E. apply app_eq_app in E as (l & [[-> E]|[-> ->]]).
  - destruct l as [|y l]; cbn [app] in E.
    + exfalso. apply Hx. rewrite <- E. by left.
    + injection E as -> _. by exists l.
  - exfalso. apply Hx. rewrite elem_of_app. right. by left.
Qed.

(** A constant prefix before a digest. *)
Lemma prefixed_hex_safe `{Sha256} (p v : rstr) :
  forallb word_char p = true → contains p "dockermap_test_fake_" = false → safe_text (p +s+ sha256_hex v).
Proof.
  intros Hp Hm. unfold rapp. pose proof (sha256_hex_lower v) as Hh. apply word_safe.
  - apply Forall_app. split; [apply Forall_forall; rewrite forallb_forall in Hp; intros c ?%list_elem_of_In; auto|].
    eapply Forall_impl; [exact Hh|]. intros c. unfold is_hex_lower, word_char, is_ascii_lower.
    rewrite !orb_true_iff, !andb_true_iff, !N.leb_le. intros [?|?]; [tauto|left; left; lia].
  - apply not_true_iff_false in Hm. apply not_true_iff_false. rewrite contains_spec in Hm |- *. intros (a & b & E).
    change (lit "dockermap_test_fake_") with (lit "dockermap_test_fake" ++ [95%N]) in E |- *.
    rewrite <- app_assoc, app_assoc in E. apply occurrence_in_prefix in E as (b' & ->).
    + apply Hm. exists a, b'. by rewrite <- !app_assoc.
    + intros Hin. rewrite Forall_forall in Hh. by apply Hh in Hin.
Qed.

(** ** The graph *)

Lemma derive_graph_safe `{Json GraphNode} `{Json GraphEdge} s :
  Forall safe_text (snapshot_strings s) → Forall safe_text (graph_strings (derive_graph s)).
Proof.
  unfold snapshot_strings. rewrite !Forall_app, !Forall_forall. intros (Hc & _ & Hn & Hv).
  assert (Hnode : ∀ n, n ∈ graph_nodes s → safe_text (gn_id n) ∧ safe_text (gn_label n)).
  { intros n Hin. unfold graph_nodes in Hin. rewrite !elem_of_app in Hin.
    destruct Hin as [Hin|[Hin|Hin]]; apply list_elem_of_fmap in Hin as (x & -> & Hx); cbn [gn_id gn_label];
      split; [apply Hc|apply Hc|apply Hn|apply Hn|apply Hv|apply Hv]; apply list_elem_of_bind; exists x; (split; [|done]).
    1, 3, 5: by left.
    1, 3: by right; left.
    unfold container_strings. cbn [app]. by right; left. }
  intros t Ht. unfold graph_strings in Ht. rewrite elem_of_app, !list_elem_of_bind in Ht.
  destruct Ht as [(n & Ht & Hin%elem_of_graph_nodes_derived%Hnode)|(e & Ht & He)].
  - rewrite !elem_of_cons, elem_of_nil in Ht. destruct Ht as [->|[->|[]]]; apply Hin.
  - unfold derive_graph in He. cbn [gr_edges] in He. rewrite elem_of_dedup, elem_of_sort_by_json, elem_of_all_edges in He.
    apply graph_edge_endpoints in He as [(n & Hin & Es & _)%names_one_node (n' & Hin' & Et & _)%names_one_node].
    rewrite !elem_of_cons, elem_of_nil in Ht. destruct Ht as [->|[->|[]]]; [rewrite <- Es|rewrite <- Et]; by apply Hnode.
Qed.

(** ** Findings *)

(** What the rules write themselves. *)
Lemma finding_constants `{Sha256} m f0 : finding_of m f0 →
  safe_text (f_summary f0) ∧ safe_text (f_recommendation f0) ∧ Forall (λ c, id_char c = true) (f_id f0).
Proof.
  assert (Hid : ∀ (p v : rstr), forallb id_char p = true →
    Forall (λ c, id_char c = true) (p +s+ collision_resistant_id_component v)).
  { intros p v Hp. unfold rapp. apply Forall_app. split.
    - apply Forall_forall. rewrite forallb_forall in Hp. intros c ?%list_elem_of_In. auto.
    - unfold collision_resistant_id_component, rapp. rewrite !Forall_app. split_and!; [apply readable_slug_chars|by decided|].
      eapply Forall_impl; [apply sha256_hex_lower|apply hex_lower_id_char]. }
  intros [| | | | | | | | |e ev p pev f He Ha _ _ _ _ Hpa _ _ Hf].
  10: unfold internal_port_finding in Hf;
    rewrite (attested_evidence_0 _ _ _ _ Ha), (attested_evidence_0 _ _ _ _ Hpa) in Hf; injection Hf as <-.
  all: unfold edge_finding; cbn [f_summary f_recommendation f_id];
    (split; [by apply safe_textb_spec; vm_compute|]); (split; [by apply safe_textb_spec; vm_compute|]); try by apply Hid.
  by vm_compute; repeat constructor.
Qed.

(** A finding of the map says nothing that the map does not. *)
Lemma finding_text `{Sha256} (P : rstr → Prop) m f : (∀ t, safe_text t → P t) → Forall P (map_strings m) →
  finding_of m f → Forall P (finding_strings f) ∧ Forall (λ c, id_char c = true) (f_id f).
Proof.
  intros HP Hm Hf. destruct (finding_constants m f Hf) as (Hs & Hr & Hid). split; [|done].
  destruct (finding_explained m f Hf) as ((s & t & Hsn & Htn) & _ & Hev).
  unfold map_strings in Hm. rewrite !Forall_app in Hm. destruct Hm as (Hn & He & _).
  assert (Hnode : ∀ id n, named_once (rm_nodes m) id n → P id).
  { intros id n (Hin & <- & _). rewrite Forall_forall in Hn. apply Hn, list_elem_of_bind. exists n. split; [by left|done]. }
  unfold finding_strings. repeat (apply Forall_cons; split); eauto.
  apply Forall_bind. intros ev Hin. rewrite Forall_forall in Hev. destruct (Hev ev Hin) as (e & Hein & Erefs & _).
  apply Forall_forall. intros u Hu. rewrite Forall_forall in He. apply He, list_elem_of_bind. exists e. split; [|done].
  unfold edge_strings. rewrite Erefs. cbn [mbind list_bind]. rewrite app_nil_r, !elem_of_cons, elem_of_app. tauto.
Qed.

(** Nor does a finding of the Compose binding, apart from the revision it is bound to. *)
Lemma binding_finding_text `{Sha256} (P : rstr → Prop) b i c f : (∀ t, safe_text t → P t) → P (crb_provider_revision b) →
  missing_mount_finding b i c = Some f → Forall P (finding_strings f) ∧ Forall (λ c, id_char c = true) (f_id f).
Proof.
  intros HP Hrev. unfold missing_mount_finding, binding_evidence, evidence_summary. cbn [mbind option_bind]. intros [= <-].
  assert (Hconst : ∀ t, safe_textb t = true → P t) by (intros t Ht; by apply HP, safe_textb_spec).
  assert (Hhex : ∀ p v : rstr, forallb word_char p && negb (contains p "dockermap_test_fake_") = true → P (p +s+ sha256_hex v)).
  { intros p v [Hp Hm%negb_true_iff]%andb_prop. by apply HP, prefixed_hex_safe. }
  assert (Hhex_ : ∀ p v : rstr, forallb word_char (p ++ [95%N]) && negb (contains (p ++ [95%N]) "dockermap_test_fake_") = true →
    P (p +s+ "_" +s+ sha256_hex v)).
  { intros p v Hp. unfold rapp. rewrite app_assoc. by apply (Hhex (p ++ [95%N])). }
  split.
  - unfold finding_strings, opaque_id. cbn [f_summary f_recommendation f_subject_ref f_target_ref f_evidence_refs mbind list_bind].
    assert (Hsubject : P ("compose_runtime_binding_" +s+ sha256_hex (crc_container_id c))) by (apply Hhex; by vm_compute).
    apply Forall_cons_2; [apply Hconst; by vm_compute|]. apply Forall_cons_2; [apply Hconst; by vm_compute|].
    apply Forall_cons_2; [exact Hsubject|]. apply Forall_cons_2; [exact Hsubject|].
    rewrite app_nil_r. apply Forall_app_2; unfold evidence_strings; cbn [ev_id ev_summary ev_subject_ref ev_provider_revision];
      (apply Forall_cons_2; [apply Hhex_; by vm_compute|]); (apply Forall_cons_2; [apply Hconst; by vm_compute|]);
      (apply Forall_cons_2; [exact Hsubject|]); (apply Forall_cons_2; [exact Hrev|]); apply Forall_nil_2.
  - cbn [f_id]. unfold rapp, opaque_id. apply Forall_app. split; [by decided|].
    eapply Forall_impl; [apply sha256_hex_lower|apply hex_lower_id_char].
Qed.

(** ** History *)

(** The events of a history speak of containers by digest, and of themselves by a token of the
    history and a number. *)
Definition event_opaque (boot : rstr) (e : ObservedChangeEvent) : Prop :=
  is_observed_container_id (oe_container_id e) = true ∧ ∃ n, oe_id e = event_id boot n.

Definition history_opaque (h : ObservedHistoryCache) : Prop :=
  Forall (event_opaque (oc_boot h)) (oc_events h) ∧ ∀ i, oc_baseline h = Some i → inventory_ok i.

Lemma history_push_opaque h kind at_ms id previous current h' :
  history_opaque h → is_observed_container_id id = true →
  history_push h kind at_ms id previous current = Some h' → history_opaque h'.
Proof.
  intros [He Hi] Hid (Eb & _ & Ei & _ & _ & Ee)%history_push_events. unfold history_opaque. rewrite Eb, Ei. split; [|done].
  rewrite Ee. apply Forall_drop, Forall_app. split; [done|]. apply Forall_singleton. split; [done|]. by eexists.
Qed.

Lemma observe_opaque `{Sha256} h snapshot bytes h' :
  history_opaque h → observe_published_snapshot h snapshot bytes = Some h' → history_opaque h'.
Proof.
  intros [He Hi]. unfold observe_published_snapshot.
  destruct (_ || _). { intros [= <-]. split; [by constructor|]. intros i [= <-]. apply observed_inventory_ok. }
  set (h1 := {| oc_boot := oc_boot h; oc_next_sequence := oc_next_sequence h; oc_last_observed_at_ms := _; oc_baseline := _;
                oc_events := oc_events h |}).
  assert (H1 : history_opaque h1) by (split; [done|]; intros i [= <-]; apply observed_inventory_ok). clearbody h1.
  destruct (oc_baseline h) as [previous|]; [|by intros [= <-]].
  destruct (fold_opt (push_disappeared _ _) _ h1) as [h2|] eqn:E1; cbn [mbind option_bind]; [|done]. intros E2.
  assert (H2 : history_opaque h2).
  { refine (fold_opt_inv _ history_opaque _ _ _ _ H1 E1). intros [id st] s s' Hin Hs. unfold push_disappeared.
    apply elem_of_btree_iter in Hin. destruct (_ || _); [by intros [= <-]|].
    apply history_push_opaque; [done|]. by eapply (Hi _ eq_refl). }
  refine (fold_opt_inv _ history_opaque _ _ _ _ H2 E2). intros [id st] s s' Hin Hs. unfold push_current.
  apply elem_of_btree_iter, inventory_ids in Hin.
  destruct (oi_containers previous !! id) as [st'|]; case_match; try (by intros [= <-]); by apply history_push_opaque.
Qed.

(** ** The invariant *)

Section text.
Context `{Sha256} `{Json RuntimeMapNode} `{Json RuntimeMapEdge} `{Json RuntimeEvidenceRef}.
Context `{Json (list RuntimeMapNode * list RuntimeMapEdge * list RuntimeMapDiagnostic * list ProviderState)}.
Context `{Json (DockerSnapshot * HealthResponse * RuntimeMap)} `{Json (RuntimeMode * DockerSnapshot)}.

(** Redacted text, or one of the two observation revisions the daemon names its evidence by. *)
Definition published_text (c : DaemonCache) (t : rstr) : Prop :=
  safe_text t ∨ t = docker_observation_token c ∨ t = revision_current (dc_integrity_observation_revision c).

Definition text_inv (c : DaemonCache) : Prop :=
  Forall (published_text c) (map_strings (dc_runtime_map c)) ∧ history_opaque (dc_observed_history c).

Lemma collision_text (P : rstr → Prop) m revision at_ : (∀ t, safe_text t → P t) → P revision →
  Forall P (map_strings m) → Forall P (map_strings (append_runtime_identity_collision_fact m revision at_).1).
Proof.
  intros HP Hrev Hm. unfold append_runtime_identity_collision_fact. case_match; [done|].
  unfold map_strings in *. cbn [fst with_topology rm_nodes rm_edges rm_diagnostics]. rewrite !Forall_app in Hm |- *.
  destruct Hm as (Hn & He & Hd). rewrite Forall_forall in Hn, He.
  assert (Hconst : ∀ t, safe_textb t = true → P t) by (intros t Ht; by apply HP, safe_textb_spec).
  assert (Hint : ∀ id kind label, safe_textb id && safe_textb label = true → Forall P (node_strings (integrity_node id kind label))).
  { intros id kind label [Hi Hl]%andb_prop. unfold node_strings, integrity_node. cbn. repeat constructor; by apply Hconst. }
  split_and!; [| |done].
  - apply Forall_bind. intros n Hin. rewrite elem_of_sort_by_json in Hin. apply elem_of_app in Hin as [Hin|Hin].
    + apply Forall_forall. intros t Ht. apply Hn, list_elem_of_bind. by exists n.
    + apply elem_of_cons in Hin as [->|Hin%list_elem_of_singleton]; [apply Hint; by vm_compute|subst n; apply Hint; by vm_compute].
  - apply Forall_bind. intros e Hin. rewrite elem_of_sort_by_json in Hin. apply elem_of_app in Hin as [Hin| ->%list_elem_of_singleton].
    + apply Forall_forall. intros t Ht. apply He, list_elem_of_bind. by exists e.
    + unfold edge_strings, collision_edge. cbn [re_source re_target re_metadata re_evidence_refs mbind list_bind].
      rewrite map_to_list_empty, app_nil_r. unfold evidence_strings, collision_evidence.
      cbn [ev_id ev_summary ev_subject_ref ev_provider_revision fmap list_fmap app].
      repeat constructor; first [exact Hrev|apply Hconst; by vm_compute].
Qed.

Lemma rebuild_text c c' : publishable c → rebuild_runtime_map c = Some c' →
  Forall (published_text c') (map_strings (dc_runtime_map c')) ∧ dc_observed_history c' = dc_observed_history c.
Proof.
  intros Hp Hr. destruct (rebuild_facts _ _ Hp Hr) as (_ & _ & _ & _ & _ & _ & Eh & _). split; [|done]. clear Eh.
  destruct Hp as (Hall & Hsan & _). revert Hr. unfold rebuild_runtime_map, assign_docker_observation_revision, docker_observation_assign.
  destruct (revision_see _ _) as [r|]; cbn [mbind option_bind]; [|done]. unfold docker_observation_token, dc_mode.
  cbn [dc_snapshot dc_health dc_runtime_providers dc_docker_observation_revision].
  destruct (runtime_map_for_snapshot_total (dc_snapshot c) (h_mode (dc_health c)) (dc_runtime_providers c) (revision_current r)
    Hall Hsan (revision_current_ne r)) as (m & -> & _ & _ & _ & Hsafe & _). cbn [mbind option_bind].
  unfold apply_runtime_identity_collision_fact, dc_mode.
  cbn [with_map dc_snapshot dc_health dc_runtime_map dc_integrity_observation_revision].
  destruct (revision_see (dc_integrity_observation_revision c) _) as [i|]; cbn [mbind option_bind]; [|done]. intros [= <-].
  cbn [with_map dc_runtime_map]. set (c' := with_map _ _ _).
  assert (Hm : Forall (published_text c') (map_strings m)) by (eapply Forall_impl; [exact Hsafe|]; intros t; by left).
  destruct (_ && _); [|done]. apply collision_text; [by left| |done]. by right; right.
Qed.

Lemma assign_text c c' : assign_revision c = Some c' →
  Forall (published_text c) (map_strings (dc_runtime_map c)) →
  Forall (published_text c') (map_strings (dc_runtime_map c')) ∧ dc_observed_history c' = dc_observed_history c.
Proof.
  intros [_ (_ & _ & _ & Em & _ & _ & _ & Ed & Ei & Eh & _)]%assign_revision_facts Ht. split; [|done].
  rewrite Em. unfold published_text, docker_observation_token in *. by rewrite Ed, Ei.
Qed.

Lemma republish_text c c' : publishable c → republish c = Some c' → history_opaque (dc_observed_history c) → text_inv c'.
Proof.
  intros Hp. unfold republish. destruct (rebuild_runtime_map c) as [c1|] eqn:E1; cbn [mbind option_bind]; [|done].
  destruct (rebuild_text _ _ Hp E1) as [Ht1 Eh1]. intros E2 Hh. destruct (assign_text _ _ E2 Ht1) as [Ht2 Eh2].
  split; [done|]. by rewrite Eh2, Eh1.
Qed.

Lemma publish_text process_boot b now read u cache boot epoch c' :
  boots_ok b → collect_snapshot process_boot b now read = Some u → publishable cache →
  publish_docker_snapshot_cache cache u boot epoch = Some c' → text_inv cache → text_inv c'.
Proof.
  intros Hb Hu Hp Hpub [_ Hh]. destruct (collect_facts _ _ _ _ _ Hu) as [Hiu _].
  pose proof (new_integrity_ok b Hb) as Hi. rewrite <- Hiu in Hi. revert Hpub. unfold publish_docker_snapshot_cache.
  destruct (carried_over cache u boot) as [c1|] eqn:E1; cbn [mbind option_bind]; [|done].
  destruct (carried_facts _ _ _ _ Hp Hi E1) as (Hp1 & _).
  assert (Hh1 : history_opaque (dc_observed_history c1)).
  { unfold carried_over in E1. destruct (if dc_mode cache == dc_mode u then _ else checked_add _ _ _); cbn [mbind option_bind] in E1; [|done].
    destruct (if _ && _ then _ else _); cbn [mbind option_bind] in E1; [|done]. injection E1 as <-. cbn [dc_observed_history].
    destruct (dc_mode cache == dc_mode u); [done|]. by split. }
  destruct (rebuild_runtime_map c1) as [c2|] eqn:E2; cbn [mbind option_bind]; [|done].
  destruct (rebuild_text _ _ Hp1 E2) as [Ht2 Eh2].
  destruct (assign_revision (with_revision c2 _)) as [c3|] eqn:E3; cbn [mbind option_bind]; [|done].
  destruct (assign_text _ _ E3 Ht2) as [Ht3 Eh3]. cbn [with_revision dc_observed_history] in Eh3.
  assert (Hh3 : history_opaque (dc_observed_history c3)) by (by rewrite Eh3, Eh2).
  case_bool_decide; [|by intros [= <-]].
  destruct (observe_published_snapshot _ _ _) as [h|] eqn:Eo; cbn [mbind option_bind]; [|done]. intros [= <-].
  split; [exact Ht3|]. by eapply observe_opaque.
Qed.

Lemma step_text process_boot s s' : system_step process_boot s s' → system_inv process_boot s →
  text_inv (sy_cache s) → text_inv (sy_cache s').
Proof.
  intros Hstep [Hc _]. pose proof (inv_publishable _ _ Hc) as Hp. pose proof Hp as (Hall & Hsan & Hi).
  destruct Hstep as [c tasks b now read u boot epoch c' Hb Hu Hpub|c before snapshot mode generation after wall now active due c' Hcl
    |c before snapshot mode due after|c before slot snapshot mode generation after outcome completed_at wall taken c' Ho];
    cbn [sy_cache] in *; intros Ht; [..|done|].
  - by eapply publish_text.
  - revert Hcl. unfold claim_due_provider_slots.
    destruct (claim_due_slots_with_active_workers _ _ _ _ _) as [[due' slots]|] eqn:Ec; cbn [mbind option_bind]; [|done].
    destruct (claim_retained _ _ _ _ _ _ _ Hall Ec) as [Hret _].
    case_bool_decide; [by intros [= <- <-]|]. destruct (republish _) as [c1|] eqn:Er; cbn [mbind option_bind]; [|done].
    intros [= <- <-]. eapply republish_text; [|exact Er|by apply Ht]. split_and!; [| |done]; cbn [with_slots dc_runtime_providers].
    + apply retained_of_all. rewrite Hret. by apply retained_of_all.
    + apply retained_of_sanitized. rewrite Hret. by apply retained_of_sanitized.
  - revert Ho. unfold apply_provider_slot_outcome. destruct (_ || _); [by intros [= <- <-]|].
    destruct (dc_runtime_providers c !! slot) as [st|] eqn:Es; [|by intros [= <- <-]].
    destruct (slot_outcome _ _ _ _ _ _) as [st'|] eqn:Eo; cbn [mbind option_bind]; [|done].
    destruct (republish _) as [c1|] eqn:Er; cbn [mbind option_bind]; [|done]. intros [= <- <-].
    destruct (outcome_slots _ _ _ _ _ _ _ _ _ Es Eo Hall Hsan).
    eapply republish_text; [|exact Er|by apply Ht]. by split_and!.
Qed.

Lemma initial_text process_boot s : initial process_boot s → text_inv (sy_cache s).
Proof.
  intros (b & now & _ & E & _). unfold cache_mock, assign_docker_observation_revision in E.
  destruct (docker_observation_assign _ _ _) as [r|]; cbn [mbind option_bind] in E; [|done].
  destruct (assign_text _ _ E) as [Ht Eh]; [by constructor|]. split; [done|]. rewrite Eh. by split; [constructor|].
Qed.

Lemma reachable_text process_boot s : reachable process_boot s → text_inv (sy_cache s).
Proof.
  intros (s0 & Hi & Hr). pose proof (initial_inv _ _ Hi) as Hinv. apply initial_text in Hi. revert Hi Hinv.
  induction Hr as [s|s1 s2 s3 Hs _ IH]; [done|]. intros Ht Hinv.
  destruct (step_inv _ _ _ Hs Hinv) as [Hinv' _]. by apply IH; [eapply step_text|].
Qed.

(** The findings of a coherent cache say nothing beyond its map, the digests of the binding and
    the revision tokens. *)
Lemma cached_findings_text c f : coherent c → text_inv c → f ∈ fr_findings (dc_findings c) →
  Forall (published_text c) (finding_strings f) ∧ Forall (λ c, id_char c = true) (f_id f).
Proof.
  intros (_ & _ & _ & _ & _ & Hf & _) [Hm _] Hin. revert Hf. unfold cache_findings.
  destruct (derive_findings_total (dc_runtime_map c)) as (fs & -> & _ & Hfs). cbn [mbind option_bind].
  destruct (match dc_mode c with Mode_Docker => _ | _ => _ end) as [more|] eqn:Em; cbn [mbind option_bind]; [|done].
  intros [= E]. rewrite <- E, elem_of_sort_by, elem_of_app in Hin. destruct Hin as [Hin|Hin].
  - apply Hfs in Hin as [_ Hof]. by apply (finding_text _ (dc_runtime_map c)); [left|..].
  - destruct (dc_mode c); [|injection Em as <-; by apply elem_of_nil in Hin].
    destruct (dc_compose_runtime_binding c) as [[scan b]|]; [|injection Em as <-; by apply elem_of_nil in Hin].
    destruct (derive_compose_findings_total scan (with_binding_revision b (docker_observation_token c)))
      as (fs' & E' & _ & Hfs' & _). rewrite E' in Em. injection Em as <-.
    apply Hfs' in Hin as (_ & i & container & _ & Hmiss). eapply binding_finding_text; [by left| |exact Hmiss].
    right; left. done.
Qed.
End text.
