(* ===== verification/Utf8.v ===== *)
(** * Decoding UTF-8
      ([String::from_utf8] and the [Display] of its error, as the sources use them on bytes they
      read from files, processes and sockets) *)

From S2P Require Import Prelude RustStr RustNum.

Definition is_continuation (b : N) : bool := (128 <=? b)%N && (b <=? 191)%N.

(** The second byte a first byte admits. *)
Definition second_ok (b0 b1 : N) : bool :=
  if (b0 =? 224)%N then (160 <=? b1)%N && (b1 <=? 191)%N
  else if (b0 =? 237)%N then (128 <=? b1)%N && (b1 <=? 159)%N
  else if (b0 =? 240)%N then (144 <=? b1)%N && (b1 <=? 191)%N
  else if (b0 =? 244)%N then (128 <=? b1)%N && (b1 <=? 143)%N
  else is_continuation b1.

(** One character and the rest, or the [error_len] of the error: [None] when the input ends
    inside a character. *)
Definition decode_char (b0 : N) (rest : list N) : (N * list N) + option nat :=
  if (b0 <? 128)%N then inl (b0, rest)
  else if (194 <=? b0)%N && (b0 <=? 223)%N then
    match rest with
    | [] => inr None
    | b1 :: r1 => if is_continuation b1 then inl ((b0 - 192) * 64 + (b1 - 128), r1)%N else inr (Some 1)
    end
  else if (224 <=? b0)%N && (b0 <=? 239)%N then
    match rest with
    | [] => inr None
    | b1 :: r1 =>
        if second_ok b0 b1 then
          match r1 with
          | [] => inr None
          | b2 :: r2 =>
              if is_continuation b2 then inl ((b0 - 224) * 4096 + (b1 - 128) * 64 + (b2 - 128), r2)%N
              else inr (Some 2)
          end
        else inr (Some 1)
    end
  else if (240 <=? b0)%N && (b0 <=? 244)%N then
    match rest with
    | [] => inr None
    | b1 :: r1 =>
        if second_ok b0 b1 then
          match r1 with
          | [] => inr None
          | b2 :: r2 =>
              if is_continuation b2 then
                match r2 with
                | [] => inr None
                | b3 :: r3 =>
                    if is_continuation b3
                    then inl ((b0 - 240) * 262144 + (b1 - 128) * 4096 + (b2 - 128) * 64 + (b3 - 128), r3)%N
                    else inr (Some 3)
                end
              else inr (Some 2)
          end
        else inr (Some 1)
    end
  else inr (Some 1).

Inductive Utf8Result := Utf8_ok (s : rstr) | Utf8_error (valid_up_to : nat) (error_len : option nat).

(** [fuel] bounds the characters; the number of bytes is enough. *)
Fixpoint decode_go (fuel : nat) (position : nat) (bytes : list N) : Utf8Result :=
  match fuel, bytes with
  | _, [] => Utf8_ok []
  | 0, _ => Utf8_error position None
  | S fuel, b0 :: rest =>
      match decode_char b0 rest with
      | inr len => Utf8_error position len
      | inl (c, rest') =>
          match decode_go fuel (position + (S (length rest) - length rest')) rest' with
          | Utf8_ok s => Utf8_ok (c :: s)
          | e => e
          end
      end
  end.

Definition from_utf8 (bytes : list N) : Utf8Result := decode_go (length bytes) 0 bytes.

(** [String::from_utf8_lossy]: U+FFFD for each maximal invalid sequence. *)
Fixpoint lossy_go (fuel : nat) (bytes : list N) : rstr :=
  match fuel, bytes with
  | S fuel, b0 :: rest =>
      match decode_char b0 rest with
      | inl (c, rest') => c :: lossy_go fuel rest'
      | inr (Some len) => 65533%N :: lossy_go fuel (drop len bytes)
      | inr None => [65533%N]
      end
  | _, _ => []
  end.

Definition from_utf8_lossy (bytes : list N) : rstr := lossy_go (length bytes) bytes.

(** [impl Display for Utf8Error]. *)
Definition utf8_error_text (valid_up_to : nat) (error_len : option nat) : rstr :=
  match error_len with
  | Some n => "invalid utf-8 sequence of " +s+ dec_str (N.of_nat n) +s+ " bytes from index "
              +s+ dec_str (N.of_nat valid_up_to)
  | None => "incomplete utf-8 byte sequence from index " +s+ dec_str (N.of_nat valid_up_to)
  end.

(** A Unicode scalar value. *)
Definition is_scalar (c : N) : bool := (c <? 55296)%N || ((57344 <=? c)%N && (c <=? 1114111)%N).

(** Decide comparisons of numbers by arithmetic. *)
Ltac n_true := match goal with
  | |- (_ <? _)%N = true => apply N.ltb_lt
  | |- (_ <=? _)%N = true => apply N.leb_le
  | |- (_ =? _)%N = true => apply N.eqb_eq
  | |- (_ <? _)%N = false => apply N.ltb_ge
  | |- (_ <=? _)%N = false => apply N.leb_gt
  | |- (_ =? _)%N = false => apply N.eqb_neq
  end; lia.

Ltac n_bools := repeat first
  [ rewrite (proj2 (N.ltb_lt _ _)) by lia | rewrite (proj2 (N.ltb_ge _ _)) by lia
  | rewrite (proj2 (N.leb_le _ _)) by lia | rewrite (proj2 (N.leb_gt _ _)) by lia
  | rewrite (proj2 (N.eqb_neq _ _)) by lia ]; cbn [andb orb negb].

(** ** Round trip *)

Lemma split_64 c : ∃ a x, (c / 64 = a ∧ c mod 64 = x ∧ c = a * 64 + x ∧ x < 64)%N.
Proof.
  exists (c / 64)%N, (c mod 64)%N. pose proof (N.mod_lt c 64 ltac:(done)). pose proof (N.div_mod' c 64).
  split_and!; [done..|lia|done].
Qed.

Lemma cont_byte x : (x < 64)%N → is_continuation (128 + x) = true.
Proof. intros Hx. unfold is_continuation. n_bools. done. Qed.

Lemma decode_char_utf8 c r : is_scalar c = true →
  ∃ b0 rest, utf8_char c ++ r = b0 :: rest ∧ decode_char b0 rest = inl (c, r).
Proof.
  unfold is_scalar. rewrite orb_true_iff, andb_true_iff, N.ltb_lt, !N.leb_le. intros Hc.
  assert (E4096 : (c / 4096 = c / 64 / 64)%N) by (rewrite N.Div0.div_div; done).
  assert (E262144 : (c / 262144 = c / 64 / 64 / 64)%N) by (rewrite !N.Div0.div_div; done).
  unfold utf8_char. rewrite E4096, E262144.
  destruct (split_64 c) as (a & x & -> & -> & Ec & Hx). destruct (split_64 a) as (b & y & -> & -> & Ea & Hy).
  destruct (split_64 b) as (d & z & -> & -> & Eb & Hz).
  destruct (N.ltb_spec c 128); [|destruct (N.ltb_spec c 2048); [|destruct (N.ltb_spec c 65536)]];
    cbn [app]; eexists _, _; (split; [reflexivity|]); unfold decode_char; n_bools; rewrite ?cont_byte by done.
  - done.
  - do 3 f_equal. lia.
  - assert (second_ok (224 + b) (128 + y) = true) as ->.
    { unfold second_ok, is_continuation. destruct (N.eqb_spec (224 + b) 224), (N.eqb_spec (224 + b) 237); n_bools; done. }
    do 3 f_equal. lia.
  - assert (second_ok (240 + d) (128 + z) = true) as ->.
    { unfold second_ok, is_continuation.
      destruct (N.eqb_spec (240 + d) 240); [n_bools; done|]. destruct (N.eqb_spec (240 + d) 244); n_bools; done. }
    do 3 f_equal. lia.
Qed.

Lemma decode_char_length b0 rest c r : decode_char b0 rest = inl (c, r) → (length r ≤ length rest)%nat.
Proof. unfold decode_char. intros E. break_match_in E; injection E as _ <-; simpl; lia. Qed.

Lemma decode_go_utf8 s : Forall (λ c, is_scalar c = true) s →
  ∀ fuel position, (length (utf8_bytes s) ≤ fuel)%nat → decode_go fuel position (utf8_bytes s) = Utf8_ok s.
Proof.
  induction 1 as [|c s Hc Hs IH]; intros fuel position Hf; [by destruct fuel|].
  rewrite utf8_bytes_cons in Hf |- *.
  destruct (decode_char_utf8 c (utf8_bytes s) Hc) as (b0 & rest & E & Ed). rewrite E in Hf |- *.
  destruct fuel as [|fuel]; [simpl in Hf; lia|]. cbn [decode_go]. rewrite Ed.
  pose proof (decode_char_length _ _ _ _ Ed). simpl in Hf. rewrite IH by lia. done.
Qed.

Lemma from_utf8_bytes s : Forall (λ c, is_scalar c = true) s → from_utf8 (utf8_bytes s) = Utf8_ok s.
Proof. intros Hs. by apply decode_go_utf8. Qed.

Lemma utf8_char_4 a b c d :
  (a < 5 → b < 64 → c < 64 → d < 64 → 65536 <= a * 262144 + b * 4096 + c * 64 + d →
   utf8_char (a * 262144 + b * 4096 + c * 64 + d) = [240 + a; 128 + b; 128 + c; 128 + d])%N.
Proof.
  intros. set (n := (_ + d)%N) in *. unfold utf8_char. n_bools.
  assert (E4096 : (n / 4096 = n / 64 / 64)%N) by (rewrite N.Div0.div_div; done).
  assert (E262144 : (n / 262144 = n / 64 / 64 / 64)%N) by (rewrite !N.Div0.div_div; done). rewrite E4096, E262144.
  destruct (split_64 n) as (u & x & -> & -> & Ec & Hx). destruct (split_64 u) as (v & y & -> & -> & Ea & Hy).
  destruct (split_64 v) as (w & z & -> & -> & Eb & Hz). subst n.
  repeat (apply (f_equal2 cons); [lia|]). done.
Qed.

Lemma utf8_char_3 a b c :
  (a < 16 → b < 64 → c < 64 → 2048 <= a * 4096 + b * 64 + c →
   utf8_char (a * 4096 + b * 64 + c) = [224 + a; 128 + b; 128 + c])%N.
Proof.
  intros. set (n := (_ + c)%N) in *. unfold utf8_char. n_bools.
  assert (E4096 : (n / 4096 = n / 64 / 64)%N) by (rewrite N.Div0.div_div; done). rewrite E4096.
  destruct (split_64 n) as (u & x & -> & -> & Ec & Hx). destruct (split_64 u) as (v & y & -> & -> & Ea & Hy). subst n.
  repeat (apply (f_equal2 cons); [lia|]). done.
Qed.

Lemma utf8_char_2 a b : (a < 32 → b < 64 → 128 <= a * 64 + b → utf8_char (a * 64 + b) = [192 + a; 128 + b])%N.
Proof.
  intros. set (n := (_ + b)%N) in *. unfold utf8_char. n_bools.
  destruct (split_64 n) as (u & x & -> & -> & Ec & Hx). subst n. repeat (apply (f_equal2 cons); [lia|]). done.
Qed.

Lemma continuation_inv b : is_continuation b = true → ∃ x, b = (128 + x)%N ∧ (x < 64)%N.
Proof.
  unfold is_continuation. rewrite andb_true_iff, !N.leb_le. intros Hb. exists (b - 128)%N. split; lia.
Qed.

Lemma second_ok_continuation b0 b1 : second_ok b0 b1 = true → is_continuation b1 = true.
Proof.
  unfold second_ok, is_continuation. repeat case_match; rewrite !andb_true_iff, !N.leb_le; lia.
Qed.

(** What the second byte excludes: overlong forms, surrogates, and values past the last scalar. *)
Lemma second_ok_bounds b0 x : second_ok b0 (128 + x) = true →
  (b0 = 224 → 32 <= x)%N ∧ (b0 = 237 → x < 32)%N ∧ (b0 = 240 → 16 <= x)%N ∧ (b0 = 244 → x < 16)%N.
Proof.
  unfold second_ok. intros E. split_and!; intros ->; cbn [N.eqb Pos.eqb] in E;
    rewrite andb_true_iff, !N.leb_le in E; lia.
Qed.

(** What a decoded character was encoded as. *)
Lemma decode_char_inv b0 rest c r :
  decode_char b0 rest = inl (c, r) → is_scalar c = true ∧ b0 :: rest = utf8_char c ++ r.
Proof.
  unfold decode_char, is_scalar. intros E.
  destruct (N.ltb_spec b0 128) as [Hb|Hb].
  { injection E as <- <-. unfold utf8_char. n_bools. done. }
  destruct ((194 <=? b0)%N && (b0 <=? 223)%N) eqn:E2.
  { rewrite andb_true_iff, !N.leb_le in E2. break_match_in E. injection E as <- <-.
    destruct (continuation_inv _ Heqb) as (x & -> & Hx).
    replace (128 + x - 128)%N with x by lia. rewrite utf8_char_2 by lia. split; [n_bools; done|].
    cbn [app]. repeat (apply (f_equal2 cons); [lia|]). done. }
  destruct ((224 <=? b0)%N && (b0 <=? 239)%N) eqn:E3.
  { rewrite andb_true_iff, !N.leb_le in E3. break_match_in E. injection E as <- <-.
    destruct (continuation_inv _ (second_ok_continuation _ _ Heqb)) as (x & -> & Hx).
    destruct (continuation_inv _ Heqb0) as (y & -> & Hy).
    destruct (second_ok_bounds _ _ Heqb) as (B1 & B2 & _).
    replace (128 + x - 128)%N with x by lia. replace (128 + y - 128)%N with y by lia.
    assert (Hlow : (2048 <= (b0 - 224) * 4096 + x * 64 + y)%N) by (destruct (decide (b0 = 224)%N); [|]; lia).
    rewrite utf8_char_3 by lia. split.
    - destruct (decide (b0 <= 236)%N); [|destruct (decide (b0 = 237)%N)]; n_bools; done.
    - cbn [app]. repeat (apply (f_equal2 cons); [lia|]). done. }
  destruct ((240 <=? b0)%N && (b0 <=? 244)%N) eqn:E4; [|done].
  rewrite andb_true_iff, !N.leb_le in E4. break_match_in E. injection E as <- <-.
  destruct (continuation_inv _ (second_ok_continuation _ _ Heqb)) as (x & -> & Hx).
  destruct (continuation_inv _ Heqb0) as (y & -> & Hy). destruct (continuation_inv _ Heqb1) as (z & -> & Hz).
  destruct (second_ok_bounds _ _ Heqb) as (_ & _ & B1 & B2).
  replace (128 + x - 128)%N with x by lia. replace (128 + y - 128)%N with y by lia.
  replace (128 + z - 128)%N with z by lia.
  assert (Hlow : (65536 <= (b0 - 240) * 262144 + x * 4096 + y * 64 + z)%N) by (destruct (decide (b0 = 240)%N); lia).
  assert (Hhigh : ((b0 - 240) * 262144 + x * 4096 + y * 64 + z <= 1114111)%N) by (destruct (decide (b0 = 244)%N); lia).
  rewrite utf8_char_4 by lia. split; [n_bools; done|]. cbn [app]. repeat (apply (f_equal2 cons); [lia|]). done.
Qed.

Lemma decode_go_inv fuel position bytes s :
  decode_go fuel position bytes = Utf8_ok s → Forall (λ c, is_scalar c = true) s ∧ utf8_bytes s = bytes.
Proof.
  revert position bytes s. induction fuel as [|fuel IH]; intros position bytes s.
  { destruct bytes; [|done]. intros [= <-]. by split. }
  destruct bytes as [|b0 rest]; cbn [decode_go]; [intros [= <-]; by split|].
  destruct (decode_char b0 rest) as [[c r]|] eqn:Ed; [|done].
  destruct (decode_go _ _ r) as [s'|] eqn:Eg; [|done]. intros [= <-].
  apply decode_char_inv in Ed as [Hc ->]. apply IH in Eg as [Hs <-].
  split; [by constructor|]. by rewrite utf8_bytes_cons.
Qed.

(** Decoding succeeds exactly on encodings, and gives back what was encoded. *)
Lemma from_utf8_spec bytes s :
  from_utf8 bytes = Utf8_ok s ↔ Forall (λ c, is_scalar c = true) s ∧ utf8_bytes s = bytes.
Proof.
  split; [apply decode_go_inv|]. intros [Hs <-]. by apply from_utf8_bytes.
Qed.

Lemma lossy_utf8 s : Forall (λ c, is_scalar c = true) s → from_utf8_lossy (utf8_bytes s) = s.
Proof.
  intros Hs. unfold from_utf8_lossy. assert (Hg : ∀ fuel, length (utf8_bytes s) ≤ fuel → lossy_go fuel (utf8_bytes s) = s);
    [|by apply Hg].
  induction Hs as [|c s Hc Hs IH]; intros fuel Hf; [by destruct fuel|].
  rewrite utf8_bytes_cons in Hf |- *. destruct (decode_char_utf8 c (utf8_bytes s) Hc) as (b0 & rest & E & Hd).
  rewrite E in Hf |- *. destruct fuel as [|fuel]; [cbn in Hf; lia|]. cbn [lossy_go]. rewrite Hd. f_equal. apply IH.
  pose proof (decode_char_length _ _ _ _ Hd). cbn in Hf. lia.
Qed.
