(* ===== verification/Paths.v ===== *)
(** * Paths, bounded text, and the host's files
      ([std::path] and [String::from_utf8] as the sources use them)

    Paths are Unix paths whose bytes are UTF-8, kept as text; [Path::components], [PathBuf::push],
    [PathBuf::pop] and [Path::parent] are those of the standard library on Unix. What a file or a
    directory entry holds is outside the development and comes in through the class [Host]. *)

From S2P Require Import Prelude RustStr RustNum.

(** ** Splitting at separators *)

Lemma join_cons sep p l : l ≠ [] → join sep (p :: l) = p ++ sep ++ join sep l.
Proof. by destruct l. Qed.

Lemma join_snoc sep l x : l ≠ [] → join sep (l ++ [x]) = join sep l ++ sep ++ x.
Proof.
  induction l as [|p l IH]; [done|]. intros _. destruct (decide (l = [])) as [->|Hl]; [done|].
  change ((p :: l) ++ [x]) with (p :: (l ++ [x])). rewrite !join_cons by (by destruct l).
  rewrite (IH Hl). by rewrite <- !app_assoc.
Qed.

Lemma join_split c s : join [c] (split_char c s) = s.
Proof.
  induction s as [|x s IH]; [done|]. cbn [split_char]. destruct (N.eqb_spec x c) as [->|Hne].
  - destruct (split_char c s) as [|p ps] eqn:E; [by destruct s; cbn in E; repeat case_match|].
    cbn [join app]. by rewrite <- IH.
  - destruct (split_char c s) as [|p ps] eqn:E; [by destruct s; cbn in E; repeat case_match|].
    rewrite <- IH. by destruct ps.
Qed.

Lemma split_char_notin c s p : p ∈ split_char c s → c ∉ p.
Proof.
  revert p. induction s as [|x s IH]; intros p; cbn [split_char].
  - rewrite list_elem_of_singleton. intros ->. apply not_elem_of_nil.
  - destruct (N.eqb_spec x c) as [->|Hne].
    + intros [->|Hp]%elem_of_cons; [apply not_elem_of_nil|by apply IH].
    + destruct (split_char c s) as [|q qs].
      * rewrite list_elem_of_singleton. intros ->. by rewrite list_elem_of_singleton.
      * intros [->|Hp]%elem_of_cons; [|apply IH; by right].
        rewrite not_elem_of_cons. split; [done|]. apply IH. by left.
Qed.

Lemma split_char_none c s : c ∉ s → split_char c s = [s].
Proof.
  induction s as [|x s IH]; [done|]. rewrite not_elem_of_cons. intros [Hx Hs]. cbn [split_char].
  destruct (N.eqb_spec x c); [congruence|]. by rewrite IH.
Qed.

Lemma split_char_app c a s : c ∉ a → split_char c (a ++ c :: s) = a :: split_char c s.
Proof.
  induction a as [|x a IH]; intros Ha; cbn [app split_char].
  - by rewrite N.eqb_refl.
  - rewrite not_elem_of_cons in Ha. destruct Ha as [Hx Ha].
    destruct (N.eqb_spec x c); [congruence|]. by rewrite (IH Ha).
Qed.

Lemma split_join c l : l ≠ [] → Forall (λ p, c ∉ p) l → split_char c (join [c] l) = l.
Proof.
  intros Hl Hall. induction l as [|p l IH]; [done|]. apply Forall_cons in Hall as [Hp Hall].
  destruct l as [|q l]; [by apply split_char_none|].
  change (join [c] (p :: q :: l)) with (p ++ c :: join [c] (q :: l)).
  rewrite split_char_app by done. f_equal. by apply IH.
Qed.

(** ** [std::path] *)

Definition SLASH : N := 47.

Inductive Component := RootDir | CurDir | ParentDir | Normal (name : rstr).

#[export] Instance Component_eq_dec : EqDecision Component. Proof. solve_decision. Defined.

(** A piece between separators: empty pieces and later [.] pieces are skipped. *)
Definition piece_component (piece : rstr) : list Component :=
  if piece == [] then [] else if piece == ("." : rstr) then []
  else if piece == (".." : rstr) then [ParentDir] else [Normal piece].

Definition is_absolute (path : rstr) : bool := starts_with path [SLASH].

(** The pieces of a path after its root. *)
Definition path_pieces (path : rstr) : list rstr :=
  split_char SLASH (if is_absolute path then tail path else path).

Definition components (path : rstr) : list Component :=
  (if is_absolute path then [RootDir]
   else match path_pieces path with p :: _ => if p == ("." : rstr) then [CurDir] else [] | [] => [] end)
  ++ (path_pieces path ≫= piece_component).

(** [Component::as_os_str]. *)
Definition as_os_str (c : Component) : rstr :=
  match c with RootDir => [SLASH] | CurDir => "." | ParentDir => ".." | Normal name => name end.

(** [PathBuf::push], also [Path::join]. *)
Definition path_push (buf path : rstr) : rstr :=
  if is_absolute path then path
  else if (buf == []) || ends_with buf [SLASH] then buf ++ path else buf ++ SLASH :: path.

(** Whether a piece stands for a component; only a relative path keeps its leading [.]. *)
Definition significant (absolute first : bool) (piece : rstr) : bool :=
  (piece != []) && ((piece != ("." : rstr)) || (negb absolute && first)).

(** Trim the insignificant pieces at the end of a path, given in reverse. *)
Fixpoint trim_back (absolute : bool) (rev_pieces : list rstr) : list rstr :=
  match rev_pieces with
  | [] => []
  | p :: rest => if significant absolute (rest == []) p then rev_pieces else trim_back absolute rest
  end.

(** [Path::parent]: the path up to its last component, unless that is the root. *)
Definition path_parent (path : rstr) : option rstr :=
  let absolute := is_absolute path in
  match trim_back absolute (reverse (path_pieces path)) with
  | [] => None
  | _ :: rest =>
      Some ((if absolute then [SLASH] else []) ++ join [SLASH] (reverse (trim_back absolute rest)))
  end.

(** [PathBuf::pop]. *)
Definition path_pop (buf : rstr) : rstr := default buf (path_parent buf).

(** [Path::file_name]. *)
Definition file_name (path : rstr) : option rstr :=
  match last (components path) with Some (Normal name) => Some name | _ => None end.

(** [Path::starts_with] and [Path::strip_prefix] compare components. *)
Fixpoint strip_components (prefix l : list Component) : option (list Component) :=
  match prefix, l with
  | [], _ => Some l
  | c :: prefix, d :: l => if c == d then strip_components prefix l else None
  | _, [] => None
  end.

Definition path_strip_prefix (path prefix : rstr) : option (list Component) :=
  strip_components (components prefix) (components path).

Definition path_starts_with (path prefix : rstr) : bool := is_some (path_strip_prefix path prefix).

Lemma strip_components_spec prefix l r : strip_components prefix l = Some r ↔ l = prefix ++ r.
Proof.
  revert l. induction prefix as [|c prefix IH]; intros l; cbn [strip_components app]; [by split; [intros [= ->]|intros ->]|].
  destruct l as [|d l]; [done|]. case_bool_decide as Ed; [subst; rewrite IH; split; [by intros ->|by intros [= ->]]|].
  split; [done|]. intros [= -> ->]. done.
Qed.

(** *** Paths built from names *)

(** A file name: no separator, and neither empty, [.] nor [..]. *)
Definition file_name_ok (name : rstr) : Prop :=
  name ≠ [] ∧ name ≠ "." ∧ name ≠ ".." ∧ SLASH ∉ name.

(** The text of a path of names, absolute or relative. *)
Definition path_of (absolute : bool) (names : list rstr) : rstr :=
  (if absolute then [SLASH] else []) ++ join [SLASH] names.

Lemma name_component name : file_name_ok name → piece_component name = [Normal name].
Proof. intros (? & ? & ? & _). unfold piece_component. by rewrite !bool_decide_eq_false_2. Qed.

Lemma piece_names piece c : c ∈ piece_component piece → SLASH ∉ piece →
  c = ParentDir ∨ ∃ name, c = Normal name ∧ file_name_ok name.
Proof.
  unfold piece_component. repeat case_bool_decide; [set_solver..| |]; rewrite list_elem_of_singleton; [by left|].
  intros ->. right. by exists piece.
Qed.

Lemma starts_with_head (s : rstr) c : starts_with s [c] = bool_decide (head s = Some c).
Proof.
  apply eq_bool_prop_intro. rewrite !Is_true_true, starts_with_spec, bool_decide_eq_true.
  split; [by intros [r ->]|]. destruct s as [|x s]; [done|]. cbn. intros [= ->]. by exists s.
Qed.

Lemma join_head c l : Forall file_name_ok l → head (join [SLASH] l) = Some c → c ≠ SLASH.
Proof.
  intros Hl Hh. destruct l as [|name l]; [done|]. apply Forall_cons in Hl as [(Hne & _ & _ & Hs) _].
  destruct name as [|x name]; [done|]. assert (c = x) as -> by (destruct l; cbn in Hh; congruence). set_solver.
Qed.

Lemma path_of_absolute absolute names : Forall file_name_ok names → is_absolute (path_of absolute names) = absolute.
Proof.
  intros Hn. unfold is_absolute, path_of. rewrite starts_with_head. destruct absolute; [done|].
  apply bool_decide_eq_false_2. intros Hh. by apply (join_head _ _ Hn Hh).
Qed.

Lemma path_of_pieces absolute names : Forall file_name_ok names →
  path_pieces (path_of absolute names) = match names with [] => [[]] | _ => names end.
Proof.
  intros Hn. unfold path_pieces. rewrite path_of_absolute by done.
  assert (E : split_char SLASH (join [SLASH] names) = match names with [] => [[]] | _ => names end).
  { destruct names as [|name names]; [done|]. apply split_join; [done|].
    eapply Forall_impl; [exact Hn|]. by intros ? (_ & _ & _ & ?). }
  rewrite <- E. by destruct absolute.
Qed.

(** The components of a path of names. *)
Lemma components_path_of absolute names : Forall file_name_ok names →
  components (path_of absolute names) = (if absolute then [RootDir] else []) ++ (Normal <$> names).
Proof.
  intros Hn. unfold components. rewrite path_of_absolute, path_of_pieces by done.
  assert (Hb : (match names with [] => [[]] | _ => names end) ≫= piece_component = Normal <$> names).
  { destruct names as [|name names]; [done|]. induction Hn as [|x l Hx Hl IH]; [done|].
    cbn [mbind list_bind fmap list_fmap]. rewrite (name_component x Hx). cbn [app]. by f_equal. }
  rewrite Hb. f_equal. destruct absolute; [done|]. destruct Hn as [|x l (_ & Hd & _) _]; [done|].
  by rewrite bool_decide_eq_false_2.
Qed.

Lemma trim_back_names absolute names :
  Forall file_name_ok names → trim_back absolute (reverse names) = reverse names.
Proof.
  intros Hn%Forall_reverse. destruct (reverse names) as [|p rest]; [done|].
  apply Forall_cons in Hn as [(Hne & Hd & _) _]. cbn [trim_back]. unfold significant.
  by rewrite !bool_decide_eq_false_2 by done.
Qed.

(** Pushing and popping a name. *)
Lemma push_name absolute names name : Forall file_name_ok names → file_name_ok name →
  path_push (path_of absolute names) name = path_of absolute (names ++ [name]).
Proof.
  intros Hn Hname. unfold path_push. destruct Hname as (Hne & Hd & Hdd & Hs).
  assert (is_absolute name = false) as ->.
  { unfold is_absolute. rewrite starts_with_head. apply bool_decide_eq_false_2.
    destruct name; [done|]. cbn. intros [= ->]. set_solver. }
  destruct names as [|n0 names _] using rev_ind; [by destruct absolute|].
  assert (Hlast : ∃ pre, join [SLASH] (names ++ [n0]) = pre ++ n0).
  { destruct (decide (names = [])) as [->|Hl]; [by exists []|]. rewrite join_snoc by done.
    exists (join [SLASH] names ++ [SLASH]). by rewrite <- app_assoc. }
  destruct Hlast as [pre Hpre]. apply Forall_app in Hn as [_ [(Hn0 & _ & _ & Hs0) _]%Forall_cons].
  rewrite orb_false_intro.
  - unfold path_of. rewrite (join_snoc _ (names ++ [n0])) by (by destruct names). by rewrite app_assoc.
  - apply bool_decide_eq_false_2. unfold path_of. rewrite Hpre. intros [_ [_ E]%app_nil]%app_nil. done.
  - apply not_true_iff_false. rewrite ends_with_spec. intros [r E]. unfold path_of in E. rewrite Hpre, app_assoc in E.
    destruct n0 as [|c n0 _] using rev_ind; [done|]. rewrite app_assoc in E.
    apply app_inj_tail in E as [_ ->]. set_solver.
Qed.

Lemma pop_name absolute names name : Forall file_name_ok names → file_name_ok name →
  path_pop (path_of absolute (names ++ [name])) = path_of absolute names.
Proof.
  intros Hn Hname. assert (Hall : Forall file_name_ok (names ++ [name])) by (apply Forall_app_2; [done|by apply Forall_singleton]).
  assert (Ep : path_pieces (path_of absolute (names ++ [name])) = names ++ [name])
    by (rewrite path_of_pieces by done; by destruct names).
  unfold path_pop, path_parent. rewrite path_of_absolute, Ep by done.
  rewrite trim_back_names, reverse_snoc by done. cbn [default].
  by rewrite trim_back_names, reverse_involutive by done.
Qed.

Lemma pop_root absolute : path_pop (path_of absolute []) = path_of absolute [].
Proof. by destruct absolute. Qed.

(** *** Lexical normalisation, of [crates/dockermap-core/src/compose.rs] *)

Definition normalize_step (buf : rstr) (c : Component) : rstr :=
  match c with
  | CurDir => buf
  | ParentDir => path_pop buf
  | c => path_push buf (as_os_str c)
  end.

Definition normalize_lexical (path : rstr) : rstr := foldl normalize_step [] (components path).

Definition has_parent_traversal (path : rstr) : bool :=
  existsb (λ c, c == ParentDir) (components path).

(** ** The host *)

(** What the host answers about its files, and the home directory of the daemon's environment. *)
Class Host := {
  (** The content of a file, or why it cannot be opened or read. *)
  host_read : rstr → list N + rstr;
  (** [Path::is_file]. *)
  host_is_file : rstr → bool;
  (** [fs::symlink_metadata]: whether the entry is a symbolic link, when there is one. *)
  host_symlink : rstr → option bool;
  (** [std::env::var(HOME)]. *)
  host_home : option rstr
}.

(** ** A normalised path is a path of names *)

(** The names that are left after [..] took back the one before it. *)
Definition keep_names (names : list rstr) (c : Component) : list rstr :=
  match c with Normal name => names ++ [name] | ParentDir => removelast names | _ => names end.

Definition component_ok (c : Component) : Prop := match c with Normal name => file_name_ok name | _ => True end.

Lemma components_ok path : Forall component_ok (components path).
Proof.
  unfold components. rewrite Forall_app. split.
  - destruct (is_absolute path); [by constructor|]. repeat case_match; by repeat constructor.
  - rewrite Forall_forall. intros c (p & Hp & Hc)%list_elem_of_bind.
    destruct (piece_names _ _ Hp) as [->|(name & -> & Hok)]; [|done|done]. by eapply split_char_notin.
Qed.

Lemma removelast_ok names : Forall file_name_ok names → Forall file_name_ok (removelast names).
Proof.
  intros Hn. destruct names as [|x names _] using rev_ind; [done|]. rewrite removelast_last. by apply Forall_app in Hn as [? _].
Qed.

Lemma normalize_fold cs absolute names :
  RootDir ∉ cs → Forall component_ok cs → Forall file_name_ok names →
  foldl normalize_step (path_of absolute names) cs = path_of absolute (foldl keep_names names cs) ∧
  Forall file_name_ok (foldl keep_names names cs).
Proof.
  revert names. induction cs as [|c cs IH]; intros names Hr Hcs Hn; [done|].
  apply not_elem_of_cons in Hr as [Hr1 Hr]. apply Forall_cons in Hcs as [Hc Hcs]. cbn [foldl].
  destruct c as [| | |name]; [done| | |]; cbn [normalize_step keep_names as_os_str].
  - by apply IH.
  - assert (path_pop (path_of absolute names) = path_of absolute (removelast names)) as ->;
      [|apply IH; [done|done|by apply removelast_ok]].
    destruct names as [|x names _] using rev_ind; [apply pop_root|]. rewrite removelast_last.
    apply Forall_app in Hn as [Hn [Hx _]%Forall_cons]. by apply pop_name.
  - rewrite push_name by done. apply IH; [done|done|]. apply Forall_app_2; [done|]. by apply Forall_singleton.
Qed.

Lemma root_only_first path : RootDir ∉ (path_pieces path ≫= piece_component).
Proof.
  intros (p & Hp & _)%list_elem_of_bind. revert Hp. unfold piece_component.
  repeat case_bool_decide; rewrite ?elem_of_nil, ?list_elem_of_singleton; done.
Qed.

(** The result is absolute when the path is, and it names what the [..] of the path leave. *)
Lemma normalize_lexical_names path :
  ∃ names, Forall file_name_ok names ∧ normalize_lexical path = path_of (is_absolute path) names ∧
    names = foldl keep_names [] (components path).
Proof.
  pose proof (components_ok path) as Hok. unfold normalize_lexical. revert Hok. unfold components.
  rewrite Forall_app, !foldl_app. intros [_ Hok].
  destruct (normalize_fold _ (is_absolute path) [] (root_only_first path) Hok (Forall_nil_2 _)) as [E Hn].
  exists (foldl keep_names [] (path_pieces path ≫= piece_component)).
  destruct (is_absolute path); [by split_and!|].
  destruct (path_pieces path) as [|p ps]; [by split_and!|]. case_bool_decide; by split_and!.
Qed.

(** No [.] and no [..] is left. *)
Lemma normalize_lexical_components path :
  ∃ names, Forall file_name_ok names ∧
    components (normalize_lexical path) = (if is_absolute path then [RootDir] else []) ++ (Normal <$> names).
Proof.
  destruct (normalize_lexical_names path) as (names & Hn & -> & _). exists names.
  split; [done|]. by apply components_path_of.
Qed.

Lemma no_parent_traversal path : has_parent_traversal (normalize_lexical path) = false.
Proof.
  destruct (normalize_lexical_components path) as (names & _ & E). unfold has_parent_traversal. rewrite E.
  apply not_true_iff_false. rewrite existsb_exists. intros (c & Hc & ->%bool_decide_eq_true).
  apply in_app_iff in Hc as [Hc|Hc]; [destruct (is_absolute path); cbn in Hc; naive_solver|].
  apply list_elem_of_In, list_elem_of_fmap in Hc as (? & ? & _). done.
Qed.
