(* ===== verification/Compose.v ===== *)
(** * Compose files: discovery, bounded reading, parsing and validation
      ([crates/dockermap-core/src/compose.rs])

    The YAML parser is a third-party package: the class [Yaml] has the operations of its [Value]
    type that the sources call. A scan is threaded through the parser the way the sources pass
    [&mut ComposeScan]. *)

From S2P Require Import Prelude RustStr RustNum Models Identity Utf8 Paths RuntimeTopology.

(** ** YAML values *)

(** What a [match] on a value sees. *)
Inductive ValueView (V : Type) :=
  | View_Null
  | View_Bool (b : bool)
  | View_Number (text : rstr)
  | View_String (s : rstr)
  | View_Sequence (items : list V)
  | View_Mapping (entries : list (V * V))
  | View_Tagged.
Arguments View_Null {V}.
Arguments View_Bool {V} _.
Arguments View_Number {V} _.
Arguments View_String {V} _.
Arguments View_Sequence {V} _.
Arguments View_Mapping {V} _.
Arguments View_Tagged {V}.

Class Yaml := {
  Value : Type;
  (** [yaml_serde::from_str], with the text of its error. *)
  yaml_from_str : rstr → Value + rstr;
  value_view : Value → ValueView Value;
  as_str : Value → option rstr;
  as_bool : Value → option bool;
  as_sequence : Value → option (list Value);
  as_mapping : Value → option (list (Value * Value));
  (** [Mapping::get] of a string key. *)
  mapping_lookup : list (Value * Value) → rstr → option Value
}.

(** ** Diagnostics and origins *)

(** Paths are text already. *)
Definition display_path (path : rstr) : rstr := path.

Definition origin (file : rstr) (service : option rstr) (field : rstr) : ComposeFileOrigin := {|
  co_file := display_path file; co_service := service; co_field := field |}.

Definition diagnostic (id : rstr) (severity : DiagnosticSeverity) (message : rstr) (o : ComposeFileOrigin)
    : ComposeDiagnostic := {| cd_id := id; cd_severity := severity; cd_message := message; cd_origin := o |}.

Definition push_diagnostic (scan : ComposeScan) (d : ComposeDiagnostic) : ComposeScan := {|
  csc_files := csc_files scan; csc_project_root := csc_project_root scan; csc_services := csc_services scan;
  csc_mounts := csc_mounts scan; csc_correlations := csc_correlations scan;
  csc_diagnostics := csc_diagnostics scan ++ [d] |}.

Definition push_service (scan : ComposeScan) (s : ComposeService) : ComposeScan := {|
  csc_files := csc_files scan; csc_project_root := csc_project_root scan; csc_services := csc_services scan ++ [s];
  csc_mounts := csc_mounts scan; csc_correlations := csc_correlations scan; csc_diagnostics := csc_diagnostics scan |}.

Definition push_mount (scan : ComposeScan) (m : ComposeMount) : ComposeScan := {|
  csc_files := csc_files scan; csc_project_root := csc_project_root scan; csc_services := csc_services scan;
  csc_mounts := csc_mounts scan ++ [m]; csc_correlations := csc_correlations scan;
  csc_diagnostics := csc_diagnostics scan |}.

(** ** Sources of mounts *)

Definition is_windows_absolute_path (value : rstr) : bool :=
  match utf8_bytes value with
  | b0 :: b1 :: b2 :: _ =>
      is_ascii_alphabetic b0 && (b1 =? 58)%N && ((b2 =? 92)%N || (b2 =? 47)%N)
  | _ => false
  end.

Definition looks_like_host_path (value : rstr) : bool :=
  starts_with value "." || starts_with value "/" || starts_with value "~" || starts_with value "\"
  || is_windows_absolute_path value.

Definition looks_like_container_path (value : rstr) : bool :=
  starts_with value "/" || is_windows_absolute_path value.

Definition classify_short_source (source : option rstr) : ComposeMountKind :=
  match source with
  | None => AnonymousVolume
  | Some value => if looks_like_host_path value then Bind else NamedVolume
  end.

(** The text before and after the first occurrence of [pattern]. *)
Fixpoint find_str (pattern s : rstr) : option (rstr * rstr) :=
  match strip_prefix pattern s with
  | Some rest => Some ([], rest)
  | None =>
      match s with
      | [] => None
      | c :: s' => match find_str pattern s' with Some (a, b) => Some (c :: a, b) | None => None end
      end
  end.

Definition interpolate_default (value : rstr) : rstr :=
  match find_str "${" value with
  | None => value
  | Some (before, rest) =>
      match split_once 125 rest with
      | None => value
      | Some (expression, after) =>
          match or_else (find_str ":-" expression) (split_once 45 expression) with
          | Some (_, default) => before ++ default ++ after
          | None => value
          end
      end
  end.

Section resolve.
Context `{Host}.

Definition expand_tilde (value : rstr) : rstr :=
  match host_home with
  | None => value
  | Some home =>
      if home == [] then value
      else if value == ("~" : rstr) then home
      else match strip_prefix "~/" value with Some rest => home +s+ "/" +s+ rest | None => value end
  end.

Definition resolve_source (base_dir : rstr) (kind : ComposeMountKind) (source : option rstr) : option rstr :=
  source ← source;
  if kind != Bind then None
  else
    let interpolated := expand_tilde (interpolate_default source) in
    let resolved := if is_absolute interpolated || is_windows_absolute_path interpolated then interpolated
                    else path_push base_dir interpolated in
    Some (display_path (normalize_lexical resolved)).
End resolve.

(** The loop of [split_short_volume]: [first] is the first character, [index] the position of
    the next one, [cur] the piece so far, in reverse. Only the position after a single ASCII
    letter is not split at. *)
Fixpoint split_short_go (first : option N) (index : nat) (cur s : rstr) : list rstr :=
  match s with
  | [] => [reverse cur]
  | c :: s' =>
      if (c =? 58)%N && negb ((index =? 1)%nat && is_some_and first is_ascii_alphabetic)
      then reverse cur :: split_short_go first (S index) [] s'
      else split_short_go first (S index) (c :: cur) s'
  end.

Definition split_short_volume (raw : rstr) : list rstr := split_short_go (head raw) 0 [] raw.

(** ** Parsing one file *)

Section parse.
Context `{Yaml} `{Host}.

Definition mapping_get (value : Value) (key : rstr) : option Value :=
  entries ← as_mapping value; mapping_lookup entries key.

Definition scalar_to_string (value : Value) : option rstr :=
  match value_view value with
  | View_String s => Some s
  | View_Bool b => Some (if b then ("true" : rstr) else "false")
  | View_Number text => Some text
  | View_Null => Some []
  | _ => None
  end.

(** [collect] into a [BTreeMap]: a later entry of a key replaces an earlier one. *)
Definition collect_map (l : list (rstr * rstr)) : gmap rstr rstr := foldl (λ m kv, <[kv.1 := kv.2]> m) ∅ l.

Definition parse_depends_on (value : option Value) : list rstr :=
  match value_view <$> value with
  | Some (View_Sequence items) => omap as_str items
  | Some (View_Mapping entries) => omap as_str entries.*1
  | _ => []
  end.

Definition environment_entry (entry : rstr) : rstr * rstr := default (entry, []) (split_once 61 entry).

Definition parse_environment (value : option Value) : gmap rstr rstr :=
  match value_view <$> value with
  | Some (View_Mapping entries) =>
      collect_map (omap (λ kv, key ← as_str kv.1; text ← scalar_to_string kv.2; Some (key, text)) entries)
  | Some (View_Sequence items) => collect_map (omap (λ item, environment_entry <$> as_str item) items)
  | _ => ∅
  end.

(** The origin of a volume entry. *)
Definition mount_origin (file service_name : rstr) (index : nat) : ComposeFileOrigin :=
  origin file (Some service_name)
    ("services." +s+ service_name +s+ ".volumes[" +s+ dec_str (N.of_nat index) +s+ "]").

Definition mount_id (file service_name : rstr) (index : nat) : rstr :=
  display_path file +s+ ":" +s+ service_name +s+ ":" +s+ dec_str (N.of_nat index).

Definition parse_short_mount (file base_dir service_name : rstr) (index : nat) (raw : rstr)
    : ComposeMount + ComposeDiagnostic :=
  let invalid := inr (diagnostic "compose_invalid_short_mount" Sev_Error
    "Short volume syntax must be target, source:target, or source:target:mode." (mount_origin file service_name index)) in
  let mount (source : option rstr) (target : rstr) (mode : option rstr) :=
    let read_only := is_some_and mode (λ value,
      existsb (λ part, (part == ("ro" : rstr)) || (part == ("readonly" : rstr))) (split_char 44 value)) in
    let kind := classify_short_source source in
    inl {| cmt_id := mount_id file service_name index; cmt_service := service_name; cmt_kind := kind;
           cmt_source := source; cmt_resolved_source := resolve_source base_dir kind source;
           cmt_target := target; cmt_read_only := read_only; cmt_origin := mount_origin file service_name index |} in
  match split_short_volume raw with
  | [target] => mount None target None
  | [source; target] => mount (Some source) target None
  | [source; target; mode] => mount (Some source) target (Some mode)
  | _ => invalid
  end.

Definition parse_mount (file base_dir service_name : rstr) (index : nat) (item : Value)
    : ComposeMount + ComposeDiagnostic :=
  match as_str item with
  | Some short => parse_short_mount file base_dir service_name index short
  | None =>
      match as_mapping item with
      | None => inr (diagnostic "compose_unsupported_mount" Sev_Error "Volume entries must be strings or mappings."
                       (mount_origin file service_name index))
      | Some mapping =>
          let mount_type := default ("volume" : rstr) (mapping_lookup mapping "type" ≫= as_str) in
          let source := or_else (mapping_lookup mapping "source") (mapping_lookup mapping "src") ≫= as_str in
          match or_else (mapping_lookup mapping "target")
                  (or_else (mapping_lookup mapping "dst") (mapping_lookup mapping "destination")) ≫= as_str with
          | None => inr (diagnostic "compose_mount_missing_target" Sev_Error
                           "Volume mapping is missing a target path." (mount_origin file service_name index))
          | Some target =>
              let read_only := default false (mapping_lookup mapping "read_only" ≫= as_bool) in
              let kind := if mount_type == ("bind" : rstr) then Bind
                          else if mount_type == ("volume" : rstr)
                          then if is_some source then NamedVolume else AnonymousVolume
                          else Unsupported in
              inl {| cmt_id := mount_id file service_name index; cmt_service := service_name; cmt_kind := kind;
                     cmt_source := source; cmt_resolved_source := resolve_source base_dir kind source;
                     cmt_target := target; cmt_read_only := read_only;
                     cmt_origin := mount_origin file service_name index |}
          end
      end
  end.

(** The loop over the volumes of a service. *)
Fixpoint parse_volumes (file base_dir service_name : rstr) (index : nat) (items : list Value) (scan : ComposeScan)
    : ComposeScan :=
  match items with
  | [] => scan
  | item :: items =>
      parse_volumes file base_dir service_name (S index) items
        (match parse_mount file base_dir service_name index item with
         | inl mount => push_mount scan mount
         | inr d => push_diagnostic scan d
         end)
  end.

(** The body of the loop over the services. *)
Definition parse_service (file base_dir : rstr) (scan : ComposeScan) (entry : Value * Value) : ComposeScan :=
  match as_str entry.1 with
  | None => push_diagnostic scan (diagnostic "compose_non_string_service_name" Sev_Error "Service names must be strings."
              (origin file None "services"))
  | Some service_name =>
      let scan := push_service scan {|
        cs_name := service_name;
        cs_image := mapping_get entry.2 "image" ≫= as_str;
        cs_environment := parse_environment (mapping_get entry.2 "environment");
        cs_depends_on := parse_depends_on (mapping_get entry.2 "depends_on") |} in
      match mapping_get entry.2 "volumes" with
      | None => scan
      | Some volumes =>
          match as_sequence volumes with
          | None => push_diagnostic scan (diagnostic "compose_invalid_volumes" Sev_Error
                      "Service volumes must be a sequence." (origin file (Some service_name) "services.volumes"))
          | Some items => parse_volumes file base_dir service_name 0 items scan
          end
      end
  end.

Definition parse_compose_file (file content : rstr) (scan : ComposeScan) : ComposeScan :=
  let base_dir := default ("." : rstr) (path_parent file) in
  match yaml_from_str content with
  | inr error => push_diagnostic scan (diagnostic "compose_yaml_parse_error" Sev_Blocked
                   ("Compose YAML could not be parsed: " +s+ error) (origin file None "document"))
  | inl document =>
      match mapping_get document "services" ≫= as_mapping with
      | None => push_diagnostic scan (diagnostic "compose_missing_services" Sev_Error
                  "Compose file does not contain a services mapping." (origin file None "services"))
      | Some services => foldl (parse_service file base_dir) scan services
      end
  end.
End parse.

(** ** Coalescing services *)

(** [and_modify] of the entry of a service. *)
Definition merge_service (existing service : ComposeService) : ComposeService := {|
  cs_name := cs_name existing;
  cs_image := if is_some (cs_image service) then cs_image service else cs_image existing;
  cs_environment := cs_environment service ∪ cs_environment existing;
  cs_depends_on := foldl (λ ds d, if one_of d ds then ds else ds ++ [d]) (cs_depends_on existing) (cs_depends_on service) |}.

Definition coalesce_step (services : gmap rstr ComposeService) (service : ComposeService) : gmap rstr ComposeService :=
  <[cs_name service := match services !! cs_name service with
                       | Some existing => merge_service existing service
                       | None => service
                       end]> services.

Definition coalesce_compose_services (scan : ComposeScan) : ComposeScan := {|
  csc_files := csc_files scan; csc_project_root := csc_project_root scan;
  csc_services := btree_values (foldl coalesce_step ∅ (csc_services scan));
  csc_mounts := csc_mounts scan; csc_correlations := csc_correlations scan;
  csc_diagnostics := csc_diagnostics scan |}.

(** ** Unsafe sources *)

Definition SENSITIVE_SYSTEM_ROOTS : list rstr :=
  ["/etc" : rstr; "/proc" : rstr; "/sys" : rstr; "/dev" : rstr; "/boot" : rstr; "/usr" : rstr; "/bin" : rstr;
   "/sbin" : rstr; "/lib" : rstr; "/lib64" : rstr; "/var/log" : rstr; "/root" : rstr].

Definition CREDENTIAL_DIR_NAMES : list rstr :=
  [".ssh" : rstr; ".aws" : rstr; ".gnupg" : rstr; ".kube" : rstr; ".docker" : rstr; ".netrc" : rstr; "gcloud" : rstr].

(** A source quoted in a message. *)
Definition quoted (before value after : rstr) : rstr := before +s+ "`" +s+ value +s+ "`" +s+ after.

Definition unsafe_bind_source_diagnostic (resolved : rstr) : option (DiagnosticSeverity * rstr) :=
  if is_docker_daemon_state_bind_source resolved then
    Some (Sev_Blocked, quoted "Bind source " resolved
      " exposes Docker daemon state; a compromised container could control the host daemon.")
  else if existsb (λ c, one_of (as_os_str c) CREDENTIAL_DIR_NAMES) (components resolved) then
    Some (Sev_Blocked, quoted "Bind source " resolved " exposes credential material to the container.")
  else if existsb (λ root, (resolved == root) || starts_with resolved (root +s+ "/")) SENSITIVE_SYSTEM_ROOTS then
    Some (Sev_Warning, quoted "Bind source " resolved " mounts a sensitive host path.")
  else None.

(** ** Validating a scan *)

Definition NUL : N := 0.
Definition DOLLAR : N := 36.

(** The diagnostics of the declared source. *)
Definition source_diagnostics (source : rstr) (o : ComposeFileOrigin) : list ComposeDiagnostic :=
  (if contains source "${" || contains_char source DOLLAR
   then [diagnostic "compose_unresolved_variable" Sev_Warning
           (quoted "Mount source " source " contains an unresolved variable.") o] else [])
  ++ (if contains_char source NUL
      then [diagnostic "compose_invalid_source_path" Sev_Blocked "Mount source contains a NUL byte." o] else []).

Section validate.
Context `{Host}.

(** The diagnostics of the resolved source of a bind mount. *)
Definition bind_diagnostics (resolved : rstr) (o : ComposeFileOrigin) : list ComposeDiagnostic :=
  (match unsafe_bind_source_diagnostic resolved with
   | Some (severity, message) => [diagnostic "compose_unsafe_bind_source" severity message o]
   | None => []
   end)
  ++ (if has_parent_traversal resolved
      then [diagnostic "compose_parent_traversal" Sev_Warning
              (quoted "Bind source " resolved " traverses outside its compose directory.") o] else [])
  ++ (match host_symlink resolved with
      | Some true => [diagnostic "compose_bind_source_symlink" Sev_Warning
          (quoted "Bind source " resolved " is a symlink; DockerMap will not follow it during validation.") o]
      | Some false => []
      | None => [diagnostic "compose_missing_bind_source" Sev_Warning
          (quoted "Bind source " resolved " does not exist on the host.") o]
      end).

(** The body of the loop over the mounts. *)
Definition mount_diagnostics (mount : ComposeMount) : list ComposeDiagnostic :=
  let o := cmt_origin mount in
  (if (trim (cmt_target mount) == []) || negb (looks_like_container_path (cmt_target mount))
   then [diagnostic "compose_invalid_container_target" Sev_Error
           (quoted "Mount target " (cmt_target mount) " is not an absolute container path.") o] else [])
  ++ (if cmt_kind mount == Unsupported
      then [diagnostic "compose_unsupported_mount_type" Sev_Warning
              "Unsupported mount type was preserved but cannot be validated yet." o] else [])
  ++ (match cmt_source mount with Some source => source_diagnostics source o | None => [] end)
  ++ (if cmt_kind mount == Bind
      then match cmt_resolved_source mount with Some resolved => bind_diagnostics resolved o | None => [] end
      else []).

(** [targets_by_service], a [BTreeMap] with keys in the order of the pairs. *)
Definition targets_by_service (mounts : list ComposeMount) : gmap (rstr * rstr) (list ComposeFileOrigin) :=
  foldl (λ m mount, push_at m (cmt_service mount, cmt_target mount) (cmt_origin mount)) ∅ mounts.

Definition pair_leb (left right : rstr * rstr) : bool :=
  if left.1 == right.1 then str_leb left.2 right.2 else str_leb left.1 right.1.

Definition duplicate_target_diagnostics (entry : rstr * rstr * list ComposeFileOrigin) : list ComposeDiagnostic :=
  let '(service, target, origins) := entry in
  if (1 <? length origins)%nat
  then (λ o, diagnostic "compose_duplicate_target" Sev_Error
          ("Service `" +s+ service +s+ "` declares multiple mounts for `" +s+ target +s+ "`.") o) <$> origins
  else [].

Definition validate_compose_scan (scan : ComposeScan) : ComposeScan := {|
  csc_files := csc_files scan; csc_project_root := csc_project_root scan; csc_services := csc_services scan;
  csc_mounts := csc_mounts scan; csc_correlations := csc_correlations scan;
  csc_diagnostics := csc_diagnostics scan
    ++ (csc_mounts scan ≫= mount_diagnostics)
    ++ (sort_by (λ a b, pair_leb a.1 b.1) (map_to_list (targets_by_service (csc_mounts scan)))
        ≫= duplicate_target_diagnostics) |}.
End validate.

(** ** Reading and scanning *)

Definition MAX_COMPOSE_FILE_BYTES : N := 1048576.

Section scan.
Context `{Yaml} `{Host}.

Definition read_compose_file_bounded (file : rstr) : rstr + rstr :=
  match host_read file with
  | inr error => inr ("failed to read " +s+ file +s+ ": " +s+ error)
  | inl content =>
      let bytes := take (S (N.to_nat MAX_COMPOSE_FILE_BYTES)) content in
      if (MAX_COMPOSE_FILE_BYTES <? N.of_nat (length bytes))%N
      then inr ("compose file `" +s+ file +s+ "` is too large; limit is " +s+ dec_str MAX_COMPOSE_FILE_BYTES +s+ " bytes")
      else match from_utf8 bytes with
           | Utf8_ok s => inl s
           | Utf8_error position len =>
               inr ("failed to read " +s+ file +s+ " as UTF-8: " +s+ utf8_error_text position len)
           end
  end.

Definition bounded_compose_content (file : rstr) : option rstr :=
  match read_compose_file_bounded file with inl s => Some s | inr _ => None end.

Definition BASE_NAMES : list rstr :=
  ["compose.yaml" : rstr; "compose.yml" : rstr; "docker-compose.yaml" : rstr; "docker-compose.yml" : rstr].

Definition compose_override_candidates (base : rstr) : list rstr :=
  match file_name base, path_parent base with
  | Some name, Some parent =>
      path_push parent <$>
        (if starts_with name "docker-compose"
         then ["docker-compose.override.yml" : rstr; "docker-compose.override.yaml" : rstr]
         else ["compose.override.yml" : rstr; "compose.override.yaml" : rstr])
  | _, _ => []
  end.

Definition discover_compose_files (root : rstr) : list rstr :=
  filterb host_is_file (path_push root <$> BASE_NAMES)
  ≫= λ base, base :: filterb host_is_file (compose_override_candidates base).

Definition empty_scan (project_root : rstr) (files : list rstr) : ComposeScan := {|
  csc_files := display_path <$> files; csc_project_root := display_path project_root;
  csc_services := []; csc_mounts := []; csc_correlations := []; csc_diagnostics := [] |}.

(** The loop over the files: the first that cannot be read ends the scan. *)
Fixpoint parse_files (files : list rstr) (scan : ComposeScan) : ComposeScan + rstr :=
  match files with
  | [] => inl scan
  | file :: files =>
      match read_compose_file_bounded file with
      | inr error => inr error
      | inl content => parse_files files (parse_compose_file file content scan)
      end
  end.

Definition scan_compose_files (project_root : rstr) (files : list rstr) : ComposeScan + rstr :=
  let scan := empty_scan project_root files in
  if files == [] then
    inl (push_diagnostic scan (diagnostic "compose_no_files" Sev_Warning
      "No Compose files were discovered or supplied." (origin project_root None "files")))
  else match parse_files files scan with
       | inr error => inr error
       | inl scan => inl (validate_compose_scan (coalesce_compose_services scan))
       end.

(** The explicit name of a document. *)
Definition document_name (document : Value) : option rstr :=
  name ← mapping_get document "name" ≫= as_str;
  let name := trim name in if name == [] then None else Some name.

(** The only name of a set, when it has one. *)
Definition sole_name (names : gset rstr) : option rstr :=
  match elements names with [name] => Some name | _ => None end.

Definition explicit_compose_project_name (files : list rstr) : option rstr :=
  names ← mapM (λ file, content ← bounded_compose_content file;
                        match yaml_from_str content with
                        | inr _ => None
                        | inl document => Some (document_name document)
                        end) files;
  sole_name (list_to_set (omap id names)).
End scan.

(** ** The binding snapshot *)

(** What opening a file without following a final link gives: whether it is a regular file, the
    canonical path of what was opened, and its content; [None] where the system call fails. *)
Record OpenedFile := { of_is_file : option bool; of_canonical : option rstr; of_content : option (list N) }.

(** One reading of the files: [None] when a file cannot be opened. *)
Notation Reading := (rstr → option OpenedFile).

Definition unavailable : rstr := "Compose binding file is unavailable".

Definition is_normal (c : Component) : bool := match c with Normal _ => true | _ => false end.

(** [read_compose_file_bounded_under_root] on Unix. *)
Definition read_compose_file_bounded_under_root (reading : Reading) (root file : rstr) : rstr + rstr :=
  if negb (path_starts_with file root)
     || is_none (path_strip_prefix file root)
     || is_some_and (path_strip_prefix file root) (λ relative, existsb (λ c, negb (is_normal c)) relative)
  then inr ("Compose binding file is outside the configured root" : rstr)
  else match reading file with
  | None => inr unavailable
  | Some opened =>
      match of_is_file opened with
      | None => inr unavailable
      | Some false => inr ("Compose binding file is not regular" : rstr)
      | Some true =>
          match of_canonical opened with
          | None => inr unavailable
          | Some canonical =>
              if negb (path_starts_with canonical root) then inr ("Compose binding file escaped the configured root" : rstr)
              else match of_content opened with
              | None => inr unavailable
              | Some content =>
                  let bytes := take (S (N.to_nat MAX_COMPOSE_FILE_BYTES)) content in
                  if (MAX_COMPOSE_FILE_BYTES <? N.of_nat (length bytes))%N
                  then inr ("Compose binding file exceeds the byte limit" : rstr)
                  else match from_utf8 bytes with
                       | Utf8_ok s => inl s
                       | Utf8_error _ _ => inr ("Compose binding file is not UTF-8" : rstr)
                       end
              end
          end
      end
  end.

Section binding.
Context `{Sha256} `{Yaml} `{Host}.

(** The bytes a digest is updated with: path, NUL, content, NUL. *)
Definition fingerprint_text (documents : list (rstr * rstr)) : rstr :=
  documents ≫= λ '(file, content), file ++ [NUL] ++ content ++ [NUL].

Definition compose_files_fingerprint (files : list rstr) : option rstr :=
  documents ← mapM (λ file, content ← bounded_compose_content file; Some (file, content)) files;
  Some (sha256_hex (fingerprint_text documents)).

(** One document of the first reading: its path, its text and its explicit name. *)
Definition capture (reading : Reading) (root file : rstr) : option (rstr * rstr * option rstr) :=
  match read_compose_file_bounded_under_root reading root file with
  | inr _ => None
  | inl content =>
      match yaml_from_str content with
      | inr _ => None
      | inl document => Some (file, content, document_name document)
      end
  end.

(** A document whose second reading differs from the captured text. *)
Definition changed (reading : Reading) (root : rstr) (captured : rstr * rstr) : bool :=
  match read_compose_file_bounded_under_root reading root captured.1 with
  | inl current => current != captured.2
  | inr _ => true
  end.

(** [scan_compose_binding_snapshot]; the files are read twice, as [first] and as [second]. *)
Definition scan_compose_binding_snapshot (first second : Reading) (project_root : rstr) (files : list rstr)
    : option (ComposeScan * rstr * rstr) :=
  captured ← mapM (capture first project_root) files;
  let documents := captured.*1 in
  if existsb (changed second project_root) documents then None
  else
    let scan := foldl (λ scan document, parse_compose_file document.1 document.2 scan)
                  (empty_scan project_root files) documents in
    project ← sole_name (list_to_set (omap id captured.*2));
    Some (validate_compose_scan (coalesce_compose_services scan), project, sha256_hex (fingerprint_text documents)).
End binding.

(** ** Bounded reading *)

Lemma take_bounded (content : list N) :
  ((MAX_COMPOSE_FILE_BYTES <? N.of_nat (length (take (S (N.to_nat MAX_COMPOSE_FILE_BYTES)) content)))%N = false ↔
   (N.of_nat (length content) <= MAX_COMPOSE_FILE_BYTES)%N) ∧
  ((N.of_nat (length content) <= MAX_COMPOSE_FILE_BYTES)%N → take (S (N.to_nat MAX_COMPOSE_FILE_BYTES)) content = content).
Proof.
  generalize MAX_COMPOSE_FILE_BYTES. intros max. split; [|intros; apply take_ge; lia].
  rewrite N.ltb_ge, length_take. lia.
Qed.

Section read_spec.
Context `{Host}.

(** A Compose file is read exactly when it can be, holds at most [MAX_COMPOSE_FILE_BYTES] bytes, and
    is UTF-8; the text read is then the only one with those bytes. *)
Theorem compose_read_bounded file s :
  read_compose_file_bounded file = inl s ↔
  ∃ content, host_read file = inl content ∧ (N.of_nat (length content) <= MAX_COMPOSE_FILE_BYTES)%N ∧
    utf8_bytes s = content ∧ Forall (λ c, is_scalar c = true) s.
Proof.
  unfold read_compose_file_bounded. destruct (host_read file) as [content|error]; [|naive_solver].
  destruct (_ <? _)%N eqn:E; destruct (take_bounded content) as [Hb Htake].
  - split; [done|]. intros (c & [= <-] & Hle & _). apply Hb in Hle. congruence.
  - apply Hb in E. rewrite (Htake E). split.
    + destruct (from_utf8 content) as [s'|] eqn:Eu; [|done]. intros [= ->].
      apply from_utf8_spec in Eu as [Hs Hu]. by exists content.
    + intros (c & [= <-] & _ & Hu & Hs). by rewrite (proj2 (from_utf8_spec content s) (conj Hs Hu)).
Qed.
End read_spec.

(** What a reading of a file under the root establishes. *)
Definition read_under (reading : Reading) (root file text : rstr) : Prop :=
  ∃ names canonical content,
    components file = components root ++ (Normal <$> names) ∧
    reading file = Some {| of_is_file := Some true; of_canonical := Some canonical; of_content := Some content |} ∧
    path_starts_with canonical root = true ∧ (N.of_nat (length content) <= MAX_COMPOSE_FILE_BYTES)%N ∧
    utf8_bytes text = content.

Lemma normals_of cs : existsb (λ c, negb (is_normal c)) cs = false → ∃ names, cs = Normal <$> names.
Proof.
  induction cs as [|c cs IH]; [by exists []|]. cbn [existsb]. rewrite orb_false_iff. intros [Hc Hcs].
  destruct (IH Hcs) as [names ->]. destruct c as [| | |name]; try done. by exists (name :: names).
Qed.

Lemma read_under_spec reading root file text :
  read_compose_file_bounded_under_root reading root file = inl text → read_under reading root file text.
Proof.
  unfold read_compose_file_bounded_under_root, path_starts_with, path_strip_prefix at 1 2 3.
  destruct (strip_components (components root) (components file)) as [relative|] eqn:Es; cbn [is_some is_none negb is_some_and orb];
    [|done].
  destruct (existsb _ relative) eqn:En; [done|]. apply normals_of in En as [names ->].
  apply strip_components_spec in Es.
  destruct (reading file) as [[[[]|] [canonical|] content]|] eqn:Er; cbn [of_is_file of_canonical of_content]; try done.
  fold (path_starts_with canonical root). destruct (path_starts_with canonical root) eqn:Ec; cbn [negb]; [|done].
  destruct content as [content|]; [|done]. destruct (_ <? _)%N eqn:El; [done|].
  destruct (take_bounded content) as [Hb Htake]. apply Hb in El. rewrite (Htake El).
  destruct (from_utf8 content) as [s|] eqn:Eu; [|done]. intros [= <-].
  apply from_utf8_spec in Eu as [_ Hu]. exists names, canonical, content. by split_and!.
Qed.

Section binding_spec.
Context `{Sha256} `{Yaml} `{Host}.

Lemma trim_name document name : document_name document = Some name → name ≠ [].
Proof.
  unfold document_name. destruct (_ ≫= as_str) as [s|]; [|done]. cbn [mbind option_bind]. case_bool_decide; [done|].
  by intros [= <-].
Qed.

Lemma capture_all reading root files captured :
  mapM (capture reading root) files = Some captured →
  ∃ documents : list (rstr * rstr * Value),
    captured = (λ d, (d.1, document_name d.2)) <$> documents ∧ documents.*1.*1 = files ∧
    ∀ file text value, (file, text, value) ∈ documents →
      read_compose_file_bounded_under_root reading root file = inl text ∧ yaml_from_str text = inl value.
Proof.
  revert captured. induction files as [|file files IH]; intros captured; cbn [mapM]; simpl.
  - intros [= <-]. exists []. split_and!; [done|done|]. by intros ? ? ? ?%elem_of_nil.
  - destruct (capture reading root file) as [d|] eqn:Ed; cbn [mbind option_bind]; [|done].
    destruct (mapM _ files) as [rest|]; cbn [mbind option_bind]; [|done]. intros [= <-]. unfold capture in Ed.
    destruct (read_compose_file_bounded_under_root reading root file) as [text|] eqn:Er; [|done].
    destruct (yaml_from_str text) as [value|] eqn:Ey; [|done]. injection Ed as <-.
    destruct (IH rest eq_refl) as (documents & -> & <- & Hd). exists ((file, text, value) :: documents).
    split_and!; [done|done|]. intros f t v [[= -> -> ->]|Hin]%elem_of_cons; [by split|by apply Hd].
Qed.

Lemma sole_name_spec (names : gset rstr) name : sole_name names = Some name ↔ names = {[name]}.
Proof.
  unfold sole_name. split.
  - destruct (elements names) as [|n [|]] eqn:E; try done. intros [= <-].
    apply set_eq. intros x. rewrite <- elem_of_elements, E. set_solver.
  - intros ->. by rewrite elements_singleton.
Qed.

(** C25: A binding snapshot attests one generation of the configured files: every file is named
    below the root without [.] or [..], both readings opened a regular file that is canonically
    under the root and holds at most [MAX_COMPOSE_FILE_BYTES] bytes of the same text, every
    explicit name of the documents is the project (and there is one), and the scan and the
    fingerprint are those of these texts. *)
Theorem binding_snapshot_coherent first second root files scan project fingerprint :
  scan_compose_binding_snapshot first second root files = Some (scan, project, fingerprint) →
  ∃ documents : list (rstr * rstr * Value),
    documents.*1.*1 = files ∧
    (∀ file text value, (file, text, value) ∈ documents →
       read_under first root file text ∧ read_under second root file text ∧ yaml_from_str text = inl value ∧
       ∀ name, document_name value = Some name → name = project) ∧
    (∃ d, d ∈ documents ∧ document_name d.2 = Some project) ∧ project ≠ [] ∧
    scan = validate_compose_scan (coalesce_compose_services
      (foldl (λ scan d, parse_compose_file d.1.1 d.1.2 scan) (empty_scan root files) documents)) ∧
    fingerprint = sha256_hex (fingerprint_text documents.*1).
Proof.
  unfold scan_compose_binding_snapshot. destruct (mapM (capture first root) files) as [captured|] eqn:Ec; [|done].
  cbn [mbind option_bind]. destruct (existsb _ _) eqn:Ech; [done|].
  destruct (sole_name _) as [name|] eqn:En; [|done]. cbn [mbind option_bind]. intros [= <- <- <-].
  apply sole_name_spec in En. destruct (capture_all _ _ _ _ Ec) as (documents & -> & Hfiles & Hread).
  assert (E1 : ((λ d : rstr * rstr * Value, (d.1, document_name d.2)) <$> documents).*1 = documents.*1)
    by (rewrite <- list_fmap_compose; by apply list_fmap_ext).
  assert (E2 : ((λ d : rstr * rstr * Value, (d.1, document_name d.2)) <$> documents).*2 = (λ d, document_name d.2) <$> documents)
    by (rewrite <- list_fmap_compose; by apply list_fmap_ext).
  rewrite E1 in Ech |- *. rewrite E2 in En.
  assert (Hname : ∀ n, (∃ d, d ∈ documents ∧ document_name d.2 = Some n) ↔ n = name).
  { intros n. rewrite <- (elem_of_singleton (C := gset rstr)), <- En, elem_of_list_to_set, list_elem_of_omap.
    setoid_rewrite list_elem_of_fmap. split.
    - intros (d & Hd & Hn). exists (document_name d.2). split; [by exists d|done].
    - intros (? & (d & -> & Hd) & Hn). by exists d. }
  destruct (proj2 (Hname name) eq_refl) as (d & Hd & Hdn). exists documents. split_and!.
  - done.
  - intros file text value Hin. destruct (Hread _ _ _ Hin) as [Hr Hy]. split_and!.
    + by apply read_under_spec.
    + apply read_under_spec. assert (Hc : changed second root (file, text) = false).
      { apply not_true_iff_false. intros Hc. apply not_true_iff_false in Ech. apply Ech, existsb_exists.
        exists (file, text). split; [|done]. apply list_elem_of_In, list_elem_of_fmap. by exists (file, text, value). }
      unfold changed in Hc. cbn [fst snd] in Hc. destruct (read_compose_file_bounded_under_root second root file); [|done].
      apply negb_false_iff, bool_decide_eq_true in Hc. by subst.
    + done.
    + intros n Hn. apply Hname. by exists (file, text, value).
  - by exists d.
  - by eapply trim_name.
  - do 2 f_equal. by rewrite foldl_fmap.
  - done.
Qed.
End binding_spec.

(** ** Short volumes *)

Definition COLON : N := 58.

(** The reference: split at every colon, but not at the one of a drive letter. *)
Definition split_after_drive (raw : rstr) : list rstr :=
  match raw with
  | l :: c :: rest =>
      if is_ascii_alphabetic l && (c =? COLON)%N
      then match split_char COLON rest with p :: ps => (l :: c :: p) :: ps | [] => [raw] end
      else split_char COLON raw
  | _ => split_char COLON raw
  end.

Lemma split_char_cons c s : ∃ p ps, split_char c s = p :: ps.
Proof. destruct s as [|x s]; cbn [split_char]; [eauto|]. destruct (x =? c)%N; [eauto|]. case_match; eauto. Qed.

Lemma split_short_go_split first index cur s : (2 ≤ index)%nat ∨ is_some_and first is_ascii_alphabetic = false →
  split_short_go first index cur s =
  match split_char COLON s with p :: ps => (reverse cur ++ p) :: ps | [] => [] end.
Proof.
  revert index cur. induction s as [|c s IH]; intros index cur Hi; cbn [split_short_go split_char]; [by rewrite app_nil_r|].
  assert (E : negb ((index =? 1)%nat && is_some_and first is_ascii_alphabetic) = true).
  { destruct Hi as [Hi| ->]; [destruct index as [|[|index]]; [lia|lia|done]|by rewrite andb_false_r]. }
  rewrite E, andb_true_r. assert (Hi' : (2 ≤ S index)%nat ∨ is_some_and first is_ascii_alphabetic = false) by (destruct Hi; [left; lia|by right]).
  rewrite !IH by done. change 58%N with COLON.
  destruct (split_char_cons COLON s) as (p & ps & ->). destruct (c =? COLON)%N; [by rewrite app_nil_r|].
  rewrite reverse_cons, <- app_assoc. done.
Qed.

Lemma split_short_volume_reference raw : split_short_volume raw = split_after_drive raw.
Proof.
  unfold split_short_volume, split_after_drive. destruct raw as [|l raw]; [done|]. cbn [head].
  destruct (is_ascii_alphabetic l) eqn:El.
  - assert (Hl : (l =? COLON)%N = false) by (apply N.eqb_neq; intros ->; discriminate El).
    cbn [split_short_go]. change 58%N with COLON. rewrite Hl. cbn [andb].
    destruct raw as [|c raw]; [cbn [split_char]; by rewrite Hl|]. cbn [split_short_go is_some_and Nat.eqb andb negb]. rewrite El, andb_false_r.
    rewrite split_short_go_split by (left; lia).
    destruct (N.eqb_spec c COLON) as [->|Hne].
    + destruct (split_char_cons COLON raw) as (p & ps & ->). done.
    + cbn [split_char]. rewrite Hl. assert ((c =? COLON)%N = false) as -> by by apply N.eqb_neq.
      destruct (split_char_cons COLON raw) as (p & ps & ->). done.
  - rewrite split_short_go_split by (by right).
    destruct (split_char_cons COLON (l :: raw)) as (p & ps & E). rewrite E. destruct raw as [|c raw]; [done|]. cbn [andb]. done.
Qed.

Lemma split_short_volume_join raw : join [COLON] (split_short_volume raw) = raw.
Proof.
  rewrite split_short_volume_reference. unfold split_after_drive.
  destruct raw as [|l [|c rest]]; try apply join_split.
  destruct (is_ascii_alphabetic l && (c =? COLON)%N); [|apply join_split].
  pose proof (join_split COLON rest) as E. destruct (split_char_cons COLON rest) as (p & ps & Es). rewrite Es in E |- *.
  rewrite <- E. by destruct ps.
Qed.

Section short_mounts.
Context `{Host}.

(** What the parts of a short volume mean. *)
Definition short_mount_of (file base_dir service : rstr) (index : nat) (source : option rstr) (target : rstr)
    (mode : option rstr) (m : ComposeMount) : Prop :=
  cmt_id m = mount_id file service index ∧ cmt_service m = service ∧ cmt_source m = source ∧ cmt_target m = target ∧
  cmt_origin m = mount_origin file service index ∧
  (cmt_read_only m = true ↔ ∃ (text part : rstr), mode = Some text ∧ part ∈ split_char 44 text ∧
     (part = "ro" ∨ part = "readonly")) ∧
  cmt_kind m = (match source with
                | None => AnonymousVolume
                | Some s => if looks_like_host_path s then Bind else NamedVolume
                end) ∧
  (cmt_kind m ≠ Bind → cmt_resolved_source m = None) ∧
  (∀ s, source = Some s → cmt_kind m = Bind → ∃ resolved, cmt_resolved_source m = Some resolved ∧
     has_parent_traversal resolved = false).

Lemma resolve_source_none base kind source : kind ≠ Bind → resolve_source base kind source = None.
Proof. intros Hk. unfold resolve_source. destruct source; [|done]. cbn [mbind option_bind]. by rewrite bool_decide_eq_false_2. Qed.

Lemma resolve_source_bind base source : ∃ resolved,
  resolve_source base Bind (Some source) = Some resolved ∧ has_parent_traversal resolved = false.
Proof. eexists. split; [reflexivity|]. apply no_parent_traversal. Qed.

Lemma resolve_source_normal base kind source resolved :
  resolve_source base kind source = Some resolved → has_parent_traversal resolved = false.
Proof.
  unfold resolve_source. destruct source as [s|]; [|done]. cbn [mbind option_bind]. case_bool_decide; cbn [negb]; [|done].
  intros [= <-]. apply no_parent_traversal.
Qed.

(** A short volume is parsed without losing anything: its parts, joined by colons, are the text
    again; they are split at every colon but the one of a drive letter; one to three parts are
    a mount whose source is classified, and resolved without [.] and [..] when it is a host
    path; more are refused. *)
Theorem short_mount_roundtrip file base service index raw :
  split_short_volume raw = split_after_drive raw ∧
  match parse_short_mount file base service index raw with
  | inl m => ∃ source target mode,
      short_mount_of file base service index source target mode m ∧
      raw = join [COLON] (option_list source ++ [target] ++ option_list mode) ∧ (is_some mode → is_some source)
  | inr d => cd_id d = "compose_invalid_short_mount" ∧ (3 < length (split_short_volume raw))%nat
  end.
Proof.
  split; [apply split_short_volume_reference|]. unfold parse_short_mount.
  pose proof (split_short_volume_join raw) as Ej.
  assert (Hne : split_short_volume raw ≠ []).
  { rewrite split_short_volume_reference. unfold split_after_drive. destruct raw as [|l [|c rest]]; try done.
    - by destruct (split_char_cons COLON [l]) as (p & ps & ->).
    - destruct (split_char_cons COLON rest) as (p & ps & ->), (split_char_cons COLON (l :: c :: rest)) as (q & qs & ->).
      by case_match. }
  assert (Hok : ∀ source target mode kind, kind = classify_short_source source →
    short_mount_of file base service index source target mode
      {| cmt_id := mount_id file service index; cmt_service := service; cmt_kind := kind; cmt_source := source;
         cmt_resolved_source := resolve_source base kind source; cmt_target := target;
         cmt_read_only := is_some_and mode (λ value, existsb (λ part, (part == ("ro" : rstr)) || (part == ("readonly" : rstr))) (split_char 44 value));
         cmt_origin := mount_origin file service index |}).
  { intros source target mode kind ->. unfold short_mount_of. cbn [cmt_id cmt_service cmt_kind cmt_source
      cmt_resolved_source cmt_target cmt_read_only cmt_origin]. split_and!; try done.
    - destruct mode as [text|]; cbn [is_some_and]; [|by split; [|intros (? & ? & ? & _)]].
      rewrite existsb_exists. split.
      + intros (part & Hin & Hp). exists text, part. apply list_elem_of_In in Hin. split_and!; [done|done|].
        apply orb_prop in Hp as [Hp|Hp]; apply bool_decide_eq_true in Hp; auto.
      + intros (? & part & [= <-] & Hin & Hp). exists part. split; [by apply list_elem_of_In|].
        apply orb_true_iff. destruct Hp as [->| ->]; [left|right]; by apply bool_decide_eq_true.
    - apply resolve_source_none.
    - intros s -> Hk. rewrite Hk. apply resolve_source_bind. }
  destruct (split_short_volume raw) as [|p1 [|p2 [|p3 [|p4 ps]]]]; [done|..].
  - exists None, p1, None. by split_and!; [apply Hok|done|].
  - exists (Some p1), p2, None. by split_and!; [apply Hok|done|].
  - exists (Some p1), p2, (Some p3). by split_and!; [apply Hok|done|].
  - split; [done|]. cbn [length]. lia.
Qed.
End short_mounts.

(** ** Coalesced services *)

(** The declarations of a service, in order. *)
Definition declarations (name : rstr) (services : list ComposeService) : list ComposeService :=
  filterb (λ s, cs_name s == name) services.

Lemma coalesce_lookup services m name :
  foldl coalesce_step m services !! name =
  match m !! name with
  | Some existing => Some (foldl merge_service existing (declarations name services))
  | None => match declarations name services with [] => None | s :: rest => Some (foldl merge_service s rest) end
  end.
Proof.
  revert m. induction services as [|s services IH]; intros m; cbn [foldl declarations filterb]; [by case_match|].
  rewrite IH. unfold coalesce_step at 1. fold (declarations name services).
  case_bool_decide as En.
  - subst name. rewrite lookup_insert_eq. by destruct (m !! cs_name s).
  - rewrite lookup_insert_ne by done. done.
Qed.

Lemma coalesce_keys services m :
  (∀ k s, m !! k = Some s → cs_name s = k) → ∀ k s, foldl coalesce_step m services !! k = Some s → cs_name s = k.
Proof.
  revert m. induction services as [|s services IH]; intros m Hm; [done|]. cbn [foldl]. apply IH.
  intros k s'. unfold coalesce_step. destruct (decide (cs_name s = k)) as [<-|Hne].
  - rewrite lookup_insert_eq. intros [= <-]. destruct (m !! cs_name s) as [e|] eqn:E; [|done]. cbn. by apply Hm.
  - rewrite lookup_insert_ne by done. apply Hm.
Qed.

(** The last value that is there. *)
Lemma last_omap_snoc {A B} (f : A → option B) l x :
  last (omap f (l ++ [x])) = match f x with Some v => Some v | None => last (omap f l) end.
Proof. rewrite omap_app. cbn. destruct (f x); [by rewrite last_snoc|by rewrite app_nil_r]. Qed.

Lemma merged_depends (deps more : list rstr) d :
  d ∈ foldl (λ ds d, if one_of d ds then ds else ds ++ [d]) deps more ↔ d ∈ deps ∨ d ∈ more.
Proof.
  revert deps. induction more as [|x more IH]; intros deps; cbn [foldl]; [set_solver|]. rewrite IH. unfold one_of.
  case_bool_decide; set_solver.
Qed.

Lemma merged_fields existing rest :
  let merged := foldl merge_service existing rest in
  cs_name merged = cs_name existing ∧
  cs_image merged = last (omap cs_image (existing :: rest)) ∧
  (∀ k, cs_environment merged !! k = last (omap (λ s, cs_environment s !! k) (existing :: rest))) ∧
  (∀ d, d ∈ cs_depends_on merged ↔ ∃ s, s ∈ existing :: rest ∧ d ∈ cs_depends_on s).
Proof.
  induction rest as [|s rest IH] using rev_ind.
  - cbn. split_and!; [done|by destruct (cs_image existing)|by intros k; destruct (cs_environment existing !! k)|].
    intros d. split; [intros; exists existing; set_solver|intros (s & ->%list_elem_of_singleton & Hd); done].
  - rewrite foldl_snoc. destruct IH as (En & Ei & Ee & Ed).
    change (existing :: rest ++ [s]) with ((existing :: rest) ++ [s]). rewrite last_omap_snoc. split_and!.
    + done.
    + cbn [merge_service cs_image]. rewrite <- Ei. by destruct (cs_image s).
    + intros k. rewrite last_omap_snoc, <- Ee. cbn [merge_service cs_environment]. rewrite lookup_union.
      by destruct (cs_environment s !! k), (cs_environment _ !! k).
    + intros d. cbn [merge_service cs_depends_on]. rewrite merged_depends, Ed. setoid_rewrite elem_of_app.
      setoid_rewrite list_elem_of_singleton. naive_solver.
Qed.

(** The definitions of one service of a coalesced scan by the declarations of its name. *)
Definition coalesced_from (services : list ComposeService) (s : ComposeService) : Prop :=
  let decls := declarations (cs_name s) services in
  decls ≠ [] ∧ cs_image s = last (omap cs_image decls) ∧
  (∀ k, cs_environment s !! k = last (omap (λ d, cs_environment d !! k) decls)) ∧
  (∀ d, d ∈ cs_depends_on s ↔ ∃ decl, decl ∈ decls ∧ d ∈ cs_depends_on decl).

Lemma elem_of_coalesced scan s :
  s ∈ csc_services (coalesce_compose_services scan) ↔ foldl coalesce_step ∅ (csc_services scan) !! cs_name s = Some s.
Proof.
  cbn [coalesce_compose_services csc_services]. unfold btree_values. rewrite list_elem_of_fmap. split.
  - intros ([k s'] & -> & Hin). apply elem_of_btree_iter in Hin. cbn [snd].
    assert (cs_name s' = k) as -> by (eapply coalesce_keys; [|exact Hin]; by intros ? ? ?%lookup_empty_Some). done.
  - intros Hs. exists (cs_name s, s). split; [done|]. by apply elem_of_btree_iter.
Qed.

(** Coalescing keeps one service per declared name, sorted by name: its image and each of its
    variables come from the last declaration that has one, its dependencies from all of them. *)
Theorem coalesce_services_spec scan :
  let services := csc_services (coalesce_compose_services scan) in
  StronglySorted (λ a b, str_leb a b = true) (cs_name <$> services) ∧ NoDup (cs_name <$> services) ∧
  (∀ name, name ∈ cs_name <$> services ↔ name ∈ cs_name <$> csc_services scan) ∧
  (∀ s, s ∈ services → coalesced_from (csc_services scan) s).
Proof.
  intros services.
  assert (Hkeys : cs_name <$> services = btree_keys (foldl coalesce_step ∅ (csc_services scan))).
  { unfold services, btree_keys. cbn [coalesce_compose_services csc_services]. unfold btree_values.
    rewrite <- list_fmap_compose. apply list_fmap_ext. intros i [k s] Hin%list_elem_of_lookup_2.
    apply elem_of_btree_iter in Hin. cbn. eapply coalesce_keys; [|exact Hin]. by intros ? ? ?%lookup_empty_Some. }
  assert (Hfields : ∀ s, s ∈ services → coalesced_from (csc_services scan) s).
  { intros s Hs%elem_of_coalesced. rewrite coalesce_lookup, lookup_empty in Hs. unfold coalesced_from.
    destruct (declarations (cs_name s) (csc_services scan)) as [|d rest]; [done|]. injection Hs as Hs.
    pose proof (merged_fields d rest) as Hm. rewrite Hs in Hm. split; [done|apply Hm]. }
  split_and!; [rewrite Hkeys|rewrite Hkeys; apply btree_keys_NoDup| |done].
  - eapply StronglySorted_map; [|apply btree_iter_sorted]. done.
  - intros name. rewrite Hkeys. unfold btree_keys. rewrite list_elem_of_fmap. split.
    + intros ([k s] & -> & Hin). apply elem_of_btree_iter in Hin. rewrite coalesce_lookup, lookup_empty in Hin.
      destruct (declarations k (csc_services scan)) as [|d rest] eqn:Ed; [done|].
      assert (Hd : d ∈ declarations k (csc_services scan)) by (rewrite Ed; left).
      unfold declarations in Hd. apply elem_of_filterb in Hd as [<-%bool_decide_eq_true Hd].
      apply list_elem_of_fmap. by exists d.
    + intros (d & -> & Hd)%list_elem_of_fmap.
      assert (Hdecl : d ∈ declarations (cs_name d) (csc_services scan)).
      { apply elem_of_filterb. split; [by apply bool_decide_eq_true|done]. }
      destruct (foldl coalesce_step ∅ (csc_services scan) !! cs_name d) as [s|] eqn:Es.
      * exists (cs_name d, s). split; [done|]. by apply elem_of_btree_iter.
      * rewrite coalesce_lookup, lookup_empty in Es.
        destruct (declarations (cs_name d) (csc_services scan)); [by apply elem_of_nil in Hdecl|done].
Qed.

(** ** Scans *)

Section scans.
Context `{Yaml} `{Host}.

(** A mount comes from an entry of one of the files. *)
Definition mount_parsed (files : list rstr) (m : ComposeMount) : Prop :=
  ∃ file index, file ∈ files ∧ cmt_id m = mount_id file (cmt_service m) index ∧
    cmt_origin m = mount_origin file (cmt_service m) index ∧
    cmt_resolved_source m
    = resolve_source (default ("." : rstr) (path_parent file)) (cmt_kind m) (cmt_source m).

(** The diagnostics of the parser. *)
Definition PARSE_IDS : list rstr :=
  ["compose_yaml_parse_error" : rstr; "compose_missing_services" : rstr; "compose_non_string_service_name" : rstr;
   "compose_invalid_volumes" : rstr; "compose_unsupported_mount" : rstr; "compose_mount_missing_target" : rstr;
   "compose_invalid_short_mount" : rstr].

Definition parse_reported (files : list rstr) (d : ComposeDiagnostic) : Prop :=
  cd_id d ∈ PARSE_IDS ∧ co_file (cd_origin d) ∈ files ∧ (cd_severity d = Sev_Error ∨ cd_severity d = Sev_Blocked).

(** What holds of a scan while the files are parsed. *)
Record scan_ok (root : rstr) (all files : list rstr) (scan : ComposeScan) : Prop := {
  ok_files : csc_files scan = all;
  ok_root : csc_project_root scan = root;
  ok_correlations : csc_correlations scan = [];
  ok_mounts : ∀ m, m ∈ csc_mounts scan → mount_parsed files m ∧ cmt_service m ∈ cs_name <$> csc_services scan;
  ok_diagnostics : ∀ d, d ∈ csc_diagnostics scan → parse_reported files d
}.

Lemma parse_id (i : nat) (id : rstr) : PARSE_IDS !! i = Some id → id ∈ PARSE_IDS.
Proof. apply list_elem_of_lookup_2. Qed.

Lemma push_diagnostic_ok root all files scan d :
  scan_ok root all files scan → parse_reported files d → scan_ok root all files (push_diagnostic scan d).
Proof.
  intros [Hf Hr Hc Hm Hd] Hdiag. split; cbn [push_diagnostic csc_files csc_project_root csc_correlations csc_mounts csc_services
    csc_diagnostics]; try done. intros e [He| ->%list_elem_of_singleton]%elem_of_app; [by apply Hd|done].
Qed.

Lemma push_service_ok root all files scan s :
  scan_ok root all files scan → scan_ok root all files (push_service scan s) ∧
    cs_name s ∈ cs_name <$> csc_services (push_service scan s).
Proof.
  intros [Hf Hr Hc Hm Hd]. split; [split|]; cbn [push_service csc_files csc_project_root csc_correlations csc_mounts csc_services
    csc_diagnostics]; try done.
  - intros m Hin. destruct (Hm m Hin) as [? Hs]. split; [done|]. rewrite fmap_app. apply elem_of_app. by left.
  - rewrite fmap_app. apply elem_of_app. right. apply list_elem_of_singleton. done.
Qed.

Lemma push_mount_ok root all files scan m :
  scan_ok root all files scan → mount_parsed files m → cmt_service m ∈ cs_name <$> csc_services scan →
  scan_ok root all files (push_mount scan m).
Proof.
  intros [Hf Hr Hc Hm Hd] Hp Hs. split; cbn [push_mount csc_files csc_project_root csc_correlations csc_mounts csc_services
    csc_diagnostics]; try done. intros e [He| ->%list_elem_of_singleton]%elem_of_app; [by apply Hm|done].
Qed.

(** Every outcome of [parse_mount] is a mount or a diagnostic of its entry. *)
Lemma parse_mount_ok files file service index item : file ∈ files →
  match parse_mount file (default ("." : rstr) (path_parent file)) service index item with
  | inl m => mount_parsed files m ∧ cmt_service m = service
  | inr d => parse_reported files d
  end.
Proof.
  intros Hf. assert (Hdiag : ∀ i id message, PARSE_IDS !! i = Some id →
    parse_reported files (diagnostic id Sev_Error message (mount_origin file service index))).
  { intros i id message Hi. split_and!; [by eapply parse_id|done|by left]. }
  unfold parse_mount. destruct (as_str item) as [short|].
  - unfold parse_short_mount. destruct (split_short_volume short) as [|p1 [|p2 [|p3 [|p4 ps]]]];
      try (by apply (Hdiag 6)); (split; [|done]); exists file, index; by split_and!.
  - destruct (as_mapping item) as [mapping|]; [|by apply (Hdiag 4)].
    destruct (or_else (mapping_lookup mapping "target") _ ≫= as_str) as [target|]; [|by apply (Hdiag 5)].
    split; [|done]. exists file, index. by split_and!.
Qed.

Lemma parse_volumes_ok root all files file service items : file ∈ files →
  ∀ index scan, scan_ok root all files scan → service ∈ cs_name <$> csc_services scan →
  scan_ok root all files
    (parse_volumes file (default ("." : rstr) (path_parent file)) service index items scan).
Proof.
  intros Hf. induction items as [|item items IH]; intros index scan Hok Hs; [done|]. cbn [parse_volumes].
  pose proof (parse_mount_ok files file service index item Hf) as Hp.
  destruct (parse_mount _ _ _ _ _) as [m|d]; apply IH; try done.
  - destruct Hp as [Hp Es]. apply push_mount_ok; [done|done|by rewrite Es].
  - by apply push_diagnostic_ok.
Qed.

Lemma parse_file_ok root all files file content scan : file ∈ files →
  scan_ok root all files scan → scan_ok root all files (parse_compose_file file content scan).
Proof.
  intros Hf Hok.
  assert (Hdiag : ∀ i id severity message o, PARSE_IDS !! i = Some id → severity = Sev_Error ∨ severity = Sev_Blocked →
    co_file o = file → parse_reported files (diagnostic id severity message o)).
  { intros i id severity message o Hi Hsev <-. split_and!; [by eapply parse_id|done|done]. }
  unfold parse_compose_file. destruct (yaml_from_str content) as [document|error].
  - destruct (_ ≫= as_mapping) as [services|].
    + generalize dependent scan. induction services as [|entry services IH]; intros scan Hok; [done|].
      cbn [foldl]. apply IH. unfold parse_service.
      destruct (as_str entry.1) as [service|]; [|apply push_diagnostic_ok; [done|by apply (Hdiag 2); [|left|]]].
      destruct (push_service_ok root all files scan {|
        cs_name := service; cs_image := mapping_get entry.2 "image" ≫= as_str;
        cs_environment := parse_environment (mapping_get entry.2 "environment");
        cs_depends_on := parse_depends_on (mapping_get entry.2 "depends_on") |} Hok) as [Hok' Hs].
      destruct (mapping_get entry.2 "volumes") as [volumes|]; [|done].
      destruct (as_sequence volumes) as [items|]; [by apply parse_volumes_ok|].
      apply push_diagnostic_ok; [done|]. by apply (Hdiag 3); [|left|].
    + apply push_diagnostic_ok; [done|]. by apply (Hdiag 1); [|left|].
  - apply push_diagnostic_ok; [done|]. by apply (Hdiag 0); [|right|].
Qed.

Lemma parse_files_ok root all files more scan scan' :
  (∀ file, file ∈ more → file ∈ files) → scan_ok root all files scan → parse_files more scan = inl scan' →
  scan_ok root all files scan'.
Proof.
  revert scan. induction more as [|file more IH]; intros scan Hsub Hok; cbn [parse_files]; [by intros [= <-]|].
  destruct (read_compose_file_bounded file) as [content|]; [|done]. apply IH; [set_solver|].
  apply parse_file_ok; [set_solver|done].
Qed.

(** *** Duplicate targets *)

Definition same_target (m m' : ComposeMount) : bool :=
  (cmt_service m', cmt_target m') == (cmt_service m, cmt_target m).

Lemma targets_lookup mounts m k :
  default [] (foldl (λ m mount, push_at m (cmt_service mount, cmt_target mount) (cmt_origin mount)) m mounts !! k)
  = default [] (m !! k) ++ (cmt_origin <$> filterb (λ mount, (cmt_service mount, cmt_target mount) == k) mounts).
Proof.
  revert m. induction mounts as [|mount mounts IH]; intros m; cbn [foldl filterb]; [by rewrite app_nil_r|].
  rewrite IH. unfold push_at. case_bool_decide as Ek.
  - rewrite Ek, lookup_insert_eq. cbn [default from_option id]. by rewrite <- app_assoc.
  - by rewrite lookup_insert_ne.
Qed.

Lemma elem_of_duplicates mounts d :
  d ∈ (sort_by (λ a b, pair_leb a.1 b.1) (map_to_list (targets_by_service mounts)) ≫= duplicate_target_diagnostics) ↔
  ∃ m, m ∈ mounts ∧ (1 < count_if (same_target m) mounts)%nat ∧
    d = diagnostic "compose_duplicate_target" Sev_Error
          ("Service `" +s+ cmt_service m +s+ "` declares multiple mounts for `" +s+ cmt_target m +s+ "`.") (cmt_origin m).
Proof.
  rewrite list_elem_of_bind. setoid_rewrite elem_of_sort_by.
  assert (Hl : ∀ k, default [] (targets_by_service mounts !! k)
    = cmt_origin <$> filterb (λ mount, (cmt_service mount, cmt_target mount) == k) mounts).
  { intros k. unfold targets_by_service. by rewrite targets_lookup, lookup_empty. }
  split.
  - intros ([[service target] origins] & Hd & Hin). apply elem_of_map_to_list in Hin.
    pose proof (Hl (service, target)) as Ho. rewrite Hin in Ho. cbn in Ho. subst origins.
    unfold duplicate_target_diagnostics in Hd. rewrite length_fmap, <- count_if_filterb in Hd.
    destruct (Nat.ltb_spec 1 (count_if (λ m, (cmt_service m, cmt_target m) == (service, target)) mounts)) as [Hc|];
      [|by apply elem_of_nil in Hd].
    apply list_elem_of_fmap in Hd as (o & -> & (m & -> & Hm)%list_elem_of_fmap).
    apply elem_of_filterb in Hm as [Hk%bool_decide_eq_true Hm]. injection Hk as <- <-. by exists m.
  - intros (m & Hm & Hc & ->). set (k := (cmt_service m, cmt_target m)).
    assert (Ho : cmt_origin m ∈ default [] (targets_by_service mounts !! k)).
    { rewrite Hl. apply list_elem_of_fmap. exists m. split; [done|]. apply elem_of_filterb. split; [|done].
      by apply bool_decide_eq_true. }
    destruct (targets_by_service mounts !! k) as [origins|] eqn:Ek; [|by apply elem_of_nil in Ho].
    exists (k, origins). split; [|by apply elem_of_map_to_list].
    pose proof (Hl k) as Hlen. rewrite Ek in Hlen. cbn in Hlen. subst origins.
    unfold duplicate_target_diagnostics, k. rewrite length_fmap, <- count_if_filterb.
    assert (E : (1 <? count_if (λ mount, (cmt_service mount, cmt_target mount) == (cmt_service m, cmt_target m)) mounts)%nat = true)
      by (apply Nat.ltb_lt; exact Hc).
    rewrite E. apply list_elem_of_fmap. by exists (cmt_origin m).
Qed.

(** *** The scan of a project *)

(** The ids of what the validation of a mount reports. *)
Definition MOUNT_IDS : list rstr :=
  ["compose_invalid_container_target" : rstr; "compose_unsupported_mount_type" : rstr;
   "compose_unresolved_variable" : rstr; "compose_invalid_source_path" : rstr;
   "compose_unsafe_bind_source" : rstr; "compose_bind_source_symlink" : rstr; "compose_missing_bind_source" : rstr].

(** A diagnostic of a mount, with the place of its id among these. *)
Definition mount_reported (i : nat) (m : ComposeMount) (d : ComposeDiagnostic) : Prop :=
  cd_origin d = cmt_origin m ∧ MOUNT_IDS !! i = Some (cd_id d).

Lemma elem_of_guard {A} (b : bool) (x y : A) : x ∈ (if b then [y] else []) → b = true ∧ x = y.
Proof. destruct b; [intros ->%list_elem_of_singleton; done|by intros ?%elem_of_nil]. Qed.

Lemma mount_diagnostic_ids m d : (∀ resolved, cmt_resolved_source m = Some resolved → has_parent_traversal resolved = false) →
  d ∈ mount_diagnostics m →
  (mount_reported 0 m d ∧ (trim (cmt_target m) == []) || negb (looks_like_container_path (cmt_target m)) = true) ∨
  ∃ i, mount_reported (S i) m d.
Proof.
  intros Hr. unfold mount_diagnostics. rewrite !elem_of_app. intros [Hd|[Hd|[Hd|Hd]]].
  - apply elem_of_guard in Hd as [Hb ->]. by left.
  - apply elem_of_guard in Hd as [_ ->]. right. by exists 0.
  - destruct (cmt_source m) as [source|]; [|by apply elem_of_nil in Hd]. unfold source_diagnostics in Hd.
    right. apply elem_of_app in Hd as [Hd|Hd]; apply elem_of_guard in Hd as [_ ->]; [by exists 1|by exists 2].
  - case_bool_decide; [|by apply elem_of_nil in Hd].
    destruct (cmt_resolved_source m) as [resolved|]; [|by apply elem_of_nil in Hd].
    unfold bind_diagnostics in Hd. rewrite (Hr resolved eq_refl), !elem_of_app in Hd. right.
    destruct Hd as [Hd|[Hd|Hd]]; [|by apply elem_of_nil in Hd|].
    + destruct (unsafe_bind_source_diagnostic resolved) as [[]|]; [|by apply elem_of_nil in Hd].
      apply list_elem_of_singleton in Hd as ->. by exists 3.
    + destruct (host_symlink resolved) as [[]|]; [|by apply elem_of_nil in Hd|];
        apply list_elem_of_singleton in Hd as ->; [by exists 4|by exists 5].
Qed.

Lemma invalid_target_reported m : (trim (cmt_target m) == []) || negb (looks_like_container_path (cmt_target m)) = true →
  ∃ d, d ∈ mount_diagnostics m ∧ mount_reported 0 m d.
Proof. intros E. unfold mount_diagnostics. rewrite E. eexists. split; [apply elem_of_app; left; by left|done]. Qed.

(** The target of a mount is absolute inside the container. *)
Definition target_ok (m : ComposeMount) : Prop :=
  trim (cmt_target m) ≠ [] ∧ looks_like_container_path (cmt_target m) = true.

(** Where a diagnostic of a scan comes from. *)
Lemma scan_diagnostic_cases root files parsed d :
  scan_ok root files files parsed → d ∈ csc_diagnostics (validate_compose_scan (coalesce_compose_services parsed)) →
  cd_id d ∈ PARSE_IDS ∨
  (∃ m i, m ∈ csc_mounts parsed ∧ mount_reported i m d ∧ (i = 0 → ¬ target_ok m)) ∨
  (∃ m, m ∈ csc_mounts parsed ∧ (1 < count_if (same_target m) (csc_mounts parsed))%nat ∧
     cd_id d = "compose_duplicate_target" ∧ cd_origin d = cmt_origin m).
Proof.
  intros [_ _ _ Hm Hd].
  cbn [validate_compose_scan coalesce_compose_services csc_mounts csc_diagnostics].
  rewrite !elem_of_app, elem_of_duplicates, list_elem_of_bind. intros [Hin|[(m & Hin & Hmin)|(m & Hmin & Hcount & ->)]].
  - left. by destruct (Hd d Hin).
  - right. left. destruct (Hm m Hmin) as [(file & index & _ & _ & _ & Er) _].
    apply mount_diagnostic_ids in Hin as [[Hrep Hb]|[i Hrep]].
    + exists m, 0. split_and!; [done|done|]. intros _ [Ht Hl]. rewrite Hl, bool_decide_eq_false_2 in Hb; done.
    + by exists m, (S i).
    + intros resolved E. rewrite Er in E. by eapply resolve_source_normal.
  - right. right. by exists m.
Qed.

Lemma mount_reported_id i m d : mount_reported i m d → cd_id d ∈ MOUNT_IDS.
Proof. intros [_ Hi]. by eapply list_elem_of_lookup_2. Qed.

Lemma invalid_target_id i m d : mount_reported i m d → cd_id d = "compose_invalid_container_target" → i = 0.
Proof.
  intros [_ Hi] E. rewrite E in Hi. eapply (NoDup_lookup MOUNT_IDS); [decided|exact Hi|reflexivity].
Qed.

(** C26: A scan of files names its files, has services sorted by name without repetition, and only
    mounts read from an entry of one of the files, of a service it lists, with a host path
    resolved without [..]. Its diagnostics flag exactly the mounts whose target is not an
    absolute path and exactly those that share service and target with another; none ever
    reports a parent traversal. *)
Theorem compose_scan_spec root files scan :
  files ≠ [] → scan_compose_files root files = inl scan →
  csc_files scan = files ∧ csc_project_root scan = root ∧ csc_correlations scan = [] ∧
  NoDup (cs_name <$> csc_services scan) ∧
  (∀ m, m ∈ csc_mounts scan → mount_parsed files m ∧ cmt_service m ∈ cs_name <$> csc_services scan) ∧
  (∀ o, (∃ d, d ∈ csc_diagnostics scan ∧ cd_id d = "compose_invalid_container_target" ∧ cd_origin d = o) ↔
     (∃ m, m ∈ csc_mounts scan ∧ cmt_origin m = o ∧ ¬ target_ok m)) ∧
  (∀ o, (∃ d, d ∈ csc_diagnostics scan ∧ cd_id d = "compose_duplicate_target" ∧ cd_origin d = o) ↔
     (∃ m, m ∈ csc_mounts scan ∧ cmt_origin m = o ∧ (1 < count_if (same_target m) (csc_mounts scan))%nat)) ∧
  (∀ d, d ∈ csc_diagnostics scan → cd_id d ≠ "compose_parent_traversal").
Proof.
  unfold scan_compose_files. intros Hne. rewrite bool_decide_eq_false_2 by done.
  destruct (parse_files files (empty_scan root files)) as [parsed|] eqn:Ep; [|done]. intros [= <-].
  assert (Hok : scan_ok root files files parsed).
  { eapply (parse_files_ok root files files files); [done| |exact Ep].
    assert (Ef : display_path <$> files = files) by apply list_fmap_id.
    split; [exact Ef|done|done|..]; intros ? Hin; by apply elem_of_nil in Hin. }
  pose proof (λ d, scan_diagnostic_cases _ _ _ d Hok) as Hcases. destruct Hok as [Hf Hr Hc Hm _].
  destruct (coalesce_services_spec parsed) as (_ & Hnd & Hnames & _).
  split_and!; [done|done|done|done|..].
  - intros m Hin. destruct (Hm m Hin) as [Hp Hs]. split; [done|]. by apply Hnames.
  - intros o. split.
    + intros (d & Hin & Eid & <-).
      destruct (Hcases d Hin) as [Hp|[(m & i & Hmin & Hrep & Ht)|(_ & _ & _ & E & _)]]; [rewrite Eid in Hp; refute Hp| |rewrite Eid in E; refute E].
      exists m. split_and!; [done|by destruct Hrep|]. by eapply Ht, invalid_target_id.
    + intros (m & Hmin & <- & Hnt). destruct (invalid_target_reported m) as (d & Hd & Eo & Eid).
      { destruct (_ || _) eqn:E; [done|]. exfalso. apply Hnt. by bool_unfold. }
      exists d. split_and!; [|by injection Eid|done].
      cbn [validate_compose_scan coalesce_compose_services csc_mounts csc_diagnostics].
      rewrite !elem_of_app. right. left. apply list_elem_of_bind. by exists m.
  - intros o. split.
    + intros (d & Hin & Eid & <-).
      destruct (Hcases d Hin) as [Hp|[(m & i & _ & Hrep & _)|(m & Hmin & Hcount & _ & Eo)]]; [rewrite Eid in Hp; refute Hp| |by exists m].
      apply mount_reported_id in Hrep. rewrite Eid in Hrep. refute Hrep.
    + intros (m & Hmin & <- & Hcount). eexists.
      cbn [validate_compose_scan coalesce_compose_services csc_mounts csc_diagnostics].
      rewrite !elem_of_app, elem_of_duplicates.
      split; [right; right; exists m; split_and!; [done|done|reflexivity]|done].
  - intros d Hin Eid. destruct (Hcases d Hin) as [Hp|[(m & i & _ & Hrep & _)|(_ & _ & _ & E & _)]].
    + rewrite Eid in Hp. refute Hp.
    + apply mount_reported_id in Hrep. rewrite Eid in Hrep. refute Hrep.
    + rewrite Eid in E. refute E.
Qed.
End scans.

(** ** Examples *)

(** A value type for examples. *)
Inductive ToyValue := Toy_str (s : rstr) | Toy_seq (l : list ToyValue) | Toy_map (l : list (ToyValue * ToyValue)).

Definition toy_str (v : ToyValue) : option rstr := match v with Toy_str s => Some s | _ => None end.
Definition toy_map (v : ToyValue) : option (list (ToyValue * ToyValue)) := match v with Toy_map l => Some l | _ => None end.

Definition toy_document : ToyValue :=
  Toy_map [(Toy_str "name", Toy_str " shop ");
    (Toy_str "services", Toy_map [(Toy_str "db",
      Toy_map [(Toy_str "volumes", Toy_seq [Toy_str "./data/../pg:/data:ro"; Toy_str "/data"; Toy_str "cache:srv"])])])].

Definition toy_yaml : Yaml := {|
  Value := ToyValue;
  yaml_from_str := λ _, inl toy_document;
  value_view := λ v, match v with
    | Toy_str s => View_String s | Toy_seq l => View_Sequence l | Toy_map l => View_Mapping l end;
  as_str := toy_str;
  as_bool := λ _, None;
  as_sequence := λ v, match v with Toy_seq l => Some l | _ => None end;
  as_mapping := toy_map;
  mapping_lookup := λ entries key, snd <$> find (λ e, match toy_str e.1 with Some k => k == key | None => false end) entries
|}.

Definition toy_host : Host := {|
  host_read := λ _, inl [110; 97; 109; 101]%N; host_is_file := λ _, true; host_symlink := λ _, Some false;
  host_home := Some ("/home/me" : rstr) |}.

Definition toy_opened (file : rstr) : option OpenedFile :=
  Some {| of_is_file := Some true; of_canonical := Some file; of_content := Some [110; 97; 109; 101]%N |}.

#[local] Existing Instance toy_yaml.
#[local] Existing Instance toy_host.
#[local] Existing Instance Toy_sha256.

Definition toy_files : list rstr := ["/srv/compose.yml" : rstr].

Lemma compose_scan_spec_witness :
  ∃ scan d, scan_compose_files "/srv" toy_files = inl scan ∧ d ∈ csc_diagnostics scan ∧
    cd_id d = "compose_invalid_container_target" ∧
    ∃ m, m ∈ csc_mounts scan ∧ cmt_origin m = cd_origin d ∧ cmt_target m = "srv".
Proof.
  assert (E : ∃ scan, scan_compose_files "/srv" toy_files = inl scan) by (eexists; vm_compute; reflexivity).
  destruct E as [scan E].
  destruct (compose_scan_spec "/srv" toy_files scan ltac:(done) E) as (_ & _ & _ & _ & _ & Htarget & _).
  assert (Hm : existsb (λ m, negb (looks_like_container_path (cmt_target m)) && (cmt_target m == ("srv" : rstr))) (csc_mounts scan) = true).
  { vm_compute in E. injection E as <-. vm_compute. reflexivity. }
  apply existsb_bool_decide in Hm as (m & Hm & [Hl%negb_true_iff Ht%bool_decide_eq_true]%andb_prop).
  destruct (proj2 (Htarget (cmt_origin m))) as (d & Hd & Eid & Eo).
  { exists m. split_and!; [done|done|]. intros [_ Hok]. congruence. }
  exists scan, d. split_and!; [done|done|done|]. by exists m.
Defined.

Lemma binding_snapshot_coherent_witness :
  ∃ scan fingerprint (documents : list (rstr * rstr * Value)),
    scan_compose_binding_snapshot toy_opened toy_opened "/srv" toy_files = Some (scan, ("shop" : rstr), fingerprint) ∧
    documents.*1.*1 = toy_files ∧
    ∀ file text value, (file, text, value) ∈ documents → read_under toy_opened "/srv" file text.
Proof.
  assert (E : ∃ scan fingerprint, scan_compose_binding_snapshot toy_opened toy_opened "/srv" toy_files
    = Some (scan, ("shop" : rstr), fingerprint)) by (eexists _, _; vm_compute; reflexivity).
  destruct E as (scan & fingerprint & E). exists scan, fingerprint.
  destruct (binding_snapshot_coherent _ _ _ _ _ _ _ E) as (documents & Hfiles & Hread & _).
  exists documents. split; [exact E|]. split; [exact Hfiles|].
  intros file text value Hin. exact (proj1 (Hread file text value Hin)).
Defined.
