(* ===== verification/ComposePlan.v ===== *)
(** * Compose scans against the runtime: correlation, graph, edit plans
      ([crates/dockermap-core/src/compose.rs]) *)

From S2P Require Import Prelude RustStr RustNum Models Identity Utf8 Paths RuntimeTopology Compose.

(** ** Correlating declared and runtime mounts *)

Definition container_matches_service (container : ContainerRecord) (service : rstr) : bool :=
  (c_role container == service) || (c_name container == service)
  || ends_with (c_name container) ("_" +s+ service +s+ "_1")
  || ends_with (c_name container) ("-" +s+ service +s+ "-1").

Definition declared_mount_source (mount : ComposeMount) : option rstr :=
  match cmt_kind mount with
  | Bind => or_else (cmt_resolved_source mount) (cmt_source mount)
  | NamedVolume => cmt_source mount
  | AnonymousVolume | Unsupported => cmt_source mount
  end.

Definition mounts_match (compose_mount : ComposeMount) (runtime_mount : ContainerMount) : bool :=
  (cmt_kind compose_mount == cm_kind runtime_mount) && (cmt_target compose_mount == cm_target runtime_mount)
  && match cmt_kind compose_mount with
     | Bind | NamedVolume => declared_mount_source compose_mount == cm_source runtime_mount
     | AnonymousVolume => true
     | Unsupported => false
     end.

(** [Iterator::find_map]. *)
Fixpoint find_map {A B} (f : A → option B) (l : list A) : option B :=
  match l with [] => None | x :: l => match f x with Some y => Some y | None => find_map f l end end.

Definition service_containers (snapshot : DockerSnapshot) (service : rstr) : list ContainerRecord :=
  filterb (λ container, container_matches_service container service) (s_containers snapshot).

Definition match_result (containers : list ContainerRecord) (mount : ComposeMount)
    : option (ContainerRecord * ContainerMount) :=
  find_map (λ container, (λ runtime_mount, (container, runtime_mount)) <$>
              find (λ runtime_mount, mounts_match mount runtime_mount) (c_mounts container)) containers.

(** The correlation of a declared mount, and the runtime mount it takes. *)
Definition correlate_mount (snapshot : DockerSnapshot) (mount : ComposeMount) : MountCorrelation * option rstr :=
  let containers := service_containers snapshot (cmt_service mount) in
  match match_result containers mount with
  | Some (container, runtime_mount) =>
      ({| mc_id := "matched:" +s+ cmt_id mount; mc_service := cmt_service mount;
          mc_container := Some (c_name container); mc_compose_mount_id := Some (cmt_id mount);
          mc_kind := cmt_kind mount; mc_target := cmt_target mount;
          mc_declared_source := declared_mount_source mount; mc_runtime_source := cm_source runtime_mount;
          mc_status := MC_Matched |}, Some (cm_id runtime_mount))
  | None =>
      ({| mc_id := "missing:" +s+ cmt_id mount; mc_service := cmt_service mount;
          mc_container := c_name <$> head containers; mc_compose_mount_id := Some (cmt_id mount);
          mc_kind := cmt_kind mount; mc_target := cmt_target mount;
          mc_declared_source := declared_mount_source mount; mc_runtime_source := None;
          mc_status := MC_Missing |}, None)
  end.

Definition extra_correlation (service : ComposeService) (container : ContainerRecord) (runtime_mount : ContainerMount)
    : MountCorrelation := {|
  mc_id := "extra:" +s+ c_id container +s+ ":" +s+ cm_id runtime_mount; mc_service := cs_name service;
  mc_container := Some (c_name container); mc_compose_mount_id := None; mc_kind := cm_kind runtime_mount;
  mc_target := cm_target runtime_mount; mc_declared_source := None; mc_runtime_source := cm_source runtime_mount;
  mc_status := MC_Extra |}.

(** The second pass, given the ids of the matched runtime mounts. *)
Definition extra_correlations (scan : ComposeScan) (snapshot : DockerSnapshot) (matched : list rstr)
    : list MountCorrelation :=
  csc_services scan ≫= λ service,
    service_containers snapshot (cs_name service) ≫= λ container,
      extra_correlation service container <$> filterb (λ m, negb (one_of (cm_id m) matched)) (c_mounts container).

Definition correlate_compose_runtime (scan : ComposeScan) (snapshot : DockerSnapshot) : list MountCorrelation :=
  let declared := correlate_mount snapshot <$> csc_mounts scan in
  sort_by (λ left right, str_leb (mc_id left) (mc_id right))
    (declared.*1 ++ extra_correlations scan snapshot (omap id declared.*2)).

(** ** The Compose graph *)

Section graph.
Context `{Sha256}.

Definition compose_service_node_id (service : rstr) : rstr :=
  "compose_service_" +s+ collision_resistant_id_component service.

(** [entry(id).or_insert(node)]. *)
Definition or_insert (nodes : gmap rstr ComposeGraphNode) (node : ComposeGraphNode) : gmap rstr ComposeGraphNode :=
  match nodes !! cgn_id node with Some _ => nodes | None => <[cgn_id node := node]> nodes end.

Definition service_node (name : rstr) : ComposeGraphNode := {|
  cgn_id := compose_service_node_id name; cgn_kind := CN_Service; cgn_label := name |}.

Definition target_node (mount : ComposeMount) : ComposeGraphNode := {|
  cgn_id := "compose_container_path_" +s+ collision_resistant_id_component (cmt_service mount) +s+ "_"
            +s+ collision_resistant_id_component (cmt_target mount);
  cgn_kind := CN_ContainerPath; cgn_label := cmt_service mount +s+ ":" +s+ cmt_target mount |}.

Definition source_node (mount : ComposeMount) : option ComposeGraphNode :=
  match cmt_kind mount with
  | Bind => (λ source, {| cgn_id := "compose_host_path_" +s+ collision_resistant_id_component source;
                          cgn_kind := CN_HostPath; cgn_label := source |})
            <$> or_else (cmt_resolved_source mount) (cmt_source mount)
  | NamedVolume => (λ source, {| cgn_id := "compose_named_volume_" +s+ collision_resistant_id_component source;
                                 cgn_kind := CN_NamedVolume; cgn_label := source |}) <$> cmt_source mount
  | AnonymousVolume => Some {| cgn_id := "compose_anonymous_volume_" +s+ collision_resistant_id_component (cmt_id mount);
                               cgn_kind := CN_AnonymousVolume; cgn_label := "anonymous volume" |}
  | Unsupported => None
  end.

Definition compose_edge (source target : rstr) (relationship : ComposeRelationshipKind) : ComposeGraphEdge := {|
  cge_source := source; cge_target := target; cge_relationship := relationship |}.

(** The nodes and the edges of one mount, in the order they are added. *)
Definition mount_nodes (mount : ComposeMount) : list ComposeGraphNode :=
  [service_node (cmt_service mount); target_node mount] ++ option_list (source_node mount).

Definition mount_edges (mount : ComposeMount) : list ComposeGraphEdge :=
  compose_edge (compose_service_node_id (cmt_service mount)) (cgn_id (target_node mount)) DeclaresMount
  :: match source_node mount with
     | Some node => [compose_edge (cgn_id node) (cgn_id (target_node mount)) MountedAt]
     | None => []
     end.

Definition derive_compose_graph (scan : ComposeScan) : ComposeGraph :=
  let nodes := foldl or_insert ∅ ((service_node ∘ cs_name) <$> csc_services scan) in
  let nodes := foldl or_insert nodes (csc_mounts scan ≫= mount_nodes) in
  {| cg_nodes := btree_values nodes; cg_edges := csc_mounts scan ≫= mount_edges |}.
End graph.

(** ** Edit plans *)

Definition LF : N := 10.

(** [str::replacen] with a count of one. *)
Definition replace_first (old new line : rstr) : rstr :=
  match find_str old line with Some (before, after) => before ++ new ++ after | None => line end.

(** The loop over the lines, with the one to replace in. *)
Definition rewritten_lines (lines : list rstr) (index : nat) (old new : rstr) : list rstr :=
  imap (λ i line, if (i =? index)%nat then replace_first old new line else line) lines.

Definition replace_mount_line_token (content : rstr) (mount : ComposeMount) (old new : rstr)
    (diagnostic_id diagnostic_message : rstr) (diagnostics : list ComposeDiagnostic)
    : rstr * list ComposeDiagnostic :=
  let lines := lines content in
  let candidates := (filterb (λ il, contains il.2 old && contains il.2 (cmt_target mount)) (imap pair lines)).*1 in
  match candidates with
  | [index] =>
      (join [LF] (rewritten_lines lines index old new) ++ (if ends_with content [LF] then [LF] else []), diagnostics)
  | _ => (content, diagnostics ++ [diagnostic diagnostic_id Sev_Blocked diagnostic_message (cmt_origin mount)])
  end.

Definition edit_plan (file : rstr) (mount : ComposeMount) (new_source new_target : option rstr)
    (unified_diff : rstr) (diagnostics : list ComposeDiagnostic) : ComposeEditPlan := {|
  cep_file := display_path file; cep_service := cmt_service mount; cep_mount_id := cmt_id mount;
  cep_original_source := cmt_source mount; cep_original_target := cmt_target mount;
  cep_new_source := new_source; cep_new_target := new_target; cep_unified_diff := unified_diff;
  cep_diagnostics := diagnostics; cep_will_write := false |}.

(** The lines of a diff, at the same index of both texts. *)
Fixpoint diff_lines (original planned : list rstr) : list rstr :=
  match original with
  | before :: original =>
      match planned with
      | after :: planned =>
          (if before == after then [32%N :: before] else [45%N :: before; 43%N :: after]) ++ diff_lines original planned
      | [] => (45%N :: before) :: diff_lines original []
      end
  | [] => (λ after, 43%N :: after) <$> planned
  end.

Definition unified_diff (file original planned : rstr) : rstr :=
  ("--- " +s+ file +s+ [LF] +s+ "+++ " +s+ file +s+ " (dry-run)" +s+ [LF])
  ++ (diff_lines (lines original) (lines planned) ≫= λ line, line ++ [LF]).

(** [new.map(str::trim).filter(|value| !value.is_empty())]. *)
Definition clean (value : option rstr) : option rstr :=
  value ← value; let value := trim value in if value == [] then None else Some value.

Definition is_blocked (d : ComposeDiagnostic) : bool := cd_severity d == Sev_Blocked.

(** The diagnostics before the texts are touched. *)
Definition edit_checks (mount : ComposeMount) (clean_source clean_target : option rstr) : list ComposeDiagnostic :=
  let o := cmt_origin mount in
  (if is_none clean_source && is_none clean_target
   then [diagnostic "edit_noop" Sev_Error "Edit plan requires a new source, target, or both." o] else [])
  ++ (if is_some clean_source && (cmt_kind mount != Bind)
      then [diagnostic "edit_source_requires_bind" Sev_Blocked
              "Only bind mount sources can be changed by this dry-run planner." o] else [])
  ++ (match clean_target with
      | Some target =>
          if contains_char target NUL || negb (looks_like_container_path target)
          then [diagnostic "edit_invalid_target" Sev_Blocked "New mount target must be an absolute container path." o]
          else []
      | None => []
      end)
  ++ (match clean_source with
      | Some source =>
          if contains_char source NUL
          then [diagnostic "edit_invalid_source" Sev_Blocked "New mount source contains a NUL byte." o] else []
      | None => []
      end).

(** The edit of the source. *)
Definition edit_source (mount : ComposeMount) (source : rstr) (planned : rstr) (diagnostics : list ComposeDiagnostic)
    : rstr * list ComposeDiagnostic :=
  let diagnostics := diagnostics ++
    (if has_parent_traversal source
     then [diagnostic "edit_source_parent_traversal" Sev_Blocked
             "New mount source must not contain parent traversal." (cmt_origin mount)] else []) in
  match cmt_source mount with
  | Some original =>
      replace_mount_line_token planned mount original source "edit_original_source_not_found"
        "Original mount source could not be uniquely found on the mount declaration line." diagnostics
  | None =>
      (planned, diagnostics ++ [diagnostic "edit_missing_original_source" Sev_Blocked
                                  "Mount has no original source to replace." (cmt_origin mount)])
  end.

Definition edit_target (mount : ComposeMount) (target : rstr) (planned : rstr) (diagnostics : list ComposeDiagnostic)
    : rstr * list ComposeDiagnostic :=
  replace_mount_line_token planned mount (cmt_target mount) target "edit_original_target_not_found"
    "Original mount target could not be uniquely found on the mount declaration line." diagnostics.

Definition plan_compose_mount_edit (file content : rstr) (mount : ComposeMount) (new_source new_target : option rstr)
    : ComposeEditPlan :=
  let clean_source := clean new_source in
  let clean_target := clean new_target in
  let diagnostics := edit_checks mount clean_source clean_target in
  if existsb is_blocked diagnostics then edit_plan file mount clean_source clean_target [] diagnostics
  else
    let '(planned, diagnostics) :=
      match clean_source with
      | Some source => edit_source mount source content diagnostics
      | None => (content, diagnostics)
      end in
    let '(planned, diagnostics) :=
      match clean_target with
      | Some target => edit_target mount target planned diagnostics
      | None => (planned, diagnostics)
      end in
    let diff := if existsb is_blocked diagnostics || (planned == content) then []
                else unified_diff (display_path file) content planned in
    edit_plan file mount clean_source clean_target diff diagnostics.

(** ** The diff determines both texts *)

(** The lines of one side of a diff: those with its marker and the common ones. *)
Definition side (marker : N) (diff : list rstr) : list rstr :=
  omap (λ line, match line with
                | c :: text => if (c =? 32)%N || (c =? marker)%N then Some text else None
                | [] => None
                end) diff.

Definition MINUS : N := 45.
Definition PLUS : N := 43.

(** The lines of a diff after its two file lines. *)
Definition diff_body (diff : rstr) : list rstr := drop 2 (removelast (split_char LF diff)).

Lemma diff_sides original planned :
  side MINUS (diff_lines original planned) = original ∧ side PLUS (diff_lines original planned) = planned.
Proof.
  revert planned. induction original as [|before original IH]; intros planned; cbn [diff_lines].
  - unfold side. split; induction planned as [|after planned IHp]; try done; cbn; by f_equal.
  - destruct planned as [|after planned].
    + destruct (IH []) as [H1' H2']. unfold side in *. cbn. rewrite H1', H2'. done.
    + destruct (IH planned) as [H1' H2']. unfold side in *. case_bool_decide; cbn; rewrite H1', H2'; [by subst|done].
Qed.

Lemma lines_no_lf s line : line ∈ lines s → LF ∉ line.
Proof.
  unfold lines. rewrite elem_of_app, list_elem_of_fmap. intros [(p & -> & Hp)|Hl].
  - assert (Hs : LF ∉ p).
    { apply (split_char_notin 10 s). destruct (split_char 10 s) as [|x l _] using rev_ind; [by apply elem_of_nil in Hp|].
      rewrite removelast_last in Hp. apply elem_of_app. by left. }
    unfold strip_cr. destruct (strip_suffix [13%N] p) as [q|] eqn:E; [|done]. apply strip_suffix_Some in E as ->.
    cbn. set_solver.
  - case_bool_decide; [by apply elem_of_nil in Hl|]. apply list_elem_of_singleton in Hl as ->.
    destruct (last (split_char 10 s)) as [p|] eqn:E; [|done]. cbn. apply (split_char_notin 10 s). by eapply last_Some_elem_of.
Qed.

Lemma diff_lines_members original planned line : line ∈ diff_lines original planned →
  ∃ c text, line = c :: text ∧ c ≠ LF ∧ (text ∈ original ∨ text ∈ planned).
Proof.
  revert planned. induction original as [|before original IH]; intros planned; cbn [diff_lines].
  - intros (text & -> & Hin)%list_elem_of_fmap. exists 43%N, text. split_and!; [done|done|by right].
  - destruct planned as [|after planned].
    + intros [->|(c & text & -> & Hc & [Hin|Hin])%IH]%elem_of_cons.
      * exists 45%N, before. split_and!; [done|done|]. left. by left.
      * exists c, text. split_and!; [done|done|]. left. by right.
      * by apply elem_of_nil in Hin.
    + rewrite elem_of_app. intros [Hin|(c & text & -> & Hc & [Hin|Hin])%IH].
      * case_bool_decide; [apply list_elem_of_singleton in Hin as ->|apply elem_of_cons in Hin as [->|Hin]].
        -- exists 32%N, before. split_and!; [done|done|]. left. by left.
        -- exists 45%N, before. split_and!; [done|done|]. left. by left.
        -- apply list_elem_of_singleton in Hin as ->. exists 43%N, after. split_and!; [done|done|]. right. by left.
      * exists c, text. split_and!; [done|done|]. left. by right.
      * exists c, text. split_and!; [done|done|]. right. by right.
Qed.

Lemma split_lf_lines (ls : list rstr) : Forall (λ l, LF ∉ l) ls → split_char LF (ls ≫= λ l, l ++ [LF]) = ls ++ [[]].
Proof.
  induction 1 as [|l ls Hl Hls IH]; [done|]. cbn [mbind list_bind app]. rewrite <- app_assoc.
  cbn [app]. by rewrite split_char_app, IH.
Qed.

(** The dry-run diff of a plan determines both texts: the lines of its two sides are the lines of
    the original and those of the planned text. *)
Theorem unified_diff_roundtrip file original planned : LF ∉ file →
  side MINUS (diff_body (unified_diff file original planned)) = lines original ∧
  side PLUS (diff_body (unified_diff file original planned)) = lines planned.
Proof.
  intros Hf.
  set (body := diff_lines (lines original) (lines planned)).
  assert (E : unified_diff file original planned
    = (("--- " +s+ file) :: ("+++ " +s+ file +s+ " (dry-run)") :: body) ≫= λ line, line ++ [LF]).
  { unfold unified_diff, rapp. cbn [mbind list_bind]. fold body. by rewrite <- !app_assoc. }
  assert (Hlf : Forall (λ l, LF ∉ l) (("--- " +s+ file) :: ("+++ " +s+ file +s+ " (dry-run)") :: body)).
  { unfold rapp. apply Forall_cons. split; [rewrite not_elem_of_app; split; [decided|done]|].
    apply Forall_cons. split; [rewrite !not_elem_of_app; split_and!; [decided|done|decided]|].
    apply Forall_forall. intros l (c & text & -> & Hc & Hin)%diff_lines_members.
    apply not_elem_of_cons. split; [done|]. by destruct Hin; eapply lines_no_lf. }
  unfold diff_body. rewrite E, split_lf_lines, removelast_last by done. apply diff_sides.
Qed.

(** ** Edit plans *)

(** An edit of one line: the only one with the old text and the target of the mount; the first
    occurrence of the old text in it is replaced. *)
Definition line_edited (mount : ComposeMount) (old new before after : rstr) : Prop :=
  ∃ index head tail,
    (∀ i line, lines before !! i = Some line → contains line old = true → contains line (cmt_target mount) = true → i = index) ∧
    lines before !! index = Some (head ++ old ++ tail) ∧ (∀ h t, head ++ old ++ tail = h ++ old ++ t → (length head ≤ length h)%nat) ∧
    after = join [LF] (<[index := head ++ new ++ tail]> (lines before)) ++ (if ends_with before [LF] then [LF] else []).

Lemma find_str_Some pattern s a b : find_str pattern s = Some (a, b) →
  s = a ++ pattern ++ b ∧ ∀ h t, s = h ++ pattern ++ t → (length a ≤ length h)%nat.
Proof.
  revert a b. induction s as [|c s IH]; intros a b; cbn [find_str];
    destruct (strip_prefix pattern _) as [rest|] eqn:E.
  - intros [= <- <-]. apply strip_prefix_Some in E. split; [done|]. intros. simpl. lia.
  - done.
  - intros [= <- <-]. apply strip_prefix_Some in E. split; [done|]. intros. simpl. lia.
  - destruct (find_str pattern s) as [[a' b']|]; [|done]. intros [= <- <-].
    destruct (IH a' b' eq_refl) as [-> Hmin]. split; [done|]. intros h t Eh. destruct h as [|x h].
    + cbn [app] in Eh. assert (strip_prefix pattern (c :: a' ++ pattern ++ b') = Some t) by (by apply strip_prefix_Some).
      congruence.
    + injection Eh as _ Eh. apply Hmin in Eh. simpl. lia.
Qed.

Lemma find_str_None pattern s : find_str pattern s = None → contains s pattern = false.
Proof.
  induction s as [|c s IH]; intros Hf; cbn [find_str] in Hf.
  - change (starts_with [] pattern || false = false). rewrite orb_false_r. unfold starts_with.
    by destruct (strip_prefix pattern []).
  - change (starts_with (c :: s) pattern || contains s pattern = false). unfold starts_with.
    destruct (strip_prefix pattern (c :: s)); [done|]. apply IH. by destruct (find_str pattern s) as [[]|].
Qed.

Lemma candidates_spec (f : rstr → bool) ls i :
  i ∈ (filterb (λ il : nat * rstr, f il.2) (imap pair ls)).*1 ↔ ∃ line, ls !! i = Some line ∧ f line = true.
Proof.
  rewrite list_elem_of_fmap. split.
  - intros ([j line] & -> & [Hf Hin]%elem_of_filterb). apply elem_of_lookup_imap in Hin as (k & x & [= <- <-] & Hk). eauto.
  - intros (line & Hl & Hf). exists (i, line). split; [done|]. apply elem_of_filterb. split; [done|].
    apply elem_of_lookup_imap. eauto.
Qed.

Lemma replace_spec content mount old new id message ds planned ds' :
  replace_mount_line_token content mount old new id message ds = (planned, ds') →
  (planned = content ∧ ds' = ds ++ [diagnostic id Sev_Blocked message (cmt_origin mount)]) ∨
  (line_edited mount old new content planned ∧ ds' = ds).
Proof.
  unfold replace_mount_line_token.
  pose proof (candidates_spec (λ line, contains line old && contains line (cmt_target mount)) (lines content)) as Hc.
  cbn beta in Hc.
  destruct (filterb _ _).*1 as [|index [|]]; [intros [= <- <-]; by left| |intros [= <- <-]; by left].
  intros [= <- <-]. right. split; [|done].
  destruct (proj1 (Hc index) ltac:(left)) as (line & Hl & [Ho Ht]%andb_prop).
  destruct (find_str old line) as [[head tail]|] eqn:Ef; [|apply find_str_None in Ef; congruence].
  pose proof Ef as Ef'. apply find_str_Some in Ef as [-> Hmin]. exists index, head, tail. split_and!; [|done|done|].
  - intros i l Hi Hio Hit. assert (Hin : i ∈ [index]) by (apply Hc; exists l; by rewrite Hio, Hit).
    by apply list_elem_of_singleton in Hin.
  - f_equal. f_equal. unfold rewritten_lines. apply list_eq. intros i. rewrite list_lookup_imap.
    destruct (decide (i = index)) as [->|Hne].
    + rewrite Hl, list_lookup_insert_eq by (by eapply lookup_lt_Some). cbn. rewrite Nat.eqb_refl. f_equal.
      unfold replace_first. by rewrite Ef'.
    + rewrite list_lookup_insert_ne by done. destruct (lines content !! i); cbn; [|done].
      destruct (Nat.eqb_spec i index); [done|done].
Qed.

(** What an unblocked plan has checked. *)
Definition edit_allowed (mount : ComposeMount) (clean_source clean_target : option rstr) : Prop :=
  (∀ s, clean_source = Some s → cmt_kind mount = Bind ∧ NUL ∉ s ∧ has_parent_traversal s = false) ∧
  (∀ t, clean_target = Some t → looks_like_container_path t = true ∧ NUL ∉ t).

(** The planned text: at most one line is edited for the source, then one for the target. *)
Definition edits (mount : ComposeMount) (clean_source clean_target : option rstr) (content planned : rstr) : Prop :=
  ∃ mid,
    match clean_source with
    | Some s => ∃ original, cmt_source mount = Some original ∧ line_edited mount original s content mid
    | None => mid = content
    end ∧
    match clean_target with
    | Some t => line_edited mount (cmt_target mount) t mid planned
    | None => planned = mid
    end.

Lemma is_blocked_app ds ds' : existsb is_blocked (ds ++ ds') = existsb is_blocked ds || existsb is_blocked ds'.
Proof. apply existsb_app. Qed.

Lemma blocked_guard (b : bool) id message o :
  existsb is_blocked (if b then [diagnostic id Sev_Blocked message o] else []) = b.
Proof. by destruct b. Qed.

Lemma edit_checks_unblocked mount cs ct : existsb is_blocked (edit_checks mount cs ct) = false →
  (∀ s, cs = Some s → cmt_kind mount = Bind ∧ NUL ∉ s) ∧
  (∀ t, ct = Some t → looks_like_container_path t = true ∧ NUL ∉ t).
Proof.
  unfold edit_checks. rewrite !is_blocked_app, blocked_guard, !orb_false_iff. intros (_ & Hkind & Ht & Hs). split.
  - intros s ->. rewrite blocked_guard in Hs. apply andb_false_iff in Hkind as [?|Hkind]; [done|].
    split; [by bool_unfold|]. by apply bool_decide_eq_false in Hs.
  - intros t ->. rewrite blocked_guard in Ht. apply orb_false_iff in Ht as [Hn Hl%negb_false_iff].
    split; [done|]. by apply bool_decide_eq_false in Hn.
Qed.

(** Each edit either blocks the plan or edits one line. *)
Lemma edit_source_spec mount source planned ds planned' ds' :
  edit_source mount source planned ds = (planned', ds') →
  existsb is_blocked ds' = true ∨
  (has_parent_traversal source = false ∧ ds' = ds ∧
   ∃ original, cmt_source mount = Some original ∧ line_edited mount original source planned planned').
Proof.
  unfold edit_source. destruct (cmt_source mount) as [original|].
  - intros [[_ ->]|[He ->]]%replace_spec.
    + left. rewrite !is_blocked_app. by rewrite orb_true_r.
    + destruct (has_parent_traversal source); [left; by rewrite is_blocked_app, orb_true_r|].
      right. rewrite app_nil_r. split_and!; [done|done|]. by exists original.
  - intros [= <- <-]. left. rewrite !is_blocked_app. by rewrite orb_true_r.
Qed.

Lemma edit_target_spec mount target planned ds planned' ds' :
  edit_target mount target planned ds = (planned', ds') →
  existsb is_blocked ds' = true ∨ (ds' = ds ∧ line_edited mount (cmt_target mount) target planned planned').
Proof.
  unfold edit_target. intros [[_ ->]|[He ->]]%replace_spec; [|by right]. left. by rewrite is_blocked_app, orb_true_r.
Qed.

(** C27: An edit plan never writes. It has a diff only when nothing blocks it: then the new source is
    for a bind mount and the new target is an absolute container path, neither has a NUL or
    climbs with [..], and the diff is that of a changed text in which one line, the only one
    with the old text and the target of the mount, has the new text in place of the first
    occurrence of the old one, for the source and then for the target. *)
Theorem edit_plan_spec file content mount new_source new_target :
  let p := plan_compose_mount_edit file content mount new_source new_target in
  cep_will_write p = false ∧ cep_file p = file ∧ cep_mount_id p = cmt_id mount ∧
  cep_new_source p = clean new_source ∧ cep_new_target p = clean new_target ∧
  (existsb is_blocked (cep_diagnostics p) = true → cep_unified_diff p = []) ∧
  (cep_unified_diff p ≠ [] →
   edit_allowed mount (clean new_source) (clean new_target) ∧
   ∃ planned, planned ≠ content ∧ cep_unified_diff p = unified_diff file content planned ∧
     edits mount (clean new_source) (clean new_target) content planned).
Proof.
  intros p. unfold p, plan_compose_mount_edit. set (cs := clean new_source). set (ct := clean new_target).
  destruct (existsb is_blocked (edit_checks mount cs ct)) eqn:Eb; [by split_and!|].
  destruct (edit_checks_unblocked _ _ _ Eb) as [Hs Ht].
  destruct (match cs with Some _ => _ | None => _ end) as [mid ds1] eqn:E1.
  destruct (match ct with Some _ => _ | None => _ end) as [planned ds2] eqn:E2.
  cbn [edit_plan cep_will_write cep_file cep_mount_id cep_new_source cep_new_target cep_diagnostics cep_unified_diff].
  split_and!; try done; [by intros ->|].
  destruct (existsb is_blocked ds2) eqn:Eb2; [done|]. cbn [orb]. case_bool_decide as Ep; [done|]. intros _.
  assert (Htarget : existsb is_blocked ds1 = false ∧
    match ct with Some t => line_edited mount (cmt_target mount) t mid planned | None => planned = mid end).
  { destruct ct as [t|]; [|by injection E2 as <- <-].
    apply edit_target_spec in E2 as [E2|[-> E2]]; [congruence|done]. }
  destruct Htarget as [Eb1 Htarget].
  assert (Hsource : ∀ s, cs = Some s → has_parent_traversal s = false ∧
    ∃ original, cmt_source mount = Some original ∧ line_edited mount original s content mid).
  { intros s Es. rewrite Es in E1. apply edit_source_spec in E1 as [E1|(Hp & _ & E1)]; [congruence|done]. }
  split.
  - split; [|done]. intros s Es. destruct (Hs s Es), (Hsource s Es). done.
  - exists planned. split_and!; [done|done|]. exists mid. split; [|done].
    destruct cs as [s|]; [by apply Hsource|by injection E1 as <- _].
Qed.

(** The text of a target also inside the source of the mount: the source is what changes. *)
Lemma target_edit_rewrites_source :
  let mount := {| cmt_id := "m"; cmt_service := "db"; cmt_kind := Bind; cmt_source := Some ("/data/x" : rstr);
    cmt_resolved_source := Some ("/data/x" : rstr); cmt_target := "/data"; cmt_read_only := false;
    cmt_origin := origin "compose.yml" (Some ("db" : rstr)) "services.db.volumes[0]" |} in
  let p := plan_compose_mount_edit "compose.yml" "      - /data/x:/data" mount None (Some ("/srv" : rstr)) in
  existsb is_blocked (cep_diagnostics p) = false ∧
  side PLUS (diff_body (cep_unified_diff p)) = ["      - /srv/x:/data" : rstr].
Proof. by vm_compute. Qed.

(** ** Correlations *)

Lemma find_map_Some {A B} (f : A → option B) l y : find_map f l = Some y → ∃ x, x ∈ l ∧ f x = Some y.
Proof.
  induction l as [|x l IH]; cbn [find_map]; [done|]. destruct (f x) as [z|] eqn:E.
  - intros [= <-]. exists x. split; [by left|done].
  - intros (x' & Hin & Hf)%IH. exists x'. split; [by right|done].
Qed.

Lemma find_map_None {A B} (f : A → option B) l : find_map f l = None → ∀ x, x ∈ l → f x = None.
Proof.
  induction l as [|x l IH]; cbn [find_map]; [by intros _ x ?%elem_of_nil|]. destruct (f x) as [z|] eqn:E; [done|].
  intros Hl y [->|Hin]%elem_of_cons; [done|by apply IH].
Qed.

(** A runtime mount of a container of the service that is the declared one. *)
Definition observed_mount (snapshot : DockerSnapshot) (mount : ComposeMount) (container : ContainerRecord)
    (runtime_mount : ContainerMount) : Prop :=
  container ∈ s_containers snapshot ∧ container_matches_service container (cmt_service mount) = true ∧
  runtime_mount ∈ c_mounts container ∧ mounts_match mount runtime_mount = true.

Lemma match_result_Some snapshot mount container runtime_mount :
  match_result (service_containers snapshot (cmt_service mount)) mount = Some (container, runtime_mount) →
  observed_mount snapshot mount container runtime_mount.
Proof.
  unfold match_result. intros (c & Hin & Hf)%find_map_Some.
  destruct (find _ (c_mounts c)) as [rm|] eqn:E; [|done]. injection Hf as -> ->.
  apply find_Some in E as [Hrm Hm]. apply elem_of_filterb in Hin as [Hc Hin]. done.
Qed.

Lemma match_result_None snapshot mount :
  match_result (service_containers snapshot (cmt_service mount)) mount = None →
  ∀ container runtime_mount, ¬ observed_mount snapshot mount container runtime_mount.
Proof.
  unfold match_result. intros Hn container rm (Hc & Hs & Hrm & Hm).
  assert (Hin : container ∈ service_containers snapshot (cmt_service mount)) by (by apply elem_of_filterb).
  pose proof (find_map_None _ _ Hn container Hin) as Hf. cbn beta in Hf.
  destruct (find (λ runtime_mount, mounts_match mount runtime_mount) (c_mounts container)) eqn:E; [done|].
  apply find_None with (x := rm) in E; [congruence|done].
Qed.

(** What the correlation of a declared mount says, and the runtime mount it takes. *)
Definition declared_ok (snapshot : DockerSnapshot) (mount : ComposeMount) (c : MountCorrelation) (taken : option rstr) : Prop :=
  mc_compose_mount_id c = Some (cmt_id mount) ∧
  match mc_status c with
  | MC_Matched => ∃ container runtime_mount, observed_mount snapshot mount container runtime_mount ∧
      mc_container c = Some (c_name container) ∧ mc_runtime_source c = cm_source runtime_mount ∧
      taken = Some (cm_id runtime_mount)
  | MC_Missing => taken = None ∧ ∀ container runtime_mount, ¬ observed_mount snapshot mount container runtime_mount
  | MC_Extra => False
  end.

Lemma correlate_mount_spec snapshot mount :
  declared_ok snapshot mount (correlate_mount snapshot mount).1 (correlate_mount snapshot mount).2.
Proof.
  unfold correlate_mount. destruct (match_result _ _) as [[container rm]|] eqn:E;
    cbn [fst snd]; (split; [done|]); cbn [mc_status mc_container mc_runtime_source].
  - exists container, rm. split_and!; [by apply match_result_Some|done..].
  - split; [done|]. by apply match_result_None.
Qed.

(** A mount of a container of a declared service that no declared mount took. *)
Definition extra_mount (scan : ComposeScan) (snapshot : DockerSnapshot) (c : MountCorrelation) : Prop :=
  ∃ service container runtime_mount, service ∈ csc_services scan ∧ container ∈ s_containers snapshot ∧
    container_matches_service container (cs_name service) = true ∧ runtime_mount ∈ c_mounts container ∧
    c = extra_correlation service container runtime_mount ∧
    ∀ mount, mount ∈ csc_mounts scan → (correlate_mount snapshot mount).2 ≠ Some (cm_id runtime_mount).

Definition taken_mounts (scan : ComposeScan) (snapshot : DockerSnapshot) : list rstr :=
  omap id (correlate_mount snapshot <$> csc_mounts scan).*2.

Lemma elem_of_taken scan snapshot id_ :
  id_ ∈ taken_mounts scan snapshot ↔ ∃ mount, mount ∈ csc_mounts scan ∧ (correlate_mount snapshot mount).2 = Some id_.
Proof.
  unfold taken_mounts. rewrite list_elem_of_omap. split.
  - intros (o & (c & -> & (mount & -> & Hin)%list_elem_of_fmap)%list_elem_of_fmap & E). by exists mount.
  - intros (mount & Hin & E). exists (correlate_mount snapshot mount).2. split; [|done].
    apply list_elem_of_fmap. eexists. split; [reflexivity|]. apply list_elem_of_fmap. by exists mount.
Qed.

Lemma elem_of_extra scan snapshot c :
  c ∈ extra_correlations scan snapshot (taken_mounts scan snapshot) ↔ extra_mount scan snapshot c.
Proof.
  unfold extra_correlations, extra_mount. rewrite list_elem_of_bind. split.
  - intros (service & Hc & Hs). apply list_elem_of_bind in Hc as (container & Hc & [Hm Hin]%elem_of_filterb).
    apply list_elem_of_fmap in Hc as (rm & -> & [Hn Hrm]%elem_of_filterb).
    exists service, container, rm. split_and!; [done..|]. intros mount Hmin E.
    apply negb_true_iff, bool_decide_eq_false in Hn. apply Hn, elem_of_taken. by exists mount.
  - intros (service & container & rm & Hs & Hin & Hm & Hrm & -> & Hn). exists service. split; [|done].
    apply list_elem_of_bind. exists container. split; [|by apply elem_of_filterb].
    apply list_elem_of_fmap. exists rm. split; [done|]. apply elem_of_filterb. split; [|done].
    apply negb_true_iff, bool_decide_eq_false. intros (mount & Hmin & E)%elem_of_taken. by apply (Hn mount).
Qed.

(** The correlations, sorted by id, are one per declared mount, matched exactly when a container of
    its service has that mount, and one extra for every mount of a container of a declared
    service that no declared mount was matched with (by its id). *)
Theorem correlations_spec scan snapshot :
  let result := correlate_compose_runtime scan snapshot in
  StronglySorted (λ a b, str_leb (mc_id a) (mc_id b) = true) result ∧
  (∃ extra, result ≡ₚ ((λ mount, (correlate_mount snapshot mount).1) <$> csc_mounts scan) ++ extra ∧
     ∀ c, c ∈ extra ↔ extra_mount scan snapshot c) ∧
  (∀ mount, mount ∈ csc_mounts scan →
     declared_ok snapshot mount (correlate_mount snapshot mount).1 (correlate_mount snapshot mount).2).
Proof.
  split_and!.
  - apply (sort_by_sorted (λ a b, str_leb (mc_id a) (mc_id b))); intros; [apply str_leb_total|by eapply str_leb_trans].
  - exists (extra_correlations scan snapshot (taken_mounts scan snapshot)). split; [|apply elem_of_extra].
    unfold correlate_compose_runtime. rewrite sort_by_Permutation. by rewrite <- list_fmap_compose.
  - intros mount _. apply correlate_mount_spec.
Qed.

(** ** The graph *)

Section graph_spec.
Context `{Sha256}.

Lemma or_insert_lookup ns (m : gmap rstr ComposeGraphNode) :
  (∀ id n, foldl or_insert m ns !! id = Some n → m !! id = Some n ∨ (n ∈ ns ∧ cgn_id n = id)) ∧
  (∀ id, is_Some (m !! id) ∨ id ∈ cgn_id <$> ns → is_Some (foldl or_insert m ns !! id)).
Proof.
  revert m. induction ns as [|node ns IH]; intros m; cbn [foldl]; [by split; [left|intros id [?|?%elem_of_nil]]|].
  destruct (IH (or_insert m node)) as [IH1 IH2]. split.
  - intros id n [Hn|[Hin Hid]]%IH1; [|right; split; [by right|done]]. unfold or_insert in Hn.
    destruct (m !! cgn_id node) eqn:E; [by left|]. destruct (decide (cgn_id node = id)) as [<-|Hne].
    + rewrite lookup_insert_eq in Hn. injection Hn as <-. right. split; [by left|done].
    + rewrite lookup_insert_ne in Hn by done. by left.
  - intros id Hid. apply IH2. unfold or_insert. rewrite fmap_cons, elem_of_cons in Hid.
    destruct (m !! cgn_id node) eqn:E.
    + destruct Hid as [?|[->|?]]; [by left|left; by eexists|by right].
    + destruct (decide (cgn_id node = id)) as [<-|Hne]; [left; rewrite lookup_insert_eq; eauto|].
      rewrite lookup_insert_ne by done. destruct Hid as [?|[->|?]]; [by left|done|by right].
Qed.

(** The nodes a scan asks for. *)
Definition wanted_nodes (scan : ComposeScan) : list ComposeGraphNode :=
  ((service_node ∘ cs_name) <$> csc_services scan) ++ (csc_mounts scan ≫= mount_nodes).

Lemma graph_nodes_lookup scan : foldl or_insert (foldl or_insert ∅ ((service_node ∘ cs_name) <$> csc_services scan))
  (csc_mounts scan ≫= mount_nodes) = foldl or_insert ∅ (wanted_nodes scan).
Proof. unfold wanted_nodes. by rewrite foldl_app. Qed.

(** The Compose graph has one node per id, sorted: the services and, for every mount, its target
    inside the container and its source when it has one. Its edges are exactly the two facts of
    each mount, that its service declares it and that its source is mounted at its target, and
    they join nodes of the graph. *)
Theorem compose_graph_spec scan :
  let g := derive_compose_graph scan in
  NoDup (cgn_id <$> cg_nodes g) ∧ StronglySorted (λ a b, str_leb a b = true) (cgn_id <$> cg_nodes g) ∧
  (∀ n, n ∈ cg_nodes g → n ∈ wanted_nodes scan) ∧
  (∀ id, id ∈ cgn_id <$> cg_nodes g ↔ id ∈ cgn_id <$> wanted_nodes scan) ∧
  (∀ e, e ∈ cg_edges g ↔ ∃ m, m ∈ csc_mounts scan ∧
     (e = compose_edge (compose_service_node_id (cmt_service m)) (cgn_id (target_node m)) DeclaresMount ∨
      ∃ n, source_node m = Some n ∧ e = compose_edge (cgn_id n) (cgn_id (target_node m)) MountedAt)) ∧
  (∀ e, e ∈ cg_edges g → cge_source e ∈ cgn_id <$> cg_nodes g ∧ cge_target e ∈ cgn_id <$> cg_nodes g).
Proof.
  intros g. destruct (or_insert_lookup (wanted_nodes scan) ∅) as [Hin Hsome].
  assert (Hkey : ∀ id n, foldl or_insert ∅ (wanted_nodes scan) !! id = Some n → n ∈ wanted_nodes scan ∧ cgn_id n = id).
  { intros id n [Hn|Hn]%Hin; [by rewrite lookup_empty in Hn|done]. }
  assert (Hids : cgn_id <$> cg_nodes g = btree_keys (foldl or_insert ∅ (wanted_nodes scan))).
  { unfold g, derive_compose_graph. cbn [cg_nodes]. rewrite graph_nodes_lookup. unfold btree_values, btree_keys.
    rewrite <- list_fmap_compose. apply list_fmap_ext. intros i [k n] Hl%list_elem_of_lookup_2.
    apply elem_of_btree_iter in Hl. by apply Hkey in Hl as [_ ?]. }
  assert (Hmem : ∀ id, id ∈ cgn_id <$> cg_nodes g ↔ id ∈ cgn_id <$> wanted_nodes scan).
  { intros id. rewrite Hids. unfold btree_keys. rewrite list_elem_of_fmap. split.
    - intros ([k n] & -> & Hl%elem_of_btree_iter%Hkey). destruct Hl as [Hn <-]. apply list_elem_of_fmap. by exists n.
    - intros Hid. destruct (Hsome id (or_intror Hid)) as [n Hn]. exists (id, n). split; [done|]. by apply elem_of_btree_iter. }
  assert (Hedges : ∀ e, e ∈ cg_edges g ↔ ∃ m, m ∈ csc_mounts scan ∧
     (e = compose_edge (compose_service_node_id (cmt_service m)) (cgn_id (target_node m)) DeclaresMount ∨
      ∃ n, source_node m = Some n ∧ e = compose_edge (cgn_id n) (cgn_id (target_node m)) MountedAt)).
  { intros e. unfold g, derive_compose_graph. cbn [cg_edges]. rewrite list_elem_of_bind.
    assert (Hm : ∀ m, e ∈ mount_edges m ↔
      (e = compose_edge (compose_service_node_id (cmt_service m)) (cgn_id (target_node m)) DeclaresMount ∨
       ∃ n, source_node m = Some n ∧ e = compose_edge (cgn_id n) (cgn_id (target_node m)) MountedAt)).
    { intros m. unfold mount_edges. rewrite elem_of_cons. destruct (source_node m) as [n|].
      - rewrite list_elem_of_singleton. naive_solver.
      - rewrite elem_of_nil. naive_solver. }
    setoid_rewrite Hm. naive_solver. }
  split_and!.
  - rewrite Hids. apply btree_keys_NoDup.
  - rewrite Hids. eapply StronglySorted_map; [|apply btree_iter_sorted]. done.
  - intros n. unfold g, derive_compose_graph. cbn [cg_nodes]. rewrite graph_nodes_lookup. unfold btree_values.
    intros ([k n'] & -> & Hl%elem_of_btree_iter%Hkey)%list_elem_of_fmap. by destruct Hl.
  - done.
  - done.
  - intros e (m & Hm & He)%Hedges. rewrite !Hmem.
    assert (Hn : ∀ n, n ∈ mount_nodes m → cgn_id n ∈ cgn_id <$> wanted_nodes scan).
    { intros n Hnm. apply list_elem_of_fmap_2. unfold wanted_nodes. apply elem_of_app. right. apply list_elem_of_bind. by exists m. }
    unfold mount_nodes in Hn. destruct He as [->|(n & En & ->)]; cbn [compose_edge cge_source cge_target].
    + split; [apply (Hn (service_node (cmt_service m))); set_solver|apply Hn; set_solver].
    + rewrite En in Hn. split; apply Hn; cbn; set_solver.
Qed.
End graph_spec.

Lemma unified_diff_roundtrip_witness :
  side PLUS (diff_body (unified_diff "f" "a" "b")) = lines "b".
Proof. apply (unified_diff_roundtrip "f" "a" "b"). decided. Defined.
