(* ===== verification/Boundary.v ===== *)
(** * The edges of the daemon: configuration, authentication, subprocesses

    [config.rs], [auth.rs], [docker_config.rs], [pid_namespace.rs], [process_runner.rs] and the
    startup of [main.rs]: the address, port and token read from the environment, the bearer
    check of every route, the socket and label filter of the Docker collector, the scope in
    which host providers run, and the bounded run of a provider command. *)

From S2P Require Import Prelude RustStr RustNum Utf8.

(** ** [IpAddr::from_str] *)

Inductive IpAddr := V4 (octets : list N) | V6 (segments : list N).

#[export] Instance IpAddr_eq_dec : EqDecision IpAddr. Proof. solve_decision. Defined.

Definition is_ascii_hexdigit (c : N) : bool :=
  is_ascii_digit c || ((97 <=? c)%N && (c <=? 102)%N) || ((65 <=? c)%N && (c <=? 70)%N).

(** The value of a hexadecimal digit. *)
Definition hex_value (c : N) : N :=
  if is_ascii_digit c then (c - 48)%N else if (97 <=? c)%N then (c - 87)%N else (c - 55)%N.

(** The longest run of characters that pass. *)
Fixpoint span (f : N → bool) (s : rstr) : rstr * rstr :=
  match s with
  | c :: s' => if f c then let '(run, rest) := span f s' in (c :: run, rest) else ([], s)
  | [] => ([], [])
  end.

Definition digit_of (radix : N) (c : N) : bool := if (radix =? 16)%N then is_ascii_hexdigit c else is_ascii_digit c.

(** [Parser::read_number]. *)
Definition read_number (radix : N) (max_digits : nat) (allow_zero_prefix : bool) (max : N) (s : rstr) : option (N * rstr) :=
  let '(digits, rest) := span (digit_of radix) s in
  let value := foldl (λ n c, (n * radix + hex_value c)%N) 0%N digits in
  if (max_digits <? length digits)%nat || (length digits =? 0)%nat
     || (negb allow_zero_prefix && (head digits == Some 48%N) && (1 <? length digits)%nat)
     || (max <? value)%N
  then None else Some (value, rest).

Definition read_given_char (c : N) (s : rstr) : option rstr :=
  match s with c' :: s' => if (c' =? c)%N then Some s' else None | [] => None end.

Definition read_octet (s : rstr) : option (N * rstr) := read_number 10 3 false u8_max s.

Definition read_ipv4_addr (s : rstr) : option (list N * rstr) :=
  '(a, s) ← read_octet s; s ← read_given_char 46 s;
  '(b, s) ← read_octet s; s ← read_given_char 46 s;
  '(c, s) ← read_octet s; s ← read_given_char 46 s;
  '(d, s) ← read_octet s; Some ([a; b; c; d], s).

(** [Parser::read_separator] with a colon. *)
Definition separated {A} (first : bool) (inner : rstr → option (A * rstr)) (s : rstr) : option (A * rstr) :=
  if first then inner s else s ← read_given_char 58 s; inner s.

(** At most [budget] more groups; whether the last two are an embedded IPv4 address. *)
Fixpoint read_groups (budget : nat) (first : bool) (s : rstr) : list N * bool * rstr :=
  match budget with
  | O => ([], false, s)
  | S budget =>
      match (if (0 <? budget)%nat then separated first read_ipv4_addr s else None) with
      | Some ([a; b; c; d], s) => ([(a * 256 + b)%N; (c * 256 + d)%N], true, s)
      | _ =>
          match separated first (read_number 16 4 true u16_max) s with
          | Some (group, s) => let '(groups, v4, s) := read_groups budget false s in (group :: groups, v4, s)
          | None => ([], false, s)
          end
      end
  end.

Definition read_ipv6_addr (s : rstr) : option (list N * rstr) :=
  let '(front, v4, s) := read_groups 8 true s in
  if (length front =? 8)%nat then Some (front, s)
  else if v4 then None
  else
    s ← read_given_char 58 s; s ← read_given_char 58 s;
    let '(back, _, s) := read_groups (8 - (length front + 1)) true s in
    Some (front ++ replicate (8 - length front - length back) 0%N ++ back, s).

Definition parse_ip_addr (s : rstr) : option IpAddr :=
  match read_ipv4_addr s with
  | Some (octets, []) => Some (V4 octets)
  | Some _ => None
  | None => match read_ipv6_addr s with Some (segments, []) => Some (V6 segments) | _ => None end
  end.

Definition is_loopback (a : IpAddr) : bool :=
  match a with
  | V4 octets => head octets == Some 127%N
  | V6 segments => segments == [0; 0; 0; 0; 0; 0; 0; 1]%N
  end.

(** ** config.rs *)

(** [std::env::var]. *)
Inductive EnvVar := NotPresent | NotUnicode | Present (value : rstr).

(** [std::env::var(..).ok()]. *)
Definition env_ok (v : EnvVar) : option rstr := match v with Present value => Some value | _ => None end.

(** A step of the startup: a value, or [std::process::exit] with a code. *)
Definition Startup (A : Type) : Type := A + N.
Definition exit {A} (code : N) : Startup A := inr code.

Definition startup_bind {A B} (m : Startup A) (k : A → Startup B) : Startup B :=
  match m with inl a => k a | inr code => inr code end.
Notation "x <-- m ; k" := (startup_bind m (λ x, k)) (at level 100, m at next level, right associativity) : dm_scope.

Section config.
Variable env : rstr → EnvVar.

Definition read_port_env (name : rstr) (fallback : N) : Startup N :=
  match env name with
  | Present value => match parse_uint u16_max value with Some port => inl port | None => exit 2 end
  | _ => inl fallback
  end.

Definition read_optional_token_env (name : rstr) : Startup (option rstr) :=
  match env name with
  | Present value => let token := trim value in if token == [] then exit 2 else inl (Some token)
  | _ => inl None
  end.

Definition read_daemon_token_env : Startup (option rstr) :=
  token <-- read_optional_token_env "DOCKERMAP_DAEMON_TOKEN";
  match token with
  | Some token => inl (Some token)
  | None => read_optional_token_env "DOCKERMAP_API_TOKEN"
  end.

Definition read_allow_mock_env : bool := env_ok (env "DOCKERMAP_ALLOW_MOCK") == Some ("true" : rstr).
End config.

Definition eq_ignore_ascii_case (a b : rstr) : bool := to_ascii_lowercase a == to_ascii_lowercase b.

Definition validate_bind_host (value : rstr) (allow_remote has_daemon_token : bool) : IpAddr + rstr :=
  let value := if eq_ignore_ascii_case value "localhost" then "127.0.0.1" : rstr else value in
  match parse_ip_addr value with
  | None => inr ("must be an IP address or localhost" : rstr)
  | Some host =>
      if negb (is_loopback host) && negb allow_remote
      then inr ("must be loopback unless DOCKERMAP_ALLOW_REMOTE_DAEMON=true" : rstr)
      else if negb (is_loopback host) && negb has_daemon_token
      then inr ("requires a non-empty DOCKERMAP_DAEMON_TOKEN or DOCKERMAP_API_TOKEN for non-loopback binding" : rstr)
      else inl host
  end.

Definition read_bind_host_env (env : rstr → EnvVar) (name : rstr) (has_daemon_token : bool) : Startup IpAddr :=
  let value := default ("127.0.0.1" : rstr) (env_ok (env name)) in
  let allow_remote := env_ok (env "DOCKERMAP_ALLOW_REMOTE_DAEMON") == Some ("true" : rstr) in
  match validate_bind_host value allow_remote has_daemon_token with
  | inl host => inl host
  | inr _ => exit 2
  end.

(** What [main] starts the server with. *)
Record Server := {
  sv_token : option rstr;
  sv_port : N;
  sv_host : IpAddr;
  sv_allow_mock : bool
}.

Definition main_server (env : rstr → EnvVar) : Startup Server :=
  daemon_token <-- read_daemon_token_env env;
  port <-- read_port_env env "DOCKERMAP_DAEMON_PORT" 4100;
  host <-- read_bind_host_env env "DOCKERMAP_DAEMON_HOST" (is_some daemon_token);
  inl {| sv_token := daemon_token; sv_port := port; sv_host := host; sv_allow_mock := read_allow_mock_env env |}.

(** ** auth.rs *)

(** The comparison of the bytes of the two tokens, folded without an early exit. *)
Definition daemon_token_matches (received expected : rstr) : bool :=
  let received := utf8_bytes received in
  let expected := utf8_bytes expected in
  if (length received =? length expected)%nat
  then (foldl (λ difference pair, N.lor difference (N.lxor pair.1 pair.2)) 0%N (zip received expected) =? 0)%N
  else false.

(** [require_daemon_bearer_token] up to the handler: whether it runs. The argument is the
    [Authorization] header when there is one and it is text. *)
Definition bearer_token_accepted (daemon_token authorization : option rstr) : bool :=
  match daemon_token with
  | None => true
  | Some expected =>
      is_some_and (authorization ≫= λ value,
        match split_whitespace value with
        | [scheme; token] => if scheme == ("Bearer" : rstr) then Some token else None
        | _ => None
        end) (λ token, daemon_token_matches token expected)
  end.

(** ** docker_config.rs *)

Definition MAX_DOCKER_LABEL_FILTER_CHARS : nat := 256.
Definition DEFAULT_DOCKER_GATEWAY_SOCKET : rstr := "/run/dockermap/docker-read.sock".

Definition validate_docker_gateway_socket (socket : rstr) : rstr + rstr :=
  if (socket == []) || (512 <? str_len socket)%nat || contains_char socket 0
  then inr ("invalid DOCKERMAP_DOCKER_GATEWAY_SOCKET" : rstr)
  else if (socket == ("/var/run/docker.sock" : rstr)) || (socket == ("/run/docker.sock" : rstr))
  then inr ("DOCKERMAP_DOCKER_GATEWAY_SOCKET must not name Docker's raw socket" : rstr)
  else inl socket.

Definition docker_gateway_socket_from_env (env : rstr → EnvVar) : rstr + rstr :=
  validate_docker_gateway_socket
    (default DEFAULT_DOCKER_GATEWAY_SOCKET (env_ok (env "DOCKERMAP_DOCKER_GATEWAY_SOCKET"))).

Definition parse_docker_label_filter (value : rstr) : option rstr + rstr :=
  let trimmed := trim value in
  if trimmed == [] then inl None
  else if (MAX_DOCKER_LABEL_FILTER_CHARS <? char_count trimmed)%nat
  then inr ("label filter must be 256 characters or fewer" : rstr)
  else if contains_char trimmed 0 then inr ("label filter must not contain NUL bytes" : rstr)
  else if starts_with trimmed "=" then inr ("label filter key must not be empty" : rstr)
  else inl (Some trimmed).

Definition docker_label_filter_from_env (env : rstr → EnvVar) : option rstr + rstr :=
  match env "DOCKERMAP_DOCKER_LABEL_FILTER" with
  | Present value =>
      match parse_docker_label_filter value with
      | inl filter => inl filter
      | inr message => inr ("invalid DOCKERMAP_DOCKER_LABEL_FILTER: " +s+ message)
      end
  | NotPresent => inl None
  | NotUnicode => inr ("invalid DOCKERMAP_DOCKER_LABEL_FILTER: value must be valid UTF-8" : rstr)
  end.

(** ** pid_namespace.rs *)

Inductive PidNamespaceMode := Pid_Auto | Pid_Host | Pid_Restricted.

Definition mode_from_env_value (value : option rstr) : PidNamespaceMode :=
  match value with
  | None => Pid_Auto
  | Some value =>
      if value == ("host" : rstr) then Pid_Host
      else if value == ("restricted" : rstr) then Pid_Restricted
      else if value == ("auto" : rstr) then Pid_Auto
      else Pid_Restricted
  end.

Inductive PidNamespaceScope := Scope_Host (diagnostic : option rstr) | Scope_Restricted.

#[export] Instance PidNamespaceScope_eq_dec : EqDecision PidNamespaceScope. Proof. solve_decision. Defined.

Definition is_restricted (s : PidNamespaceScope) : bool := match s with Scope_Restricted => true | _ => false end.

Definition scope_diagnostic (s : PidNamespaceScope) : option rstr :=
  match s with Scope_Host diagnostic => diagnostic | Scope_Restricted => None end.

(** [splitn(3, ':').nth(2)], or the whole text. *)
Definition cgroup_path (cgroup : rstr) : rstr :=
  let line := trim cgroup in
  match split_once 58 line with
  | Some (_, rest) => match split_once 58 rest with Some (_, path) => path | None => line end
  | None => line
  end.

Definition container_component (c : rstr) : bool :=
  (starts_with c "docker-" && ends_with c ".scope") || (starts_with c "libpod-" && ends_with c ".scope")
  || starts_with c "kubepods".

Definition cgroup_implies_container (cgroup : rstr) : bool :=
  let path := cgroup_path cgroup in
  contains path "/docker/" || existsb container_component (split_char 47 path).

Definition restricted_evidence (cgroup : rstr) (dockerenv systemd_marker podman_marker : bool) : bool :=
  dockerenv || systemd_marker || podman_marker || existsb cgroup_implies_container (lines cgroup).

Definition pid_namespace_scope_from_evidence (mode : PidNamespaceMode) (cgroup : rstr)
    (dockerenv systemd_marker podman_marker : bool) : PidNamespaceScope :=
  match mode with
  | Pid_Host => Scope_Host None
  | Pid_Restricted => Scope_Restricted
  | Pid_Auto =>
      if restricted_evidence cgroup dockerenv systemd_marker podman_marker then Scope_Restricted else Scope_Restricted
  end.

(** [daemon_pid_namespace_scope]; [cgroup] is [/proc/self/cgroup] when it can be read, the
    flags say which marker files there are. *)
Definition daemon_pid_namespace_scope (env : rstr → EnvVar) (cgroup : option rstr)
    (dockerenv systemd_marker podman_marker : bool) : PidNamespaceScope :=
  pid_namespace_scope_from_evidence (mode_from_env_value (env_ok (env "DOCKERMAP_PID_NAMESPACE")))
    (default [] cgroup) dockerenv systemd_marker podman_marker.

(** [cgroup_result_is_container_owned]: an unreadable file counts as owned. *)
Definition cgroup_result_is_container_owned (result : option rstr) : bool :=
  match result with Some cgroup => existsb cgroup_implies_container (lines cgroup) | None => true end.

(** [is_container_owned], from what [/proc/<pid>/cgroup] holds. *)
Definition is_container_owned (proc_cgroup : N → option rstr) (pid : N) : bool :=
  cgroup_result_is_container_owned (proc_cgroup pid).

(** ** process_runner.rs *)

Definition MAX_PROVIDER_OUTPUT_BYTES : N := N.shiftl 1 20.
Definition PROVIDER_COMMAND_TIMEOUT_MS : N := 3000.

(** The sleep between two polls of a running command. *)
Definition POLL_INTERVAL_MS : N := 25.

Record BoundedRead := { br_bytes : list N; br_truncated : bool }.

Inductive ProviderCommandError := Err_Spawn | Err_Wait | Err_Reader | Err_TimedOut (timeout : N).

Definition is_spawn (e : ProviderCommandError) : bool := match e with Err_Spawn => true | _ => false end.

Record ExitStatus := { es_success : bool; es_code : option Z }.

Record ProviderCommandOutput := {
  po_status : ExitStatus;
  po_stdout : list N;
  po_stdout_truncated : bool;
  po_stderr : list N;
  po_stderr_truncated : bool
}.

(** The reads of a pipe: each returns some bytes, none at its end, or fails. *)
Inductive ReadResult := Read_ok (chunk : list N) | Read_err.

Fixpoint read_loop (cap : N) (buffer : list N) (truncated : bool) (reads : list ReadResult) : BoundedRead :=
  match reads with
  | Read_ok (b :: chunk) :: reads =>
      let read := b :: chunk in
      let remaining := saturating_sub cap (N.of_nat (length buffer)) in
      let kept := N.min (N.of_nat (length read)) remaining in
      read_loop cap (buffer ++ take (N.to_nat kept) read)
        (truncated || (remaining <? N.of_nat (length read))%N) reads
  | _ => {| br_bytes := buffer; br_truncated := truncated |}
  end.

Definition read_bounded (reads : list ReadResult) (cap : N) : BoundedRead := read_loop cap [] false reads.

(** What [Child::try_wait] answers, and the time since the start when it is asked. *)
Inductive TryWait := Wait_error | Exited (status : ExitStatus) | Running.

(** How the loop over [try_wait] ends; [None] when it is still running at the last poll. *)
Inductive WaitEnd := End_error | End_exited (status : ExitStatus) | End_deadline.

Fixpoint wait_loop (timeout : N) (polls : list (TryWait * N)) : option WaitEnd :=
  match polls with
  | (Wait_error, _) :: _ => Some End_error
  | (Exited status, _) :: _ => Some (End_exited status)
  | (Running, elapsed) :: polls => if (timeout <=? elapsed)%N then Some End_deadline else wait_loop timeout polls
  | [] => None
  end.

(** What one run meets: whether the child starts, the time when it has, the polls, and what
    each reader has delivered when its pipe is waited for until the deadline. *)
Record CommandRun := {
  cr_spawned : bool;
  cr_spawn_elapsed : N;
  cr_polls : list (TryWait * N);
  cr_stdout : option (list ReadResult);
  cr_stderr : option (list ReadResult)
}.

(** The result, and how often the process group was killed. *)
Definition run_command_with_timeout (run : CommandRun) (timeout : N)
    : option ((ProviderCommandOutput + ProviderCommandError) * nat) :=
  if negb (cr_spawned run) then Some (inr Err_Spawn, 0%nat)
  else if (timeout <=? cr_spawn_elapsed run)%N then Some (inr (Err_TimedOut timeout), 1%nat)
  else
    wait_end ← wait_loop timeout (cr_polls run);
    match wait_end with
    | End_error => Some (inr Err_Wait, 1%nat)
    | _ =>
        let status := match wait_end with End_exited status => Some status | _ => None end in
        let killed := if is_none status then 1%nat else 0%nat in
        let receive (reads : option (list ReadResult)) :=
          (λ reads, read_bounded reads MAX_PROVIDER_OUTPUT_BYTES) <$> reads in
        let stdout := receive (cr_stdout run) in
        let stderr := receive (cr_stderr run) in
        let reader_timed_out := is_none stdout || is_none stderr in
        let killed := if reader_timed_out && is_some status then S killed else killed in
        match stdout, stderr with
        | Some stdout, Some stderr =>
            match status with
            | Some status =>
                Some (inl {| po_status := status; po_stdout := br_bytes stdout; po_stdout_truncated := br_truncated stdout;
                             po_stderr := br_bytes stderr; po_stderr_truncated := br_truncated stderr |}, killed)
            | None => Some (inr (Err_TimedOut timeout), killed)
            end
        | _, _ => Some (inr (if reader_timed_out then Err_TimedOut timeout else Err_Reader), killed)
        end
    end.

(** ** Tokens *)

Lemma lor_xor_zero (l : list (N * N)) d :
  foldl (λ difference pair, N.lor difference (N.lxor pair.1 pair.2)) d l = 0%N ↔
  d = 0%N ∧ Forall (λ pair, pair.1 = pair.2) l.
Proof.
  revert d. induction l as [|[a b] l IH]; intros d; cbn [foldl]; [naive_solver|].
  rewrite IH, N.lor_eq_0_iff, N.lxor_eq_0_iff, Forall_cons. naive_solver.
Qed.

Lemma zip_equal {A} (l k : list A) : length l = length k → Forall (λ pair, pair.1 = pair.2) (zip l k) ↔ l = k.
Proof.
  revert k. induction l as [|a l IH]; intros [|b k] Hl; try done. cbn [zip zip_with].
  rewrite Forall_cons, IH by (cbn in Hl; lia). cbn. naive_solver.
Qed.

Lemma daemon_token_matches_spec received expected :
  daemon_token_matches received expected = true ↔ utf8_bytes received = utf8_bytes expected.
Proof.
  unfold daemon_token_matches. cbv zeta. destruct (length _ =? length _)%nat eqn:E.
  - apply Nat.eqb_eq in E. rewrite N.eqb_eq. etrans; [apply lor_xor_zero|]. pose proof (zip_equal _ _ E). tauto.
  - apply Nat.eqb_neq in E. split; [done|]. intros H. by rewrite H in E.
Qed.

Lemma bearer_token_spec token authorization :
  bearer_token_accepted (Some token) authorization = true ↔
  ∃ value received, authorization = Some value ∧ split_whitespace value = [("Bearer" : rstr); received] ∧
    utf8_bytes received = utf8_bytes token.
Proof.
  unfold bearer_token_accepted. destruct authorization as [value|]; [|naive_solver]. cbn [mbind option_bind].
  destruct (split_whitespace value) as [|scheme [|received [|]]] eqn:E.
  1, 2, 4: split; [done|]; intros (? & ? & [= <-] & Hs & _); rewrite E in Hs; discriminate Hs.
  destruct (decide (scheme = "Bearer")) as [Es|Es].
  - rewrite bool_decide_true by done. cbn [is_some_and]. rewrite daemon_token_matches_spec, Es in *. split.
    + intros H. by exists value, received.
    + intros (? & ? & [= <-] & Hs & Hb). rewrite E in Hs. by injection Hs as ->.
  - rewrite bool_decide_false by done. split; [done|].
    intros (? & ? & [= <-] & Hs & _). rewrite E in Hs. by injection Hs as -> _.
Qed.

(** ** What the server starts with *)

Lemma startup_bind_inl {A B} (m : Startup A) (k : A → Startup B) b :
  startup_bind m k = inl b ↔ ∃ a, m = inl a ∧ k a = inl b.
Proof. destruct m; cbn; naive_solver. Qed.

Lemma validate_bind_host_spec value remote token host :
  validate_bind_host value remote token = inl host ↔
  parse_ip_addr (if eq_ignore_ascii_case value "localhost" then "127.0.0.1" : rstr else value) = Some host ∧
  (is_loopback host = true ∨ (remote = true ∧ token = true)).
Proof.
  unfold validate_bind_host. cbv zeta.
  destruct (parse_ip_addr _) as [h|]; [|naive_solver]. destruct (is_loopback h) eqn:E, remote, token; naive_solver congruence.
Qed.

Lemma read_bind_host_spec env name token host :
  read_bind_host_env env name token = inl host →
  is_loopback host = true ∨ (env "DOCKERMAP_ALLOW_REMOTE_DAEMON" = Present "true" ∧ token = true).
Proof.
  unfold read_bind_host_env. destruct (validate_bind_host _ _ _) as [h|] eqn:E; [|done]. intros [= ->].
  apply validate_bind_host_spec in E as [_ [?|[E ->]]]; [by left|right]. bool_unfold.
  split; [|done]. destruct (env _); naive_solver.
Qed.

Lemma read_token_spec env name token :
  read_optional_token_env env name = inl token →
  match token with
  | Some t => t ≠ [] ∧ ∃ value, env name = Present value ∧ t = trim value
  | None => ∀ value, env name ≠ Present value
  end.
Proof.
  unfold read_optional_token_env. destruct (env name) as [| |value] eqn:E; intros H.
  - injection H as <-. naive_solver.
  - injection H as <-. naive_solver.
  - cbv zeta in H. case_bool_decide; [done|]. injection H as <-. naive_solver.
Qed.

Lemma read_daemon_token_spec env t : read_daemon_token_env env = inl (Some t) → t ≠ [].
Proof.
  unfold read_daemon_token_env. intros (t1 & H1 & H)%startup_bind_inl.
  destruct t1; cbn in H; [injection H as ->; by apply read_token_spec in H1 as [??]|by apply read_token_spec in H as [??]].
Qed.

(** C8: When the daemon listens on an address that is not loopback, remote access was asked
    for and there is a token, not empty; a request then reaches a route exactly when its
    [Authorization] header is the word [Bearer] and that token, byte for byte. *)
Theorem remote_requests_authenticated env sv :
  main_server env = inl sv → is_loopback (sv_host sv) = false →
  env "DOCKERMAP_ALLOW_REMOTE_DAEMON" = Present "true" ∧
  ∃ token, sv_token sv = Some token ∧ token ≠ [] ∧
    ∀ authorization, bearer_token_accepted (sv_token sv) authorization = true ↔
      ∃ value received, authorization = Some value ∧ split_whitespace value = [("Bearer" : rstr); received] ∧
        utf8_bytes received = utf8_bytes token.
Proof.
  unfold main_server.
  intros (token & Ht & (port & Hp & (host & Hh & [= <-])%startup_bind_inl)%startup_bind_inl)%startup_bind_inl Hl.
  cbn [sv_host sv_token] in *. apply read_bind_host_spec in Hh as [Hh|[Hr Hs]]; [congruence|].
  destruct token as [token|]; [|done]. apply read_daemon_token_spec in Ht.
  split; [done|]. exists token. split_and!; [done|done|]. intros a. apply bearer_token_spec.
Qed.

Lemma split_whitespace_words (P : N → Prop) s w :
  (∀ c, c ∈ s → is_whitespace c = false → P c) → w ∈ split_whitespace s → Forall P w.
Proof.
  unfold split_whitespace. intros Hs. assert (Hc : Forall P []) by done. revert Hc Hs. generalize (@nil N) as cur. intros cur Hc Hs. revert cur Hc Hs.
  induction s as [|c s IH]; intros cur Hc Hs; cbn [split_whitespace_go].
  - destruct cur; [by intros ?%not_elem_of_nil|]. intros ->%list_elem_of_singleton. by apply Forall_reverse.
  - destruct (is_whitespace c) eqn:E.
    + destruct cur; [apply IH; set_solver|]. intros [->|H]%elem_of_cons; [by apply Forall_reverse|].
      apply (IH []); set_solver.
    + apply IH; [constructor; set_solver|set_solver].
Qed.

Lemma utf8_bytes_inj s t : Forall (λ c, is_scalar c = true) s → Forall (λ c, is_scalar c = true) t →
  utf8_bytes s = utf8_bytes t → s = t.
Proof. intros Hs%from_utf8_bytes Ht%from_utf8_bytes E. rewrite E in Hs. congruence. Qed.

(** The startup accepts a token with white space inside; no header matches such a token. *)
Lemma spaced_token_refused token value c :
  Forall (λ c, is_scalar c = true) token → Forall (λ c, is_scalar c = true) value →
  c ∈ token → is_whitespace c = true → bearer_token_accepted (Some token) (Some value) = false.
Proof.
  intros Ht Hv Hc Hw. apply not_true_iff_false.
  intros (? & received & [= <-] & Hs & Hb)%bearer_token_spec.
  assert (Hr : Forall (λ c, is_whitespace c = false ∧ is_scalar c = true) received).
  { apply (split_whitespace_words _ value); [|rewrite Hs; set_solver].
    rewrite Forall_forall in Hv. naive_solver. }
  apply Forall_and in Hr as [Hn Hsc].
  apply utf8_bytes_inj in Hb as ->; [|done..].
  rewrite Forall_forall in Hn. by rewrite (Hn c Hc) in Hw.
Qed.

(** ** Providers of the host *)

(** The host providers run on the whole host exactly when the environment says [host]. *)
Lemma daemon_scope_spec env cgroup d s p :
  is_restricted (daemon_pid_namespace_scope env cgroup d s p) = false ↔ env "DOCKERMAP_PID_NAMESPACE" = Present "host".
Proof.
  unfold daemon_pid_namespace_scope, mode_from_env_value, pid_namespace_scope_from_evidence.
  destruct (env _) as [| |value]; cbn [env_ok].
  1, 2: by destruct (restricted_evidence _ _ _ _).
  repeat case_bool_decide; subst; cbn [is_restricted]; try naive_solver.
  by destruct (restricted_evidence _ _ _ _); naive_solver.
Qed.

(** ** Commands *)

(** The bytes a reader sees before the pipe ends or fails. *)
Fixpoint delivered (reads : list ReadResult) : list N :=
  match reads with Read_ok (b :: chunk) :: reads => (b :: chunk) ++ delivered reads | _ => [] end.

Lemma read_loop_spec cap reads buffer truncated :
  (N.of_nat (length buffer) <= cap)%N →
  read_loop cap buffer truncated reads =
  {| br_bytes := take (N.to_nat cap) (buffer ++ delivered reads);
     br_truncated := truncated || (cap <? N.of_nat (length (buffer ++ delivered reads)))%N |}.
Proof.
  revert buffer truncated. induction reads as [|[[|b chunk]|] reads IH]; intros buffer truncated Hb; cbn [read_loop delivered].
  1, 2, 4: rewrite app_nil_r, take_ge by lia;
    replace (cap <? N.of_nat (length buffer))%N with false by (symmetry; apply N.ltb_ge; lia); by rewrite orb_false_r.
  set (read := b :: chunk). unfold saturating_sub.
  set (kept := N.min (N.of_nat (length read)) (cap - N.of_nat (length buffer))).
  rewrite IH by (rewrite length_app, length_take; lia). f_equal.
  - destruct (decide (N.of_nat (length read) <= cap - N.of_nat (length buffer))%N) as [Hr|Hr].
    + rewrite (take_ge read) by lia. by rewrite <- app_assoc.
    + rewrite take_app_le by (rewrite length_app, length_take; lia).
      rewrite take_ge by (rewrite length_app, length_take; lia).
      rewrite (take_app buffer), (take_ge buffer), take_app_le by lia. f_equal. f_equal. lia.
  - rewrite <- orb_assoc. f_equal. rewrite !length_app, length_take.
    apply eq_bool_prop_intro. rewrite !Is_true_true, orb_true_iff, !N.ltb_lt. lia.
Qed.

Lemma read_bounded_spec reads cap :
  read_bounded reads cap =
  {| br_bytes := take (N.to_nat cap) (delivered reads); br_truncated := (cap <? N.of_nat (length (delivered reads)))%N |}.
Proof. unfold read_bounded. rewrite read_loop_spec by (cbn; lia). done. Qed.

(** A poll at which the loop over [try_wait] ends. *)
Definition settles (timeout : N) (poll : TryWait * N) : bool :=
  match poll.1 with Running => (timeout <=? poll.2)%N | _ => true end.

(** How the loop ends at such a poll. *)
Definition end_at (poll : TryWait * N) : WaitEnd :=
  match poll.1 with Wait_error => End_error | Exited status => End_exited status | Running => End_deadline end.

(** The first poll that settles the loop ends it. *)
Lemma wait_loop_first timeout before poll after :
  Forall (λ p, settles timeout p = false) before → settles timeout poll = true →
  wait_loop timeout (before ++ poll :: after) = Some (end_at poll).
Proof.
  intros Hb Hp. induction Hb as [|[w t] before Hw _ IH]; cbn [app].
  - destruct poll as [[| |] t]; cbn [wait_loop]; try done. unfold settles in Hp. cbn in Hp. by rewrite Hp.
  - destruct w; try discriminate Hw. unfold settles in Hw. cbn in Hw. cbn [wait_loop]. by rewrite Hw.
Qed.

Lemma first_settling timeout polls poll :
  poll ∈ polls → settles timeout poll = true →
  ∃ before first after, polls = before ++ first :: after ∧ Forall (λ p, settles timeout p = false) before ∧
    settles timeout first = true.
Proof.
  intros Hp Hs. induction polls as [|p polls IH]; [by apply not_elem_of_nil in Hp|].
  destruct (settles timeout p) eqn:E; [by exists [], p, polls|].
  apply elem_of_cons in Hp as [->|Hp]; [congruence|]. destruct (IH Hp) as (before & first & after & -> & Hb & Hf).
  exists (p :: before), first, after. split_and!; [done|by constructor|done].
Qed.

(** The loop sleeps between two polls. *)
Definition paced (polls : list (TryWait * N)) : Prop :=
  ∀ i poll, polls !! i = Some poll → (POLL_INTERVAL_MS * N.of_nat i <= poll.2)%N.

Lemma paced_settles timeout polls i poll : paced polls → polls !! i = Some poll →
  (timeout <= POLL_INTERVAL_MS * N.of_nat i)%N → settles timeout poll = true.
Proof.
  intros Hp Hi Ht. specialize (Hp i poll Hi). unfold settles. destruct poll.1; try done. apply N.leb_le. lia.
Qed.

Lemma unsettled_running timeout poll : settles timeout poll = false → poll.1 = Running ∧ (poll.2 < timeout)%N.
Proof. unfold settles. destruct poll as [[| |] t]; cbn; try done. intros ?%N.leb_gt. done. Qed.

(** What the delivered pipes of an exited command are published as. *)
Definition output_of (status : ExitStatus) (out err : list ReadResult) : ProviderCommandOutput := {|
  po_status := status;
  po_stdout := take (N.to_nat MAX_PROVIDER_OUTPUT_BYTES) (delivered out);
  po_stdout_truncated := (MAX_PROVIDER_OUTPUT_BYTES <? N.of_nat (length (delivered out)))%N;
  po_stderr := take (N.to_nat MAX_PROVIDER_OUTPUT_BYTES) (delivered err);
  po_stderr_truncated := (MAX_PROVIDER_OUTPUT_BYTES <? N.of_nat (length (delivered err)))%N |}.

(** The command started, within its budget. *)
Definition started_in_time (run : CommandRun) (timeout : N) : Prop :=
  cr_spawned run = true ∧ (cr_spawn_elapsed run < timeout)%N.

(** The result, from the poll the loop ended at. *)
Lemma run_command_at run timeout poll : wait_loop timeout (cr_polls run) = Some (end_at poll) →
  ∃ result killed, run_command_with_timeout run timeout = Some (result, killed) ∧
    (∀ output, result = inl output ↔ started_in_time run timeout ∧ ∃ status t out err, poll = (Exited status, t) ∧
       cr_stdout run = Some out ∧ cr_stderr run = Some err ∧ output = output_of status out err) ∧
    (result = inr Err_Spawn ↔ cr_spawned run = false) ∧
    (result = inr Err_Wait ↔ started_in_time run timeout ∧ poll.1 = Wait_error) ∧
    (result = inr (Err_TimedOut timeout) ↔ cr_spawned run = true ∧
       ((timeout <= cr_spawn_elapsed run)%N ∨ poll.1 = Running ∨
        (∃ status, poll.1 = Exited status) ∧ (cr_stdout run = None ∨ cr_stderr run = None))) ∧
    killed = match result with inl _ | inr Err_Spawn => 0 | inr _ => 1 end.
Proof.
  unfold run_command_with_timeout, started_in_time. intros ->.
  destruct (cr_spawned run); cbn [negb]; [|eexists _, _; split; [reflexivity|]; naive_solver].
  destruct (N.leb_spec timeout (cr_spawn_elapsed run)) as [Ht|Ht];
    [eexists _, _; split; [reflexivity|]; split_and!; try done; [intros output|..]; naive_solver lia|].
  destruct poll as [[|status|] t]; cbn [end_at fst mbind option_bind];
    [|destruct (cr_stdout run) as [out|], (cr_stderr run) as [err|];
      cbn [fmap option_fmap option_map is_none is_some negb orb andb]; rewrite ?read_bounded_spec..];
    (eexists _, _; split; [reflexivity|]); split_and!; try done; [intros output|..]; try naive_solver lia.
Qed.

(** C28: A provider command always ends, at the first poll that settles it: one that finds it exited,
    fails, or comes at or after the deadline. Polls are 25 ms apart, so such a poll comes by the
    deadline, after fewer than [timeout / 25 + 1] others, all of which found the command running within
    its budget. The result is an output exactly when the command was started within its budget,
    that first settling poll found it exited and both pipes were delivered by the deadline: it
    holds the status of that exit and the first [MAX_PROVIDER_OUTPUT_BYTES] of each pipe, with
    whether there was more. It is a spawn error exactly when the command did not start, a wait
    error exactly when that poll failed, and a timeout in exactly the remaining cases: started
    too late, still running at the deadline, or exited with a pipe held open. The process group
    is killed once for a wait error and for a timeout, and never otherwise. *)
Theorem provider_command_spec run timeout :
  (∃ poll, poll ∈ cr_polls run ∧ settles timeout poll = true) ∨
  (paced (cr_polls run) ∧ ∃ i, is_Some (cr_polls run !! i) ∧ (timeout <= POLL_INTERVAL_MS * N.of_nat i)%N) →
  ∃ before poll after result killed,
    cr_polls run = before ++ poll :: after ∧ settles timeout poll = true ∧
    Forall (λ p, p.1 = Running ∧ (p.2 < timeout)%N) before ∧
    (paced (cr_polls run) → (POLL_INTERVAL_MS * N.of_nat (length before) < timeout + POLL_INTERVAL_MS)%N) ∧
    run_command_with_timeout run timeout = Some (result, killed) ∧
    (∀ output, result = inl output ↔ started_in_time run timeout ∧ ∃ status t out err, poll = (Exited status, t) ∧
       cr_stdout run = Some out ∧ cr_stderr run = Some err ∧ output = output_of status out err) ∧
    (result = inr Err_Spawn ↔ cr_spawned run = false) ∧
    (result = inr Err_Wait ↔ started_in_time run timeout ∧ poll.1 = Wait_error) ∧
    (result = inr (Err_TimedOut timeout) ↔ cr_spawned run = true ∧
       ((timeout <= cr_spawn_elapsed run)%N ∨ poll.1 = Running ∨
        (∃ status, poll.1 = Exited status) ∧ (cr_stdout run = None ∨ cr_stderr run = None))) ∧
    killed = match result with inl _ | inr Err_Spawn => 0 | inr _ => 1 end.
Proof.
  intros Hpolls.
  assert (∃ poll, poll ∈ cr_polls run ∧ settles timeout poll = true) as (settled & Hin & Hsettled).
  { destruct Hpolls as [?|(Hpaced & i & [poll Hi] & Ht)]; [done|]. exists poll.
    split; [by eapply list_elem_of_lookup_2|by eapply paced_settles]. }
  destruct (first_settling _ _ _ Hin Hsettled) as (before & poll & after & E & Hb & Hp).
  assert (Hrun : Forall (λ p, p.1 = Running ∧ (p.2 < timeout)%N) before)
    by (eapply Forall_impl; [exact Hb|]; intros p; apply unsettled_running).
  assert (Hpace : paced (cr_polls run) → (POLL_INTERVAL_MS * N.of_nat (length before) < timeout + POLL_INTERVAL_MS)%N).
  { intros Hpaced. destruct before as [|p0 before] using rev_ind; [unfold POLL_INTERVAL_MS; cbn; lia|].
    rewrite Forall_app, Forall_singleton in Hrun. destruct Hrun as [_ [_ Ht]].
    specialize (Hpaced (length before) p0). rewrite E, <- app_assoc in Hpaced. cbn [app] in Hpaced. rewrite list_lookup_middle in Hpaced by done.
    specialize (Hpaced eq_refl). cbn [snd] in Hpaced. rewrite length_app. cbn [length]. lia. }
  pose proof (wait_loop_first _ _ _ after Hb Hp) as Hend. rewrite <- E in Hend.
  destruct (run_command_at run timeout poll Hend) as (result & killed & Hr & Hrest).
  exists before, poll, after, result, killed. split_and!; try done; apply Hrest.
Qed.

(** ** Concrete inputs *)

Example ip_localhost : parse_ip_addr "127.0.0.1" = Some (V4 [127; 0; 0; 1]%N). Proof. reflexivity. Qed.
Example ip_v6_loopback : parse_ip_addr "::1" = Some (V6 [0; 0; 0; 0; 0; 0; 0; 1]%N). Proof. reflexivity. Qed.
Example ip_v6_embedded : parse_ip_addr "::ffff:127.0.0.1" = Some (V6 [0; 0; 0; 0; 0; 65535; 32512; 1]%N).
Proof. reflexivity. Qed.
Example ip_leading_zero : parse_ip_addr "127.0.0.01" = None. Proof. reflexivity. Qed.
Example ip_too_many : parse_ip_addr "1:2:3:4:5:6:7:8:9" = None. Proof. reflexivity. Qed.
Example ip_seven : parse_ip_addr "1:2:3:4:5:6:7::" = Some (V6 [1; 2; 3; 4; 5; 6; 7; 0]%N). Proof. reflexivity. Qed.

(** A server bound to every address, with a token. *)
Definition example_env (name : rstr) : EnvVar :=
  if name == ("DOCKERMAP_DAEMON_HOST" : rstr) then Present "0.0.0.0"
  else if name == ("DOCKERMAP_ALLOW_REMOTE_DAEMON" : rstr) then Present "true"
  else if name == ("DOCKERMAP_API_TOKEN" : rstr) then Present " secret "
  else if name == ("DOCKERMAP_DAEMON_PORT" : rstr) then Present "0"
  else NotPresent.

Definition example_server : Server := {|
  sv_token := Some ("secret" : rstr); sv_port := 0; sv_host := V4 [0; 0; 0; 0]%N; sv_allow_mock := false |}.

(** The port 0 is accepted, although the message for a bad port says 1 to 65535. *)
Example example_server_starts : main_server example_env = inl example_server.
Proof. vm_compute. reflexivity. Qed.

Lemma remote_requests_authenticated_witness :
  is_loopback (sv_host example_server) = false ∧
  ∃ token, sv_token example_server = Some token ∧ token ≠ [] ∧
    bearer_token_accepted (sv_token example_server) (Some ("Bearer secret" : rstr)) = true ∧
    bearer_token_accepted (sv_token example_server) None = false.
Proof.
  split; [vm_compute; reflexivity|].
  destruct (remote_requests_authenticated example_env example_server) as (_ & token & Ht & Hne & Hb).
  - vm_compute. reflexivity.
  - vm_compute. reflexivity.
  - exists token. split; [exact Ht|]. split; [exact Hne|]. injection Ht as <-. split.
    + apply Hb. exists ("Bearer secret" : rstr), ("secret" : rstr). split_and!; vm_compute; reflexivity.
    + apply not_true_iff_false. rewrite Hb. intros (? & ? & [=] & _).
Defined.

Definition example_command : CommandRun := {|
  cr_spawned := true; cr_spawn_elapsed := 2; cr_polls := [(Running, 25%N); (Exited {| es_success := true; es_code := Some 0%Z |}, 50%N)];
  cr_stdout := Some [Read_ok [104; 105]%N; Read_ok []]; cr_stderr := Some [] |}.

(** A command that never ends, polled every 25 ms. *)
Definition example_hung_command : CommandRun := {|
  cr_spawned := true; cr_spawn_elapsed := 1; cr_polls := [(Running, 0%N); (Running, 25%N); (Running, 50%N)];
  cr_stdout := Some []; cr_stderr := None |}.

Lemma provider_command_spec_witness :
  (∃ output, run_command_with_timeout example_command PROVIDER_COMMAND_TIMEOUT_MS = Some (inl output, 0) ∧
     po_stdout output = take (N.to_nat MAX_PROVIDER_OUTPUT_BYTES) [104; 105]%N) ∧
  paced (cr_polls example_hung_command) ∧
  run_command_with_timeout example_hung_command 50 = Some (inr (Err_TimedOut 50), 1).
Proof.
  split_and!.
  - destruct (provider_command_spec example_command PROVIDER_COMMAND_TIMEOUT_MS)
      as (before & poll & after & result & killed & E & Hs & Hb & _ & Hr & Hok & _ & _ & _ & Hk).
    { left. exists (Exited {| es_success := true; es_code := Some 0%Z |}, 50%N). split; [right; left|reflexivity]. }
    assert (He : run_command_with_timeout example_command PROVIDER_COMMAND_TIMEOUT_MS =
      Some (inl {| po_status := {| es_success := true; es_code := Some 0%Z |}; po_stdout := [104; 105]%N;
                   po_stdout_truncated := false; po_stderr := []; po_stderr_truncated := false |}, 0))
      by (vm_compute; reflexivity).
    rewrite He in Hr. injection Hr as <- <-.
    destruct (proj1 (Hok _) eq_refl) as (_ & status & t & out & err & _ & Ho & _ & Hout).
    eexists. split; [exact He|]. injection Ho as <-. rewrite Hout. reflexivity.
  - intros [|[|[|i]]] poll Hi; cbn in Hi; try discriminate Hi; injection Hi as <-; vm_compute; discriminate.
  - destruct (provider_command_spec example_hung_command 50)
      as (before & poll & after & result & killed & E & Hs & Hb & _ & Hr & _ & _ & _ & Ht & Hk).
    { right. split; [|exists 2; split; [by eexists|vm_compute; discriminate]].
      intros [|[|[|i]]] poll Hi; cbn in Hi; try discriminate Hi; injection Hi as <-; vm_compute; discriminate. }
    assert (Hrun : poll.1 = Running).
    { assert (Hin : poll ∈ cr_polls example_hung_command) by (rewrite E; apply elem_of_app; right; left).
      cbn in Hin. rewrite !elem_of_cons, elem_of_nil in Hin. destruct Hin as [->|[->|[->|[]]]]; reflexivity. }
    rewrite (proj2 Ht) in Hk, Hr by (split; [reflexivity|right; left; exact Hrun]). rewrite Hk in Hr. exact Hr.
Defined.
