(* ===== verification/Order.v ===== *)
(** * Comparisons chained as the sources chain them

    [Ord::cmp], [Ordering::then] and the derived order of tuples and vectors, with the laws that
    make a [sort_by] of such a chain a canonical form of its elements. *)

From S2P Require Import Prelude RustStr.

(** A three-way comparison that is a total order. *)
Class TotalCmp {A} (cmp : A → A → comparison) : Prop := {
  cmp_eq a b : cmp a b = Eq ↔ a = b;
  cmp_flip a b : cmp b a = CompOpp (cmp a b);
  cmp_lt_trans a b c : cmp a b = Lt → cmp b c = Lt → cmp a c = Lt
}.

(** [Ordering::then]. *)
Definition then_cmp (c d : comparison) : comparison := match c with Eq => d | _ => c end.

(** "Does not come after", as [sort_by] uses a comparison. *)
Definition leb_of {A} (cmp : A → A → comparison) (a b : A) : bool := match cmp a b with Gt => false | _ => true end.

Definition str_cmp (a b : rstr) : comparison := if a == b then Eq else if str_leb a b then Lt else Gt.

Definition bool_cmp (a b : bool) : comparison :=
  match a, b with false, true => Lt | true, false => Gt | _, _ => Eq end.

Definition pair_cmp {A B} (cmp1 : A → A → comparison) (cmp2 : B → B → comparison) (a b : A * B) : comparison :=
  then_cmp (cmp1 a.1 b.1) (cmp2 a.2 b.2).

Fixpoint list_cmp {A} (cmp : A → A → comparison) (a b : list A) : comparison :=
  match a, b with
  | [], [] => Eq
  | [], _ => Lt
  | _, [] => Gt
  | x :: a, y :: b => then_cmp (cmp x y) (list_cmp cmp a b)
  end.

Section laws.
Context {A : Type} (cmp : A → A → comparison) `{!TotalCmp cmp}.

Lemma cmp_refl a : cmp a a = Eq.
Proof. by apply cmp_eq. Qed.

Lemma leb_of_total a b : leb_of cmp a b = true ∨ leb_of cmp b a = true.
Proof. unfold leb_of. rewrite (cmp_flip a b). destruct (cmp a b); auto. Qed.

Lemma leb_of_trans a b c : leb_of cmp a b = true → leb_of cmp b c = true → leb_of cmp a c = true.
Proof.
  unfold leb_of. intros H1 H2. destruct (cmp a b) eqn:E1; [apply cmp_eq in E1 as ->; done| |done].
  destruct (cmp b c) eqn:E2; [apply cmp_eq in E2 as <-; by rewrite E1| |done].
  by rewrite (cmp_lt_trans _ _ _ E1 E2).
Qed.

Lemma leb_of_antisym a b : leb_of cmp a b = true → leb_of cmp b a = true → a = b.
Proof.
  unfold leb_of. rewrite (cmp_flip a b). destruct (cmp a b) eqn:E; try done. by apply cmp_eq in E.
Qed.

(** The sorted form does not depend on the order of the elements. *)
Lemma sort_by_cmp_canonical l l' : l ≡ₚ l' → sort_by (leb_of cmp) l = sort_by (leb_of cmp) l'.
Proof. apply sort_by_Permutation_eq; eauto using leb_of_total, leb_of_trans, leb_of_antisym. Qed.

Lemma then_cmp_trans (a b c : A) (d1 d2 d3 : comparison) :
  (d1 = Lt → d2 = Lt → d3 = Lt) →
  then_cmp (cmp a b) d1 = Lt → then_cmp (cmp b c) d2 = Lt → then_cmp (cmp a c) d3 = Lt.
Proof.
  intros Hd. destruct (cmp a b) eqn:E1; cbn [then_cmp]; [apply cmp_eq in E1 as ->| |done].
  - destruct (cmp b c); cbn [then_cmp]; auto.
  - destruct (cmp b c) eqn:E2; cbn [then_cmp]; [apply cmp_eq in E2 as <-; by rewrite E1| |done].
    by rewrite (cmp_lt_trans _ _ _ E1 E2).
Qed.
End laws.

#[export] Instance str_cmp_total : TotalCmp str_cmp.
Proof.
  unfold str_cmp. split.
  - intros a b. case_bool_decide; [done|]. destruct (str_leb a b); naive_solver.
  - intros a b. destruct (decide (a = b)) as [->|Hne]; [by rewrite bool_decide_true|].
    rewrite !bool_decide_false by congruence.
    destruct (str_leb a b) eqn:E1, (str_leb b a) eqn:E2; try done.
    + destruct Hne. by apply str_leb_antisym.
    + destruct (str_leb_total a b); congruence.
  - assert (Hlt : ∀ a b, (if a == b then Eq else if str_leb a b then Lt else Gt) = Lt ↔ a ≠ b ∧ str_leb a b = true).
    { intros a b. case_bool_decide; [naive_solver|]. destruct (str_leb a b); naive_solver. }
    intros a b c. rewrite !Hlt. intros [Hab H1] [Hbc H2]. split; [|by eapply str_leb_trans].
    intros ->. by apply Hab, str_leb_antisym.
Qed.

#[export] Instance bool_cmp_total : TotalCmp bool_cmp.
Proof. split; [by intros [] []|by intros [] []|by intros [] [] []]. Qed.

#[export] Instance pair_cmp_total {A B} (cmp1 : A → A → comparison) (cmp2 : B → B → comparison)
  `{!TotalCmp cmp1} `{!TotalCmp cmp2} : TotalCmp (pair_cmp cmp1 cmp2).
Proof.
  unfold pair_cmp. split.
  - intros [a a'] [b b']. cbn [fst snd]. destruct (cmp1 a b) eqn:E; cbn [then_cmp].
    + apply cmp_eq in E. rewrite cmp_eq. naive_solver.
    + split; [done|]. intros [= -> ->]. by rewrite cmp_refl in E.
    + split; [done|]. intros [= -> ->]. by rewrite cmp_refl in E.
  - intros [a a'] [b b']. cbn [fst snd]. rewrite (cmp_flip (cmp := cmp1) a b), (cmp_flip (cmp := cmp2) a' b'). by destruct (cmp1 a b).
  - intros [a a'] [b b'] [c c']. cbn [fst snd]. apply (then_cmp_trans cmp1). apply cmp_lt_trans.
Qed.

#[export] Instance list_cmp_total {A} (cmp : A → A → comparison) `{!TotalCmp cmp} : TotalCmp (list_cmp cmp).
Proof.
  split.
  - induction a as [|x a IH]; intros [|y b]; cbn [list_cmp]; try done.
    destruct (cmp x y) eqn:E; cbn [then_cmp].
    + apply cmp_eq in E. rewrite IH. naive_solver.
    + split; [done|]. intros [= -> ->]. by rewrite cmp_refl in E.
    + split; [done|]. intros [= -> ->]. by rewrite cmp_refl in E.
  - induction a as [|x a IH]; intros [|y b]; cbn [list_cmp]; try done.
    rewrite (cmp_flip (cmp := cmp) x y), IH. by destruct (cmp x y).
  - induction a as [|x a IH]; intros [|y b] [|z c]; cbn [list_cmp]; try done.
    by apply (then_cmp_trans cmp), IH.
Qed.

(** A chain over the fields of a record is the order of the tuple of the fields. *)
Lemma keyed_total {A K} (key : A → K) (cmp : K → K → comparison) `{!TotalCmp cmp} :
  Inj (=) (=) key → TotalCmp (λ a b, cmp (key a) (key b)).
Proof.
  intros Hk. split.
  - intros a b. rewrite cmp_eq. split; [apply Hk|by intros ->].
  - intros a b. apply cmp_flip.
  - intros a b c. apply cmp_lt_trans.
Qed.
