(* ===== verification/DockerCollector.v ===== *)
(** * The Docker observation ([crates/dockermap-daemon/src/docker_collector.rs])

    What the collector makes of the three inventory reads of the gateway: the snapshot, with
    the members of networks and volumes, the ports and the mounts of the containers; and the
    bounded list of containers a Compose binding may use. The answers of the Docker client are
    arguments; their records have the fields the collector reads. *)

From S2P Require Import Prelude RustStr RustNum Models Order Paths Boundary ComposeBinding.

(** ** The records of the Docker client *)

Inductive PortTypeEnum := PT_Empty | PT_Tcp | PT_Udp | PT_Sctp.
Inductive MountPointTypeEnum := MT_Bind | MT_Volume | MT_Other.

#[export] Instance PortTypeEnum_eq_dec : EqDecision PortTypeEnum. Proof. solve_decision. Defined.
#[export] Instance MountPointTypeEnum_eq_dec : EqDecision MountPointTypeEnum. Proof. solve_decision. Defined.

Record Port := { p_ip : option rstr; p_private_port : N; p_public_port : option N; p_typ : option PortTypeEnum }.

Record MountPoint := {
  mp_typ : option MountPointTypeEnum;
  mp_name : option rstr;
  mp_source : option rstr;
  mp_destination : option rstr;
  mp_rw : option bool
}.

(** The networks are listed in the order in which the client's map yields them; of an endpoint
    only its network id is read. *)
Record ContainerSummary := {
  cs_id : option rstr;
  cs_names : option (list rstr);
  cs_image : option rstr;
  cs_status : option rstr;
  cs_labels : option (gmap rstr rstr);
  cs_networks : option (list (rstr * option rstr));
  cs_ports : option (list Port);
  cs_mounts : option (list MountPoint)
}.

Record Network := { nw_id : option rstr; nw_name : option rstr; nw_driver : option rstr; nw_internal : option bool }.

(** ** One container *)

Definition port_type_debug (t : PortTypeEnum) : rstr :=
  match t with PT_Empty => "EMPTY" | PT_Tcp => "TCP" | PT_Udp => "UDP" | PT_Sctp => "SCTP" end.

Definition port_text (port : Port) : rstr :=
  let public := default 0%N (p_public_port port) in
  let kind := match p_typ port with Some t => to_ascii_lowercase (port_type_debug t) | None => "tcp" end in
  if (0 <? public)%N then dec_str public +s+ ":" +s+ dec_str (p_private_port port) +s+ "/" +s+ kind
  else dec_str (p_private_port port) +s+ "/" +s+ kind.

Definition is_valid_unspecified_address_publication (port : Port) : bool :=
  one_of (p_ip port) [Some ("0.0.0.0" : rstr); Some ("::" : rstr)]
  && is_some_and (p_public_port port) (λ value, (0 <? value)%N) && (0 <? p_private_port port)%N
  && one_of (p_typ port) [Some PT_Tcp; Some PT_Udp; Some PT_Sctp].

Definition mount_kind (mount : MountPoint) : ComposeMountKind :=
  match mp_typ mount with
  | Some MT_Bind => Bind
  | Some MT_Volume => if is_some (mp_name mount) then NamedVolume else AnonymousVolume
  | _ => Unsupported
  end.

Definition mount_source (mount : MountPoint) : option rstr :=
  match mount_kind mount with
  | Bind => mp_source mount
  | NamedVolume => or_else (mp_name mount) (mp_source mount)
  | AnonymousVolume => None
  | Unsupported => or_else (mp_source mount) (mp_name mount)
  end.

Definition container_mount (container_id : rstr) (mount : MountPoint) : option ContainerMount :=
  target ← mp_destination mount;
  Some {|
    cm_id := container_id +s+ ":" +s+ target +s+ ":" +s+ default ("anonymous" : rstr) (mount_source mount);
    cm_kind := mount_kind mount; cm_source := mount_source mount; cm_target := target;
    cm_read_only := match mp_rw mount with Some rw => negb rw | None => false end |}.

Definition collect_container_mounts (container_id : rstr) (mounts : option (list MountPoint)) : list ContainerMount :=
  omap (container_mount container_id) (default [] mounts).

(** The service names of a [com.docker.compose.depends_on] label. *)
Definition parse_depends_on_label (value : rstr) : list rstr :=
  (λ name, "container_" +s+ name)
    <$> filterb (λ name, name != []) ((λ item, trim (default [] (head (split_char 58 item)))) <$> split_char 44 value).

Definition label (c : ContainerSummary) (name : rstr) : option rstr := labels ← cs_labels c; labels !! name.

Definition container_id (c : ContainerSummary) : rstr := default ("unknown-container" : rstr) (cs_id c).

(** The first name without its leading slashes, or the id. *)
Definition container_name (c : ContainerSummary) : rstr :=
  match cs_names c with
  | Some (name :: _) => drop_while (λ ch, (ch =? 47)%N) name
  | _ => container_id c
  end.

Definition network_ids (c : ContainerSummary) : list rstr := omap snd (default [] (cs_networks c)).

Definition container_record (c : ContainerSummary) : ContainerRecord :=
  let ports := default [] (cs_ports c) in {|
  c_id := container_id c; c_name := container_name c;
  c_image := default ("unknown" : rstr) (cs_image c); c_status := default ("unknown" : rstr) (cs_status c);
  c_role := default ("service" : rstr) (label c "com.docker.compose.service");
  c_networks := network_ids c; c_ports := port_text <$> ports;
  c_publishes_on_unspecified_address := existsb is_valid_unspecified_address_publication ports;
  c_mounts := collect_container_mounts (container_id c) (cs_mounts c);
  c_depends_on := match label c "com.docker.compose.depends_on" with Some value => parse_depends_on_label value | None => [] end |}.

(** ** The snapshot *)

(** A [BTreeMap<String, BTreeSet<String>>], one more element under a key. *)
Abbreviation Sets := (gmap rstr (gset rstr)).
Definition insert_into (sets : Sets) (key name : rstr) : Sets := <[key := {[name]} ∪ default ∅ (sets !! key)]> sets.

(** The iteration of a [BTreeSet<String>]. *)
Definition set_iter (X : gset rstr) : list rstr := sort_by str_leb (elements X).

(** The volume names of the mounts of a container. *)
Definition volume_names (c : ContainerSummary) : list rstr := omap mp_name (default [] (cs_mounts c)).

(** The loop over the containers: both maps of sets and the records. *)
Definition container_step (state : Sets * Sets * list ContainerRecord) (c : ContainerSummary) : Sets * Sets * list ContainerRecord :=
  let '(members, volumes, records) := state in
  let name := container_name c in
  (foldl (λ sets id, insert_into sets id name) members (network_ids c),
   foldl (λ sets volume, insert_into sets volume name) volumes (volume_names c),
   records ++ [container_record c]).

(** [remove(&key).unwrap_or_default()], in order. *)
Definition take_set (sets : Sets) (key : rstr) : list rstr * Sets := (set_iter (default ∅ (sets !! key)), delete key sets).

Fixpoint network_records (members : Sets) (networks : list Network) : list NetworkRecord :=
  match networks with
  | [] => []
  | network :: networks =>
      let id := default ("unknown-network" : rstr) (nw_id network) in
      let '(names, members) := take_set members id in
      {| n_id := id; n_name := default ("unnamed" : rstr) (nw_name network);
         n_driver := default ("bridge" : rstr) (nw_driver network);
         n_internal := default false (nw_internal network); n_members := names |}
      :: network_records members networks
  end.

Definition network_cmp (l r : NetworkRecord) : comparison :=
  then_cmp (str_cmp (n_id l) (n_id r)) (then_cmp (str_cmp (n_name l) (n_name r))
    (then_cmp (str_cmp (n_driver l) (n_driver r)) (then_cmp (bool_cmp (n_internal l) (n_internal r))
      (list_cmp str_cmp (n_members l) (n_members r))))).

(** The volumes are known by their names. *)
Fixpoint volume_records (volumes : Sets) (names : list rstr) : list VolumeRecord :=
  match names with
  | [] => []
  | name :: names =>
      let '(attached, volumes) := take_set volumes name in
      {| v_id := name; v_name := name; v_attached_to := attached |} :: volume_records volumes names
  end.

Definition volume_cmp (l r : VolumeRecord) : comparison :=
  then_cmp (str_cmp (v_id l) (v_id r)) (then_cmp (str_cmp (v_name l) (v_name r))
    (list_cmp str_cmp (v_attached_to l) (v_attached_to r))).

Definition build_snapshot (containers : list ContainerSummary) (networks : list Network)
    (volumes : option (list rstr)) (now : N) : DockerSnapshot :=
  let '(member_sets, volume_sets, container_records) := foldl container_step (∅, ∅, []) containers in {|
  s_containers := container_records; s_images := [];
  s_networks := sort_by (leb_of network_cmp) (network_records member_sets networks);
  s_volumes := sort_by (leb_of volume_cmp) (volume_records volume_sets (default [] volumes));
  s_last_updated := now; s_model_revision := []; s_source := None |}.

(** ** The containers a Compose binding may use *)

Definition MAX_CONFIG_LABEL_CHARS : nat := 4096.

(** [mounts_by_id]: of two containers with one id, the last. *)
Definition mounts_by_id (s : DockerSnapshot) : gmap rstr (list ContainerMount) :=
  foldl (λ m c, <[c_id c := c_mounts c]> m) ∅ (s_containers s).

Definition config_file_set (value : rstr) : gset rstr :=
  list_to_set (filterb (λ file, file != []) (trim <$> split_char 44 value)).

(** [is_exact_docker_container_id]. *)
Definition is_exact_docker_container_id (value : rstr) : bool :=
  (str_len value =? 64)%nat
  && forallb (λ byte, is_ascii_digit byte || ((97 <=? byte)%N && (byte <=? 102)%N)) (utf8_bytes value).

(** One iteration: the candidate, unless the container is skipped. *)
Definition compose_container (mounts : gmap rstr (list ContainerMount)) (c : ContainerSummary) : option ComposeRuntimeContainer :=
  project ← trim <$> label c "com.docker.compose.project";
  service ← trim <$> label c "com.docker.compose.service";
  config_label ← label c "com.docker.compose.project.config_files";
  if (MAX_CONFIG_LABEL_CHARS <? char_count config_label)%nat then None else
  let config_files := config_file_set config_label in
  id ← cs_id c;
  if (project == []) || (service == []) || (259 <? char_count project)%nat || (259 <? char_count service)%nat
     || (config_files == ∅) || (MAX_COMPOSE_RUNTIME_BINDING_CONFIG_FILES <? size config_files)%nat
     || negb (is_exact_docker_container_id id)
  then None else
  mounts ← mounts !! id;
  if (MAX_RUNTIME_MOUNTS_PER_BOUND_CONTAINER <? length mounts)%nat then None else
  Some {| crc_container_id := id; crc_project := project; crc_service := service;
          crc_config_files := config_files; crc_mounts := mounts |}.

(** The loop, which gives up at the first candidate above the bound. *)
Fixpoint compose_containers_loop (mounts : gmap rstr (list ContainerMount)) (acc : list ComposeRuntimeContainer)
    (containers : list ContainerSummary) : option (list ComposeRuntimeContainer) :=
  match containers with
  | [] => Some acc
  | c :: containers =>
      match compose_container mounts c with
      | None => compose_containers_loop mounts acc containers
      | Some candidate =>
          let acc := acc ++ [candidate] in
          if (MAX_COMPOSE_RUNTIME_BINDING_CONTAINERS <? length acc)%nat then None
          else compose_containers_loop mounts acc containers
      end
  end.

Record DockerObservation := {
  do_snapshot : DockerSnapshot;
  do_compose_containers : option (list ComposeRuntimeContainer)
}.

(** [DockerCollector::docker_filters]. *)
Definition docker_filters (label_filter : option rstr) : option (list (rstr * list rstr)) :=
  (λ label, [("label" : rstr, [label])]) <$> label_filter.

(** The client: the three lists, with the filters they are asked with, or the error. *)
Record DockerClient := {
  list_containers : option (list (rstr * list rstr)) → list ContainerSummary + rstr;
  list_networks : option (list (rstr * list rstr)) → list Network + rstr;
  list_volumes : option (list (rstr * list rstr)) → option (list rstr) + rstr
}.

Definition collect_observation (client : DockerClient) (label_filter : option rstr) (now : N) : DockerObservation + rstr :=
  let filters := docker_filters label_filter in
  match list_containers client filters with
  | inr error => inr ("list_containers failed: " +s+ error)
  | inl containers =>
      match list_networks client filters with
      | inr error => inr ("list_networks failed: " +s+ error)
      | inl networks =>
          match list_volumes client filters with
          | inr error => inr ("list_volumes failed: " +s+ error)
          | inl volumes =>
              let snapshot := build_snapshot containers networks volumes now in
              inl {| do_snapshot := snapshot;
                     do_compose_containers := compose_containers_loop (mounts_by_id snapshot) [] containers |}
          end
      end
  end.

(** ** Members of networks and volumes *)

Lemma lookup_insert_into sets key name k x :
  x ∈ default ∅ (insert_into sets key name !! k) ↔ x ∈ default ∅ (sets !! k) ∨ (k = key ∧ x = name).
Proof.
  unfold insert_into. destruct (decide (k = key)) as [->|Hk].
  - rewrite lookup_insert_eq. cbn [default from_option id]. set_solver.
  - rewrite lookup_insert_ne by done. naive_solver.
Qed.

Lemma lookup_insert_all sets keys name k x :
  x ∈ default ∅ (foldl (λ sets key, insert_into sets key name) sets keys !! k) ↔
  x ∈ default ∅ (sets !! k) ∨ (k ∈ keys ∧ x = name).
Proof.
  revert sets. induction keys as [|key keys IH]; intros sets; cbn [foldl]; [set_solver|].
  rewrite IH, lookup_insert_into. set_solver.
Qed.

(** What the loop over the containers leaves. *)
Lemma container_loop cs state :
  let '(members, volumes, records) := state in
  let '(members', volumes', records') := foldl container_step state cs in
  records' = records ++ (container_record <$> cs) ∧
  (∀ k x, x ∈ default ∅ (members' !! k) ↔
     x ∈ default ∅ (members !! k) ∨ ∃ c, c ∈ cs ∧ k ∈ network_ids c ∧ x = container_name c) ∧
  (∀ k x, x ∈ default ∅ (volumes' !! k) ↔
     x ∈ default ∅ (volumes !! k) ∨ ∃ c, c ∈ cs ∧ k ∈ volume_names c ∧ x = container_name c).
Proof.
  revert state. induction cs as [|c cs IH]; intros [[members volumes] records]; cbn [foldl].
  - rewrite fmap_nil, app_nil_r. split_and!; set_solver.
  - specialize (IH (container_step (members, volumes, records) c)). cbn [container_step] in IH |- *.
    destruct (foldl container_step _ cs) as [[members' volumes'] records']. destruct IH as (-> & Hm & Hv).
    rewrite <- app_assoc. split_and!; [done|..]; intros k x.
    + rewrite Hm, lookup_insert_all. set_solver.
    + rewrite Hv, lookup_insert_all. set_solver.
Qed.

(** The names of the containers with a key, in order and without repetition. *)
Definition names_with (keys : ContainerSummary → list rstr) (cs : list ContainerSummary) (key : rstr) : list rstr :=
  btree_set (container_name <$> filterb (λ c, one_of key (keys c)) cs).

Lemma elem_of_names_with (keys : ContainerSummary → list rstr) cs (key x : rstr) :
  x ∈ container_name <$> filterb (λ c, one_of key (keys c)) cs ↔ ∃ c, c ∈ cs ∧ key ∈ keys c ∧ x = container_name c.
Proof.
  rewrite list_elem_of_fmap. setoid_rewrite elem_of_filterb. unfold one_of.
  setoid_rewrite bool_decide_eq_true. naive_solver.
Qed.

Definition network_id (n : Network) : rstr := default ("unknown-network" : rstr) (nw_id n).

(** The record of a network on its own. *)
Definition network_record (cs : list ContainerSummary) (n : Network) : NetworkRecord := {|
  n_id := network_id n; n_name := default ("unnamed" : rstr) (nw_name n);
  n_driver := default ("bridge" : rstr) (nw_driver n); n_internal := default false (nw_internal n);
  n_members := names_with network_ids cs (network_id n) |}.

Definition volume_record (cs : list ContainerSummary) (name : rstr) : VolumeRecord := {|
  v_id := name; v_name := name; v_attached_to := names_with volume_names cs name |}.

(** The sets hold the names of the containers for every key in [keys]. *)
Definition sets_for (keys_of : ContainerSummary → list rstr) (cs : list ContainerSummary) (sets : Sets) (keys : list rstr) : Prop :=
  ∀ k x, k ∈ keys → x ∈ default ∅ (sets !! k) ↔ ∃ c, c ∈ cs ∧ k ∈ keys_of c ∧ x = container_name c.

Lemma sets_for_take keys_of cs sets key keys : sets_for keys_of cs sets (key :: keys) → key ∉ keys →
  set_iter (default ∅ (sets !! key)) = names_with keys_of cs key ∧ sets_for keys_of cs (delete key sets) keys.
Proof.
  intros Hs Hk. split.
  - unfold set_iter. apply btree_set_canonical. intros x. rewrite elem_of_names_with. apply Hs. by left.
  - intros k x Hin. rewrite lookup_delete_ne by (intros ->; done). apply Hs. by right.
Qed.

Lemma network_records_spec cs networks members :
  NoDup (network_id <$> networks) → sets_for network_ids cs members (network_id <$> networks) →
  network_records members networks = network_record cs <$> networks.
Proof.
  revert members. induction networks as [|n networks IH]; intros members Hn Hs; [done|].
  rewrite fmap_cons in Hn, Hs. apply NoDup_cons in Hn as [Hk Hn].
  destruct (sets_for_take _ _ _ _ _ Hs Hk) as [Ht Hd].
  cbn [network_records]. change (default _ (nw_id n)) with (network_id n). unfold take_set. cbv beta iota.
  rewrite Ht, IH by done. done.
Qed.

Lemma volume_records_spec cs names volumes :
  NoDup names → sets_for volume_names cs volumes names → volume_records volumes names = volume_record cs <$> names.
Proof.
  revert volumes. induction names as [|name names IH]; intros volumes Hn Hs; [done|].
  apply NoDup_cons in Hn as [Hk Hn]. destruct (sets_for_take _ _ _ _ _ Hs Hk) as [Ht Hd].
  cbn [volume_records]. unfold take_set. cbv beta iota. by rewrite Ht, IH.
Qed.

#[export] Instance network_cmp_total : TotalCmp network_cmp.
Proof.
  apply (keyed_total (λ n, (n_id n, (n_name n, (n_driver n, (n_internal n, n_members n)))))
    (pair_cmp str_cmp (pair_cmp str_cmp (pair_cmp str_cmp (pair_cmp bool_cmp (list_cmp str_cmp)))))).
  intros [] []. cbn. naive_solver.
Qed.

#[export] Instance volume_cmp_total : TotalCmp volume_cmp.
Proof.
  apply (keyed_total (λ v, (v_id v, (v_name v, v_attached_to v))) (pair_cmp str_cmp (pair_cmp str_cmp (list_cmp str_cmp)))).
  intros [] []. cbn. naive_solver.
Qed.

(** C29: The snapshot has a record of every container, in Docker's order; a record of every network and
    volume, in an order that does not depend on Docker's, whose members are the names of the
    containers attached to it and nothing else. *)
Theorem build_snapshot_spec cs networks volumes now :
  NoDup (network_id <$> networks) → NoDup (default [] volumes) →
  let s := build_snapshot cs networks volumes now in
  s_containers s = container_record <$> cs ∧ s_images s = [] ∧ s_last_updated s = now ∧
  s_networks s = sort_by (leb_of network_cmp) (network_record cs <$> networks) ∧
  s_volumes s = sort_by (leb_of volume_cmp) (volume_record cs <$> default [] volumes) ∧
  (∀ networks' volumes', networks' ≡ₚ networks → default [] volumes' ≡ₚ default [] volumes →
     build_snapshot cs networks' volumes' now = s).
Proof.
  intros Hn Hv.
  assert (Hg : ∀ networks volumes, NoDup (network_id <$> networks) → NoDup (default [] volumes) →
    build_snapshot cs networks volumes now = {|
      s_containers := container_record <$> cs; s_images := [];
      s_networks := sort_by (leb_of network_cmp) (network_record cs <$> networks);
      s_volumes := sort_by (leb_of volume_cmp) (volume_record cs <$> default [] volumes);
      s_last_updated := now; s_model_revision := []; s_source := None |}).
  { clear. intros networks volumes Hn Hv. unfold build_snapshot.
    pose proof (container_loop cs (∅, ∅, [])) as Hl.
    destruct (foldl container_step _ cs) as [[members sets] records]. destruct Hl as (-> & Hm & Hs).
    rewrite (network_records_spec cs), (volume_records_spec cs); [done|done|..|done|].
    - intros k x _. rewrite Hs, lookup_empty. set_solver.
    - intros k x _. rewrite Hm, lookup_empty. set_solver. }
  cbv zeta. rewrite Hg by done. split_and!; try done.
  intros networks' volumes' Pn Pv. rewrite Hg by (by rewrite ?Pn, ?Pv). f_equal.
  - apply (sort_by_cmp_canonical network_cmp). by rewrite Pn.
  - apply (sort_by_cmp_canonical volume_cmp). by rewrite Pv.
Qed.

(** ** Candidates of a Compose binding *)

Lemma compose_containers_loop_spec mounts cs acc : length acc ≤ MAX_COMPOSE_RUNTIME_BINDING_CONTAINERS →
  compose_containers_loop mounts acc cs =
  let all := acc ++ omap (compose_container mounts) cs in
  if (MAX_COMPOSE_RUNTIME_BINDING_CONTAINERS <? length all)%nat then None else Some all.
Proof.
  cbv zeta. revert acc. induction cs as [|c cs IH]; intros acc Hacc; cbn [compose_containers_loop].
  - cbn [omap list_omap]. rewrite app_nil_r. by rewrite (proj2 (Nat.ltb_ge _ _)).
  - cbn [omap list_omap]. destruct (compose_container mounts c) as [k|]; [|by apply IH].
    destruct (Nat.ltb_spec MAX_COMPOSE_RUNTIME_BINDING_CONTAINERS (length (acc ++ [k]))) as [Hlt|Hge].
    + rewrite (proj2 (Nat.ltb_lt _ _)); [done|]. rewrite !length_app in *. cbn [length] in *. lia.
    + rewrite IH by done. by rewrite <- app_assoc.
Qed.

Lemma lookup_mounts_by_id records (m : gmap rstr (list ContainerMount)) id mounts :
  foldl (λ m c, <[c_id c := c_mounts c]> m) m records !! id = Some mounts →
  m !! id = Some mounts ∨ ∃ record, record ∈ records ∧ c_id record = id ∧ c_mounts record = mounts.
Proof.
  revert m. induction records as [|r records IH]; intros m; cbn [foldl]; [by left|].
  intros [H|(record & ? & ?)]%IH; [|right; exists record; set_solver].
  destruct (decide (c_id r = id)) as [<-|Hne].
  - rewrite lookup_insert_eq in H. injection H as <-. right. exists r. set_solver.
  - rewrite lookup_insert_ne in H by done. by left.
Qed.

Lemma same_container_id_check value : is_exact_docker_container_id value = is_docker_container_id value.
Proof. reflexivity. Qed.

(** What a candidate is made of. *)
Lemma compose_container_inv mounts c k : compose_container mounts c = Some k →
  cs_id c = Some (crc_container_id k) ∧
  trim <$> label c "com.docker.compose.project" = Some (crc_project k) ∧
  trim <$> label c "com.docker.compose.service" = Some (crc_service k) ∧
  (∃ files, label c "com.docker.compose.project.config_files" = Some files ∧ crc_config_files k = config_file_set files) ∧
  mounts !! crc_container_id k = Some (crc_mounts k) ∧
  container_rejected k = existsb too_long (elements (crc_config_files k)).
Proof.
  unfold compose_container.
  destruct (label c "com.docker.compose.project") as [project|]; [|done].
  destruct (label c "com.docker.compose.service") as [service|]; [|done].
  destruct (label c "com.docker.compose.project.config_files") as [files|]; [|done].
  cbn [fmap option_fmap option_map mbind option_bind]. destruct (_ <? _)%nat; [done|]. cbv zeta.
  destruct (cs_id c) as [id|]; [|done]. cbn [mbind option_bind].
  destruct (_ || negb _) eqn:Eg; [done|]. bool_unfold.
  destruct (mounts !! id) as [ms|] eqn:Em; [|done]. cbn [mbind option_bind].
  destruct (MAX_RUNTIME_MOUNTS_PER_BOUND_CONTAINER <? _)%nat eqn:El; [done|]. intros [= <-].
  cbn [crc_container_id crc_project crc_service crc_config_files crc_mounts].
  split_and!; try done; [by exists files|].
  unfold container_rejected. cbn [crc_container_id crc_project crc_service crc_config_files crc_mounts].
  rewrite same_container_id_check in *.
  match goal with H : is_docker_container_id id = true |- _ => rename H into Hid end. rewrite Hid.
  assert (Hlen : str_len id = 64) by (by unfold is_docker_container_id in Hid; apply andb_prop in Hid as [?%Nat.eqb_eq _]).
  assert (id ≠ []) by (by intros ->).
  assert (too_long id = false) as -> by (pose proof (char_count_str_len id); apply Nat.ltb_ge; unfold MAX_PRIVATE_ID_CHARS; lia).
  rewrite !bool_decide_false by done. unfold too_long at 1 2. change MAX_PRIVATE_ID_CHARS with 259.
  repeat match goal with H : (_ <? _)%nat = false |- _ => rewrite H; clear H end.
  cbn [negb orb]. by rewrite orb_false_r.
Qed.

(** An observation has the candidates of a Compose binding in Docker's order, or none at all when there
    are more than [MAX_COMPOSE_RUNTIME_BINDING_CONTAINERS]. A candidate has the id and the
    mounts of a container of the same snapshot and its trimmed project and service labels, and the
    rule that compares declared and actual mounts can refuse it only for an overlong
    configuration file name. *)
Theorem compose_candidates_spec client filter now o :
  collect_observation client filter now = inl o →
  ∃ containers, list_containers client (docker_filters filter) = inl containers ∧
  let candidates := omap (compose_container (mounts_by_id (do_snapshot o))) containers in
  do_compose_containers o =
    (if (MAX_COMPOSE_RUNTIME_BINDING_CONTAINERS <? length candidates)%nat then None else Some candidates) ∧
  ∀ k, k ∈ candidates → container_rejected k = existsb too_long (elements (crc_config_files k)) ∧
    ∃ c record, c ∈ containers ∧ record ∈ s_containers (do_snapshot o) ∧
      cs_id c = Some (crc_container_id k) ∧ c_id record = crc_container_id k ∧ c_mounts record = crc_mounts k ∧
      trim <$> label c "com.docker.compose.project" = Some (crc_project k) ∧
      trim <$> label c "com.docker.compose.service" = Some (crc_service k).
Proof.
  unfold collect_observation. destruct (list_containers _ _) as [containers|] eqn:E1; [|done].
  destruct (list_networks _ _) as [networks|]; [|done]. destruct (list_volumes _ _) as [volumes|]; [|done].
  intros [= <-]. exists containers. split; [done|]. cbv zeta. cbn [do_snapshot do_compose_containers].
  set (s := build_snapshot containers networks volumes now). split.
  - rewrite compose_containers_loop_spec by (cbn; lia). done.
  - intros k (c & Hc & Hk)%list_elem_of_omap.
    destruct (compose_container_inv _ _ _ Hk) as (Hid & Hp & Hs & _ & Hm & Hr). split; [done|].
    unfold mounts_by_id in Hm. apply lookup_mounts_by_id in Hm as [Hm|(record & Hrec & Hri & Hrm)]; [done|].
    by exists c, record.
Qed.

(** ** Dependencies *)

(** A service name: not empty, no white space, comma or colon. *)
Definition service_name_ok (name : rstr) : Prop :=
  name ≠ [] ∧ Forall (λ c, is_whitespace c = false ∧ c ≠ 44%N ∧ c ≠ 58%N) name.

(** Compose's form of one dependency: the service and its condition. *)
Definition dependency_item (d : rstr * rstr) : rstr := d.1 ++ 58%N :: d.2.

Lemma drop_while_none f s : Forall (λ c, f c = false) s → drop_while f s = s.
Proof. destruct 1 as [|c s Hc]; cbn [drop_while]; [done|]. by rewrite Hc. Qed.

Lemma trim_no_whitespace s : Forall (λ c, is_whitespace c = false) s → trim s = s.
Proof.
  intros Hs. unfold trim, trim_start, trim_end. rewrite (drop_while_none _ s) by done.
  rewrite drop_while_none by (by apply Forall_reverse). apply reverse_involutive.
Qed.

(** The label Compose writes for the dependencies of a service is read back as a reference to each of them,
    in order, whatever the conditions. *)
Theorem depends_on_label_roundtrip (deps : list (rstr * rstr)) :
  Forall (λ d, service_name_ok d.1 ∧ 44%N ∉ d.2) deps →
  parse_depends_on_label (join [44%N] (dependency_item <$> deps)) = (λ d, "container_" +s+ d.1) <$> deps.
Proof.
  intros Hd. unfold parse_depends_on_label. destruct (decide (deps = [])) as [->|Hne]; [reflexivity|].
  rewrite split_join; [|by intros ?%fmap_nil_inv|].
  2:{ rewrite Forall_fmap. eapply Forall_impl; [exact Hd|]. intros d [[_ Hn] Hs]. unfold compose, dependency_item.
      rewrite Forall_forall in Hn. intros [H|[H|H]%elem_of_cons]%elem_of_app; [|done|done]. by destruct (Hn _ H) as (_ & ? & _). }
  rewrite <- list_fmap_compose.
  assert (E : ∀ d, d ∈ deps → ((λ item, trim (default [] (head (split_char 58 item)))) ∘ dependency_item) d = d.1).
  { intros d Hin. rewrite Forall_forall in Hd. destruct (Hd d Hin) as [[_ Hn] _]. unfold compose, dependency_item.
    rewrite split_char_app by (rewrite Forall_forall in Hn; intros H; by destruct (Hn _ H) as (_ & _ & ?)).
    cbn [head default from_option id]. apply trim_no_whitespace. eapply Forall_impl; [exact Hn|]. naive_solver. }
  rewrite (Forall_fmap_ext_1 _ fst) by (by apply Forall_forall). rewrite filterb_all.
  - by rewrite <- list_fmap_compose.
  - intros x (d & -> & Hin)%list_elem_of_fmap. rewrite Forall_forall in Hd. destruct (Hd d Hin) as [[Hn _] _].
    apply negb_true_iff. by rewrite bool_decide_eq_false.
Qed.

(** ** Concrete inputs *)

Definition example_id : rstr := replicate 64 97%N.

Definition example_labels : gmap rstr rstr := list_to_map [
  ("com.docker.compose.project" : rstr, "shop" : rstr); ("com.docker.compose.service" : rstr, "web" : rstr);
  ("com.docker.compose.project.config_files" : rstr, "/srv/shop/compose.yml" : rstr);
  ("com.docker.compose.depends_on" : rstr, "db:service_started:false,cache:service_healthy:true" : rstr)].

Definition example_summary : ContainerSummary := {|
  cs_id := Some example_id; cs_names := Some ["/shop-web-1" : rstr]; cs_image := Some ("web:1" : rstr);
  cs_status := Some ("Up 2 hours" : rstr); cs_labels := Some example_labels;
  cs_networks := Some [("front" : rstr, Some ("net1" : rstr)); ("back" : rstr, Some ("net2" : rstr))];
  cs_ports := Some [{| p_ip := Some ("0.0.0.0" : rstr); p_private_port := 80; p_public_port := Some 8080%N; p_typ := Some PT_Tcp |}];
  cs_mounts := Some [{| mp_typ := Some MT_Volume; mp_name := Some ("data" : rstr); mp_source := None;
                        mp_destination := Some ("/data" : rstr); mp_rw := Some true |}] |}.

Definition example_network (id : rstr) : Network :=
  {| nw_id := Some id; nw_name := Some id; nw_driver := None; nw_internal := None |}.

Definition example_client : DockerClient := {|
  list_containers := λ _, inl [example_summary];
  list_networks := λ _, inl [example_network "net2"; example_network "net1"];
  list_volumes := λ _, inl (Some ["data" : rstr]) |}.

Example example_record :
  c_ports (container_record example_summary) = ["8080:80/tcp" : rstr] ∧
  c_publishes_on_unspecified_address (container_record example_summary) = true ∧
  c_depends_on (container_record example_summary) = ["container_db" : rstr; "container_cache" : rstr].
Proof. vm_compute. done. Qed.

Lemma build_snapshot_spec_witness :
  n_members <$> s_networks (build_snapshot [example_summary] [example_network "net2"; example_network "net1"] (Some ["data" : rstr]) 5)
  = [["shop-web-1" : rstr]; ["shop-web-1" : rstr]].
Proof.
  destruct (build_snapshot_spec [example_summary] [example_network "net2"; example_network "net1"] (Some ["data" : rstr]) 5)
    as (_ & _ & _ & Hn & _).
  - decided.
  - decided.
  - rewrite Hn. vm_compute. reflexivity.
Defined.

Lemma compose_candidates_spec_witness :
  ∃ o, collect_observation example_client None 5 = inl o ∧
    (∃ k, do_compose_containers o = Some [k] ∧ crc_container_id k = example_id) ∧
    ∃ containers, list_containers example_client None = inl containers.
Proof.
  destruct (collect_observation example_client None 5) as [o|] eqn:E; [|discriminate E].
  exists o. split; [reflexivity|].
  destruct (compose_candidates_spec example_client None 5 o E) as (containers & Hc & Hk & _).
  split; [|by exists containers]. injection Hc as <-. rewrite Hk. injection E as <-.
  eexists. split; vm_compute; reflexivity.
Defined.

Lemma depends_on_label_roundtrip_witness :
  parse_depends_on_label (join [44%N] (dependency_item <$> [("db" : rstr, "service_started:false" : rstr)]))
  = ["container_db" : rstr].
Proof. apply (depends_on_label_roundtrip [("db" : rstr, "service_started:false" : rstr)]). decided. Defined.
