(* ===== verification/LogSources.v ===== *)
(** * Where log pages come from

    The live log stream of one container ([collect_logs] of
    [crates/dockermap-daemon/src/docker_collector.rs]), the sample entries of the demo
    snapshot ([crates/dockermap-core/src/fixtures.rs]), and the publication both pass before
    they are searched and paged. A live page is asked from Docker with a second-granular
    [until]; the theorems show that this never changes what the precise cursor selects. *)

From S2P Require Import Prelude RustStr RustNum Utf8 Models Logs Redaction.

(** ** Live lines *)

Definition MAX_LOG_CURSOR_TAIL : nat := 4096.
Definition MAX_LOG_MESSAGE_CHARS : nat := 4096.
Definition MAX_LOG_STREAM_CAP : nat := MAX_LOG_CURSOR_TAIL + 1.
Definition i32_max : N := 2147483647.

Definition parse_timestamped_log_line (line : list N) : option (N * rstr) :=
  '(prefix, rest) ← split_once 32 (from_utf8_lossy line);
  timestamp ← parse_rfc3339_nano_millis prefix;
  let message := truncate_chars (trim rest) MAX_LOG_MESSAGE_CHARS in
  if message == [] then None else Some (timestamp, message).

Definition log_tail_count : nat := MAX_LOG_CURSOR_TAIL.

Definition log_until_seconds (cursor_millis : N) : N := N.min (cursor_millis / 1000 + 1) i32_max.

Definition log_entry_id (service : rstr) (timestamp ordinal : N) : rstr :=
  service +s+ "-" +s+ dec_str timestamp +s+ "-" +s+ hex_pad4 ordinal.

Definition log_level (message : rstr) : LogLevel :=
  if contains (to_ascii_lowercase message) "error" then Log_Error
  else if contains (to_ascii_lowercase message) "warn" then Log_Warn
  else Log_Info.

Definition live_entry (service : rstr) (timestamp ordinal : N) (message : rstr) : LogEntry := {|
  le_id := log_entry_id service timestamp ordinal; le_timestamp := timestamp; le_container := service;
  le_level := log_level message; le_message := message |}.

(** The loop over the stream: [seen] counts the lines of a millisecond. *)
Fixpoint collect_entries (service : rstr) (seen : gmap N N) (entries : list LogEntry)
    (stream : list (list N + rstr)) : list LogEntry + rstr :=
  match stream with
  | [] => inl entries
  | inr error :: _ => inr ("docker logs failed: " +s+ error)
  | inl line :: stream =>
      match parse_timestamped_log_line line with
      | None => collect_entries service seen entries stream
      | Some (timestamp, message) =>
          let ordinal := default 0%N (seen !! timestamp) in
          let entries := entries ++ [live_entry service timestamp ordinal message] in
          if (MAX_LOG_STREAM_CAP <=? length entries)%nat then inl entries
          else collect_entries service (<[timestamp := (ordinal + 1)%N]> seen) entries stream
      end
  end.

(** ** Publication *)

Definition publish_entry (entry : LogEntry) : LogEntry := {|
  le_id := redact_runtime_display_text (le_id entry); le_timestamp := le_timestamp entry;
  le_container := redact_runtime_display_text (le_container entry); le_level := le_level entry;
  le_message := redact_runtime_display_text (le_message entry) |}.

Definition publish_log_response (service : option rstr) (entries : list LogEntry) (query : option rstr)
    (cursor : option LogCursor) (limit : nat) : LogsResponse :=
  let '(page, next_cursor) := page_log_entries (publish_entry <$> entries) query cursor limit in
  {| lr_service := redact_runtime_display_text <$> service; lr_entries := page; lr_next_cursor := next_cursor;
     lr_source := None |}.

(** [client service tail until] is the stream the Docker client yields. *)
Definition collect_logs (client : rstr → nat → option N → list (list N + rstr)) (service : rstr)
    (query : option rstr) (cursor : option LogCursor) (limit : nat) : LogsResponse + rstr :=
  let limit := clamp_limit limit in
  let until := (λ cursor, log_until_seconds (millis cursor)) <$> cursor in
  match collect_entries service ∅ [] (client service log_tail_count until) with
  | inl entries => inl (publish_log_response (Some service) entries query cursor limit)
  | inr error => inr error
  end.

(** ** Sample entries *)

(** Whether the debug form of a string shows a character outside ASCII as it is: the
    standard library's tables. *)
Class DebugTables := { debug_printable : N → bool }.

Section samples.
Context `{DebugTables}.

Definition escape_debug_char (c : N) : rstr :=
  if (c =? 0)%N then "\0" else if (c =? 9)%N then "\t" else if (c =? 10)%N then "\n" else if (c =? 13)%N then "\r"
  else if (c =? 34)%N || (c =? 92)%N then [92; c]%N
  else if (if (c <? 128)%N then (32 <=? c)%N && (c <? 127)%N else debug_printable c) then [c]
  else "\u{" +s+ hex_digits (S (N.size_nat c)) c +s+ "}".

(** [format!("{:?}")] of a string and of a vector of strings. *)
Definition debug_str (s : rstr) : rstr := [34%N] ++ (s ≫= escape_debug_char) ++ [34%N].
Definition debug_strs (l : list rstr) : rstr := [91%N] ++ join ", " (debug_str <$> l) ++ [93%N].

(** The three entries of the container at [index]; [now] is the base of the process. *)
Definition sample_entries (now : N) (index : nat) (c : ContainerRecord) : list LogEntry :=
  imap (λ offset (candidate : LogLevel * rstr), {|
    le_id := c_id c +s+ "-" +s+ dec_str (N.of_nat offset);
    le_timestamp := saturating_sub now (N.of_nat (index * 3 + offset) * 15000);
    le_container := c_name c; le_level := candidate.1; le_message := candidate.2 |})
    [(Log_Info, c_name c +s+ " accepted traffic on " +s+ c_role c);
     (Log_Info, c_name c +s+ " attached to " +s+ c_image c);
     (Log_Warn, c_name c +s+ " waiting on dependencies " +s+ debug_strs (c_depends_on c))].

Definition mock_log_entries (now : N) (s : DockerSnapshot) (service : option rstr) : list LogEntry :=
  concat (imap (λ index c,
    match service with
    | Some service_filter => if c_name c != service_filter then [] else sample_entries now index c
    | None => sample_entries now index c
    end) (s_containers s)).

Definition mock_logs (now : N) (s : DockerSnapshot) (service query : option rstr) (cursor : option LogCursor)
    (limit : nat) : LogsResponse :=
  let '(page, next_cursor) := page_log_entries (mock_log_entries now s service) query cursor limit in
  {| lr_service := service; lr_entries := page; lr_next_cursor := next_cursor; lr_source := None |}.
End samples.

(** ** Lines become entries *)

Lemma length_omap_le {A B} (f : A → option B) l : length (omap f l) ≤ length l.
Proof. induction l as [|x l IH]; cbn [omap list_omap length]; [done|]. destruct (f x); cbn [length]; lia. Qed.

(** Entries of parsed lines, numbered within a millisecond. *)
Fixpoint number (service : rstr) (seen : gmap N N) (parsed : list (N * rstr)) : list LogEntry :=
  match parsed with
  | [] => []
  | (timestamp, message) :: parsed =>
      let ordinal := default 0%N (seen !! timestamp) in
      live_entry service timestamp ordinal message
      :: number service (<[timestamp := (ordinal + 1)%N]> seen) parsed
  end.

Lemma length_number service seen parsed : length (number service seen parsed) = length parsed.
Proof. revert seen. induction parsed as [|[ts m] parsed IH]; intros seen; cbn; [done|]. by rewrite IH. Qed.

Lemma number_timestamps service seen parsed : le_timestamp <$> number service seen parsed = parsed.*1.
Proof. revert seen. induction parsed as [|[ts m] parsed IH]; intros seen; cbn; [done|]. by rewrite IH. Qed.

(** A window shorter than the cap is read to its end. *)
Lemma collect_entries_number service (lines : list (list N)) seen entries :
  length entries + length lines < MAX_LOG_STREAM_CAP →
  collect_entries service seen entries (inl <$> lines) =
  inl (entries ++ number service seen (omap parse_timestamped_log_line lines)).
Proof.
  revert seen entries. induction lines as [|line lines IH]; intros seen entries Hl.
  - cbn. by rewrite app_nil_r.
  - rewrite fmap_cons. cbn [collect_entries length omap list_omap] in *.
    destruct (parse_timestamped_log_line line) as [[ts m]|]; [|apply IH; lia]. cbv zeta.
    rewrite (proj2 (Nat.leb_gt _ _)) by (rewrite length_app; cbn [length]; lia).
    rewrite IH by (rewrite length_app; cbn [length]; lia). by rewrite <- app_assoc.
Qed.

(** Keeping whole milliseconds keeps the numbers. *)
Lemma number_filter service (keep : N → bool) parsed seen seen' :
  (∀ ts, keep ts = true → seen !! ts = seen' !! ts) →
  number service seen (filterb (λ p, keep p.1) parsed) = filterb (λ e, keep (le_timestamp e)) (number service seen' parsed).
Proof.
  revert seen seen'. induction parsed as [|[ts m] parsed IH]; intros seen seen' Hs; [done|].
  cbn [filterb number fst]. cbn [live_entry le_timestamp]. destruct (keep ts) eqn:E.
  - cbn [number]. rewrite (Hs ts E). f_equal. apply IH. intros t Ht.
    destruct (decide (t = ts)) as [->|]; [by rewrite !lookup_insert_eq|]. rewrite !lookup_insert_ne by done. by apply Hs.
  - apply IH. intros t Ht. rewrite lookup_insert_ne by congruence. by apply Hs.
Qed.

(** ** Dropping entries in front of a cursor *)

Section sorted_filter.
Context {A : Type} (leb : A → A → bool).
Context (Htotal : ∀ x y, leb x y = true ∨ leb y x = true).
Context (Htrans : ∀ x y z, leb x y = true → leb y z = true → leb x z = true).

Lemma insert_by_head x l : Forall (λ y, leb x y = true) l → insert_by leb x l = x :: l.
Proof. destruct 1 as [|y l Hy]; cbn [insert_by]; [done|]. by rewrite Hy. Qed.

Lemma filterb_insert_by f x l : StronglySorted (λ a b, leb a b = true) l →
  filterb f (insert_by leb x l) = if f x then insert_by leb x (filterb f l) else filterb f l.
Proof.
  induction 1 as [|y l Hs IH Hy]; cbn [insert_by filterb]; [by destruct (f x)|].
  destruct (leb x y) eqn:E.
  - cbn [filterb]. destruct (f x) eqn:Ex; [|done]. symmetry. rewrite insert_by_head; [by destruct (f y)|].
    assert (Hall : Forall (λ z, leb x z = true) l) by (eapply Forall_impl; [exact Hy|]; eauto).
    rewrite Forall_forall in Hall |- *. intros z Hz. destruct (f y).
    + apply elem_of_cons in Hz as [->|Hz]; [done|]. apply elem_of_filterb in Hz as [_ Hz]. by apply Hall.
    + apply elem_of_filterb in Hz as [_ Hz]. by apply Hall.
  - cbn [filterb]. rewrite IH. destruct (f y) eqn:Ey, (f x); try done. cbn [insert_by]. by rewrite E.
Qed.

Lemma filterb_sort_by f l : filterb f (sort_by leb l) = sort_by leb (filterb f l).
Proof.
  induction l as [|x l IH]; [done|]. cbn [sort_by foldr filterb]. fold (sort_by leb l).
  rewrite filterb_insert_by by (by apply sort_by_sorted). rewrite IH. by destruct (f x).
Qed.
End sorted_filter.

Lemma filterb_comm {A} (f g : A → bool) l : filterb f (filterb g l) = filterb g (filterb f l).
Proof.
  induction l as [|x l IH]; [done|]. cbn [filterb].
  destruct (f x) eqn:Ef, (g x) eqn:Eg; cbn [filterb]; rewrite ?Ef, ?Eg, IH; done.
Qed.

Lemma after_cursor_filter c seen (keep : N → bool) l :
  (∀ ts, keep ts = false → (millis c < ts)%N) →
  after_cursor c seen (filterb (λ e, keep (le_timestamp e)) l) = after_cursor c seen l.
Proof.
  intros Hk. revert seen. induction l as [|e l IH]; intros seen; [done|]. cbn [filterb].
  destruct (keep (le_timestamp e)) eqn:E; cbn [after_cursor].
  - rewrite !IH. done.
  - apply Hk in E. rewrite (proj2 (N.ltb_ge _ _)), (proj2 (N.ltb_lt _ _)) by lia. apply IH.
Qed.

Lemma entries_behind_filter entries query c (keep : N → bool) :
  (∀ ts, keep ts = false → (millis c < ts)%N) →
  entries_behind (filterb (λ e, keep (le_timestamp e)) entries) query (Some c) = entries_behind entries query (Some c).
Proof.
  intros Hk. unfold entries_behind. rewrite filterb_comm, <- filterb_sort_by.
  - by apply after_cursor_filter.
  - intros x y. unfold newest_first. rewrite !N.leb_le. lia.
  - intros x y z. unfold newest_first. rewrite !N.leb_le. lia.
Qed.

Lemma page_filter entries query c limit (keep : N → bool) :
  (∀ ts, keep ts = false → (millis c < ts)%N) →
  page_log_entries (filterb (λ e, keep (le_timestamp e)) entries) query (Some c) limit = page_log_entries entries query (Some c) limit.
Proof. intros Hk. unfold page_log_entries. by rewrite (entries_behind_filter _ _ _ _ Hk). Qed.

(** A page holds entries of the source only. *)
Lemma entries_behind_sub entries query cursor e : e ∈ entries_behind entries query cursor → e ∈ entries.
Proof.
  unfold entries_behind. intros He.
  assert (Hs : e ∈ sort_by newest_first (filterb (entry_matches query) entries)).
  { destruct cursor as [c|]; [|done]. revert He. generalize 0%N.
    induction (sort_by _ _) as [|x l IH]; intros seen; cbn [after_cursor]; [done|].
    repeat case_match; rewrite ?elem_of_cons; naive_solver. }
  apply elem_of_sort_by, elem_of_filterb in Hs. tauto.
Qed.

Lemma page_sub entries query cursor limit e : e ∈ (page_log_entries entries query cursor limit).1 → e ∈ entries.
Proof. unfold page_log_entries. intros He%subseteq_take. by eapply entries_behind_sub. Qed.

(** ** Live pages *)

(** The second asked for is after the cursor's millisecond, and is the first such. *)
Lemma log_until_covers m : (m < i32_max * 1000)%N →
  (m < log_until_seconds m * 1000)%N ∧ ((log_until_seconds m - 1) * 1000 <= m)%N.
Proof.
  intros Hm. unfold log_until_seconds, i32_max in *.
  pose proof (N.Div0.div_mod m 1000) as E. pose proof (N.mod_lt m 1000 ltac:(lia)) as Hr.
  generalize dependent (m / 1000)%N. generalize dependent (m mod 1000)%N. intros r Hr q E.
  rewrite N.min_l by lia. lia.
Qed.

(** From the year 2038 on it no longer is. *)
Lemma log_until_saturates m : (i32_max * 1000 <= m)%N → (log_until_seconds m * 1000 <= m)%N.
Proof. unfold log_until_seconds, i32_max. lia. Qed.

Section live.
Context (client : rstr → nat → option N → list (list N + rstr)) (service : rstr) (window : list (list N)).

Definition until_keeps (until : option N) (timestamp : N) : bool :=
  match until with Some until => (timestamp <? until * 1000)%N | None => true end.

(** What Docker documents: the tail is one window of the log, and [until] leaves out of it the
    lines at or after that second. *)
Definition serves_window : Prop :=
  ∀ until, ∃ lines, client service log_tail_count until = inl <$> lines ∧ length lines ≤ log_tail_count ∧
    omap parse_timestamped_log_line lines =
    filterb (λ p, until_keeps until p.1) (omap parse_timestamped_log_line window).

Definition window_entries : list LogEntry := publish_entry <$> number service ∅ (omap parse_timestamped_log_line window).

(** The client of the daemon follows the cursors of the live pages. *)
Fixpoint load_older_live (fuel : nat) (query : option rstr) (cursor : option LogCursor) (limit : nat)
    : option (list (list LogEntry)) :=
  match fuel with
  | 0 => None
  | S fuel =>
      match collect_logs client service query cursor limit with
      | inr _ => None
      | inl response =>
          match lr_next_cursor response with
          | None => Some [lr_entries response]
          | Some next =>
              cursor ← LogCursor_parse next;
              pages ← load_older_live fuel query (Some cursor) limit;
              Some (lr_entries response :: pages)
          end
      end
  end.

Lemma publish_filter (keep : N → bool) l :
  publish_entry <$> filterb (λ e, keep (le_timestamp e)) l = filterb (λ e, keep (le_timestamp e)) (publish_entry <$> l).
Proof.
  induction l as [|e l IH]; [done|]. cbn [filterb fmap list_fmap].
  change (le_timestamp (publish_entry e)) with (le_timestamp e). destruct (keep (le_timestamp e)); cbn; by rewrite <- IH.
Qed.

Lemma page_clamped entries query cursor limit :
  page_log_entries entries query cursor (clamp_limit limit) = page_log_entries entries query cursor limit.
Proof.
  unfold page_log_entries. replace (clamp_limit (clamp_limit limit)) with (clamp_limit limit); [done|].
  unfold clamp_limit, MAX_LOG_PAGE_SIZE. lia.
Qed.

Definition cursor_in_range (cursor : option LogCursor) : Prop :=
  match cursor with Some c => (millis c < i32_max * 1000)%N | None => True end.

Lemma live_page query cursor limit : serves_window → cursor_in_range cursor →
  ∃ response, collect_logs client service query cursor limit = inl response ∧
    (lr_entries response, lr_next_cursor response) = page_log_entries window_entries query cursor limit.
Proof.
  intros Hw Hc. unfold collect_logs. set (until := _ <$> cursor).
  destruct (Hw until) as (lines & -> & Hl & Hp). rewrite collect_entries_number.
  2:{ change MAX_LOG_STREAM_CAP with (MAX_LOG_CURSOR_TAIL + 1). unfold log_tail_count in Hl.
      revert Hl. generalize MAX_LOG_CURSOR_TAIL. intros tail Hl. cbn [length]. lia. }
  rewrite Hp, (number_filter _ (until_keeps until) _ ∅ ∅) by done. cbn [app].
  unfold publish_log_response. rewrite publish_filter, page_clamped. fold window_entries.
  assert (E : page_log_entries (filterb (λ e, until_keeps until (le_timestamp e)) window_entries) query cursor limit =
              page_log_entries window_entries query cursor limit).
  { destruct cursor as [c|]; cbn [fmap option_fmap option_map] in until.
    - apply page_filter. intros ts. unfold until, until_keeps. rewrite N.ltb_ge.
      destruct (log_until_covers (millis c) Hc). lia.
    - by rewrite filterb_all. }
  rewrite E. destruct (page_log_entries _ _ _ _) as [page next]. eexists. split; [reflexivity|done].
Qed.

Lemma next_cursor_in_range query cursor limit page next c :
  Forall (λ e, (le_timestamp e < i32_max * 1000)%N) window_entries →
  page_log_entries window_entries query cursor limit = (page, Some next) →
  LogCursor_parse next = Some c → (millis c < i32_max * 1000)%N.
Proof.
  unfold page_log_entries. intros Hb. case_if Em; [|done]. intros [= _ Hn] Hp.
  destruct (entries_behind _ _ _ !! _) as [e|] eqn:Ee; [|done]. cbn [mbind option_bind] in Hn. injection Hn as <-.
  assert (He : (le_timestamp e < i32_max * 1000)%N).
  { apply list_elem_of_lookup_2, entries_behind_sub in Ee. rewrite Forall_forall in Hb. by apply Hb. }
  unfold next_log_cursor in Hp. set (off := (_ + _ - _)%N) in Hp. unfold LogCursor_parse, LogCursor_to_string, rapp in Hp.
  cbn [millis offset] in Hp.
  assert (split_once 58 (dec_str (le_timestamp e) ++ lit ":" ++ dec_str off)
          = Some (dec_str (le_timestamp e), dec_str off)) as E
    by (apply split_once_Some; split; [done|apply dec_str_no_colon]).
  rewrite E in Hp. cbn [default from_option id] in Hp.
  rewrite (parse_dec_str u64_max (le_timestamp e)) in Hp by (unfold u64_max, i32_max in *; lia). cbn [mbind option_bind] in Hp.
  destruct (if dec_str off == [] then _ else _); [|done]. by injection Hp as <-.
Qed.

Lemma load_older_live_eq fuel query cursor limit : serves_window → cursor_in_range cursor →
  Forall (λ e, (le_timestamp e < i32_max * 1000)%N) window_entries →
  load_older_live fuel query cursor limit = load_older fuel window_entries query cursor limit.
Proof.
  intros Hw Hc Hb. revert cursor Hc. induction fuel as [|fuel IH]; intros cursor Hc; [done|].
  cbn [load_older_live load_older]. destruct (live_page query cursor limit Hw Hc) as (response & -> & Hp).
  rewrite <- Hp. destruct (lr_next_cursor response) as [next|] eqn:En; [|done].
  destruct (LogCursor_parse next) as [c|] eqn:Ep; [|done]. cbn [mbind option_bind].
  rewrite IH; [done|]. by eapply next_cursor_in_range.
Qed.

(** C6: While Docker serves one window of the log, and its lines are from before 2038, a client that
    follows the cursors of the live pages reads every published entry of the window that matches
    its query exactly once, newest first, although each page is a new request cut by a
    second-granular [until]; an entry has the same id in every request. *)
Theorem live_logs_complete query limit : serves_window → length window ≤ log_tail_count →
  Forall (λ p, (p.1 < i32_max * 1000)%N) (omap parse_timestamped_log_line window) →
  ∃ pages, load_older_live (S (length window_entries)) query None limit = Some pages ∧
    concat pages = entries_behind window_entries query None ∧
    concat pages ≡ₚ filterb (entry_matches query) window_entries ∧
    Forall (λ page, length page ≤ clamp_limit limit) pages.
Proof.
  intros Hw Hlen Hts.
  assert (Hb : Forall (λ e, (le_timestamp e < i32_max * 1000)%N) window_entries).
  { assert (Ht : le_timestamp <$> window_entries = (omap parse_timestamped_log_line window).*1).
    { unfold window_entries. rewrite <- list_fmap_compose.
      rewrite (list_fmap_ext (le_timestamp ∘ publish_entry) le_timestamp) by done. apply number_timestamps. }
    assert (Hf : Forall (λ ts, (ts < i32_max * 1000)%N) (le_timestamp <$> window_entries))
      by (rewrite Ht; by rewrite Forall_fmap).
    by rewrite Forall_fmap in Hf. }
  rewrite load_older_live_eq by done.
  assert (Hl : (N.of_nat (length window_entries) <= usize_max)%N).
  { unfold window_entries. rewrite length_fmap, length_number.
    assert (H1 : length (omap parse_timestamped_log_line window) ≤ length window) by apply length_omap_le.
    assert (H2 : (N.of_nat log_tail_count <= usize_max)%N) by (by vm_compute).
    revert Hlen H1 H2. generalize log_tail_count. intros tail ? ? ?. lia. }
  destruct (load_older_from window_entries query limit (S (length window_entries)) []
              (entries_behind window_entries query None) None) as (pages & Hp & Hc & Hlim & _); [|done|done| |].
  - split; [done|]. eapply Forall_impl; [exact Hb|]. cbn. unfold i32_max, u64_max. lia.
  - pose proof (length_sorted_matches window_entries query). lia.
  - exists pages. rewrite Hc. split_and!; [done|done|apply sort_by_Permutation|done].
Qed.
End live.

(** ** Ids *)

Lemma hex_digits_last fuel n : (n < 16 ^ N.of_nat fuel)%N → (0 < fuel)%nat →
  foldl (λ acc c, (acc * 16 + (if is_ascii_digit c then c - 48 else c - 87))%N) 0%N (hex_digits fuel n) = n.
Proof.
  revert n. induction fuel as [|fuel IH]; intros n Hn Hf; [lia|]. cbn [hex_digits].
  assert (Hd : ∀ d, (d < 16)%N → (if is_ascii_digit (hex_digit d) then hex_digit d - 48 else hex_digit d - 87)%N = d).
  { intros d Hd. unfold hex_digit, is_ascii_digit. destruct (N.ltb_spec d 10).
    - rewrite (proj2 (N.leb_le _ _)), (proj2 (N.leb_le _ _)) by lia. cbn [andb]. lia.
    - rewrite (proj2 (N.leb_gt (87 + d) 57)) by lia. rewrite andb_false_r. lia. }
  destruct (N.ltb_spec n 16) as [Hlt|Hge].
  - cbn [foldl]. rewrite Hd by done. lia.
  - rewrite Nat2N.inj_succ, N.pow_succ_r' in Hn.
    assert (0 < fuel)%nat by (destruct fuel; [cbn in Hn; lia|lia]).
    rewrite foldl_app, IH by (try apply N.Div0.div_lt_upper_bound; lia). cbn [foldl].
    rewrite Hd by (apply N.mod_lt; lia). pose proof (N.Div0.div_mod n 16). lia.
Qed.

Lemma hex_pad4_inj : Inj (=) (=) hex_pad4.
Proof.
  intros a b E.
  set (value := foldl (λ acc c, (acc * 16 + (if is_ascii_digit c then c - 48 else c - 87))%N) 0%N).
  assert (Hv : ∀ n, value (hex_pad4 n) = n).
  { intros n. unfold hex_pad4, value. rewrite foldl_app.
    assert (Hz : ∀ k, foldl (λ acc c, (acc * 16 + (if is_ascii_digit c then c - 48 else c - 87))%N) 0%N (replicate k 48%N) = 0%N)
      by (induction k as [|k IHk]; [done|exact IHk]).
    rewrite Hz. apply hex_digits_last; [|lia].
    pose proof (size_nat_bound n) as Hb. eapply N.lt_le_trans; [exact Hb|]. apply N.pow_le_mono_l. lia. }
  by rewrite <- (Hv a), E, Hv.
Qed.

Lemma log_entry_id_inj service ts ts' o o' :
  log_entry_id service ts o = log_entry_id service ts' o' → ts = ts' ∧ o = o'.
Proof.
  unfold log_entry_id, rapp. intros E%app_inv_head%app_inv_head.
  assert (Hn : ∀ n, 45%N ∉ dec_str n).
  { intros n Hin. pose proof (dec_str_digits n) as Hd. rewrite Forall_forall in Hd. by apply Hd in Hin. }
  assert (Hs : ∀ n s, split_once 45 (dec_str n ++ lit "-" ++ s) = Some (dec_str n, s))
    by (intros n s; apply split_once_Some; split; [done|apply Hn]).
  pose proof (Hs ts (hex_pad4 o)) as H1. rewrite E, Hs in H1. injection H1 as H1 H2.
  split; [by apply dec_str_inj|by apply hex_pad4_inj].
Qed.

(** Two lines of a window never share an id. *)
Lemma number_ids_NoDup service parsed : NoDup (le_id <$> number service ∅ parsed).
Proof.
  assert (Hg : ∀ parsed seen, NoDup (le_id <$> number service seen parsed) ∧
    ∀ e, e ∈ number service seen parsed → ∃ o, (default 0 (seen !! le_timestamp e) <= o)%N ∧
      le_id e = log_entry_id service (le_timestamp e) o).
  { clear parsed. induction parsed as [|[ts m] parsed IH]; intros seen; [by split; [constructor|intros ? ?%not_elem_of_nil]|].
    cbn [number]. rewrite fmap_cons. destruct (IH (<[ts := (default 0 (seen !! ts) + 1)%N]> seen)) as [Hnd Hid]. split.
    - constructor; [|done]. intros (e & He & Hin)%list_elem_of_fmap. cbn [live_entry le_id] in He.
      destruct (Hid e Hin) as (o & Ho & Hoid). rewrite Hoid in He. apply log_entry_id_inj in He as [Ht He].
      rewrite <- Ht, lookup_insert_eq in Ho. cbn in Ho. lia.
    - intros e [->|Hin]%elem_of_cons; [eexists; split; [|reflexivity]; cbn; lia|].
      destruct (Hid e Hin) as (o & Ho & Hoid). exists o. split; [|done].
      destruct (decide (le_timestamp e = ts)) as [Et|Et].
      + rewrite Et, lookup_insert_eq in Ho. rewrite Et. cbn in Ho. lia.
      + by rewrite lookup_insert_ne in Ho. }
  apply Hg.
Qed.

(** ** Concrete inputs *)

Definition example_line (s : rstr) : list N := utf8_bytes s.

Definition example_window : list (list N) := [
  example_line "2024-05-01T12:00:00.250000000Z starting"; example_line "  continued";
  example_line "2024-05-01T12:00:00.250000000Z ERROR: no route"; example_line "2024-05-01T12:00:00.900000000Z warned"].

(** A Docker that serves the window. *)
Definition example_docker (service : rstr) (tail : nat) (until : option N) : list (list N + rstr) :=
  inl <$> filterb (λ line, match parse_timestamped_log_line line with Some p => until_keeps until p.1 | None => true end)
            example_window.

Lemma example_docker_serves : serves_window example_docker "web" example_window.
Proof.
  intros u. eexists. split; [reflexivity|]. split.
  - etrans; [apply length_filterb|]. unfold log_tail_count, MAX_LOG_CURSOR_TAIL. cbn. lia.
  - generalize example_window. induction l as [|line l IH]; [done|]. cbn [filterb omap list_omap].
    destruct (parse_timestamped_log_line line) as [p|] eqn:E; cbn [filterb].
    + destruct (until_keeps u p.1); [|exact IH]. cbn [omap list_omap]. rewrite E. by f_equal.
    + cbn [omap list_omap]. rewrite E. exact IH.
Qed.

Lemma live_logs_complete_witness :
  ∃ pages, load_older_live example_docker "web" 4 None None 2 = Some pages ∧
    concat pages = entries_behind (window_entries "web" example_window) None None ∧
    le_level <$> concat pages = [Log_Warn; Log_Info; Log_Error].
Proof.
  assert (Hl : length example_window ≤ log_tail_count) by (unfold log_tail_count, MAX_LOG_CURSOR_TAIL; cbn; lia).
  destruct (live_logs_complete example_docker "web" example_window None 2 example_docker_serves Hl) as (pages & Hp & Hc & _).
  - decided.
  - exists pages. split; [exact Hp|]. split; [exact Hc|]. rewrite Hc. vm_compute. reflexivity.
Defined.
