(* ===== verification/GatewayServer.v ===== *)
(** * The gateway as a process ([serve] of [crates/dockermap-docker-gateway/src/lib.rs], [main.rs])

    The configuration the gateway reads from its environment, what it does to the file system
    before it accepts connections, what each connection is answered, and how a run ends. The
    file system and the peers are arguments. *)

From S2P Require Import Prelude RustStr RustNum Paths Boundary Gateway.

(** ** [main]: the configuration *)

Definition DEFAULT_LISTEN_SOCKET : rstr := "/run/dockermap/docker-read.sock".
Definition DEFAULT_DOCKER_SOCKET : rstr := "/var/run/docker.sock".

Definition gateway_config (env : rstr → EnvVar) : GatewayConfig := {|
  gc_listen_socket := default DEFAULT_LISTEN_SOCKET (env_ok (env "DOCKERMAP_DOCKER_GATEWAY_SOCKET"));
  gc_docker_socket := default DEFAULT_DOCKER_SOCKET (env_ok (env "DOCKERMAP_RAW_DOCKER_SOCKET"));
  gc_label_filter := value ← env_ok (env "DOCKERMAP_DOCKER_LABEL_FILTER"); if value != [] then Some value else None |}.

(** ** [serve]: the start *)

(** What the start does to the file system. *)
Inductive SocketOp :=
  | Create_dir_all (path : rstr)
  | Remove_file (path : rstr)
  | Bind_listener (path : rstr)
  | Set_permissions (path : rstr) (mode : N).

Definition op_path (op : SocketOp) : rstr :=
  match op with Create_dir_all path | Remove_file path | Bind_listener path | Set_permissions path _ => path end.

(** [Path::exists] at that moment, and the error of each operation. *)
Record SocketHost := { sh_exists : rstr → bool; sh_error : SocketOp → option rstr }.

(** Operations done so far, and a value or the error that ended them: [?] on [io::Result]. *)
Definition Io (A : Type) : Type := list SocketOp * (A + rstr).

Definition io_ret {A} (a : A) : Io A := ([], inl a).
Definition io_fail {A} (error : rstr) : Io A := ([], inr error).
Definition io_bind {A B} (m : Io A) (f : A → Io B) : Io B :=
  match m with
  | (ops, inr error) => (ops, inr error)
  | (ops, inl a) => let '(more, result) := f a in (ops ++ more, result)
  end.
Definition perform (host : SocketHost) (op : SocketOp) : Io unit :=
  ([op], match sh_error host op with None => inl tt | Some error => inr error end).

(** [0o660]: the owner and the group read and write. *)
Definition SOCKET_MODE : N := 432.

Definition serve_start (host : SocketHost) (config : GatewayConfig) : Io unit :=
  let listen := gc_listen_socket config in
  if negb (serve_accepts config) then io_fail ("invalid Docker label filter" : rstr)
  else
    io_bind (match path_parent listen with Some parent => perform host (Create_dir_all parent) | None => io_ret tt end) (λ _,
    io_bind (if sh_exists host listen then perform host (Remove_file listen) else io_ret tt) (λ _,
    io_bind (perform host (Bind_listener listen)) (λ _,
    perform host (Set_permissions listen SOCKET_MODE)))).

(** ** [serve]: connections *)

Section server.
Context (json_string : rstr → rstr) (byte_serialize : list N → rstr).

(** One request that the HTTP library hands to the service: its body, which sockets accept a
    connection then, and whether Docker answers what is forwarded. *)
Record Exchange := {
  ex_request : Request; ex_body : option (list N); ex_connect : rstr → bool; ex_upstream_answers : bool
}.

(** An error or a panic of the handler ends its connection, and only that. *)
Definition ends_connection (ex : Exchange) (answer : Handled) : bool :=
  match answer with
  | Hyper_error | Handler_panicked => true
  | Upstream _ _ _ _ => negb (ex_upstream_answers ex)
  | Empty_response _ => false
  end.

Fixpoint serve_connection (config : GatewayConfig) (exchanges : list Exchange) : list Handled :=
  match exchanges with
  | [] => []
  | ex :: exchanges =>
      let answer := handle json_string byte_serialize config (ex_request ex) (ex_body ex) (ex_connect ex) in
      answer :: if ends_connection ex answer then [] else serve_connection config exchanges
  end.

(** What [accept] yields: a connection with its requests, or an error that ends the loop. *)
Fixpoint serve_loop (config : GatewayConfig) (accepts : list (list Exchange + rstr)) : list (list Handled) * option rstr :=
  match accepts with
  | [] => ([], None)
  | inr error :: _ => ([], Some error)
  | inl exchanges :: accepts =>
      let '(connections, error) := serve_loop config accepts in
      (serve_connection config exchanges :: connections, error)
  end.

(** A run so far: what it did to the file system, the answers of each connection, and the line
    on stderr with the exit code, when it has stopped. *)
Record GatewayRun := { gr_ops : list SocketOp; gr_connections : list (list Handled); gr_exit : option (rstr * N) }.

Definition stopped (error : rstr) : rstr * N := ("Docker Read Gateway stopped: " +s+ error, 1%N).

Definition gateway_main (env : rstr → EnvVar) (host : SocketHost) (accepts : list (list Exchange + rstr)) : GatewayRun :=
  let config := gateway_config env in
  match serve_start host config with
  | (ops, inr error) => {| gr_ops := ops; gr_connections := []; gr_exit := Some (stopped error) |}
  | (ops, inl _) =>
      let '(connections, error) := serve_loop config accepts in
      {| gr_ops := ops; gr_connections := connections; gr_exit := stopped <$> error |}
  end.

(** ** The start and the connections *)

Lemma elem_of_bind_ops {A B} (m : Io A) (f : A → Io B) op :
  op ∈ (io_bind m f).1 → op ∈ m.1 ∨ ∃ a, m.2 = inl a ∧ op ∈ (f a).1.
Proof.
  destruct m as [ops [a|error]]; cbn [io_bind fst snd]; [|by left].
  destruct (f a) as [more result] eqn:E. cbn [fst]. intros [Hop|Hop]%elem_of_app; [by left|].
  right. exists a. by rewrite E.
Qed.

Lemma perform_ops host op op' : op' ∈ (perform host op).1 → op' = op.
Proof. cbn [perform fst]. by intros ->%list_elem_of_singleton. Qed.

(** The start touches the listening socket and its directory only. *)
Lemma start_touches host config op :
  op ∈ (serve_start host config).1 →
  op_path op = gc_listen_socket config ∨ ∃ parent, path_parent (gc_listen_socket config) = Some parent ∧ op = Create_dir_all parent.
Proof.
  unfold serve_start. destruct (negb _); [by intros ?%elem_of_nil|].
  intros [Hop|(? & _ & Hop)]%elem_of_bind_ops.
  { destruct (path_parent _) as [parent|]; [|by apply elem_of_nil in Hop]. apply perform_ops in Hop. eauto. }
  apply elem_of_bind_ops in Hop as [Hop|(? & _ & Hop)].
  { destruct (sh_exists _ _); [|by apply elem_of_nil in Hop]. apply perform_ops in Hop as ->. by left. }
  apply elem_of_bind_ops in Hop as [Hop|(? & _ & Hop)]; apply perform_ops in Hop as ->; by left.
Qed.

Lemma io_bind_ok {A B} (m : Io A) (f : A → Io B) ops b :
  io_bind m f = (ops, inl b) ↔ ∃ before a after, m = (before, inl a) ∧ f a = (after, inl b) ∧ ops = before ++ after.
Proof.
  destruct m as [before [a|error]]; cbn [io_bind].
  - destruct (f a) as [after result] eqn:E. split.
    + intros [= <- ->]. by exists before, a, after.
    + intros (? & ? & ? & [= <- <-] & E' & ->). rewrite E in E'. by injection E' as -> ->.
  - split; [done|]. by intros (? & ? & ? & [=] & _).
Qed.

Lemma perform_ok host op ops u : perform host op = (ops, inl u) → ops = [op] ∧ sh_error host op = None.
Proof. unfold perform. destruct (sh_error host op); [done|]. by intros [= <- <-]. Qed.

(** A start that succeeds ends with the bound socket restricted to its owner and group. *)
Lemma start_succeeds host config ops u :
  serve_start host config = (ops, inl u) →
  serve_accepts config = true ∧
  ∃ before, ops = before ++ [Bind_listener (gc_listen_socket config); Set_permissions (gc_listen_socket config) SOCKET_MODE].
Proof.
  unfold serve_start. destruct (serve_accepts config); [|done]. cbn [negb].
  intros (o1 & u1 & o2 & _ & (o3 & u3 & o4 & _ & (o5 & u5 & o6 & [-> _]%perform_ok & [-> _]%perform_ok & ->)%io_bind_ok & ->)%io_bind_ok
    & ->)%io_bind_ok.
  split; [done|]. exists (o1 ++ o3). by rewrite <- app_assoc.
Qed.

Lemma connection_forwards config exchanges answer :
  answer ∈ serve_connection config exchanges →
  ∃ ex, ex ∈ exchanges ∧ answer = handle json_string byte_serialize config (ex_request ex) (ex_body ex) (ex_connect ex).
Proof.
  induction exchanges as [|ex exchanges IH]; cbn [serve_connection]; [by intros ?%elem_of_nil|]. cbv zeta.
  intros [->|Ha]%elem_of_cons; [exists ex; by split; [left|]|].
  destruct (ends_connection _ _); [by apply elem_of_nil in Ha|].
  destruct (IH Ha) as (ex' & Hex & ->). exists ex'. by split; [right|].
Qed.

(** The connections accepted before the first error of [accept]. *)
Fixpoint served (accepts : list (list Exchange + rstr)) : list (list Exchange) :=
  match accepts with inl exchanges :: accepts => exchanges :: served accepts | _ => [] end.

Lemma loop_connections config accepts :
  (serve_loop config accepts).1 = serve_connection config <$> served accepts.
Proof.
  induction accepts as [|[exchanges|error] accepts IH]; [done| |done]. cbn [serve_loop served fmap list_fmap].
  rewrite <- IH. by destruct (serve_loop config accepts).
Qed.

Lemma gateway_run_start env host accepts :
  let config := gateway_config env in
  let run := gateway_main env host accepts in
  gr_ops run = (serve_start host config).1 ∧
  match (serve_start host config).2 with
  | inr error => gr_connections run = [] ∧ gr_exit run = Some (stopped error)
  | inl _ => gr_connections run = serve_connection config <$> served accepts ∧
             gr_exit run = stopped <$> (serve_loop config accepts).2
  end.
Proof.
  cbv zeta. unfold gateway_main. destruct (serve_start host (gateway_config env)) as [ops [u|error]]; [|done].
  pose proof (loop_connections (gateway_config env) accepts) as E.
  destruct (serve_loop (gateway_config env) accepts) as [connections error]. cbn [fst] in E. by subst.
Qed.

Lemma start_refuses host config :
  serve_accepts config = false → serve_start host config = io_fail ("invalid Docker label filter" : rstr).
Proof. unfold serve_start. by intros ->. Qed.

(** C10: A run of the gateway, whatever the host and the peers do. On the file system it touches only
    the listening socket and, to create it, its directory; with a label filter that is not
    usable it touches nothing, serves nobody and exits with 1. It serves the connections accepted
    before the first error of [accept], each from its own requests alone, and only after a start
    that ended in binding the socket and restricting it to its owner and group. Whatever reaches
    Docker on any connection is a body-less GET with the fixed host header, for a target the policy
    accepts, sent for a request of that connection with that very target and an empty body. *)
Theorem gateway_run_spec env host accepts :
  let config := gateway_config env in
  let run := gateway_main env host accepts in
  (∀ op, op ∈ gr_ops run →
     op_path op = gc_listen_socket config ∨
     ∃ parent, path_parent (gc_listen_socket config) = Some parent ∧ op = Create_dir_all parent) ∧
  (serve_accepts config = false →
     run = {| gr_ops := []; gr_connections := []; gr_exit := Some (stopped "invalid Docker label filter") |}) ∧
  ((gr_connections run = [] ∧ ∃ error, gr_exit run = Some (stopped error)) ∨
   gr_connections run = (serve_connection config <$> served accepts) ∧
     ∃ before, gr_ops run = before ++ [Bind_listener (gc_listen_socket config); Set_permissions (gc_listen_socket config) SOCKET_MODE]) ∧
  ∀ answers m u h b, answers ∈ gr_connections run → Upstream m u h b ∈ answers →
    m = "GET" ∧ h = "docker" ∧ b = [] ∧ accepted json_string byte_serialize (new (gc_label_filter config)) u ∧
    ∃ exchanges ex, exchanges ∈ served accepts ∧ answers = serve_connection config exchanges ∧ ex ∈ exchanges ∧
      plain_get (ex_request ex) = true ∧ rq_path_and_query (ex_request ex) = Some u ∧ ex_body ex = Some [] ∧
      ex_connect ex (gc_docker_socket config) = true.
Proof.
  intros config run. destruct (gateway_run_start env host accepts) as [Hops Hrun]. fold config run in Hops, Hrun.
  split_and!.
  - intros op. rewrite Hops. apply start_touches.
  - intros Hr. unfold run, gateway_main. fold config. by rewrite (start_refuses host config Hr).
  - rewrite Hops. destruct (serve_start host config) as [ops [u|error]] eqn:E; cbn [fst snd] in Hrun |- *; [|left; split; [apply Hrun|exists error; apply Hrun]].
    right. split; [apply Hrun|]. by apply start_succeeds in E as [_ E].
  - intros answers m u h b Ha Hu.
    assert (Hs : answers ∈ (serve_connection config <$> served accepts)).
    { destruct (serve_start host config).2; destruct Hrun as [Hc _]; rewrite Hc in Ha; [done|by apply elem_of_nil in Ha]. }
    apply list_elem_of_fmap in Hs as (exchanges & -> & Hex).
    destruct (connection_forwards _ _ _ Hu) as (ex & Hin & E). symmetry in E.
    apply handle_forwards in E as (-> & -> & -> & Hb & Hc & Ht & Hg & Hacc).
    split_and!; try done. by exists exchanges, ex.
Qed.
End server.

(** A listening socket left by an earlier run is replaced; of two requests on one connection the
    measured read is forwarded and the other refused, and a second connection panics on its own. *)
Definition example_host : SocketHost := {| sh_exists := λ _, true; sh_error := λ _, None |}.

Definition exchange (request : Request) : Exchange :=
  {| ex_request := request; ex_body := Some []; ex_connect := λ socket, socket == DEFAULT_DOCKER_SOCKET; ex_upstream_answers := true |}.

Definition example_accepts : list (list Exchange + rstr) :=
  [inl [exchange (get "/volumes?"); exchange (get "/events")]; inl [exchange (get "/containers/logs"); exchange (get "/networks?")];
   inr ("too many open files" : rstr); inl [exchange (get "/networks?")]].

Lemma gateway_run_spec_witness :
  gateway_main json_plain form_byte_serialize (λ _, NotPresent) example_host example_accepts = {|
    gr_ops := [Create_dir_all "/run/dockermap"; Remove_file DEFAULT_LISTEN_SOCKET; Bind_listener DEFAULT_LISTEN_SOCKET;
               Set_permissions DEFAULT_LISTEN_SOCKET SOCKET_MODE];
    gr_connections := [[Upstream "GET" "/volumes?" "docker" []; Empty_response 403]; [Handler_panicked]];
    gr_exit := Some ("Docker Read Gateway stopped: too many open files" : rstr, 1%N) |} ∧
  accepted json_plain form_byte_serialize (new None) "/volumes?".
Proof.
  assert (E : gateway_main json_plain form_byte_serialize (λ _, NotPresent) example_host example_accepts = {|
    gr_ops := [Create_dir_all "/run/dockermap"; Remove_file DEFAULT_LISTEN_SOCKET; Bind_listener DEFAULT_LISTEN_SOCKET;
               Set_permissions DEFAULT_LISTEN_SOCKET SOCKET_MODE];
    gr_connections := [[Upstream "GET" "/volumes?" "docker" []; Empty_response 403]; [Handler_panicked]];
    gr_exit := Some ("Docker Read Gateway stopped: too many open files" : rstr, 1%N) |}) by (vm_compute; reflexivity).
  split; [exact E|].
  destruct (gateway_run_spec json_plain form_byte_serialize (λ _, NotPresent) example_host example_accepts) as (_ & _ & _ & Hu).
  rewrite E in Hu. cbn [gr_connections] in Hu.
  destruct (Hu [Upstream "GET" "/volumes?" "docker" []; Empty_response 403] "GET" "/volumes?" "docker" []) as (_ & _ & _ & Hacc & _); [left..|exact Hacc].
Defined.

(** ** Configurations the start accepts *)

(** The gateway reads the variable of the label filter with [ok()]: a value that is not UTF-8,
    which the daemon refuses, leaves it without a filter. *)
Lemma label_filter_not_unicode (env : rstr → EnvVar) : env "DOCKERMAP_DOCKER_LABEL_FILTER" = NotUnicode →
  serve_accepts (gateway_config env) = true ∧ label_filter (new (gc_label_filter (gateway_config env))) = None ∧
  ∃ error, docker_label_filter_from_env env = inr error.
Proof.
  intros E. unfold serve_accepts, gateway_config, docker_label_filter_from_env. cbn [gc_label_filter]. rewrite E. cbn. eauto.
Qed.

(** A filter of white space is no filter to the daemon and stops the gateway. *)
Lemma label_filter_blank (env : rstr → EnvVar) value : env "DOCKERMAP_DOCKER_LABEL_FILTER" = Present value → value ≠ [] → trim value = [] →
  serve_accepts (gateway_config env) = false ∧ docker_label_filter_from_env env = inl None.
Proof.
  intros E Hv Ht. unfold serve_accepts, gateway_config, docker_label_filter_from_env, parse_docker_label_filter. cbn [gc_label_filter].
  rewrite E. cbn [env_ok mbind option_bind]. rewrite (bool_decide_eq_false_2 _ Hv). cbn [negb]. rewrite Ht. by split.
Qed.

(** The start removes whatever is at its listening path: with both variables naming one
    path, that is Docker's own socket. *)
Lemma start_removes_raw_socket host config :
  serve_accepts config = true → gc_listen_socket config = gc_docker_socket config → sh_exists host (gc_docker_socket config) = true →
  (∀ op, sh_error host op = None) → Remove_file (gc_docker_socket config) ∈ (serve_start host config).1.
Proof.
  intros Ha Hs He Hok. unfold serve_start. rewrite Ha, Hs, He. cbn [negb]. unfold perform.
  apply list_elem_of_In. destruct (path_parent _); rewrite !Hok; cbn; auto.
Qed.
