(* ===== verification/DaemonApi.v ===== *)
(** * The daemon's read-only HTTP interface ([crates/dockermap-daemon/src/daemon_api.rs])

    The handler of every route that publishes the cache, with the policy on demo data, the
    stamping of the source, and the query of the log route. The cache is the one read under the lock
    by that request. Decoding of forms ([url]) and the Docker client are arguments. The routes
    themselves, with the bearer check in front of them, are in [Router]. *)

From S2P Require Import Prelude RustStr RustNum Utf8 Models Serial Identity Evidence Redaction Publication Boundary Logs LogSources ObservedHistory Graph RuntimeTopology Findings ComposeBinding Scheduler Assembly Fixtures Cache CacheSystem.

Definition MAX_LOG_QUERY_CHARS : nat := 256.
Definition MAX_LOG_SERVICE_CHARS : nat := 128.

Record ApiError := { ae_status : N; ae_message : rstr }.

#[export] Instance ApiError_eq_dec : EqDecision ApiError. Proof. solve_decision. Defined.

Definition bad_request (message : rstr) : ApiError := {| ae_status := 400; ae_message := message |}.

(** The body of an error response: the status code and the redacted message. *)
Definition into_response (e : ApiError) : N * rstr := (ae_status e, redact_runtime_display_text (ae_message e)).

(** ** Strict form encoding *)

(** The decoding loop over the bytes of a component; [fuel] bounds them. *)
Fixpoint decode_component (fuel : nat) (bytes : list N) : option (list N) :=
  match fuel, bytes with
  | _, [] => Some []
  | 0, _ => None
  | S fuel, b :: rest =>
      if (b =? 43)%N then cons 32%N <$> decode_component fuel rest
      else if (b =? 37)%N then
        match rest with
        | h :: l :: rest =>
            if is_ascii_hexdigit h && is_ascii_hexdigit l
            then cons (hex_value h * 16 + hex_value l)%N <$> decode_component fuel rest else None
        | _ => None
        end
      else cons b <$> decode_component fuel rest
  end.

Definition component_ok (component : rstr) : bool :=
  let bytes := utf8_bytes component in
  match decode_component (length bytes) bytes with
  | Some decoded => match from_utf8 decoded with Utf8_ok _ => true | _ => false end
  | None => false
  end.

(** [raw.split(['&', '='])]. *)
Definition form_components (raw : rstr) : list rstr := split_char 38 raw ≫= split_char 61.

Definition strict_form_urlencoded_utf8 (raw : rstr) : bool := forallb component_ok (form_components raw).

(** [url::form_urlencoded::parse], on the text of a query. *)
Class FormUrlencoded := { form_parse : rstr → list (rstr * rstr) }.

(** The loop that collects the parameters: [None] at an unknown or a repeated name. *)
Fixpoint collect_params (allowed : list rstr) (values : gmap rstr rstr) (pairs : list (rstr * rstr)) : option (gmap rstr rstr) :=
  match pairs with
  | [] => Some values
  | (name, value) :: pairs =>
      if negb (one_of name allowed) || is_some (values !! name) then None
      else collect_params allowed (<[name := value]> values) pairs
  end.

(** ** The query of the log route *)

Record LogsQuery := {
  lq_service : option rstr;
  lq_q : option rstr;
  lq_cursor : option rstr;
  lq_limit : option N
}.

Definition invalid_logs_query : ApiError := bad_request "invalid log query".

Definition LOG_PARAMS : list rstr := ["service" : rstr; "q" : rstr; "cursor" : rstr; "limit" : rstr].

(** A service that is not blank is a container name. *)
Definition service_param_ok (service : option rstr) : bool :=
  match service with
  | None => true
  | Some service =>
      let bytes := utf8_bytes (trim service) in
      (bytes == [])
      || (is_some_and (head bytes) is_ascii_alphanumeric
          && forallb (λ b, is_ascii_alphanumeric b || one_of b [95; 46; 45]%N) bytes)
  end.

(** The live log streams, or why there is no client. *)
Abbreviation DockerLogs := ((rstr → nat → option N → list (list N + rstr)) + rstr)%type.

Section api.
Context `{FormUrlencoded}.

Definition parse_logs_query (raw : option rstr) : LogsQuery + ApiError :=
  let raw := default [] raw in
  if negb (strict_form_urlencoded_utf8 raw) then inr invalid_logs_query
  else
    match collect_params LOG_PARAMS ∅ (form_parse raw) with
    | None => inr invalid_logs_query
    | Some values =>
        let limit :=
          match values !! ("limit" : rstr) with
          | None => inl None
          | Some value =>
              if negb (forallb is_ascii_digit (utf8_bytes value)) then inr invalid_logs_query
              else match parse_uint usize_max value with Some n => inl (Some n) | None => inr invalid_logs_query end
          end in
        match limit with
        | inr e => inr e
        | inl limit =>
            let service := values !! ("service" : rstr) in
            if negb (service_param_ok service) then inr invalid_logs_query
            else inl {| lq_service := service; lq_q := values !! ("q" : rstr); lq_cursor := values !! ("cursor" : rstr);
                        lq_limit := limit |}
        end
    end.

Definition validate_optional_query (value : option rstr) (name : rstr) (max_chars : nat) : option rstr + ApiError :=
  match value with
  | None => inl None
  | Some value =>
      let value := trim value in
      if value == [] then inl None
      else if (max_chars <? char_count value)%nat || contains_char value 0
      then inr (bad_request ("query parameter `" +s+ name +s+ "` must be " +s+ dec_str (N.of_nat max_chars)
                             +s+ " characters or fewer"))
      else inl (Some value)
  end.

Definition parse_log_cursor (value : option rstr) : option LogCursor + ApiError :=
  match validate_optional_query value "cursor" 32 with
  | inr e => inr e
  | inl None => inl None
  | inl (Some value) =>
      match LogCursor_parse value with
      | Some cursor => inl (Some cursor)
      | None => inr (bad_request "query parameter `cursor` must be `millis` or `millis:offset`")
      end
  end.

Definition parse_log_limit (value : option N) : nat + ApiError :=
  match value with
  | Some value =>
      if (1 <=? value)%N && (value <=? N.of_nat MAX_LOG_PAGE_SIZE)%N then inl (N.to_nat value)
      else inr (bad_request ("query parameter `limit` must be between 1 and " +s+ dec_str (N.of_nat MAX_LOG_PAGE_SIZE)))
  | None => inl DEFAULT_LOG_PAGE_SIZE
  end.

(** ** Handlers *)

Context `{Sha256} `{Json GraphNode} `{Json GraphEdge} `{DebugTables}.

Definition mock_disabled : ApiError :=
  {| ae_status := 503; ae_message := "Live Docker authority is unavailable and mock publication is disabled" |}.

Definition publication_cache (allow_mock : bool) (cache : DaemonCache) : DaemonCache + ApiError :=
  if negb allow_mock && (dc_mode cache == Mode_Mock) then inr mock_disabled else inl cache.

Definition with_source (s : DockerSnapshot) (source : option RuntimeMode) : DockerSnapshot := {|
  s_containers := s_containers s; s_images := s_images s; s_networks := s_networks s; s_volumes := s_volumes s;
  s_last_updated := s_last_updated s; s_model_revision := s_model_revision s; s_source := source |}.

Definition map_with_source (m : RuntimeMap) (source : option RuntimeMode) : RuntimeMap := {|
  rm_nodes := rm_nodes m; rm_edges := rm_edges m; rm_diagnostics := rm_diagnostics m;
  rm_last_updated := rm_last_updated m; rm_model_revision := rm_model_revision m;
  rm_provider_states := rm_provider_states m; rm_source := source |}.

Definition publish_findings (f : FindingsResponse) (mode : RuntimeMode) : FindingsResponse := {|
  fr_findings := fr_findings f; fr_summary := fr_summary f; fr_model_revision := fr_model_revision f;
  fr_source := Some mode |}.

Definition logs_with_source (r : LogsResponse) (source : option RuntimeMode) : LogsResponse := {|
  lr_service := lr_service r; lr_entries := lr_entries r; lr_next_cursor := lr_next_cursor r; lr_source := source |}.

Definition docker_log_collection_failed : ApiError := {| ae_status := 502; ae_message := "Docker log collection failed" |}.

Definition no_such_container (name tail : rstr) : ApiError :=
  {| ae_status := 404; ae_message := "container `" +s+ name +s+ "` not found" +s+ tail |}.

(** [get_logs] once the query is read. *)
Definition serve_logs (docker : DockerLogs) (mock_base : N) (cache : DaemonCache) (service q : option rstr)
    (cursor : option LogCursor) (limit : nat) : LogsResponse + ApiError :=
  let snapshot := dc_snapshot cache in
  let mode := dc_mode cache in
  match service with
  | Some service =>
      if negb (existsb (λ c, c_name c == service) (s_containers snapshot))
      then inr (no_such_container service " in current snapshot")
      else if h_docker_reachable (dc_health cache) then
        match docker with
        | inr _ => inr docker_log_collection_failed
        | inl client =>
            match collect_logs client service q cursor limit with
            | inr _ => inr docker_log_collection_failed
            | inl response => inl (logs_with_source response (Some mode))
            end
        end
      else inl (logs_with_source
                  (publish_log_response (Some service) (mock_log_entries mock_base snapshot (Some service)) q cursor limit)
                  (Some mode))
  | None =>
      if h_docker_reachable (dc_health cache)
      then inl {| lr_service := None; lr_entries := []; lr_next_cursor := None; lr_source := Some mode |}
      else inl (logs_with_source (publish_log_response None (mock_log_entries mock_base snapshot None) q cursor limit) (Some mode))
  end.

Definition get_logs (docker : DockerLogs) (mock_base : N) (allow_mock : bool) (cache : DaemonCache) (raw : option rstr)
    : LogsResponse + ApiError :=
  match parse_logs_query raw with
  | inr e => inr e
  | inl query =>
      match validate_optional_query (lq_service query) "service" MAX_LOG_SERVICE_CHARS with
      | inr e => inr e
      | inl service =>
          match validate_optional_query (lq_q query) "q" MAX_LOG_QUERY_CHARS with
          | inr e => inr e
          | inl q =>
              match parse_log_cursor (lq_cursor query) with
              | inr e => inr e
              | inl cursor =>
                  match parse_log_limit (lq_limit query) with
                  | inr e => inr e
                  | inl limit =>
                      match publication_cache allow_mock cache with
                      | inr e => inr e
                      | inl cache => serve_logs docker mock_base cache service q cursor limit
                      end
                  end
              end
          end
      end
  end.

Definition get_container (cache : DaemonCache) (name : rstr) : ContainerRecord + ApiError :=
  match find (λ c, c_name c == name) (s_containers (dc_snapshot cache)) with
  | Some c => inl (redact_container_record c)
  | None => inr (no_such_container name [])
  end.

End api.

(** ** The cache knows whether Docker is reached *)

Section honest.
Context `{Sha256} `{Json RuntimeMapNode} `{Json RuntimeMapEdge} `{Json RuntimeEvidenceRef}.
Context `{Json (list RuntimeMapNode * list RuntimeMapEdge * list RuntimeMapDiagnostic * list ProviderState)}.
Context `{Json (DockerSnapshot * HealthResponse * RuntimeMap)} `{Json (RuntimeMode * DockerSnapshot)}.

(** Docker counts as reachable exactly when the data is Docker's. *)
Definition honest (h : HealthResponse) : Prop := h_docker_reachable h = (h_mode h == Mode_Docker).

Lemma assign_revision_honest c c' : assign_revision c = Some c' → honest (dc_health c) → honest (dc_health c').
Proof.
  unfold assign_revision, publication_assign. destruct (revision_see _ _) as [r|]; [|done]. cbn [mbind option_bind].
  destruct (cache_findings _ _ _ _); [|done]. cbn [mbind option_bind]. by intros [= <-].
Qed.

Lemma rebuild_health c c' : rebuild_runtime_map c = Some c' → dc_health c' = dc_health c.
Proof.
  unfold rebuild_runtime_map, assign_docker_observation_revision, apply_runtime_identity_collision_fact.
  destruct (docker_observation_assign _ _ _); [|done]. cbn [mbind option_bind].
  destruct (runtime_map_for_snapshot _ _ _ _); [|done]. cbn [mbind option_bind].
  destruct (revision_see _ _); [|done]. by intros [= <-].
Qed.

Lemma publish_honest c u boot epoch c' :
  publish_docker_snapshot_cache c u boot epoch = Some c' → honest (dc_health u) → honest (dc_health c').
Proof.
  unfold publish_docker_snapshot_cache. destruct (carried_over c u boot) as [c1|] eqn:E1; [|done]. cbn [mbind option_bind].
  destruct (rebuild_runtime_map c1) as [c2|] eqn:E2; [|done]. cbn [mbind option_bind].
  destruct (assign_revision _) as [c3|] eqn:E3; [|done]. cbn [mbind option_bind]. intros Hp Hu.
  assert (Hh : honest (dc_health c3)).
  { eapply assign_revision_honest; [exact E3|]. change (honest (dc_health c2)). rewrite (rebuild_health _ _ E2).
    unfold carried_over in E1. destruct (if _ : bool then _ else checked_add _ _ _); [|done]. cbn [mbind option_bind] in E1.
    destruct (if _ && _ : bool then _ else _); [|done]. cbn [mbind option_bind] in E1. by injection E1 as <-. }
  case_match; [|by injection Hp as <-]. destruct (observe_published_snapshot _ _ _); [|done]. by injection Hp as <-.
Qed.

Lemma republish_honest c c' : republish c = Some c' → honest (dc_health c) → honest (dc_health c').
Proof.
  unfold republish. destruct (rebuild_runtime_map c) as [c1|] eqn:E1; [|done]. cbn [mbind option_bind].
  intros E2 Hc. eapply assign_revision_honest; [exact E2|]. by rewrite (rebuild_health _ _ E1).
Qed.

Lemma cache_mock_honest process_boot b now c : cache_mock process_boot b now = Some c → honest (dc_health c).
Proof.
  unfold cache_mock, assign_docker_observation_revision. destruct (docker_observation_assign _ _ _); [|done].
  cbn [mbind option_bind]. intros E. eapply assign_revision_honest; [exact E|]. reflexivity.
Qed.

Lemma collect_snapshot_honest process_boot b now read u :
  collect_snapshot process_boot b now read = Some u → honest (dc_health u).
Proof.
  unfold collect_snapshot. destruct read; [|by intros [= <-]|..];
    (destruct (cache_mock process_boot b now) as [c|] eqn:E; [|done]; cbn [mbind option_bind]; intros [= <-];
     apply cache_mock_honest in E; exact E).
Qed.

Lemma step_honest process_boot s s' : system_step process_boot s s' →
  honest (dc_health (sy_cache s)) → honest (dc_health (sy_cache s')).
Proof.
  destruct 1 as [c tasks b now read u boot epoch c' Hb Hu Hp|c before snapshot mode generation after wall now active due c' Hcl
    |c before snapshot mode due after|c before slot snapshot mode generation after outcome completed_at wall taken c' Ho];
    cbn [sy_cache]; intros Hc; [..|done|].
  - eapply publish_honest; [exact Hp|]. by eapply collect_snapshot_honest.
  - unfold claim_due_provider_slots in Hcl. destruct (claim_due_slots_with_active_workers _ _ _ _ _) as [[due' slots]|]; [|done].
    cbn [mbind option_bind] in Hcl. case_match; [by injection Hcl as <- <-|].
    destruct (republish _) as [c1|] eqn:E; [|done]. cbn [mbind option_bind] in Hcl. injection Hcl as <- <-.
    by eapply republish_honest.
  - unfold apply_provider_slot_outcome in Ho. case_match; [by injection Ho as <- <-|].
    destruct (dc_runtime_providers c !! slot) as [state|]; [|by injection Ho as <- <-].
    destruct (slot_outcome _ _ _ _ _ _) as [state'|]; [|done]. cbn [mbind option_bind] in Ho.
    destruct (republish _) as [c1|] eqn:E; [|done]. cbn [mbind option_bind] in Ho. injection Ho as <- <-.
    by eapply republish_honest.
Qed.

Lemma reachable_honest process_boot s : reachable process_boot s → honest (dc_health (sy_cache s)).
Proof.
  intros (s0 & (b & now & _ & E & _) & Hr). apply cache_mock_honest in E. revert E.
  induction Hr as [s|s1 s2 s3 Hs _ IH]; [done|]. intros E. by eapply IH, step_honest.
Qed.
End honest.

(** ** Strict decoding *)

(** What a form-encoded text stands for, byte by byte. *)
Inductive encodes : list N → list N → Prop :=
  | enc_nil : encodes [] []
  | enc_plus bytes decoded : encodes bytes decoded → encodes (43 :: bytes)%N (32 :: decoded)%N
  | enc_hex h l bytes decoded : is_ascii_hexdigit h = true → is_ascii_hexdigit l = true → encodes bytes decoded →
      encodes (37 :: h :: l :: bytes)%N ((hex_value h * 16 + hex_value l) :: decoded)%N
  | enc_byte b bytes decoded : b ≠ 43%N → b ≠ 37%N → encodes bytes decoded → encodes (b :: bytes) (b :: decoded).

Lemma decode_component_spec fuel bytes decoded : length bytes ≤ fuel →
  decode_component fuel bytes = Some decoded ↔ encodes bytes decoded.
Proof.
  revert bytes decoded. induction fuel as [|fuel IH]; intros [|b bytes] decoded Hf; cbn [length] in Hf; try lia; cbn [decode_component].
  1, 2: split; [intros [= <-]; constructor|by inversion 1].
  destruct (N.eqb_spec b 43) as [->|Hp]; [|destruct (N.eqb_spec b 37) as [->|Hh]].
  - rewrite fmap_Some. split.
    + intros (d & E & ->). constructor. apply IH; [lia|done].
    + inversion 1; subst; [|done]. eexists. split; [apply IH; [lia|done]|done].
  - destruct bytes as [|h [|l bytes]]; [split; [done|by inversion 1]..|].
    destruct (is_ascii_hexdigit h && is_ascii_hexdigit l) eqn:E.
    + apply andb_prop in E as [E1 E2]. rewrite fmap_Some. cbn [length] in Hf. split.
      * intros (d & E & ->). constructor; [done|done|]. apply IH; [lia|done].
      * inversion 1; subst; [|done]. eexists. split; [apply IH; [lia|done]|done].
    + split; [done|]. inversion 1; subst; [|done]. by rewrite andb_false_iff in E; destruct E; congruence.
  - rewrite fmap_Some. split.
    + intros (d & E & ->). constructor; [done|done|]. apply IH; [lia|done].
    + inversion 1; subst; try done. eexists. split; [apply IH; [lia|done]|done].
Qed.

Lemma component_ok_spec component :
  component_ok component = true ↔ ∃ text, Forall (λ c, is_scalar c = true) text ∧ encodes (utf8_bytes component) (utf8_bytes text).
Proof.
  unfold component_ok. cbv zeta. destruct (decode_component _ _) as [decoded|] eqn:E.
  - pose proof (proj1 (decode_component_spec _ _ decoded ltac:(reflexivity)) E) as He.
    destruct (from_utf8 decoded) as [text|] eqn:Eu.
    + apply from_utf8_spec in Eu as [Hs Hu]. split; [|done]. intros _. exists text. by rewrite Hu.
    + split; [done|]. intros (text & Hs & Ht). apply (decode_component_spec (length (utf8_bytes component))) in Ht; [|done].
      rewrite E in Ht. injection Ht as ->. by rewrite from_utf8_bytes in Eu.
  - split; [done|]. intros (text & Hs & Ht). apply (decode_component_spec (length (utf8_bytes component))) in Ht; [|done].
    congruence.
Qed.

Lemma strict_form_spec raw :
  strict_form_urlencoded_utf8 raw = true ↔
  ∀ component, component ∈ form_components raw →
    ∃ text, Forall (λ c, is_scalar c = true) text ∧ encodes (utf8_bytes component) (utf8_bytes text).
Proof.
  unfold strict_form_urlencoded_utf8. rewrite forallb_forall. setoid_rewrite <- list_elem_of_In.
  by setoid_rewrite component_ok_spec.
Qed.

Lemma collect_params_spec allowed values pairs result :
  collect_params allowed values pairs = Some result ↔
  NoDup pairs.*1 ∧ (∀ name, name ∈ pairs.*1 → name ∈ allowed ∧ values !! name = None) ∧
  result = list_to_map pairs ∪ values.
Proof.
  revert values. induction pairs as [|[name value] pairs IH]; intros values; cbn [collect_params].
  - rewrite fmap_nil. cbn [list_to_map foldr]. rewrite (left_id_L ∅ (∪)). split.
    + intros [= <-]. split_and!; [constructor|by intros ? ?%not_elem_of_nil|done].
    + naive_solver.
  - rewrite fmap_cons. cbn [fst]. unfold one_of. destruct (bool_decide (name ∈ allowed)) eqn:Ea; cbn [negb orb].
    2:{ bool_unfold. split; [done|]. intros (_ & Hn & _). destruct (Hn name ltac:(by left)). done. }
    destruct (values !! name) as [v|] eqn:Ev; cbn [is_some].
    { split; [done|]. intros (_ & Hn & _). destruct (Hn name ltac:(by left)). congruence. }
    bool_unfold. rewrite IH, NoDup_cons. split.
    + intros (Hnd & Hn & ->). split_and!.
      * intros Hin. destruct (Hn _ Hin) as [_ Hl]. by rewrite lookup_insert_eq in Hl.
      * done.
      * intros n [->|Hin]%elem_of_cons; [done|]. destruct (Hn _ Hin) as [? Hl]. split; [done|].
        destruct (decide (n = name)) as [->|]; [done|]. by rewrite lookup_insert_ne in Hl.
      * rewrite list_to_map_cons. apply map_eq. intros n. rewrite !lookup_union.
        destruct (decide (n = name)) as [->|Hne].
        -- rewrite !lookup_insert_eq. assert (Hout : name ∉ pairs.*1).
           { intros Hin. destruct (Hn _ Hin) as [_ Hl]. by rewrite lookup_insert_eq in Hl. }
           rewrite (not_elem_of_list_to_map_1 _ _ Hout), Ev. done.
        -- by rewrite !lookup_insert_ne.
    + intros ((Hout & Hnd) & Hn & ->). split_and!; [done|..].
      * intros n Hin. destruct (Hn n ltac:(by right)) as [? ?]. split; [done|].
        rewrite lookup_insert_ne by (intros ->; done). done.
      * rewrite list_to_map_cons. apply map_eq. intros n. rewrite !lookup_union.
        destruct (decide (n = name)) as [->|Hne].
        -- rewrite !lookup_insert_eq, (not_elem_of_list_to_map_1 _ _ Hout), Ev. done.
        -- by rewrite !lookup_insert_ne.
Qed.

Section api_spec.
Context `{FormUrlencoded} `{Sha256} `{Json GraphNode} `{Json GraphEdge} `{DebugTables}.

(** The limit of a query, when it is one. *)
Definition limit_reads (value : option rstr) (limit : option N) : Prop :=
  match value with
  | None => limit = None
  | Some value => Forall (λ c, is_ascii_digit c = true) (utf8_bytes value) ∧
      ∃ n, parse_uint usize_max value = Some n ∧ limit = Some n
  end.

(** C30: A log query is accepted exactly when every part of it decodes to text, no parameter is unknown or
    repeated, the limit is a decimal number, and the service, unless blank, is a container
    name; it is then read into its parameters, and every other query gets one and the same
    error. *)
Theorem logs_query_spec raw query :
  (parse_logs_query (Some raw) = inl query ↔
   (∀ component, component ∈ form_components raw →
      ∃ text, Forall (λ c, is_scalar c = true) text ∧ encodes (utf8_bytes component) (utf8_bytes text)) ∧
   NoDup (form_parse raw).*1 ∧ (∀ name, name ∈ (form_parse raw).*1 → name ∈ LOG_PARAMS) ∧
   let values : gmap rstr rstr := list_to_map (form_parse raw) in
   limit_reads (values !! ("limit" : rstr)) (lq_limit query) ∧ service_param_ok (values !! ("service" : rstr)) = true ∧
   lq_service query = values !! ("service" : rstr) ∧ lq_q query = values !! ("q" : rstr) ∧
   lq_cursor query = values !! ("cursor" : rstr)) ∧
  (∀ e, parse_logs_query (Some raw) = inr e → e = invalid_logs_query).
Proof.
  unfold parse_logs_query. cbn [default from_option id].
  destruct (strict_form_urlencoded_utf8 raw) eqn:Es; cbn [negb].
  2:{ split; [|by intros ? [= <-]]. rewrite <- strict_form_spec. split; [done|]. intros (? & _). congruence. }
  pose proof (proj1 (strict_form_spec raw) Es) as Hstrict.
  destruct (collect_params LOG_PARAMS ∅ (form_parse raw)) as [values|] eqn:Ec.
  2:{ split; [|by intros ? [= <-]]. split; [done|]. intros (_ & Hn & Ha & _).
      assert (collect_params LOG_PARAMS ∅ (form_parse raw) = Some (list_to_map (form_parse raw) ∪ ∅)); [|congruence].
      apply collect_params_spec. split_and!; [done|naive_solver|done]. }
  apply collect_params_spec in Ec as (Hn & Ha & ->). rewrite (right_id_L ∅ (∪)). cbv zeta.
  set (values := list_to_map (form_parse raw) : gmap rstr rstr).
  assert (Ha' : ∀ name, name ∈ (form_parse raw).*1 → name ∈ LOG_PARAMS) by naive_solver.
  assert (Hlim : ∀ limit, limit_reads (values !! ("limit" : rstr)) limit ↔
    match values !! ("limit" : rstr) with
    | None => inl None
    | Some value => if negb (forallb is_ascii_digit (utf8_bytes value)) then inr invalid_logs_query
                    else match parse_uint usize_max value with Some n => inl (Some n) | None => inr invalid_logs_query end
    end = inl limit).
  { intros limit. unfold limit_reads. destruct (values !! _) as [value|]; [|naive_solver].
    destruct (forallb is_ascii_digit (utf8_bytes value)) eqn:Ed; cbn [negb].
    - rewrite forallb_forall in Ed. setoid_rewrite <- list_elem_of_In in Ed. rewrite Forall_forall.
      destruct (parse_uint _ _); naive_solver.
    - split; [|done]. intros [Hd _]. exfalso. apply not_true_iff_false in Ed. apply Ed, forallb_forall.
      intros x Hx. rewrite Forall_forall in Hd. by apply Hd, list_elem_of_In. }
  destruct (match values !! ("limit" : rstr) with None => _ | Some _ => _ end) as [limit|e] eqn:El.
  - destruct (service_param_ok _) eqn:Ev; cbn [negb].
    + split; [|done]. split.
      * intros [= <-]. cbn [lq_limit lq_service lq_q lq_cursor]. split_and!; try done. by apply Hlim.
      * intros (_ & _ & _ & Hl & _ & Hq1 & Hq2 & Hq3). apply Hlim in Hl. injection Hl as Hl.
        f_equal. destruct query as [? ? ? ?]. cbn in *. congruence.
    + split; [split; [done|]; intros (_ & _ & _ & _ & ? & _); congruence|by intros ? [= <-]].
  - split; [split; [done|]; intros (_ & _ & _ & Hl & _); by apply Hlim in Hl|].
    intros ? [= <-]. destruct (values !! ("limit" : rstr)); [|done].
    destruct (negb _); [by injection El|]. destruct (parse_uint _ _); [done|by injection El].
Qed.
End api_spec.

(** ** Concrete inputs *)

Section example.
#[local] Existing Instances Toy_sha256 CacheSystem.example_node_json CacheSystem.example_edge_json
  CacheSystem.example_evidence_json CacheSystem.example_collection_json CacheSystem.example_model_json
  CacheSystem.example_docker_json.
#[local] Instance example_graph_node_json : Json GraphNode := Json_of_countable _.
#[local] Instance example_graph_edge_json : Json GraphEdge := Json_of_countable _.
#[local] Instance example_tables : DebugTables := {| debug_printable := λ _, true |}.
#[local] Instance example_form : FormUrlencoded := {| form_parse := λ _, [("limit" : rstr, "5" : rstr)] |}.

Example example_query :
  parse_logs_query (Some ("limit=5" : rstr)) = inl {| lq_service := None; lq_q := None; lq_cursor := None; lq_limit := Some 5%N |}
  ∧ parse_logs_query (Some ("limit=5%" : rstr)) = inr invalid_logs_query
  ∧ parse_logs_query (Some ("q=%FF" : rstr)) = inr invalid_logs_query
  ∧ strict_form_urlencoded_utf8 "q=%E2%9C%93" = true.
Proof. vm_compute. done. Qed.
End example.
