(* ===== verification/ComposeApi.v ===== *)
(** * The Compose requests ([crates/dockermap-daemon/src/compose_api.rs] and [main.rs])

    The queries of the three Compose routes, the confinement of the files they name to the
    project root, the routes, the command line, and the Compose binding of a refresh
    ([bounded_compose_runtime_binding] of [cache_refresh.rs]). The file system answers through
    [Host] and [HostPaths]; a file that is read again later is read through an argument, so
    that it may have changed. *)

From S2P Require Import Prelude RustStr RustNum Utf8 Models Identity Redaction Publication Boundary Paths Serial ObservedHistory Scheduler Assembly Cache ComposeBinding Compose ComposePlan Logs LogSources DaemonApi.

Definition MAX_COMPOSE_FILES : nat := 8.
Definition MAX_COMPOSE_FILE_CHARS : nat := 512.
Definition MAX_COMPOSE_SERVICE_CHARS : nat := 128.

(** What the host answers beyond [Host]: canonical paths, and why an entry cannot be inspected. *)
Class HostPaths := {
  host_canonicalize : rstr → rstr + rstr;
  host_symlink_error : rstr → rstr
}.

(** ** Queries *)

Record ComposeEditPlanQuery := {
  eq_file : rstr;
  eq_service : rstr;
  eq_mount : N;
  eq_source : option rstr;
  eq_target : option rstr
}.

Definition malformed_query : ApiError := bad_request "invalid request query".

(** [validate_strict_form_urlencoded]: the components in turn, up to the first bad one. *)
Fixpoint validate_components (components : list rstr) : option ApiError :=
  match components with
  | [] => None
  | component :: components =>
      let bytes := utf8_bytes component in
      match decode_component (length bytes) bytes with
      | None => Some malformed_query
      | Some decoded => match from_utf8 decoded with Utf8_ok _ => validate_components components | _ => Some malformed_query end
      end
  end.

Definition validate_strict_form_urlencoded (raw : rstr) : option ApiError := validate_components (form_components raw).

Section queries.
Context `{FormUrlencoded}.

Definition decode_query (raw : option rstr) : list (rstr * rstr) + ApiError :=
  let raw := default [] raw in
  match validate_strict_form_urlencoded raw with Some e => inr e | None => inl (form_parse raw) end.

(** The value of one [file] parameter. *)
Definition compose_file_value (value : rstr) : rstr + ApiError :=
  let value := trim value in
  if value == [] then inr (bad_request "compose file query values must be non-empty strings")
  else if (MAX_COMPOSE_FILE_CHARS <? str_len value)%nat || contains_char value 0
  then inr (bad_request ("compose file query values must be " +s+ dec_str (N.of_nat MAX_COMPOSE_FILE_CHARS)
                         +s+ " characters or fewer"))
  else inl value.

(** [iter.collect::<Result<Vec<_>, _>>()]: the first error, or all values. *)
Fixpoint collect_results {A B E} (f : A → B + E) (l : list A) : list B + E :=
  match l with
  | [] => inl []
  | x :: l =>
      match f x with
      | inr e => inr e
      | inl y => match collect_results f l with inr e => inr e | inl ys => inl (y :: ys) end
      end
  end.

Definition validate_compose_files (files : list rstr) : list rstr + ApiError :=
  match collect_results compose_file_value files with
  | inr e => inr e
  | inl files =>
      if (MAX_COMPOSE_FILES <? length files)%nat
      then inr (bad_request ("compose scan accepts at most " +s+ dec_str (N.of_nat MAX_COMPOSE_FILES) +s+ " files"))
      else inl files
  end.

Definition parse_compose_scan_query (raw : option rstr) : list rstr + ApiError :=
  match decode_query raw with
  | inr e => inr e
  | inl pairs =>
      match collect_results (λ pair : rstr * rstr, if pair.1 != ("file" : rstr) then inr malformed_query else inl pair.2) pairs with
      | inr e => inr e
      | inl files => validate_compose_files files
      end
  end.

Definition validate_optional_raw_query (value : rstr) (maximum : nat) : rstr + ApiError :=
  let value := trim value in
  if (maximum <? str_len value)%nat || contains_char value 0 then inr malformed_query else inl value.

Definition validate_required_raw_query (value : rstr) (maximum : nat) : rstr + ApiError :=
  match validate_optional_raw_query value maximum with
  | inr e => inr e
  | inl value => if value == [] then inr malformed_query else inl value
  end.

Definition EDIT_PARAMS : list rstr := ["file" : rstr; "service" : rstr; "mount" : rstr; "source" : rstr; "target" : rstr].

(** The closure [required]. *)
Definition required (values : gmap rstr rstr) (name : rstr) (maximum : nat) : rstr + ApiError :=
  match values !! name with
  | None => inr malformed_query
  | Some value => match validate_required_raw_query value maximum with inl v => inl v | inr _ => inr malformed_query end
  end.

(** The closure [optional]. *)
Definition optional (values : gmap rstr rstr) (name : rstr) : option rstr + ApiError :=
  match values !! name with
  | None => inl None
  | Some value => match validate_optional_raw_query value MAX_COMPOSE_FILE_CHARS with inl v => inl (Some v) | inr e => inr e end
  end.

Definition parse_compose_edit_plan_query (raw : option rstr) : ComposeEditPlanQuery + ApiError :=
  match decode_query raw with
  | inr e => inr e
  | inl pairs =>
      match collect_params EDIT_PARAMS ∅ pairs with
      | None => inr malformed_query
      | Some values =>
          match required values "file" MAX_COMPOSE_FILE_CHARS with
          | inr e => inr e
          | inl file =>
              match required values "service" MAX_COMPOSE_SERVICE_CHARS with
              | inr e => inr e
              | inl service =>
                  match required values "mount" 16 with
                  | inr e => inr e
                  | inl mount_text =>
                      if negb (forallb is_ascii_digit (utf8_bytes mount_text)) then inr malformed_query
                      else
                        match parse_uint usize_max mount_text with
                        | None => inr malformed_query
                        | Some mount =>
                            match optional values "source" with
                            | inr e => inr e
                            | inl source =>
                                match optional values "target" with
                                | inr e => inr e
                                | inl target => inl {| eq_file := file; eq_service := service; eq_mount := mount;
                                                       eq_source := source; eq_target := target |}
                                end
                            end
                        end
                  end
              end
          end
      end
  end.

Definition validate_required_value (value name : rstr) (max_chars : nat) : rstr + ApiError :=
  match validate_optional_query (Some value) name max_chars with
  | inr e => inr e
  | inl (Some value) => inl value
  | inl None => inr (bad_request ("query parameter `" +s+ name +s+ "` is required"))
  end.
End queries.

(** ** Files *)

Section files.
Context `{Host} `{HostPaths}.

Definition project_root (env : rstr → EnvVar) : rstr + rstr :=
  let root := default ("." : rstr) (env_ok (env "DOCKERMAP_PROJECT_ROOT")) in
  match host_canonicalize root with
  | inl root => inl root
  | inr error => inr ("invalid project root `" +s+ root +s+ "`: " +s+ error)
  end.

(** The walk down from the root: an entry that cannot be inspected, or is a link, ends it. *)
Fixpoint inspect_entries (current : rstr) (relative : list Component) : option rstr :=
  match relative with
  | [] => None
  | component :: relative =>
      let current := path_push current (as_os_str component) in
      match host_symlink current with
      | None => Some ("cannot inspect `" +s+ current +s+ "`: " +s+ host_symlink_error current)
      | Some true => Some ("compose file path `" +s+ current +s+ "` contains a symlink; refusing to follow it")
      | Some false => inspect_entries current relative
      end
  end.

Definition outside_root (path project_root : rstr) : rstr :=
  "compose file `" +s+ path +s+ "` is outside project root `" +s+ project_root +s+ "`".

Definition reject_symlink_path (project_root path : rstr) : option rstr :=
  match path_strip_prefix path project_root with
  | None => Some (outside_root path project_root)
  | Some relative => inspect_entries project_root relative
  end.

Definition resolve_scannable_file (project_root requested : rstr) : rstr + rstr :=
  if (trim requested == []) || contains_char requested 0 then inr ("compose file path is empty or invalid" : rstr)
  else if existsb (λ c, c == ParentDir) (components requested)
  then inr ("compose file `" +s+ requested +s+ "` must not contain parent traversal")
  else
    let candidate := if is_absolute requested then requested else path_push project_root requested in
    match reject_symlink_path project_root candidate with
    | Some e => inr e
    | None =>
        match host_canonicalize candidate with
        | inr error => inr ("compose file `" +s+ candidate +s+ "` is not readable: " +s+ error)
        | inl canonical =>
            if negb (path_starts_with canonical project_root) then inr (outside_root canonical project_root)
            else if negb (host_is_file canonical) then inr ("compose file `" +s+ canonical +s+ "` is not a file")
            else inl canonical
        end
    end.

(** The text of a path below the root; a discovered file is one name below it. *)
Definition below_root (project_root path : rstr) : rstr :=
  match path_strip_prefix path project_root with
  | Some relative => join [SLASH] (as_os_str <$> relative)
  | None => path
  end.

Definition resolve_discovered (project_root : rstr) : list rstr + rstr :=
  collect_results (λ path, resolve_scannable_file project_root (below_root project_root path)) (discover_compose_files project_root).

(** ** Routes *)

Context `{FormUrlencoded} `{Sha256} `{Yaml}.

Definition compose_file_unavailable : ApiError := bad_request "requested Compose file is unavailable".
Definition compose_inspection_unavailable : ApiError := {| ae_status := 500; ae_message := "Compose inspection is unavailable" |}.
Definition compose_scan_unavailable : ApiError := bad_request "Compose scan is unavailable".

Definition scan_compose_query (env : rstr → EnvVar) (query : list rstr) : ComposeScan + ApiError :=
  match project_root env with
  | inr _ => inr compose_inspection_unavailable
  | inl root =>
      let files := if negb (query == []) then collect_results (resolve_scannable_file root) query
                   else resolve_discovered root in
      match files with
      | inr _ => inr compose_file_unavailable
      | inl files => match scan_compose_files root files with inr _ => inr compose_scan_unavailable | inl scan => inl scan end
      end
  end.

Definition with_correlations (scan : ComposeScan) (correlations : list MountCorrelation) : ComposeScan := {|
  csc_files := csc_files scan; csc_project_root := csc_project_root scan; csc_services := csc_services scan;
  csc_mounts := csc_mounts scan; csc_correlations := correlations; csc_diagnostics := csc_diagnostics scan |}.

Definition apply_runtime_correlations (scan : ComposeScan) (cache : DaemonCache) (allow_mock : bool) : ComposeScan :=
  with_correlations scan
    (if allow_mock || (dc_mode cache != Mode_Mock) then correlate_compose_runtime scan (dc_snapshot cache) else []).

Definition get_compose_scan (env : rstr → EnvVar) (cache : DaemonCache) (allow_mock : bool) (raw : option rstr)
    : ComposeScan + ApiError :=
  match parse_compose_scan_query raw with
  | inr e => inr e
  | inl query =>
      match scan_compose_query env query with
      | inr e => inr e
      | inl scan => inl (redact_compose_scan (apply_runtime_correlations scan cache allow_mock))
      end
  end.

Definition get_compose_graph (env : rstr → EnvVar) (raw : option rstr) : ComposeGraph + ApiError :=
  match parse_compose_scan_query raw with
  | inr e => inr e
  | inl query =>
      match scan_compose_query env query with
      | inr e => inr e
      | inl scan => inl (derive_compose_graph (redact_compose_scan scan))
      end
  end.

(** The mount with an index of a service. *)
Definition is_requested_mount (service : rstr) (index : N) (mount : ComposeMount) : bool :=
  (cmt_service mount == service) && ends_with (co_field (cmt_origin mount)) (".volumes[" +s+ dec_str index +s+ "]").

(** [reread] is the content the file has when it is read for the plan. *)
Definition get_compose_edit_plan (env : rstr → EnvVar) (reread : rstr → option (list N)) (raw : option rstr)
    : ComposeEditPlan + ApiError :=
  match parse_compose_edit_plan_query raw with
  | inr e => inr e
  | inl query =>
      match project_root env with
      | inr _ => inr compose_inspection_unavailable
      | inl root =>
          match resolve_scannable_file root (eq_file query) with
          | inr _ => inr compose_file_unavailable
          | inl file =>
              match validate_required_value (eq_service query) "service" MAX_COMPOSE_SERVICE_CHARS with
              | inr e => inr e
              | inl service =>
                  match validate_optional_query (eq_source query) "source" MAX_COMPOSE_FILE_CHARS,
                        validate_optional_query (eq_target query) "target" MAX_COMPOSE_FILE_CHARS with
                  | inr e, _ => inr e
                  | _, inr e => inr e
                  | inl source, inl target =>
                      match scan_compose_files root [file] with
                      | inr _ => inr compose_scan_unavailable
                      | inl scan =>
                          match find (is_requested_mount service (eq_mount query)) (csc_mounts scan) with
                          | None => inr {| ae_status := 404; ae_message := "mount " +s+ dec_str (eq_mount query)
                                             +s+ " for service `" +s+ service +s+ "` not found" |}
                          | Some mount =>
                              match from_utf8 <$> reread file with
                              | Some (Utf8_ok content) =>
                                  inl (redact_compose_edit_plan (plan_compose_mount_edit file content mount source target))
                              | _ => inr compose_file_unavailable
                              end
                          end
                      end
                  end
              end
          end
      end
  end.

(** ** The command line *)

Inductive CliOutput := Print_scan (scan : ComposeScan) | Print_diagnostics (diagnostics : list ComposeDiagnostic).

Definition has_blocking_diagnostics (diagnostics : list ComposeDiagnostic) : bool :=
  existsb (λ d, one_of (cd_severity d) [Sev_Error; Sev_Blocked]) diagnostics.

Fixpoint cli_compose_files_loop (project_root : rstr) (files args : list rstr) : list rstr + rstr :=
  match args with
  | [] => inl files
  | arg :: rest =>
      if arg == ("--file" : rstr) then
        match rest with
        | [] => inr ("`--file` requires a value" : rstr)
        | value :: rest =>
            match resolve_scannable_file project_root value with
            | inr e => inr e
            | inl file => cli_compose_files_loop project_root (files ++ [file]) rest
            end
        end
      else if arg == ("--format" : rstr) then
        match rest with [] => inl files | _ :: rest => cli_compose_files_loop project_root files rest end
      else inr ("unknown argument `" +s+ arg +s+ "`")
  end.

Definition cli_compose_files (project_root : rstr) (args : list rstr) : list rstr + rstr :=
  match cli_compose_files_loop project_root [] args with
  | inr e => inr e
  | inl [] => resolve_discovered project_root
  | inl files => inl files
  end.

(** [args.windows(2).find(..)]. *)
Fixpoint cli_option_value (args : list rstr) (name : rstr) : option rstr :=
  match args with
  | a :: (b :: _) as rest => if a == name then Some b else cli_option_value rest name
  | _ => None
  end.

(** The exit code and what is printed, or the message of an error. *)
Definition run_cli (env : rstr → EnvVar) (command : rstr) (args : list rstr) : (N * CliOutput) + rstr :=
  match project_root env with
  | inr e => inr e
  | inl root =>
      match cli_compose_files root args with
      | inr e => inr e
      | inl files =>
          match scan_compose_files root files with
          | inr e => inr e
          | inl scan =>
              if command == ("scan" : rstr) then inl (0%N, Print_scan scan)
              else if command == ("validate" : rstr) then
                inl (if has_blocking_diagnostics (csc_diagnostics scan) then 1%N else 0%N, Print_diagnostics (csc_diagnostics scan))
              else if command == ("export" : rstr) then
                let format := default ("json" : rstr) (cli_option_value args "--format") in
                if format != ("json" : rstr) then inr ("only `--format json` is supported" : rstr) else inl (0%N, Print_scan scan)
              else inr ("unknown command `" +s+ command +s+ "`")
          end
      end
  end.

(** What [main] does with its arguments. *)
Inductive MainAction :=
  | Main_help | Main_version | Main_cli (result : (N * CliOutput) + rstr) | Main_unknown (command : rstr)
  | Main_serve (server : Startup Server).

Definition main_action (env : rstr → EnvVar) (args : list rstr) : MainAction :=
  match args with
  | [] => Main_serve (main_server env)
  | command :: args =>
      if one_of command ["--help" : rstr; "-h" : rstr] then Main_help
      else if command == ("--version" : rstr) then Main_version
      else if one_of command ["scan" : rstr; "validate" : rstr; "export" : rstr] then Main_cli (run_cli env command args)
      else Main_unknown command
  end.

Definition exit_code (a : MainAction) : option N :=
  match a with
  | Main_help | Main_version => Some 0%N
  | Main_cli (inl (code, _)) => Some code
  | Main_cli (inr _) | Main_unknown _ => Some 2%N
  | Main_serve (inr code) => Some code
  | Main_serve (inl _) => None
  end.

(** ** The binding of a refresh *)

(** [bounded_compose_runtime_binding]; the files are read through [first] and [second]. *)
Definition bounded_compose_runtime_binding (env : rstr → EnvVar) (first second : Reading)
    (containers : option (list ComposeRuntimeContainer)) (collected_at : N)
    : option (ComposeScan * ComposeRuntimeBinding) :=
  containers ← containers;
  root ← match project_root env with inl root => Some root | inr _ => None end;
  let files := discover_compose_files root in
  if (files == []) || existsb (λ file, default true (host_symlink file)) files then None
  else
    canonical_files ← mapM (λ file, match host_canonicalize file with inl f => Some f | inr _ => None end) files;
    root ← match host_canonicalize root with inl root => Some root | inr _ => None end;
    if existsb (λ file, negb (path_starts_with file root)) canonical_files then None
    else
      '(scan, project, _) ← scan_compose_binding_snapshot first second root canonical_files;
      Some (scan, {| crb_project := project; crb_config_files := list_to_set canonical_files;
                     crb_containers := containers; crb_collected_at := collected_at;
                     crb_provider_revision := []; crb_fresh := true |}).
End files.

(** ** Both decoders agree *)

Lemma strict_decoders_agree raw :
  validate_strict_form_urlencoded raw = (if strict_form_urlencoded_utf8 raw then None else Some malformed_query).
Proof.
  unfold validate_strict_form_urlencoded, strict_form_urlencoded_utf8.
  induction (form_components raw) as [|component l IH]; [done|]. cbn [validate_components forallb]. unfold component_ok.
  cbv zeta. destruct (decode_component _ _) as [decoded|]; [|done]. by destruct (from_utf8 decoded).
Qed.

Lemma collect_results_spec {A B E} (f : A → B + E) l ys :
  collect_results f l = inl ys ↔ Forall2 (λ x y, f x = inl y) l ys.
Proof.
  revert ys. induction l as [|x l IH]; intros ys; cbn [collect_results].
  - split; [intros [= <-]; constructor|by inversion 1].
  - destruct (f x) as [y|e] eqn:E'.
    + destruct (collect_results f l) as [zs|e].
      * split; [intros [= <-]; constructor; [done|by apply IH]|]. inversion 1; subst. f_equal.
        assert (y = y0) as -> by congruence. f_equal. by specialize (proj2 (IH _) H4) as [= ->].
      * split; [done|]. inversion 1; subst. by specialize (proj2 (IH _) H4).
    + split; [done|]. inversion 1; congruence.
Qed.

(** A file parameter: trimmed, not empty, at most 512 bytes, without NUL. *)
Definition file_value_ok (value : rstr) : Prop :=
  trim value ≠ [] ∧ str_len (trim value) ≤ MAX_COMPOSE_FILE_CHARS ∧ 0%N ∉ trim value.

Lemma compose_file_value_spec value file : compose_file_value value = inl file ↔ file_value_ok value ∧ file = trim value.
Proof.
  unfold compose_file_value, file_value_ok, contains_char, one_of. cbv zeta. case_bool_decide as E; [naive_solver|].
  destruct (Nat.ltb_spec MAX_COMPOSE_FILE_CHARS (str_len (trim value))) as [Hl|Hl]; cbn [orb].
  - split; [done|]. intros [(_ & Hle & _) _]. lia.
  - case_bool_decide; naive_solver.
Qed.

(** The queries of a scan that are accepted, and what they are read into. *)
Lemma parse_compose_scan_query_spec `{FormUrlencoded} raw files :
  parse_compose_scan_query (Some raw) = inl files ↔
  strict_form_urlencoded_utf8 raw = true ∧ Forall (λ p, p.1 = ("file" : rstr) ∧ file_value_ok p.2) (form_parse raw) ∧
  length (form_parse raw) ≤ MAX_COMPOSE_FILES ∧ files = (trim ∘ snd) <$> form_parse raw.
Proof.
  unfold parse_compose_scan_query, decode_query. cbn [default from_option id]. rewrite strict_decoders_agree.
  destruct (strict_form_urlencoded_utf8 raw); [|naive_solver].
  set (check := λ pair : rstr * rstr, if pair.1 != ("file" : rstr) then inr malformed_query else inl pair.2).
  assert (Hcheck : ∀ p v, check p = inl v ↔ p.1 = ("file" : rstr) ∧ v = p.2).
  { intros [n v'] v. unfold check. cbn [fst snd]. case_bool_decide; cbn [negb]; naive_solver. }
  assert (Hnames : ∀ pairs vs, Forall2 (λ p v, check p = inl v) pairs vs ↔ Forall (λ p, p.1 = ("file" : rstr)) pairs ∧ vs = pairs.*2).
  { intros pairs vs. split.
    - induction 1 as [|p v pairs vs Hp _ [IH1 IH2]]; [done|]. apply Hcheck in Hp as [? ->]. subst vs. by split; [constructor|].
    - intros [Hf ->]. induction Hf as [|p pairs Hp _ IH]; [constructor|]. constructor; [by apply Hcheck|done]. }
  assert (Hvalues : ∀ vs fs, Forall2 (λ v f, compose_file_value v = inl f) vs fs ↔ Forall file_value_ok vs ∧ fs = trim <$> vs).
  { intros vs fs. split.
    - induction 1 as [|v f vs fs Hv _ [IH1 IH2]]; [done|]. apply compose_file_value_spec in Hv as [? ->]. subst fs. by split; [constructor|].
    - intros [Hf ->]. induction Hf as [|v vs Hv _ IH]; [constructor|]. constructor; [by apply compose_file_value_spec|done]. }
  destruct (collect_results check (form_parse raw)) as [vs|e] eqn:Ec.
  - apply collect_results_spec, Hnames in Ec as [Hn ->]. unfold validate_compose_files.
    destruct (collect_results compose_file_value (form_parse raw).*2) as [fs|e] eqn:Ev.
    + apply collect_results_spec, Hvalues in Ev as [Hv ->]. rewrite !length_fmap.
      assert (Hb : Forall (λ p, p.1 = ("file" : rstr) ∧ file_value_ok p.2) (form_parse raw)).
      { rewrite Forall_fmap in Hv. rewrite Forall_forall in Hn, Hv |- *. intros p Hp. split; [by apply Hn|by apply (Hv p)]. }
      rewrite <- list_fmap_compose. destruct (Nat.ltb_spec MAX_COMPOSE_FILES (length (form_parse raw))); [|naive_solver].
      split; [done|]. intros (_ & _ & Hl & _). lia.
    + split; [done|]. intros (_ & Hb & _ & ->). assert (Hv : collect_results compose_file_value (form_parse raw).*2 = inl (trim <$> (form_parse raw).*2)); [|congruence].
      apply collect_results_spec, Hvalues. split; [|done]. rewrite Forall_fmap. eapply Forall_impl; [exact Hb|]. naive_solver.
  - split; [done|]. intros (_ & Hb & _ & ->). assert (Hv : collect_results check (form_parse raw) = inl (form_parse raw).*2); [|congruence].
    apply collect_results_spec, Hnames. split; [|done]. eapply Forall_impl; [exact Hb|]. naive_solver.
Qed.

(** ** Files stay below the root *)

Lemma collect_results_fmap {A B C E} (f : A → B + E) (g : C → A) l :
  collect_results f (g <$> l) = collect_results (f ∘ g) l.
Proof. induction l as [|x l IH]; [done|]. rewrite fmap_cons. cbn [collect_results]. by rewrite IH. Qed.

Lemma find_first {A} (f : A → bool) l x :
  find f l = Some x ↔ ∃ before after, l = before ++ x :: after ∧ f x = true ∧ Forall (λ y, f y = false) before.
Proof.
  split.
  - induction l as [|y l IH]; [done|]. cbn [find]. destruct (f y) eqn:E.
    + intros [= ->]. by exists [], l.
    + intros (before & after & -> & Hx & Hb)%IH. exists (y :: before), after. split_and!; [done|done|by constructor].
  - intros (before & after & -> & Hx & Hb). induction Hb as [|y before Hy _ IH]; cbn [find app]; [by rewrite Hx|by rewrite Hy].
Qed.

Section confined.
Context `{Host} `{HostPaths}.

(** The entry reached from a directory through the components. *)
Definition entry_at (root : rstr) (components : list Component) : rstr :=
  foldl path_push root (as_os_str <$> components).

(** A requested name stands for a file: a regular file below the root, named without [..] and NUL, and reached
    from the root through entries each of which can be inspected and is no symbolic link. *)
Definition resolves (root requested file : rstr) : Prop :=
  trim requested ≠ [] ∧ 0%N ∉ requested ∧ ParentDir ∉ components requested ∧
  let candidate := if is_absolute requested then requested else path_push root requested in
  ∃ relative, path_strip_prefix candidate root = Some relative ∧
    (∀ before c after, relative = before ++ c :: after → host_symlink (entry_at root (before ++ [c])) = Some false) ∧
    host_canonicalize candidate = inl file ∧ path_starts_with file root = true ∧ host_is_file file = true.

Lemma inspect_entries_spec root relative : inspect_entries root relative = None ↔
  ∀ before c after, relative = before ++ c :: after → host_symlink (entry_at root (before ++ [c])) = Some false.
Proof.
  revert root. induction relative as [|d relative IH]; intros root; cbn [inspect_entries].
  - split; [|done]. intros _ before c after E. by destruct before.
  - split.
    + destruct (host_symlink (path_push root (as_os_str d))) as [[]|] eqn:E; try done. intros Hi before c after Eb.
      destruct before as [|b before]; cbn [app] in Eb; injection Eb as -> ->; [done|].
      exact (proj1 (IH _) Hi before c after eq_refl).
    + intros Hall. pose proof (Hall [] d relative eq_refl) as Hd. unfold entry_at in Hd. cbn in Hd. rewrite Hd.
      apply IH. intros before c after ->. exact (Hall (d :: before) c after eq_refl).
Qed.

Lemma resolve_scannable_file_spec root requested file :
  resolve_scannable_file root requested = inl file ↔ resolves root requested file.
Proof.
  unfold resolve_scannable_file, resolves. destruct (_ || contains_char requested 0) eqn:E1.
  { split; [done|]. intros (Ht & Hn & _). unfold contains_char, one_of in E1.
    by apply orb_prop in E1 as [?%bool_decide_eq_true|?%bool_decide_eq_true]. }
  apply orb_false_elim in E1 as [Ht%bool_decide_eq_false Hn%bool_decide_eq_false].
  destruct (existsb _ (components requested)) eqn:E2.
  { split; [done|]. intros (_ & _ & Hp & _). apply existsb_exists in E2 as (c & Hc%list_elem_of_In & ->%bool_decide_eq_true). done. }
  assert (Hp : ParentDir ∉ components requested).
  { intros Hin. apply not_true_iff_false in E2. apply E2, existsb_exists. exists ParentDir.
    split; [by apply list_elem_of_In|by apply bool_decide_eq_true]. }
  cbv zeta. set (candidate := if is_absolute requested then requested else path_push root requested).
  unfold reject_symlink_path. destruct (path_strip_prefix candidate root) as [relative|]; [|split; [done|]; by intros (_ & _ & _ & ? & ? & _)].
  pose proof (inspect_entries_spec root relative) as Hs. destruct (inspect_entries root relative) as [e|].
  { split; [done|]. intros (_ & _ & _ & r & [= <-] & Hr & _). by apply Hs in Hr. }
  destruct (host_canonicalize candidate) as [canonical|e]; [|split; [done|]; by intros (_ & _ & _ & ? & _ & _ & ? & _)].
  destruct (path_starts_with canonical root) eqn:E6, (host_is_file canonical) eqn:E7; cbn [negb];
    (split; [try done|intros (_ & _ & _ & r & _ & _ & [= <-] & ? & ?); try congruence]).
  intros [= <-]. split_and!; try done. exists relative. split_and!; try done. by apply Hs.
Qed.

(** The names a request stands for: those it gives, or the Compose files of the root. *)
Definition requested_files (root : rstr) (query : list rstr) : list rstr :=
  if query == [] then below_root root <$> discover_compose_files root else query.

Definition selected (root : rstr) (query files : list rstr) : Prop := Forall2 (resolves root) (requested_files root query) files.

Lemma resolve_all root l files : collect_results (resolve_scannable_file root) l = inl files ↔ Forall2 (resolves root) l files.
Proof.
  rewrite collect_results_spec. split; intros Hf; (eapply Forall2_impl; [exact Hf|]); intros x y; apply resolve_scannable_file_spec.
Qed.

Lemma selected_spec root query files :
  (if negb (query == []) then collect_results (resolve_scannable_file root) query else resolve_discovered root) = inl files
  ↔ selected root query files.
Proof.
  unfold selected, requested_files. destruct (query == []); cbn [negb]; [|apply resolve_all].
  rewrite <- resolve_all, collect_results_fmap. done.
Qed.

(** The files a command line names, in order; a last [--format] may lack its value. *)
Inductive names_files : list rstr → list rstr → Prop :=
  | names_none : names_files [] []
  | names_file value args files : names_files args files → names_files (("--file" : rstr) :: value :: args) (value :: files)
  | names_format value args files : names_files args files → names_files (("--format" : rstr) :: value :: args) files
  | names_last_format : names_files [("--format" : rstr)] [].

Lemma cli_loop_spec root n args acc files : length args ≤ n →
  cli_compose_files_loop root acc args = inl files ↔
  ∃ requested rest, names_files args requested ∧ Forall2 (resolves root) requested rest ∧ files = acc ++ rest.
Proof.
  assert (Hne : ("--format" : rstr) ≠ "--file") by done.
  revert args acc. induction n as [|n IH]; intros args acc Hn.
  all: destruct args as [|arg rest]; cbn [cli_compose_files_loop length] in *; try lia.
  1, 2: split; [intros [= <-]; exists [], []; split_and!; [constructor|constructor|by rewrite app_nil_r]|];
    intros (requested & rest & Hr & Hf & ->); inversion Hr; subst; inversion Hf; by rewrite app_nil_r.
  destruct (bool_decide_reflect (arg = ("--file" : rstr))) as [->|Hfile].
  { destruct rest as [|value rest]; [split; [done|]; intros (? & ? & Hr & _); inversion Hr|]. cbn [length] in Hn.
    pose proof (resolve_scannable_file_spec root value) as Hs. destruct (resolve_scannable_file root value) as [file|e].
    - rewrite (IH rest) by lia. split.
      + intros (requested & tail & Hr & Hf & ->). exists (value :: requested), (file :: tail).
        split_and!; [by constructor|constructor; [by apply Hs|done]|by rewrite <- app_assoc].
      + intros (requested & tail & Hr & Hf & ->). inversion Hr; subst. inversion Hf; subst.
        match goal with Hv : resolves root value ?y |- _ => apply Hs in Hv as [= <-] end. eexists _, _. split_and!; [done|done|].
        by rewrite <- app_assoc.
    - split; [done|]. intros (requested & tail & Hr & Hf & ->). inversion Hr; subst. inversion Hf; subst.
      match goal with Hv : resolves root value ?y |- _ => by apply Hs in Hv end. }
  destruct (bool_decide_reflect (arg = ("--format" : rstr))) as [->|Hformat].
  { destruct rest as [|value rest].
    - split; [intros [= <-]; exists [], []; split_and!; [constructor|constructor|by rewrite app_nil_r]|].
      intros (requested & tail & Hr & Hf & ->). inversion Hr; subst. inversion Hf; subst. by rewrite app_nil_r.
    - cbn [length] in Hn. rewrite (IH rest) by lia. split; intros (requested & tail & Hr & Hf & ->); exists requested, tail;
        (split_and!; [|done|done]); [by constructor|]. by inversion Hr; subst. }
  split; [done|]. intros (requested & tail & Hr & _). by inversion Hr; subst.
Qed.

Lemma cli_compose_files_spec root args files :
  cli_compose_files root args = inl files ↔ ∃ requested, names_files args requested ∧ selected root requested files.
Proof.
  pose proof (λ l, cli_loop_spec root (length args) args [] l (le_n _)) as Hl. cbn [app] in Hl.
  assert (Hdisc : resolve_discovered root = inl files ↔ selected root [] files) by apply (selected_spec root []).
  unfold cli_compose_files. split.
  - destruct (cli_compose_files_loop root [] args) as [[|file l]|e]; [| |done].
    + destruct (proj1 (Hl []) eq_refl) as (requested & rest & Hr & Hf & <-). apply Forall2_nil_inv_r in Hf as ->.
      intros Hd. exists []. split; [done|]. by apply Hdisc.
    + destruct (proj1 (Hl (file :: l)) eq_refl) as (requested & rest & Hr & Hf & <-). intros [= <-].
      exists requested. split; [done|]. unfold selected, requested_files. by inversion Hf; subst.
  - intros (requested & Hr & Hs). destruct requested as [|x requested].
    + rewrite (proj2 (Hl []) ltac:(exists [], []; by split_and!)). by apply Hdisc.
    + assert (Hf : Forall2 (resolves root) (x :: requested) files) by exact Hs.
      rewrite (proj2 (Hl files) ltac:(exists (x :: requested), files; by split_and!)). by inversion Hf; subst.
Qed.

Context `{FormUrlencoded} `{Sha256} `{Yaml}.

(** A scan or graph request that is served: the scan it is answered from. *)
Definition scanned (env : rstr → EnvVar) (raw : option rstr) (scan : ComposeScan) : Prop :=
  ∃ query root files, parse_compose_scan_query raw = inl query ∧ project_root env = inl root ∧
    selected root query files ∧ scan_compose_files root files = inl scan.

(** One that is refused: its query, the root, its files or the scan, in this order. *)
Inductive scan_refused (env : rstr → EnvVar) (raw : option rstr) : ApiError → Prop :=
  | scan_bad_query e : parse_compose_scan_query raw = inr e → scan_refused env raw e
  | scan_no_root query m : parse_compose_scan_query raw = inl query → project_root env = inr m →
      scan_refused env raw compose_inspection_unavailable
  | scan_no_file query root : parse_compose_scan_query raw = inl query → project_root env = inl root →
      (∀ files, ¬ selected root query files) → scan_refused env raw compose_file_unavailable
  | scan_failed query root files m : parse_compose_scan_query raw = inl query → project_root env = inl root →
      selected root query files → scan_compose_files root files = inr m → scan_refused env raw compose_scan_unavailable.

(** The common part of both routes. *)
Definition scan_request (env : rstr → EnvVar) (raw : option rstr) : ComposeScan + ApiError :=
  match parse_compose_scan_query raw with inl query => scan_compose_query env query | inr e => inr e end.

Lemma scan_request_spec env raw :
  (∀ scan, scan_request env raw = inl scan ↔ scanned env raw scan) ∧
  (∀ e, scan_request env raw = inr e ↔ scan_refused env raw e).
Proof.
  unfold scan_request, scan_compose_query, scanned. split; [intros scan|intros e]; split.
  - destruct (parse_compose_scan_query raw) as [query|]; [|done]. destruct (project_root env) as [root|]; [|done].
    destruct (if _ : bool then _ else _) as [files|] eqn:Ef; [|done]. apply selected_spec in Ef.
    destruct (scan_compose_files root files) eqn:Es; [|done]. intros [= <-]. by exists query, root, files.
  - by intros (query & root & files & -> & -> & ->%selected_spec & ->).
  - destruct (parse_compose_scan_query raw) as [query|] eqn:Eq; [|intros [= <-]; by constructor].
    destruct (project_root env) as [root|] eqn:Er; [|intros [= <-]; by eapply scan_no_root].
    destruct (if _ : bool then _ else _) as [files|] eqn:Ef.
    + apply selected_spec in Ef. destruct (scan_compose_files root files) eqn:Es; [done|]. intros [= <-]. by eapply scan_failed.
    + intros [= <-]. eapply scan_no_file; [done|done|]. intros files Hs%selected_spec. congruence.
  - intros [e' Hq|query m Hq Hr|query root Hq Hr Hf|query root files m Hq Hr Hf Hs]; rewrite Hq; try done; rewrite Hr; try done.
    + destruct (if _ : bool then _ else _) as [files|] eqn:Ef; [|done]. apply selected_spec in Ef. by destruct (Hf files).
    + by rewrite (proj2 (selected_spec _ _ _) Hf), Hs.
Qed.
(** *** Edit plans *)

(** A parameter that was read: trimmed, within its bound, without NUL. *)
Definition query_text (maximum : nat) (value : rstr) : Prop := trim value = value ∧ str_len value ≤ maximum ∧ 0%N ∉ value.

Lemma validate_optional_raw_query_spec value maximum v :
  validate_optional_raw_query value maximum = inl v → query_text maximum v.
Proof.
  unfold validate_optional_raw_query, query_text. cbv zeta. destruct (_ || _) eqn:E; [done|]. intros [= <-].
  apply orb_false_elim in E as [Hl%Nat.ltb_ge Hn%bool_decide_eq_false]. by rewrite trim_idem.
Qed.

(** What the parsed query of an edit plan is made of. *)
Definition edit_query_ok (q : ComposeEditPlanQuery) : Prop :=
  query_text MAX_COMPOSE_FILE_CHARS (eq_file q) ∧ eq_file q ≠ [] ∧
  query_text MAX_COMPOSE_SERVICE_CHARS (eq_service q) ∧ eq_service q ≠ [] ∧ (eq_mount q <= usize_max)%N ∧
  (∀ v, eq_source q = Some v → query_text MAX_COMPOSE_FILE_CHARS v) ∧
  (∀ v, eq_target q = Some v → query_text MAX_COMPOSE_FILE_CHARS v).

Lemma required_spec values name maximum v : required values name maximum = inl v → query_text maximum v ∧ v ≠ [].
Proof.
  unfold required, validate_required_raw_query. destruct (values !! name) as [value|]; [|done].
  destruct (validate_optional_raw_query value maximum) as [w|] eqn:E; [|done]. apply validate_optional_raw_query_spec in E.
  case_bool_decide; [done|]. by intros [= <-].
Qed.

Lemma optional_spec values name o v : optional values name = inl o → o = Some v → query_text MAX_COMPOSE_FILE_CHARS v.
Proof.
  unfold optional. destruct (values !! name) as [value|]; [|by intros [= <-]].
  destruct (validate_optional_raw_query _ _) as [w|] eqn:E; [|done]. intros [= <-] [= <-].
  by eapply validate_optional_raw_query_spec.
Qed.

Lemma parse_uint_bound maximum s n : parse_uint maximum s = Some n → (n <= maximum)%N.
Proof.
  unfold parse_uint. destruct (strip_plus s); [done|]. destruct (parse_digits _ _) as [m|]; [|done]. cbn [mbind option_bind].
  destruct (N.leb_spec m maximum); [|done]. by intros [= <-].
Qed.

Lemma parse_edit_query_ok raw q : parse_compose_edit_plan_query raw = inl q → edit_query_ok q.
Proof.
  unfold parse_compose_edit_plan_query. destruct (decode_query raw) as [pairs|]; [|done].
  destruct (collect_params _ _ pairs) as [values|]; [|done]. destruct (required values "file" _) as [file|] eqn:E1; [|done].
  destruct (required values "service" _) as [service|] eqn:E2; [|done]. destruct (required values "mount" _) as [m|]; [|done].
  destruct (negb _); [done|]. destruct (parse_uint usize_max m) as [mount|] eqn:Em; [|done].
  destruct (optional values "source") as [source|] eqn:E3; [|done]. destruct (optional values "target") as [target|] eqn:E4; [|done].
  intros [= <-]. apply required_spec in E1 as [], E2 as []. unfold edit_query_ok. cbn [eq_file eq_service eq_mount eq_source eq_target].
  split_and!; try done; [by apply parse_uint_bound in Em|intros v; by eapply optional_spec|intros v; by eapply optional_spec].
Qed.

(** An optional parameter that is given and not blank. *)
Definition given (value : option rstr) : option rstr := match value with Some [] => None | _ => value end.

Lemma validate_again value name maximum : (∀ v, value = Some v → query_text maximum v) →
  validate_optional_query value name maximum = inl (given value).
Proof.
  intros Hv. destruct value as [value|]; [|done]. destruct (Hv _ eq_refl) as (Ht & Hl & Hn). cbn [validate_optional_query]. rewrite Ht.
  destruct value as [|c value]; [done|]. rewrite bool_decide_eq_false_2 by done.
  pose proof (char_count_str_len (c :: value)). rewrite (proj2 (Nat.ltb_ge _ _)) by lia. unfold contains_char, one_of.
  by rewrite bool_decide_eq_false_2.
Qed.

Lemma validate_service q : edit_query_ok q →
  validate_required_value (eq_service q) "service" MAX_COMPOSE_SERVICE_CHARS = inl (eq_service q).
Proof.
  intros (_ & _ & Hs & Hne & _). unfold validate_required_value. rewrite validate_again by (by intros ? [= <-]).
  by destruct (eq_service q).
Qed.

(** The mount an edit plan is for: the first with the index of the service. *)
Definition requested_mount (q : ComposeEditPlanQuery) (scan : ComposeScan) (mount : ComposeMount) : Prop :=
  ∃ before after, csc_mounts scan = before ++ mount :: after ∧
    is_requested_mount (eq_service q) (eq_mount q) mount = true ∧
    Forall (λ m, is_requested_mount (eq_service q) (eq_mount q) m = false) before.

Definition mount_not_found (q : ComposeEditPlanQuery) : ApiError :=
  {| ae_status := 404; ae_message := "mount " +s+ dec_str (eq_mount q) +s+ " for service `" +s+ eq_service q +s+ "` not found" |}.

(** A request for a plan that is served. *)
Definition planned (env : rstr → EnvVar) (reread : rstr → option (list N)) (raw : option rstr) (plan : ComposeEditPlan) : Prop :=
  ∃ query root file scan mount bytes content, parse_compose_edit_plan_query raw = inl query ∧ project_root env = inl root ∧
    resolves root (eq_file query) file ∧ scan_compose_files root [file] = inl scan ∧ requested_mount query scan mount ∧
    reread file = Some bytes ∧ from_utf8 bytes = Utf8_ok content ∧
    plan = redact_compose_edit_plan (plan_compose_mount_edit file content mount (given (eq_source query)) (given (eq_target query))).

(** One that is refused, in the order of the checks. *)
Inductive plan_refused (env : rstr → EnvVar) (reread : rstr → option (list N)) (raw : option rstr) : ApiError → Prop :=
  | plan_bad_query e : parse_compose_edit_plan_query raw = inr e → plan_refused env reread raw e
  | plan_no_root query m : parse_compose_edit_plan_query raw = inl query → project_root env = inr m →
      plan_refused env reread raw compose_inspection_unavailable
  | plan_no_file query root : parse_compose_edit_plan_query raw = inl query → project_root env = inl root →
      (∀ file, ¬ resolves root (eq_file query) file) → plan_refused env reread raw compose_file_unavailable
  | plan_no_scan query root file m : parse_compose_edit_plan_query raw = inl query → project_root env = inl root →
      resolves root (eq_file query) file → scan_compose_files root [file] = inr m →
      plan_refused env reread raw compose_scan_unavailable
  | plan_no_mount query root file scan : parse_compose_edit_plan_query raw = inl query → project_root env = inl root →
      resolves root (eq_file query) file → scan_compose_files root [file] = inl scan →
      (∀ mount, ¬ requested_mount query scan mount) → plan_refused env reread raw (mount_not_found query)
  | plan_unread query root file scan mount : parse_compose_edit_plan_query raw = inl query → project_root env = inl root →
      resolves root (eq_file query) file → scan_compose_files root [file] = inl scan → requested_mount query scan mount →
      (∀ bytes content, reread file = Some bytes → from_utf8 bytes ≠ Utf8_ok content) →
      plan_refused env reread raw compose_file_unavailable.

Lemma requested_mount_find q scan mount :
  find (is_requested_mount (eq_service q) (eq_mount q)) (csc_mounts scan) = Some mount ↔ requested_mount q scan mount.
Proof. apply find_first. Qed.

Lemma edit_plan_request_spec env reread raw :
  (∀ plan, get_compose_edit_plan env reread raw = inl plan ↔ planned env reread raw plan) ∧
  (∀ e, get_compose_edit_plan env reread raw = inr e ↔ plan_refused env reread raw e).
Proof.
  assert (Hpart : ∀ query, parse_compose_edit_plan_query raw = inl query →
    validate_required_value (eq_service query) "service" MAX_COMPOSE_SERVICE_CHARS = inl (eq_service query) ∧
    validate_optional_query (eq_source query) "source" MAX_COMPOSE_FILE_CHARS = inl (given (eq_source query)) ∧
    validate_optional_query (eq_target query) "target" MAX_COMPOSE_FILE_CHARS = inl (given (eq_target query))).
  { intros query Hq%parse_edit_query_ok. split; [by apply validate_service|].
    destruct Hq as (_ & _ & _ & _ & _ & Hs & Ht). by split; apply validate_again. }
  unfold get_compose_edit_plan, planned. split; [intros plan|intros e]; split.
  - destruct (parse_compose_edit_plan_query raw) as [query|] eqn:Eq; [|done]. destruct (Hpart query eq_refl) as (-> & -> & ->).
    destruct (project_root env) as [root|]; [|done].
    destruct (resolve_scannable_file root _) as [file|] eqn:Ef; [|done]. apply resolve_scannable_file_spec in Ef.
    destruct (scan_compose_files root [file]) as [scan|] eqn:Es; [|done].
    destruct (find _ (csc_mounts scan)) as [mount|] eqn:Em; [|done]. apply requested_mount_find in Em.
    destruct (reread file) as [bytes|] eqn:Eb; [|done]. cbn [fmap option_fmap option_map].
    destruct (from_utf8 bytes) as [content|] eqn:Eu; [|done]. intros [= <-].
    by exists query, root, file, scan, mount, bytes, content.
  - intros (query & root & file & scan & mount & bytes & content & Eq & Er & Ef%resolve_scannable_file_spec & Es &
      Em%requested_mount_find & Eb & Eu & ->). rewrite Eq. destruct (Hpart query Eq) as (-> & -> & ->).
    rewrite Er, Ef, Es, Em, Eb. cbn [fmap option_fmap option_map]. by rewrite Eu.
  - destruct (parse_compose_edit_plan_query raw) as [query|] eqn:Eq; [|intros [= <-]; by constructor].
    destruct (Hpart query eq_refl) as (-> & -> & ->).
    destruct (project_root env) as [root|] eqn:Er; [|intros [= <-]; by eapply plan_no_root].
    destruct (resolve_scannable_file root _) as [file|] eqn:Ef.
    2:{ intros [= <-]. eapply plan_no_file; [done|done|]. intros file Hf%resolve_scannable_file_spec. congruence. }
    apply resolve_scannable_file_spec in Ef.
    destruct (scan_compose_files root [file]) as [scan|] eqn:Es; [|intros [= <-]; by eapply plan_no_scan].
    destruct (find _ (csc_mounts scan)) as [mount|] eqn:Em.
    2:{ intros [= <-]. eapply plan_no_mount; [done|done|done|done|]. intros mount Hm%requested_mount_find. congruence. }
    apply requested_mount_find in Em. intros Hread. assert (e = compose_file_unavailable ∧
      ∀ bytes content, reread file = Some bytes → from_utf8 bytes ≠ Utf8_ok content) as [-> Hno].
    { destruct (reread file) as [bytes|]; cbn [fmap option_fmap option_map] in Hread; [|by injection Hread as <-].
      destruct (from_utf8 bytes) eqn:Eu; [done|..]; injection Hread as <-; (split; [done|]); intros ? ? [= <-]; by rewrite Eu. }
    by eapply plan_unread.
  - intros [e' Eq|query m Eq Er|query root Eq Er Hf|query root file m Eq Er Hf Es|query root file scan Eq Er Hf Es Hm
      |query root file scan mount Eq Er Hf Es Hm Hu]; rewrite Eq; try done; rewrite Er; try done.
    { destruct (resolve_scannable_file root _) as [file|] eqn:Ef; [|done]. apply resolve_scannable_file_spec in Ef. by destruct (Hf file). }
    all: apply resolve_scannable_file_spec in Hf as ->; destruct (Hpart query Eq) as (-> & -> & ->); rewrite Es; try done.
    + destruct (find _ (csc_mounts scan)) as [mount|] eqn:Em; [|done]. apply requested_mount_find in Em. by destruct (Hm mount).
    + apply requested_mount_find in Hm as ->. destruct (reread file) as [bytes|]; [|done]. cbn [fmap option_fmap option_map].
      destruct (from_utf8 bytes) as [content|] eqn:Eu; try done. by destruct (Hu bytes content eq_refl).
Qed.

(** A plan is published redacted and never to be written. *)
Lemma planned_facts env reread raw plan : planned env reread raw plan →
  cep_will_write plan = false ∧ ∃ p, plan = redact_compose_edit_plan p.
Proof.
  intros (query & root & file & scan & mount & bytes & content & _ & _ & _ & _ & _ & _ & _ & ->). split; [|by eexists].
  unfold redact_compose_edit_plan, plan_compose_mount_edit. cbn [cep_will_write]. by repeat case_match.
Qed.

(** *** The command line *)

(** What a command prints of a scan, and its exit code. *)
Inductive prints (args : list rstr) (scan : ComposeScan) : rstr → N → CliOutput → Prop :=
  | prints_scan : prints args scan "scan" 0 (Print_scan scan)
  | prints_export : default ("json" : rstr) (cli_option_value args "--format") = "json" →
      prints args scan "export" 0 (Print_scan scan)
  | prints_diagnostics : prints args scan "validate" (if has_blocking_diagnostics (csc_diagnostics scan) then 1 else 0)
      (Print_diagnostics (csc_diagnostics scan)).

Lemma run_cli_spec env command args code output :
  run_cli env command args = inl (code, output) ↔
  ∃ root requested files scan, project_root env = inl root ∧ names_files args requested ∧ selected root requested files ∧
    scan_compose_files root files = inl scan ∧ prints args scan command code output.
Proof.
  unfold run_cli. split.
  - destruct (project_root env) as [root|]; [|done]. destruct (cli_compose_files root args) as [files|] eqn:Ef; [|done].
    apply cli_compose_files_spec in Ef as (requested & Hr & Hs). destruct (scan_compose_files root files) as [scan|] eqn:Es; [|done].
    intros Hc. exists root, requested, files, scan. split_and!; [done..|].
    case_bool_decide as E1; [subst; injection Hc as <- <-; constructor|].
    case_bool_decide as E2; [subst; injection Hc as <- <-; constructor|].
    case_bool_decide as E3; [|done]. subst. cbv zeta in Hc. case_bool_decide as E4; [|done]. cbn [negb] in Hc.
    injection Hc as <- <-. by constructor.
  - intros (root & requested & files & scan & -> & Hr & Hs & Es & Hp).
    rewrite (proj2 (cli_compose_files_spec root args files)) by eauto. rewrite Es.
    destruct Hp as [|Hf|]; try done. cbv zeta. by rewrite Hf.
Qed.

(** C7: What the Compose routes and the command line answer, exactly. A scan or a graph is answered
    exactly when the query is well formed, the project root exists, every requested name (or every
    discovered Compose file, without one) stands for a regular file below the root reached without [..]
    and without a symbolic link, and the scan of these files succeeds; an edit plan exactly when
    so does its one file, the service has the mount, and the file can be read again. The routes publish
    the redacted result, with correlations only from live data unless sample data is allowed,
    and no plan is ever to be written. Every other request is refused with the error of the first of
    these checks that fails. The command line confines its files alike, but prints the scan, or its
    diagnostics, as they are. *)
Theorem compose_requests_confined env cache allow reread raw args command :
  (∀ published, get_compose_scan env cache allow raw = inl published ↔
     ∃ scan correlations, scanned env raw scan ∧ published = redact_compose_scan (with_correlations scan correlations) ∧
       ((allow = true ∨ dc_mode cache = Mode_Docker) ∧ correlations = correlate_compose_runtime scan (dc_snapshot cache) ∨
        allow = false ∧ dc_mode cache = Mode_Mock ∧ correlations = [])) ∧
  (∀ e, get_compose_scan env cache allow raw = inr e ↔ scan_refused env raw e) ∧
  (∀ graph, get_compose_graph env raw = inl graph ↔
     ∃ scan, scanned env raw scan ∧ graph = derive_compose_graph (redact_compose_scan scan)) ∧
  (∀ e, get_compose_graph env raw = inr e ↔ scan_refused env raw e) ∧
  (∀ plan, get_compose_edit_plan env reread raw = inl plan ↔ planned env reread raw plan) ∧
  (∀ plan, get_compose_edit_plan env reread raw = inl plan → cep_will_write plan = false) ∧
  (∀ e, get_compose_edit_plan env reread raw = inr e ↔ plan_refused env reread raw e) ∧
  (∀ code output, run_cli env command args = inl (code, output) ↔
     ∃ root requested files scan, project_root env = inl root ∧ names_files args requested ∧ selected root requested files ∧
       scan_compose_files root files = inl scan ∧ prints args scan command code output).
Proof.
  destruct (scan_request_spec env raw) as [Hok Herr]. destruct (edit_plan_request_spec env reread raw) as [Hplan Hplan_err].
  assert (Hs : get_compose_scan env cache allow raw = match scan_request env raw with
    | inl scan => inl (redact_compose_scan (apply_runtime_correlations scan cache allow)) | inr e => inr e end).
  { unfold get_compose_scan, scan_request. by destruct (parse_compose_scan_query raw). }
  assert (Hg : get_compose_graph env raw = match scan_request env raw with
    | inl scan => inl (derive_compose_graph (redact_compose_scan scan)) | inr e => inr e end).
  { unfold get_compose_graph, scan_request. by destruct (parse_compose_scan_query raw). }
  rewrite Hs, Hg. split_and!; [..|done| |done|by apply run_cli_spec].
  - intros published. split.
    + destruct (scan_request env raw) as [scan|]; [|done]. intros [= <-]. pose proof (proj1 (Hok scan) eq_refl) as E. exists scan.
      unfold apply_runtime_correlations. destruct allow; cbn [orb]; [eexists; split_and!; [done|reflexivity|auto]|].
      destruct (dc_mode cache) eqn:Em; cbn [negb]; eexists; split_and!; try done; try reflexivity; auto.
    + intros (scan & correlations & ->%Hok & -> & Hc). unfold apply_runtime_correlations.
      destruct Hc as [[[->|Hm] ->]|(-> & Hm & ->)]; [done|rewrite Hm; by destruct allow|by rewrite Hm].
  - intros e. rewrite <- Herr. destruct (scan_request env raw); naive_solver.
  - intros graph. split; [|by intros (scan & ->%Hok & ->)].
    destruct (scan_request env raw) as [scan|]; [|done]. intros [= <-]. exists scan. split; [by apply Hok|done].
  - intros e. rewrite <- Herr. destruct (scan_request env raw); naive_solver.
  - intros plan Hp%Hplan. by apply planned_facts in Hp as [? _].
Qed.
End confined.

(** ** The binding of a refresh *)

Section refresh_binding.
Context `{Host} `{HostPaths} `{Sha256} `{Yaml}.

Lemma binding_scan_files first second root files scan project fingerprint :
  scan_compose_binding_snapshot first second root files = Some (scan, project, fingerprint) →
  csc_files scan = files ∧ project ≠ [].
Proof.
  unfold scan_compose_binding_snapshot. destruct (mapM (capture first root) files) as [captured|] eqn:Ec; [|done].
  cbn [mbind option_bind]. destruct (existsb _ _); [done|].
  destruct (sole_name _) as [name|] eqn:En; [|done]. cbn [mbind option_bind]. intros [= <- <- _].
  destruct (capture_all _ _ _ _ Ec) as (documents & -> & Hfiles & _). split.
  - set (parsed := foldl _ _ _).
    assert (Hok : scan_ok root files files parsed); [|by destruct Hok].
    unfold parsed. rewrite <- list_fmap_compose, (list_fmap_ext _ fst) by done.
    assert (Hsub : ∀ d : rstr * rstr, d ∈ documents.*1 → d.1 ∈ files)
      by (intros d Hd; rewrite <- Hfiles; by apply list_elem_of_fmap_2).
    assert (Hempty : scan_ok root files files (empty_scan root files)).
    { assert (Ef : display_path <$> files = files) by apply list_fmap_id.
      split; [exact Ef|done|done|..]; intros ? Hin; by apply elem_of_nil in Hin. }
    revert Hempty Hsub. generalize (empty_scan root files). clear. intros start Hok Hsub. revert start Hok.
    induction (documents.*1) as [|d l IH]; intros start Hok; [done|]. cbn [foldl]. apply IH; [set_solver|].
    apply parse_file_ok; [apply Hsub; by left|done].
  - apply sole_name_spec in En. assert (Hn : name ∈ ({[name]} : gset rstr)) by set_solver. rewrite <- En in Hn.
    apply elem_of_list_to_set, list_elem_of_omap in Hn as (o & Ho & E). cbn in E. subst o.
    rewrite <- list_fmap_compose in Ho. apply list_elem_of_fmap in Ho as (d & Ed & _). by eapply trim_name.
Qed.

(** The binding of a refresh names exactly the files of its scan, all of them below the canonical project root
    and none of them a symbolic link when it was discovered, a project, the containers of the observation
    and its time; it is fresh, and the rule on missing mounts still refuses it until the
    publication gives it a provider revision. *)
Theorem refresh_binding_spec env first second containers collected_at scan b :
  bounded_compose_runtime_binding env first second containers collected_at = Some (scan, b) →
  containers = Some (crb_containers b) ∧ crb_collected_at b = collected_at ∧ crb_fresh b = true ∧ crb_project b ≠ [] ∧
  csc_files scan ≠ [] ∧ crb_config_files b = list_to_set (csc_files scan) ∧
  (∃ found root, project_root env = inl found ∧ host_canonicalize found = inl root ∧
     Forall2 (λ file canonical, host_symlink file = Some false ∧ host_canonicalize file = inl canonical ∧
                path_starts_with canonical root = true) (discover_compose_files found) (csc_files scan)) ∧
  binding_rejected scan b = true.
Proof.
  unfold bounded_compose_runtime_binding. destruct containers as [containers|]; [|done]. cbn [mbind option_bind].
  destruct (project_root env) as [found|] eqn:Er; [|done]. cbn [mbind option_bind]. cbv zeta.
  destruct (_ || existsb _ (discover_compose_files found)) eqn:E1; [done|]. bool_unfold.
  destruct (mapM _ (discover_compose_files found)) as [canonical|] eqn:E2; [|done]. cbn [mbind option_bind].
  destruct (host_canonicalize found) as [root|] eqn:E3; [|done]. cbn [mbind option_bind].
  destruct (existsb _ canonical) eqn:E4; [done|].
  destruct (scan_compose_binding_snapshot _ _ _ _) as [[[s project] fingerprint]|] eqn:E5; [|done].
  cbn [mbind option_bind]. intros [= <- <-]. cbn [crb_containers crb_collected_at crb_fresh crb_project crb_config_files].
  apply binding_scan_files in E5 as [Hfiles Hp]. apply mapM_Some in E2.
  split_and!; try done.
  - rewrite Hfiles. intros ->. apply Forall2_nil_inv_r in E2. done.
  - by rewrite Hfiles.
  - exists found, root. split_and!; [done|done|]. rewrite Hfiles.
    assert (Hlink : Forall (λ file, host_symlink file = Some false) (discover_compose_files found)).
    { apply Forall_forall. intros file Hf. match goal with H : existsb _ (discover_compose_files found) = false |- _ => rename H into Hs end.
      apply not_true_iff_false in Hs. destruct (host_symlink file) as [[]|] eqn:E; try done; exfalso; apply Hs, existsb_exists;
        exists file; (split; [by apply list_elem_of_In|by rewrite E]). }
    assert (Hroot : Forall (λ file, path_starts_with file root = true) canonical).
    { apply Forall_forall. intros file Hf. apply not_true_iff_false in E4.
      destruct (path_starts_with file root) eqn:E; [done|]. exfalso. apply E4, existsb_exists. exists file.
      split; [by apply list_elem_of_In|by rewrite E]. }
    clear -E2 Hlink Hroot. induction E2 as [|x y l k Hx _ IH]; [constructor|].
    apply Forall_cons in Hlink as [? ?], Hroot as [? ?]. constructor; [|by apply IH].
    split_and!; [done| |done]. destruct (host_canonicalize x); [by injection Hx as ->|done].
  - unfold binding_rejected. cbn [crb_fresh crb_project crb_config_files crb_provider_revision].
    do 7 (apply orb_true_intro; left). apply orb_true_intro. right. done.
Qed.
End refresh_binding.

(** ** Concrete inputs *)

Section example.
#[local] Existing Instances toy_yaml toy_host Toy_sha256.
#[local] Instance toy_paths : HostPaths := {| host_canonicalize := inl; host_symlink_error := λ _, [] |}.
#[local] Instance toy_form : FormUrlencoded := {| form_parse := λ _, [("file" : rstr, "compose.yml" : rstr)] |}.

Definition toy_env (name : rstr) : EnvVar := if name == ("DOCKERMAP_PROJECT_ROOT" : rstr) then Present "/srv" else NotPresent.

Example resolve_examples :
  resolve_scannable_file "/srv" "../etc/passwd" = inr ("compose file `../etc/passwd` must not contain parent traversal" : rstr)
  ∧ resolve_scannable_file "/srv" "/etc/passwd" = inr (outside_root "/etc/passwd" "/srv")
  ∧ main_action toy_env ["validat" : rstr] = Main_unknown "validat".
Proof. vm_compute. done. Qed.

Definition toy_cache : DaemonCache := fresh_cache "boot" {| boot_docker := []; boot_integrity := []; boot_history := [] |}
  {| s_containers := []; s_images := []; s_networks := []; s_volumes := []; s_last_updated := 0; s_model_revision := [];
     s_source := None |} (mock_health 0) (Assembly.empty_runtime_map 0) None.

(** A graph of a named file, the scan the command line prints of it, and a name that climbs out of the root. *)
Lemma compose_requests_confined_witness :
  (∃ graph scan, get_compose_graph toy_env (Some ("file=compose.yml" : rstr)) = inl graph ∧
     scanned toy_env (Some ("file=compose.yml" : rstr)) scan ∧ graph = derive_compose_graph (redact_compose_scan scan)) ∧
  (∃ scan files, run_cli toy_env "scan" ["--file" : rstr; "compose.yml" : rstr] = inl (0%N, Print_scan scan) ∧
     selected "/srv" ["compose.yml" : rstr] files ∧ scan_compose_files "/srv" files = inl scan) ∧
  (∀ file, ¬ resolves "/srv" "../etc/passwd" file).
Proof.
  destruct (compose_requests_confined toy_env toy_cache false (λ _, None) (Some ("file=compose.yml" : rstr))
    ["--file" : rstr; "compose.yml" : rstr] "scan") as (_ & _ & Hgraph & _ & _ & _ & _ & Hcli).
  split_and!.
  - assert (E : ∃ graph, get_compose_graph toy_env (Some ("file=compose.yml" : rstr)) = inl graph)
      by (eexists; vm_compute; reflexivity).
    destruct E as [graph E]. destruct (proj1 (Hgraph graph) E) as (scan & Hs & Hg). by exists graph, scan.
  - assert (E : ∃ scan, run_cli toy_env "scan" ["--file" : rstr; "compose.yml" : rstr] = inl (0%N, Print_scan scan))
      by (eexists; vm_compute; reflexivity).
    destruct E as [scan E]. destruct (proj1 (Hcli 0%N (Print_scan scan)) E) as (root & requested & files & scan' & Hr & Hn & Hf & Hs & Hp).
    assert (root = "/srv") as -> by (vm_compute in Hr; by injection Hr as <-).
    assert (requested = ["compose.yml" : rstr]) as ->.
    { inversion Hn; subst. match goal with Hn : names_files [] _ |- _ => by inversion Hn end. }
    inversion Hp; subst. exists scan, files. by split_and!.
  - intros file (_ & _ & Hparent & _). apply Hparent. vm_compute. by left.
Defined.

Lemma refresh_binding_spec_witness :
  ∃ scan b, bounded_compose_runtime_binding toy_env toy_opened toy_opened (Some []) 5 = Some (scan, b) ∧
    crb_project b = "shop" ∧ crb_config_files b = list_to_set (csc_files scan) ∧ length (csc_files scan) = 12.
Proof.
  assert (E : ∃ scan b, bounded_compose_runtime_binding toy_env toy_opened toy_opened (Some []) 5 = Some (scan, b) ∧
    crb_project b = "shop" ∧ length (csc_files scan) = 12)
    by (eexists _, _; split; [vm_compute; reflexivity|by vm_compute]).
  destruct E as (scan & b & E & Hp & Hl). exists scan, b.
  destruct (refresh_binding_spec _ _ _ _ _ _ _ E) as (_ & _ & _ & _ & _ & Hf & _).
  split; [exact E|]. split; [exact Hp|]. split; [exact Hf|exact Hl].
Defined.
End example.
