(* ===== verification/Router.v ===== *)
(** * The router of the daemon ([daemon_router] of [crates/dockermap-daemon/src/daemon_api.rs])

    Every route of the daemon, those of the cache and those of Compose, with the methods they
    answer, the bearer check around all of them and around the fallback, and the status and body of
    each response. A route is a path that [axum] has matched, with its decoded parameter or its query;
    that [get] answers [HEAD] without a body and other methods with 405 is its documented behaviour. *)

From S2P Require Import Prelude RustStr RustNum Utf8 Models Serial Identity Evidence Redaction Publication Boundary Paths Logs LogSources ObservedHistory Graph RuntimeTopology Findings ComposeBinding Scheduler Assembly Fixtures Cache CacheSystem PublishedText Compose ComposePlan DaemonApi ComposeApi.

(** ** Routes *)

Inductive Method := GET | HEAD | Method_other (name : rstr).

Inductive Route :=
  | Route_Health | Route_Snapshot | Route_Graph | Route_RuntimeMap | Route_Findings | Route_History
  | Route_Containers | Route_Container (name : rstr) | Route_Images | Route_Networks | Route_Volumes
  | Route_Logs (raw : option rstr)
  | Route_ComposeScan (raw : option rstr) | Route_ComposeGraph (raw : option rstr) | Route_ComposeEditPlan (raw : option rstr)
  | Route_NotFound.

(** The path of each route; the fallback has none. *)
Definition route_path (route : Route) : option rstr :=
  match route with
  | Route_Health => Some ("/daemon/health" : rstr)
  | Route_Snapshot => Some ("/daemon/snapshot" : rstr)
  | Route_Graph => Some ("/daemon/graph" : rstr)
  | Route_RuntimeMap => Some ("/daemon/runtime/map" : rstr)
  | Route_Findings => Some ("/daemon/findings" : rstr)
  | Route_History => Some ("/daemon/history" : rstr)
  | Route_Containers => Some ("/daemon/containers" : rstr)
  | Route_Container name => Some ("/daemon/containers/" +s+ name)
  | Route_Images => Some ("/daemon/images" : rstr)
  | Route_Networks => Some ("/daemon/networks" : rstr)
  | Route_Volumes => Some ("/daemon/volumes" : rstr)
  | Route_Logs _ => Some ("/daemon/logs" : rstr)
  | Route_ComposeScan _ => Some ("/daemon/compose/scan" : rstr)
  | Route_ComposeGraph _ => Some ("/daemon/compose/graph" : rstr)
  | Route_ComposeEditPlan _ => Some ("/daemon/compose/edit-plan" : rstr)
  | Route_NotFound => None
  end.

Inductive Body :=
  | Body_Health (h : HealthResponse) | Body_Snapshot (s : DockerSnapshot) | Body_Graph (g : GraphResponse)
  | Body_RuntimeMap (m : RuntimeMap) | Body_Findings (f : FindingsResponse) | Body_History (o : ObservedChangeHistoryResponse)
  | Body_Containers (l : list ContainerRecord) | Body_Container (c : ContainerRecord) | Body_Images (l : list ImageRecord)
  | Body_Networks (l : list NetworkRecord) | Body_Volumes (l : list VolumeRecord) | Body_Logs (r : LogsResponse)
  | Body_ComposeScan (s : ComposeScan) | Body_ComposeGraph (g : ComposeGraph) | Body_ComposeEditPlan (p : ComposeEditPlan).

(** What a request meets besides the cache: the Docker log streams, the time the sample logs
    count from, the policy on sample data, the environment, and what a Compose file holds when it is
    read for an edit plan. *)
Record Handling := {
  hd_docker : DockerLogs;
  hd_mock_base : N;
  hd_allow_mock : bool;
  hd_env : rstr → EnvVar;
  hd_reread : rstr → option (list N)
}.

Definition map_result {A B E} (f : A → B) (r : A + E) : B + E := match r with inl x => inl (f x) | inr e => inr e end.

(** A handler that publishes from the cache. *)
Definition publishing (allow_mock : bool) (cache : DaemonCache) (body : DaemonCache → Body + ApiError) : Body + ApiError :=
  match publication_cache allow_mock cache with inl cache => body cache | inr e => inr e end.

Definition route_not_found : ApiError := {| ae_status := 404; ae_message := "Route not found" |}.

(** What is sent: the JSON of a value, or the message of an error next to its code. *)
Inductive Payload := Data (body : Body) | Message (message : rstr).

Record Response := { rp_status : N; rp_payload : option Payload }.

Definition error_response (e : ApiError) : Response :=
  let '(status, message) := into_response e in {| rp_status := status; rp_payload := Some (Message message) |}.

Definition unauthorized : Response := {|
  rp_status := 401;
  rp_payload := Some (Message "A valid Bearer token is required for this DockerMap daemon route") |}.

Definition method_not_allowed : Response := {| rp_status := 405; rp_payload := None |}.

(** [get(handler)] answers [GET], and [HEAD] as [GET] without the body. *)
Definition is_get (method : Method) : bool := match method with GET | HEAD => true | Method_other _ => false end.

Definition without_body (method : Method) (r : Response) : Response :=
  match method with HEAD => {| rp_status := rp_status r; rp_payload := None |} | _ => r end.

Section router.
Context `{FormUrlencoded} `{Sha256} `{Json GraphNode} `{Json GraphEdge} `{DebugTables}.
Context `{Host} `{HostPaths} `{Yaml}.

(** The handler of each route. *)
Definition dispatch (hd : Handling) (cache : DaemonCache) (route : Route) : Body + ApiError :=
  let published := publishing (hd_allow_mock hd) cache in
  match route with
  | Route_Health => published (λ cache, inl (Body_Health (redact_health_response (dc_health cache))))
  | Route_Snapshot =>
      published (λ cache, inl (Body_Snapshot (with_source (publish_docker_snapshot (dc_snapshot cache)) (Some (dc_mode cache)))))
  | Route_Graph => published (λ cache, inl (Body_Graph (derive_graph (publish_docker_snapshot (dc_snapshot cache)))))
  | Route_RuntimeMap =>
      published (λ cache, inl (Body_RuntimeMap (map_with_source (dc_runtime_map cache) (Some (dc_mode cache)))))
  | Route_Findings => published (λ cache, inl (Body_Findings (publish_findings (dc_findings cache) (dc_mode cache))))
  | Route_History => published (λ cache, inl (Body_History (observed_history_response cache)))
  | Route_Containers =>
      published (λ cache, inl (Body_Containers (s_containers (publish_docker_snapshot (dc_snapshot cache)))))
  | Route_Container name => published (λ cache, map_result Body_Container (get_container cache name))
  | Route_Images => published (λ cache, inl (Body_Images (s_images (publish_docker_snapshot (dc_snapshot cache)))))
  | Route_Networks => published (λ cache, inl (Body_Networks (s_networks (publish_docker_snapshot (dc_snapshot cache)))))
  | Route_Volumes => published (λ cache, inl (Body_Volumes (s_volumes (publish_docker_snapshot (dc_snapshot cache)))))
  | Route_Logs raw =>
      map_result Body_Logs (get_logs (hd_docker hd) (hd_mock_base hd) (hd_allow_mock hd) cache raw)
  | Route_ComposeScan raw => map_result Body_ComposeScan (get_compose_scan (hd_env hd) cache (hd_allow_mock hd) raw)
  | Route_ComposeGraph raw => map_result Body_ComposeGraph (get_compose_graph (hd_env hd) raw)
  | Route_ComposeEditPlan raw => map_result Body_ComposeEditPlan (get_compose_edit_plan (hd_env hd) (hd_reread hd) raw)
  | Route_NotFound => inr route_not_found
  end.

(** A route that has a path answers [GET] only; the fallback answers any method. *)
Definition answer (hd : Handling) (cache : DaemonCache) (method : Method) (route : Route) : Response :=
  if is_some (route_path route) && negb (is_get method) then method_not_allowed
  else
    match dispatch hd cache route with
    | inl body => {| rp_status := 200; rp_payload := Some (Data body) |}
    | inr e => error_response e
    end.

(** [daemon_router]: the bearer check is the outermost layer, of the fallback and of wrong methods too. *)
Definition daemon_router (token authorization : option rstr) (hd : Handling) (cache : DaemonCache) (method : Method)
    (route : Route) : Response :=
  without_body method
    (if bearer_token_accepted token authorization then answer hd cache method route else unauthorized).
End router.

(** ** What the bodies say *)

(** The provider-controlled strings of log pages. *)
Definition log_strings (r : LogsResponse) : list rstr :=
  opt_strings (lr_service r) ++ (lr_entries r ≫= λ e, [le_id e; le_container e; le_message e]).

(** The strings of a body; the labels of a Compose graph and the diff of an edit plan are put together
    from redacted text and are stated apart. *)
Definition body_strings (b : Body) : list rstr :=
  match b with
  | Body_Health h => opt_strings (h_message h)
  | Body_Snapshot s => snapshot_strings s
  | Body_Graph g => graph_strings g
  | Body_RuntimeMap m => map_strings m
  | Body_Findings f => fr_findings f ≫= finding_strings
  | Body_History _ => []
  | Body_Containers l => l ≫= container_strings
  | Body_Container c => container_strings c
  | Body_Images l => l ≫= λ i, im_image i :: im_status i :: im_containers i
  | Body_Networks l => l ≫= λ n, n_id n :: n_name n :: n_driver n :: n_members n
  | Body_Volumes l => l ≫= λ v, v_id v :: v_name v :: v_attached_to v
  | Body_Logs r => log_strings r
  | Body_ComposeScan s => scan_strings s
  | Body_ComposeGraph _ => []
  | Body_ComposeEditPlan p => plan_strings p
  end.

(** The source a body names. *)
Definition body_source (b : Body) : option (option RuntimeMode) :=
  match b with
  | Body_Health h => Some (Some (h_mode h))
  | Body_Snapshot s => Some (s_source s)
  | Body_RuntimeMap m => Some (rm_source m)
  | Body_Findings f => Some (fr_source f)
  | Body_History o => Some (Some (oh_source o))
  | Body_Logs r => Some (lr_source r)
  | _ => None
  end.

(** The body a route answers with. *)
Definition body_of (route : Route) (b : Body) : bool :=
  match route, b with
  | Route_Health, Body_Health _ | Route_Snapshot, Body_Snapshot _ | Route_Graph, Body_Graph _
  | Route_RuntimeMap, Body_RuntimeMap _ | Route_Findings, Body_Findings _ | Route_History, Body_History _
  | Route_Containers, Body_Containers _ | Route_Container _, Body_Container _ | Route_Images, Body_Images _
  | Route_Networks, Body_Networks _ | Route_Volumes, Body_Volumes _ | Route_Logs _, Body_Logs _
  | Route_ComposeScan _, Body_ComposeScan _ | Route_ComposeGraph _, Body_ComposeGraph _
  | Route_ComposeEditPlan _, Body_ComposeEditPlan _ => true
  | _, _ => false
  end.

(** The routes that publish the cache, and among them those without a parameter. *)
Definition reads_cache (route : Route) : bool :=
  match route with
  | Route_ComposeScan _ | Route_ComposeGraph _ | Route_ComposeEditPlan _ | Route_NotFound => false
  | _ => true
  end.

Definition fixed_route (route : Route) : bool :=
  reads_cache route && match route with Route_Container _ | Route_Logs _ => false | _ => true end.

(** The routes with a query, and those for which something may be missing. *)
Definition takes_query (route : Route) : bool :=
  match route with
  | Route_Logs _ | Route_ComposeScan _ | Route_ComposeGraph _ | Route_ComposeEditPlan _ => true
  | _ => false
  end.

Definition may_miss (route : Route) : bool :=
  match route with Route_Container _ | Route_Logs _ | Route_ComposeEditPlan _ | Route_NotFound => true | _ => false end.

(** A page of the live log of a container of the inventory, or the empty answer to a request without one. *)
Definition live_page_of (docker : DockerLogs) (s : DockerSnapshot) (r : LogsResponse) : Prop :=
  (lr_service r = None ∧ lr_entries r = []) ∨
  ∃ client service q cursor limit page, docker = inl client ∧ service ∈ c_name <$> s_containers s ∧
    collect_logs client service q cursor limit = inl page ∧ lr_entries r = lr_entries page.

Section responses.
Context `{FormUrlencoded} `{Sha256} `{Json GraphNode} `{Json GraphEdge} `{DebugTables}.
Context `{Host} `{HostPaths} `{Yaml}.

Lemma publish_log_response_safe service entries q cursor limit :
  Forall safe_text (log_strings (publish_log_response service entries q cursor limit)).
Proof.
  unfold publish_log_response, log_strings.
  destruct (page_log_entries _ _ _ _) as [page next] eqn:E. cbn [lr_service lr_entries].
  apply Forall_app. split; [apply safe_opt|].
  apply Forall_forall. intros t (e & Ht & He)%list_elem_of_bind.
  assert (Hin : e ∈ (page_log_entries (publish_entry <$> entries) q cursor limit).1) by (by rewrite E).
  apply page_sub, list_elem_of_fmap in Hin as (e' & -> & _).
  revert Ht. cbn [publish_entry le_id le_container le_message]. rewrite !elem_of_cons, elem_of_nil.
  intros [->|[->|[->|[]]]]; apply redact_safe.
Qed.

Lemma collect_logs_safe client service q cursor limit r :
  collect_logs client service q cursor limit = inl r → Forall safe_text (log_strings r).
Proof.
  unfold collect_logs. destruct (collect_entries _ _ _ _); [|done]. intros [= <-]. apply publish_log_response_safe.
Qed.

Lemma serve_logs_spec docker base cache service q cursor limit r :
  serve_logs docker base cache service q cursor limit = inl r →
  lr_source r = Some (dc_mode cache) ∧ Forall safe_text (log_strings r) ∧
  (h_docker_reachable (dc_health cache) = true → live_page_of docker (dc_snapshot cache) r).
Proof.
  unfold serve_logs. destruct service as [service|].
  - destruct (negb _) eqn:Ee; [done|]. apply negb_false_iff, existsb_exists in Ee as (c & Hc%list_elem_of_In & Hn). bool_unfold.
    destruct (h_docker_reachable _).
    + destruct docker as [client|]; [|done]. destruct (collect_logs _ _ _ _ _) as [page|] eqn:Ec; [|done]. intros [= <-].
      split_and!; [done|by apply collect_logs_safe in Ec|]. intros _. right.
      exists client, service, q, cursor, limit, page. split_and!; [done| |done|done].
      apply list_elem_of_fmap. by exists c.
    + intros [= <-]. split_and!; [done|apply publish_log_response_safe|done].
  - destruct (h_docker_reachable _); intros [= <-].
    + split_and!; [done|constructor|]. intros _. by left.
    + split_and!; [done|apply publish_log_response_safe|done].
Qed.

Lemma publication_cache_spec allow cache c :
  publication_cache allow cache = inl c → c = cache ∧ (allow = true ∨ dc_mode cache = Mode_Docker).
Proof.
  unfold publication_cache. destruct allow; cbn [negb andb]; [intros [= <-]; auto|].
  case_bool_decide as E; [done|]. intros [= <-]. split; [done|right]. by destruct (dc_mode cache).
Qed.

Lemma get_logs_spec docker base allow cache raw r :
  get_logs docker base allow cache raw = inl r →
  (allow = true ∨ dc_mode cache = Mode_Docker) ∧
  lr_source r = Some (dc_mode cache) ∧ Forall safe_text (log_strings r) ∧
  (h_docker_reachable (dc_health cache) = true → live_page_of docker (dc_snapshot cache) r).
Proof.
  unfold get_logs. destruct (parse_logs_query raw); [|done]. destruct (validate_optional_query _ _ _); [|done].
  destruct (validate_optional_query _ _ _); [|done]. destruct (parse_log_cursor _); [|done].
  destruct (parse_log_limit _); [|done]. destruct (publication_cache _ _) eqn:E; [|done].
  apply publication_cache_spec in E as [-> Ha]. intros Hr%serve_logs_spec. by split.
Qed.

Lemma snapshot_parts_safe s :
  let p := publish_docker_snapshot s in
  Forall safe_text (s_containers p ≫= container_strings) ∧
  Forall safe_text (s_images p ≫= λ i, im_image i :: im_status i :: im_containers i) ∧
  Forall safe_text (s_networks p ≫= λ n, n_id n :: n_name n :: n_driver n :: n_members n) ∧
  Forall safe_text (s_volumes p ≫= λ v, v_id v :: v_name v :: v_attached_to v).
Proof.
  intros p. pose proof (publish_snapshot_safe s) as Hs. unfold snapshot_strings in Hs.
  rewrite !Forall_app in Hs. exact Hs.
Qed.

(** *** Refusals *)

Lemma collect_results_error {A B E} (f : A → B + E) l e : collect_results f l = inr e → ∃ x, f x = inr e.
Proof.
  induction l as [|x l IH]; cbn [collect_results]; [done|]. destruct (f x) as [y|e'] eqn:E'; [|intros [= <-]; eauto].
  destruct (collect_results f l); [done|]. intros [= <-]. by apply IH.
Qed.

Lemma decode_query_error raw e : decode_query raw = inr e → e = malformed_query.
Proof.
  unfold decode_query. rewrite strict_decoders_agree. destruct (strict_form_urlencoded_utf8 _); [done|]. by intros [= <-].
Qed.

Lemma scan_query_status raw e : parse_compose_scan_query raw = inr e → ae_status e = 400%N.
Proof.
  unfold parse_compose_scan_query. destruct (decode_query raw) as [pairs|e'] eqn:E.
  2:{ intros [= <-]. by apply decode_query_error in E as ->. }
  destruct (collect_results _ pairs) as [files|e'] eqn:E1.
  2:{ intros [= <-]. apply collect_results_error in E1 as [x Hx]. case_match; [|done]. by injection Hx as <-. }
  unfold validate_compose_files. destruct (collect_results _ files) as [values|e'] eqn:E2.
  2:{ intros [= <-]. apply collect_results_error in E2 as [x Hx]. unfold compose_file_value in Hx. cbv zeta in Hx.
      repeat (case_match; simplify_eq; try done). }
  case_match; [|done]. by intros [= <-].
Qed.

Lemma edit_query_status raw e : parse_compose_edit_plan_query raw = inr e → e = malformed_query.
Proof.
  assert (Hreq : ∀ values name maximum e', required values name maximum = inr e' → e' = malformed_query).
  { intros values name maximum e'. unfold required. repeat case_match; congruence. }
  assert (Hopt : ∀ values name e', optional values name = inr e' → e' = malformed_query).
  { intros values name e'. unfold optional, validate_optional_raw_query. cbv zeta. repeat case_match; congruence. }
  unfold parse_compose_edit_plan_query. destruct (decode_query raw) eqn:E; [|intros [= <-]; by eapply decode_query_error].
  destruct (collect_params _ _ _) as [values|]; [|by intros [= <-]].
  destruct (required values "file" _) eqn:E1; [|intros [= <-]; by eapply Hreq].
  destruct (required values "service" _) eqn:E2; [|intros [= <-]; by eapply Hreq].
  destruct (required values "mount" _) eqn:E3; [|intros [= <-]; by eapply Hreq].
  destruct (negb _); [by intros [= <-]|]. destruct (parse_uint _ _); [|by intros [= <-]].
  destruct (optional values "source") eqn:E4; [|intros [= <-]; by eapply Hopt].
  destruct (optional values "target") eqn:E5; [done|intros [= <-]; by eapply Hopt].
Qed.

(** The statuses a Compose route refuses with. *)
Definition compose_status (env : rstr → EnvVar) (e : ApiError) : Prop :=
  ae_status e = 400%N ∨ ae_status e = 500%N ∧ ∃ m, project_root env = inr m.

Lemma scan_refused_status env raw e : scan_refused env raw e → compose_status env e.
Proof. intros [e' Hq| | |]; [left; by eapply scan_query_status|right; eauto|by left|by left]. Qed.

Lemma plan_refused_status env reread raw e : plan_refused env reread raw e → compose_status env e ∨ ae_status e = 404%N.
Proof.
  intros [e' Hq| | | | |]; unfold compose_status; auto; [|eauto 6]. left. left. by apply edit_query_status in Hq as ->.
Qed.

(** Where each status of an error comes from. *)
Definition error_origin (hd : Handling) (cache : DaemonCache) (route : Route) (e : ApiError) : Prop :=
  (ae_status e = 400%N ∧ takes_query route = true) ∨
  (ae_status e = 404%N ∧ may_miss route = true) ∨
  (ae_status e = 500%N ∧ reads_cache route = false ∧ takes_query route = true ∧ ∃ m, project_root (hd_env hd) = inr m) ∨
  (ae_status e = 502%N ∧ h_docker_reachable (dc_health cache) = true ∧ ∃ raw, route = Route_Logs raw) ∨
  (e = mock_disabled ∧ reads_cache route = true ∧ hd_allow_mock hd = false ∧ dc_mode cache = Mode_Mock).

Lemma publication_cache_error allow cache e :
  publication_cache allow cache = inr e → e = mock_disabled ∧ allow = false ∧ dc_mode cache = Mode_Mock.
Proof.
  unfold publication_cache. destruct allow; cbn [negb andb]; [done|]. case_bool_decide; [|done]. by intros [= <-].
Qed.

Lemma logs_query_status raw e : parse_logs_query raw = inr e → e = invalid_logs_query.
Proof.
  unfold parse_logs_query. destruct (negb (strict_form_urlencoded_utf8 _)); [by intros [= <-]|].
  destruct (collect_params _ _ _) as [values|]; [|by intros [= <-]]. cbv zeta.
  destruct (match values !! ("limit" : rstr) with None => _ | Some _ => _ end) as [limit|e'] eqn:E.
  - destruct (negb _); [by intros [= <-]|done].
  - intros [= <-]. destruct (values !! ("limit" : rstr)); [|done].
    destruct (negb _); [by injection E|]. destruct (parse_uint _ _); [done|by injection E].
Qed.

Lemma get_logs_error hd cache raw e :
  get_logs (hd_docker hd) (hd_mock_base hd) (hd_allow_mock hd) cache raw = inr e → error_origin hd cache (Route_Logs raw) e.
Proof.
  assert (Hvalidate : ∀ value name n e', validate_optional_query value name n = inr e' → ae_status e' = 400%N).
  { intros value name n e'. unfold validate_optional_query. destruct value as [value|]; [|done]. cbv zeta.
    destruct (trim value == []); [done|]. destruct (_ || _); [by intros [= <-]|done]. }
  assert (Hbad : ∀ e', ae_status e' = 400%N → error_origin hd cache (Route_Logs raw) e') by (intros e' He; by left).
  unfold get_logs. destruct (parse_logs_query raw) as [query|e'] eqn:E1.
  2:{ intros [= <-]. apply Hbad. by apply logs_query_status in E1 as ->. }
  destruct (validate_optional_query _ _ _) as [service|e'] eqn:E2; [|intros [= <-]; eauto].
  destruct (validate_optional_query (lq_q query) _ _) as [q|e'] eqn:E3; [|intros [= <-]; eauto].
  destruct (parse_log_cursor _) as [cursor|e'] eqn:E4.
  2:{ intros [= <-]. apply Hbad. revert E4. unfold parse_log_cursor.
      destruct (validate_optional_query (lq_cursor query) _ _) as [[value|]|e''] eqn:Ev; [|done|intros [= <-]; eauto].
      destruct (LogCursor_parse value); [done|by intros [= <-]]. }
  destruct (parse_log_limit _) as [limit|e'] eqn:E5.
  2:{ intros [= <-]. apply Hbad. revert E5. unfold parse_log_limit. destruct (lq_limit query); [|done].
      destruct (_ && _); [done|by intros [= <-]]. }
  destruct (publication_cache _ _) as [c|e'] eqn:E6.
  2:{ intros [= <-]. apply publication_cache_error in E6 as (-> & ? & ?). do 4 right. by split_and!. }
  apply publication_cache_spec in E6 as [-> _]. unfold serve_logs.
  destruct service as [service|]; [|by destruct (h_docker_reachable _)].
  destruct (negb _); [intros [= <-]; by right; left|]. destruct (h_docker_reachable _) eqn:Er; [|done].
  assert (Hlog : error_origin hd cache (Route_Logs raw) docker_log_collection_failed) by (do 3 right; left; eauto).
  destruct (hd_docker hd); [|by intros [= <-]]. destruct (collect_logs _ _ _ _ _); [done|by intros [= <-]].
Qed.

Lemma dispatch_error hd cache route e : dispatch hd cache route = inr e → error_origin hd cache route e.
Proof.
  assert (Hpub : ∀ body, reads_cache route = true → (∀ c e', body c = inr e' → error_origin hd cache route e') →
    publishing (hd_allow_mock hd) cache body = inr e → error_origin hd cache route e).
  { intros body Hr Hb. unfold publishing. destruct (publication_cache _ _) as [c|e'] eqn:E; [by apply Hb|]. intros [= <-].
    apply publication_cache_error in E as (-> & ? & ?). do 4 right. by split_and!. }
  unfold dispatch. destruct route as [| | | | | | |name| | | |raw|raw|raw|raw|]; try (by apply Hpub).
  - apply Hpub; [done|]. intros c e'. unfold get_container. destruct (find _ _); [done|]. cbn [map_result]. intros [= <-]. by right; left.
  - destruct (get_logs _ _ _ _ _) as [|e'] eqn:E; [done|]. cbn [map_result]. intros [= <-]. by apply get_logs_error.
  - destruct (get_compose_scan _ _ _ _) as [|e'] eqn:E; [done|]. cbn [map_result]. intros [= <-].
    assert (Hs : compose_status (hd_env hd) e').
    { apply (scan_refused_status _ raw), scan_request_spec. revert E. unfold get_compose_scan, scan_request.
      destruct (parse_compose_scan_query raw) as [query|]; [|naive_solver].
      destruct (scan_compose_query (hd_env hd) query); naive_solver. }
    destruct Hs as [?|[? ?]]; [by left|do 2 right; left; by split_and!].
  - destruct (get_compose_graph _ _) as [|e'] eqn:E; [done|]. cbn [map_result]. intros [= <-].
    assert (Hs : compose_status (hd_env hd) e').
    { apply (scan_refused_status _ raw), scan_request_spec. revert E. unfold get_compose_graph, scan_request.
      destruct (parse_compose_scan_query raw) as [query|]; [|naive_solver].
      destruct (scan_compose_query (hd_env hd) query); naive_solver. }
    destruct Hs as [?|[? ?]]; [by left|do 2 right; left; by split_and!].
  - destruct (get_compose_edit_plan _ _ _) as [|e'] eqn:E; [done|]. cbn [map_result]. intros [= <-].
    apply edit_plan_request_spec, plan_refused_status in E as [[?|[? ?]]|?]; [by left|do 2 right; left; by split_and!|by right; left].
  - intros [= <-]. by right; left.
Qed.

(** *** Bodies *)

(** What is guaranteed of a body: it is that of the route; from the cache it is never made of sample data
    when that is not allowed, and names the source the cache really has; its strings are
    redacted or a revision token of the daemon, the ids of findings are of a safe alphabet, and the
    events of the history name containers by digest only; the log entries of a live daemon are a
    page of the Docker log of a container of the inventory; and a Compose scan has no correlation
    with sample data that is not allowed, a Compose graph is that of a redacted scan, and an edit plan
    has a redacted diff and is never to be written. *)
Definition served (hd : Handling) (cache : DaemonCache) (route : Route) (body : Body) : Prop :=
  body_of route body = true ∧
  (reads_cache route = true → hd_allow_mock hd = true ∨ dc_mode cache = Mode_Docker) ∧
  (∀ source, body_source body = Some source → source = Some (dc_mode cache)) ∧
  Forall (published_text cache) (body_strings body) ∧
  (∀ r f, body = Body_Findings r → f ∈ fr_findings r → Forall (λ c, id_char c = true) (f_id f)) ∧
  (∀ o, body = Body_History o → Forall (event_opaque (oc_boot (dc_observed_history cache))) (oh_events o)) ∧
  (∀ r, body = Body_Logs r → dc_mode cache = Mode_Docker → live_page_of (hd_docker hd) (dc_snapshot cache) r) ∧
  (∀ s, body = Body_ComposeScan s → hd_allow_mock hd = false → dc_mode cache = Mode_Mock → csc_correlations s = []) ∧
  (∀ g, body = Body_ComposeGraph g → ∃ scan, g = derive_compose_graph scan ∧ Forall safe_text (scan_strings scan)) ∧
  (∀ p, body = Body_ComposeEditPlan p → cep_will_write p = false ∧
     ∃ diff, cep_unified_diff p = normalize_runtime_display_string (redact_unified_diff diff)).

Lemma map_result_inl {A B E} (f : A → B) (r : A + E) y : map_result f r = inl y → ∃ x, r = inl x ∧ y = f x.
Proof. destruct r; [|done]. intros [= <-]. eauto. Qed.

Lemma correlations_without_mock scan cache : dc_mode cache = Mode_Mock →
  csc_correlations (redact_compose_scan (apply_runtime_correlations scan cache false)) = [].
Proof. intros Hm. unfold apply_runtime_correlations. by rewrite Hm. Qed.

Lemma safe_published cache l : Forall safe_text l → Forall (published_text cache) l.
Proof. intros Hl. eapply Forall_impl; [exact Hl|]. intros t. by left. Qed.

(** The Compose bodies. *)
Lemma compose_served hd cache route body : reads_cache route = false → dispatch hd cache route = inl body →
  served hd cache route body.
Proof.
  unfold dispatch. destruct route as [| | | | | | |name| | | |raw|raw|raw|raw|]; try done; intros _ (x & Hx & ->)%map_result_inl; unfold served.
  - unfold get_compose_scan in Hx. destruct (parse_compose_scan_query raw); [|done]. destruct (scan_compose_query _ _) as [scan|]; [|done].
    injection Hx as <-. split_and!; try done; [apply safe_published, publish_scan_safe|].
    intros ? [= <-] ->. apply correlations_without_mock.
  - unfold get_compose_graph in Hx. destruct (parse_compose_scan_query raw); [|done]. destruct (scan_compose_query _ _) as [scan|]; [|done].
    injection Hx as <-. split_and!; try done. intros ? [= <-]. eexists. split; [done|apply publish_scan_safe].
  - apply edit_plan_request_spec in Hx. destruct (planned_facts _ _ _ _ Hx) as (Hw & p & ->).
    split_and!; try done; [apply safe_published, publish_plan_safe|]. intros ? [= <-]. split; [done|by eexists].
Qed.

Context `{Json RuntimeMapNode} `{Json RuntimeMapEdge} `{Json RuntimeEvidenceRef}.
Context `{Json (list RuntimeMapNode * list RuntimeMapEdge * list RuntimeMapDiagnostic * list ProviderState)}.
Context `{Json (DockerSnapshot * HealthResponse * RuntimeMap)} `{Json (RuntimeMode * DockerSnapshot)}.

(** The bodies made from the cache. *)
Lemma cache_served hd cache route body : coherent cache → text_inv cache → honest (dc_health cache) →
  reads_cache route = true → dispatch hd cache route = inl body → served hd cache route body.
Proof.
  intros Hco Ht Hh Hreads Hd. unfold served. destruct (snapshot_parts_safe (dc_snapshot cache)) as (Sc & Si & Sn & Sv).
  pose proof (proj1 Ht) as Hmap. pose proof (proj1 (proj2 Ht)) as Hevents.
  destruct route as [| | | | | | |name| | | |raw| | | |]; try discriminate Hreads; cbn [dispatch] in Hd; unfold publishing in Hd.
  12:{ apply map_result_inl in Hd as (r & Hr & ->). apply get_logs_spec in Hr as (Ha & Hs & Hf & Hl).
       split_and!; try done; [by intros ? [= <-]|by apply safe_published|]. intros ? [= <-] Hm. apply Hl.
       unfold honest in Hh. rewrite Hh. unfold dc_mode in Hm. by rewrite Hm. }
  all: destruct (publication_cache _ _) as [c|] eqn:E; [|done]; apply publication_cache_spec in E as [-> Ha].
  8:{ apply map_result_inl in Hd as (c & Hc & ->). unfold get_container in Hc. destruct (find _ _); [|done]. injection Hc as <-.
      split_and!; try done. apply safe_published. unfold body_strings, container_strings. cbn; safe_strings; cbn; safe_strings. }
  all: injection Hd as <-; cbn [body_source body_strings]; split_and!; try done; try (by intros source [= <-]); try (by apply safe_published).
  - apply safe_published. unfold redact_health_response. cbn [h_message]. apply safe_opt.
  - apply safe_published, publish_snapshot_safe.
  - apply safe_published, derive_graph_safe, publish_snapshot_safe.
  - apply Forall_bind. intros f Hf. by apply cached_findings_text.
  - intros r f [= <-] Hf. by apply (cached_findings_text cache).
  - intros source [= <-]. unfold observed_history_response, history_response. by case_match.
  - intros o [= <-]. unfold observed_history_response, history_response. case_match; [constructor|].
    cbn [oh_events]. by apply Forall_reverse.
Qed.

(** Closes the clauses a known status decides. *)
Ltac settle :=
  match goal with
  | |- _ ∈ _ => decided
  | |- _ ↔ _ => split; intros; destruct_and?; first [discriminate | congruence | done]
  | |- _ => intros; first [discriminate | congruence | done]
  end.

(** What a request that is answered with a payload shows of it. *)
Definition shown (method : Method) (payload : Payload) : option Payload :=
  match method with HEAD => None | _ => Some payload end.

Lemma shown_none method payload status : status ≠ 405%N → shown method payload = None ↔ method = HEAD ∨ status = 405%N.
Proof. intros Hs. destruct method; cbn; split; try done; [|by left|]; by intros [?|?]. Qed.

Lemma shown_some method payload payload' : shown method payload = Some payload' → payload = payload' ∧ method ≠ HEAD.
Proof. destruct method; cbn; [|done|]; by intros [= <-]. Qed.

(** The four ways a request is answered. *)
Lemma router_cases token authorization hd cache method route :
  let r := daemon_router token authorization hd cache method route in
  let accepted := bearer_token_accepted token authorization in
  (accepted = false ∧ rp_status r = 401%N ∧
     rp_payload r = shown method (Message "A valid Bearer token is required for this DockerMap daemon route")) ∨
  (accepted = true ∧ is_Some (route_path route) ∧ is_get method = false ∧ r = method_not_allowed) ∨
  (accepted = true ∧ (is_Some (route_path route) → is_get method = true) ∧
     ((∃ body, dispatch hd cache route = inl body ∧ rp_status r = 200%N ∧ rp_payload r = shown method (Data body)) ∨
      (∃ e, dispatch hd cache route = inr e ∧ rp_status r = ae_status e ∧
         rp_payload r = shown method (Message (redact (ae_message e)))))).
Proof.
  cbv zeta. unfold daemon_router, answer. destruct (bearer_token_accepted token authorization).
  2:{ left. by destruct method. }
  right. destruct (route_path route) as [path|]; destruct (is_get method) eqn:Em; cbn [is_some negb andb].
  2:{ left. split_and!; [done|by eexists|done|by destruct method]. }
  all: right; split; [done|]; split; [by intros []|];
    destruct (dispatch hd cache route) as [body|e]; [left; exists body|right; exists e]; by destruct method.
Qed.

Lemma fixed_reads_cache route : fixed_route route = true → reads_cache route = true.
Proof. unfold fixed_route. by intros [? _]%andb_prop. Qed.

Lemma error_statuses hd cache route e : error_origin hd cache route e →
  ae_status e ≠ 405%N ∧ ae_status e ≠ 401%N ∧ ae_status e ≠ 200%N.
Proof. by intros [[-> _]|[[-> _]|[[-> _]|[[-> _]|[-> _]]]]]. Qed.

(** What the status of an error says of the request and of the daemon. *)
Lemma origin_spec hd cache route e : honest (dc_health cache) → error_origin hd cache route e →
  ae_status e ∈ [200; 400; 401; 404; 405; 500; 502; 503]%N ∧
  (fixed_route route = true → ae_status e = if hd_allow_mock hd || (dc_mode cache == Mode_Docker) then 200%N else 503%N) ∧
  (ae_status e = 400%N → takes_query route = true) ∧
  (ae_status e = 404%N → may_miss route = true) ∧
  (ae_status e = 500%N → reads_cache route = false ∧ takes_query route = true ∧ ∃ m, project_root (hd_env hd) = inr m) ∧
  (ae_status e = 502%N → dc_mode cache = Mode_Docker ∧ ∃ raw, route = Route_Logs raw) ∧
  (ae_status e = 503%N → reads_cache route = true ∧ hd_allow_mock hd = false ∧ dc_mode cache = Mode_Mock).
Proof.
  intros Hh Ho.
  assert (Hfixed : fixed_route route = true → takes_query route = false ∧ may_miss route = false) by (by destruct route).
  destruct Ho as [[He Hq]|[[He Hq]|[(He & Hr & Hq & m & Hm)|[(He & Hl & raw & ->)|(-> & Hr & Ha & Hm)]]]];
    try rewrite He; split_and!; try settle; try (intros [? ?]%Hfixed; congruence); eauto.
  - intros _. split; [|eauto]. unfold honest in Hh. rewrite Hh in Hl. unfold dc_mode. by destruct (h_mode (dc_health cache)).
  - intros _. by rewrite Ha, Hm.
Qed.

(** C3: What a reachable daemon answers to any request of any route, those of Compose included.
    The status is one of eight. It is 401 exactly for a request without the token, whatever its
    path and method; 405 exactly for one with it that does not [GET] (or [HEAD]) a path that has a
    route; and 404 with it for every other path. A [GET] of the cache is answered with 200 exactly when
    its source is Docker or sample data is allowed, and with 503 otherwise, but for what its parameter
    or its query can refuse. Any error has one of these origins: 400 a query; 404 a container, a mount
    or a route that does not exist; 500 a project root that cannot be read, on a Compose route; 502 the
    Docker log of a live daemon; 503 sample data that is not allowed. Messages are redacted, and a body
    is sent only with 200, to a [GET] with the token, and is as [served] says. *)
Theorem daemon_response_spec process_boot s token authorization hd method route :
  reachable process_boot s →
  let cache := sy_cache s in
  let accepted := bearer_token_accepted token authorization in
  let r := daemon_router token authorization hd cache method route in
  rp_status r ∈ [200; 400; 401; 404; 405; 500; 502; 503]%N ∧
  (rp_status r = 401%N ↔ accepted = false) ∧
  (rp_status r = 405%N ↔ accepted = true ∧ is_Some (route_path route) ∧ is_get method = false) ∧
  (accepted = true → route_path route = None → rp_status r = 404%N) ∧
  (accepted = true → is_get method = true → fixed_route route = true →
     rp_status r = if hd_allow_mock hd || (dc_mode cache == Mode_Docker) then 200%N else 503%N) ∧
  (rp_status r = 400%N → takes_query route = true) ∧
  (rp_status r = 404%N → may_miss route = true) ∧
  (rp_status r = 500%N → reads_cache route = false ∧ takes_query route = true ∧ ∃ m, project_root (hd_env hd) = inr m) ∧
  (rp_status r = 502%N → dc_mode cache = Mode_Docker ∧ ∃ raw, route = Route_Logs raw) ∧
  (rp_status r = 503%N → reads_cache route = true ∧ hd_allow_mock hd = false ∧ dc_mode cache = Mode_Mock) ∧
  (rp_payload r = None ↔ method = HEAD ∨ rp_status r = 405%N) ∧
  (∀ message, rp_payload r = Some (Message message) → rp_status r ≠ 200%N ∧ safe_text message) ∧
  (∀ body, rp_payload r = Some (Data body) →
     rp_status r = 200%N ∧ accepted = true ∧ method = GET ∧ served hd cache route body).
Proof.
  intros Hr cache accepted r. pose proof (reachable_honest _ _ Hr) as Hh. pose proof (reachable_text _ _ Hr) as Ht.
  apply reachable_inv in Hr as [Hinv _]. apply inv_coherent in Hinv as Hco. fold cache in Hh, Ht, Hco.
  destruct (router_cases token authorization hd cache method route) as
    [(Ha & Hs & Hp)|[(Ha & Hpath & Hget & Hr)|[Ha [Hget [(body & Hd & Hs & Hp)|(e & Hd & Hs & Hp)]]]]];
    fold accepted in Ha; fold r in Hs, Hp || fold r in Hr; clearbody accepted r; subst accepted.
  - (* no token *)
    rewrite Hs, Hp. split_and!; try settle; [by apply shown_none| |by intros body [? _]%shown_some].
    intros message [[= <-] _]%shown_some. split; [done|]. apply safe_textb_spec. by vm_compute.
  - (* a wrong method *)
    subst r. assert (Hnone : route_path route ≠ None) by (by destruct Hpath as [? ->]).
    cbn [method_not_allowed rp_status rp_payload]. split_and!; try settle; first [by split | split; auto].
  - (* a body *)
    assert (Hserved : served hd cache route body)
      by (destruct (reads_cache route) eqn:Er; [by apply cache_served|by apply compose_served]).
    rewrite Hs, Hp. split_and!; try settle.
    + split; [done|]. intros (_ & Hpath & Hm). apply Hget in Hpath. congruence.
    + intros _ Hn. by destruct route.
    + intros _ _ Hf. destruct (proj1 (proj2 Hserved) (fixed_reads_cache _ Hf)) as [->| ->]; [done|by rewrite orb_true_r].
    + by apply shown_none.
    + by intros message [? _]%shown_some.
    + intros body' [[= <-] Hm]%shown_some. destruct method as [| |name]; [done|done|].
      destruct (route_path route) eqn:Er; [by specialize (Hget ltac:(by eexists))|by destruct route].
  - (* an error *)
    apply dispatch_error in Hd as Ho. destruct (error_statuses _ _ _ _ Ho) as (H405 & H401 & H200).
    destruct (origin_spec _ _ _ _ Hh Ho) as (Hin & Hfx & H400 & H404 & H500 & H502 & H503).
    rewrite Hs, Hp. split_and!; try done.
    + split; [done|]. intros (_ & Hpath & Hm). apply Hget in Hpath. congruence.
    + intros _ Hn. destruct route; try discriminate Hn. by injection Hd as <-.
    + by apply shown_none.
    + intros message [[= <-] _]%shown_some. split; [done|apply redact_safe].
    + by intros body [? _]%shown_some.
Qed.
End responses.

(** ** Concrete inputs *)

Section example.
#[local] Existing Instances toy_yaml toy_host Toy_sha256 CacheSystem.example_node_json CacheSystem.example_edge_json
  CacheSystem.example_evidence_json CacheSystem.example_collection_json CacheSystem.example_model_json
  CacheSystem.example_docker_json.
#[local] Instance example_graph_node_json : Json GraphNode := Json_of_countable _.
#[local] Instance example_graph_edge_json : Json GraphEdge := Json_of_countable _.
#[local] Instance example_tables : DebugTables := {| debug_printable := λ _, true |}.
#[local] Instance example_paths : HostPaths := {| host_canonicalize := inl; host_symlink_error := λ _, [] |}.
#[local] Instance example_form : FormUrlencoded := {| form_parse := λ _, [("file" : rstr, "compose.yml" : rstr)] |}.

Definition example_handling (allow_mock : bool) : Handling := {|
  hd_docker := inr []; hd_mock_base := 0; hd_allow_mock := allow_mock; hd_env := toy_env; hd_reread := λ _, None |}.

Lemma example_compose_graph : ∃ g, get_compose_graph toy_env (Some ("file=compose.yml" : rstr)) = inl g.
Proof. eexists. vm_compute. reflexivity. Qed.

(** A daemon that asks for a token, started on sample data that is not allowed, and then on Docker. *)
Lemma daemon_response_spec_witness :
  ∃ s0 s1, reachable "boot" s0 ∧ reachable "boot" s1 ∧
    let ask := λ authorization s, daemon_router (Some ("t" : rstr)) authorization (example_handling false) (sy_cache s) in
    let bearer := Some ("Bearer t" : rstr) in
    let compose := Some ("file=compose.yml" : rstr) in
    rp_status (ask bearer s0 GET Route_Networks) = 503%N ∧
    rp_status (ask bearer s1 GET Route_Networks) = 200%N ∧
    rp_status (ask None s1 GET (Route_ComposeGraph compose)) = 401%N ∧
    rp_status (ask bearer s1 (Method_other "POST") (Route_ComposeScan compose)) = 405%N ∧
    rp_status (ask bearer s1 GET Route_NotFound) = 404%N ∧
    ∃ g, rp_payload (ask bearer s0 GET (Route_ComposeGraph compose)) = Some (Data (Body_ComposeGraph g)) ∧
      served (example_handling false) (sy_cache s0) (Route_ComposeGraph compose) (Body_ComposeGraph g).
Proof.
  destruct CacheSystem.example_run as (s0 & s1 & _ & _ & Hi & H1 & _ & _ & _ & Hm0 & Hm1 & _).
  assert (Hr0 : reachable "boot" s0) by (exists s0; split; [exact Hi|reflexivity]).
  assert (Hr1 : reachable "boot" s1) by (exists s0; split; [exact Hi|by apply rtc_once]).
  assert (Hyes : bearer_token_accepted (Some ("t" : rstr)) (Some ("Bearer t" : rstr)) = true) by (vm_compute; reflexivity).
  exists s0, s1. split; [exact Hr0|]. split; [exact Hr1|]. intros ask bearer compose.
  assert (Hspec := λ s Hr authorization method route,
    daemon_response_spec "boot" s (Some ("t" : rstr)) authorization (example_handling false) method route Hr).
  split_and!.
  - destruct (Hspec s0 Hr0 bearer GET Route_Networks) as (_ & _ & _ & _ & Hf & _).
    rewrite Hm0 in Hf. exact (Hf Hyes eq_refl eq_refl).
  - destruct (Hspec s1 Hr1 bearer GET Route_Networks) as (_ & _ & _ & _ & Hf & _).
    rewrite Hm1 in Hf. exact (Hf Hyes eq_refl eq_refl).
  - destruct (Hspec s1 Hr1 None GET (Route_ComposeGraph compose)) as (_ & Hno & _). by apply Hno.
  - destruct (Hspec s1 Hr1 bearer (Method_other "POST") (Route_ComposeScan compose)) as (_ & _ & Hwrong & _).
    apply Hwrong. split; [exact Hyes|]. split; [by eexists|done].
  - destruct (Hspec s1 Hr1 bearer GET Route_NotFound) as (_ & _ & _ & Hlost & _). exact (Hlost Hyes eq_refl).
  - assert (E : ∃ g, rp_payload (ask bearer s0 GET (Route_ComposeGraph compose)) = Some (Data (Body_ComposeGraph g))).
    { unfold ask, daemon_router, bearer, compose. rewrite Hyes.
      destruct example_compose_graph as [g Eg]. exists g. unfold answer, dispatch. cbn [is_some route_path is_get negb andb example_handling hd_env].
      by rewrite Eg. }
    destruct E as [g E]. exists g. split; [exact E|].
    destruct (Hspec s0 Hr0 bearer GET (Route_ComposeGraph compose)) as (_ & _ & _ & _ & _ & _ & _ & _ & _ & _ & _ & _ & Hbody).
    exact (proj2 (proj2 (proj2 (Hbody _ E)))).
Defined.
End example.
