(* ===== verification/Providers.v ===== *)
(** * Provider collections and the small providers
      ([crates/dockermap-daemon/src/provider_contract.rs], [providers/mod.rs],
      [providers/listeners.rs], [providers/tmux.rs], [providers/pm2.rs] and the host node of
      [runtime_collection.rs])

    A collector extends the nodes, edges and diagnostics of one [ProviderCollection]; here it
    is a function from collections to collections. What the host answers (the environment, the
    fixed commands, the text of files) comes in through the class [HostView], and the values of
    [serde_json] through [JsonValues]. A panic is [None]. *)

From S2P Require Import Prelude RustStr RustNum Models Serial Identity Evidence Redaction Publication RuntimeTopology Scheduler Utf8 Boundary.

(** ** What the host answers *)

Class HostView := {
  hv_env : rstr → EnvVar;
  (** [run_command_with_timeout] of a program and its arguments, with the provider timeout. *)
  hv_run : list rstr → ProviderCommandOutput + ProviderCommandError;
  (** [fs::read_to_string], its error dropped. *)
  hv_read : rstr → option rstr;
  (** [Path::exists]. *)
  hv_exists : rstr → bool
}.

(** [serde_json::Value] and what the providers ask of it. *)
Class JsonValues := {
  JValue : Type;
  json_vec_from_str : rstr → option (list JValue);
  json_from_slice : list N → option JValue;
  json_null : JValue;
  json_get : JValue → rstr → option JValue;
  json_str : JValue → option rstr;
  json_bool : JValue → option bool;
  json_i64 : JValue → option Z;
  json_array : JValue → option (list JValue);
  (** The values of an object, in the order of its keys. *)
  json_object_values : JValue → option (list JValue);
  (** The text of a number. *)
  json_number_text : JValue → option rstr
}.

(** [impl Display for ProviderCommandError]; timeouts are milliseconds here. *)
Definition provider_command_error_text (e : ProviderCommandError) : rstr :=
  match e with
  | Err_Spawn => "provider command unavailable"
  | Err_Wait => "provider command wait failed"
  | Err_Reader => "provider command output reader failed"
  | Err_TimedOut timeout => "provider command timed out after " +s+ dec_str (timeout / 1000) +s+ "s"
  end.

(** ** provider_contract.rs *)

Definition extend_nodes (c : ProviderCollection) (nodes : list RuntimeMapNode) : ProviderCollection := {|
  pc_nodes := pc_nodes c ++ nodes; pc_edges := pc_edges c; pc_diagnostics := pc_diagnostics c;
  pc_states := pc_states c |}.

Definition extend_edges (c : ProviderCollection) (edges : list RuntimeMapEdge) : ProviderCollection := {|
  pc_nodes := pc_nodes c; pc_edges := pc_edges c ++ edges; pc_diagnostics := pc_diagnostics c;
  pc_states := pc_states c |}.

(** The derived [Debug] of the two enumerations, and the line written to stderr. *)
Definition provider_debug (provider : RuntimeProviderKind) : rstr :=
  match provider with
  | RP_Docker => "Docker" | RP_Compose => "Compose" | RP_Host => "Host" | RP_Systemd => "Systemd" |
  RP_ScheduledJob => "ScheduledJob" | RP_Npm => "Npm" | RP_Pm2 => "Pm2" | RP_Tmux => "Tmux" | RP_Tailscale =>
  "Tailscale" | RP_Headscale => "Headscale" | RP_Cloudflare => "Cloudflare" | RP_Caddy => "Caddy" |
  RP_ReverseProxy => "ReverseProxy" | RP_LocalDns => "LocalDns" | RP_DnsProvider => "DnsProvider" |
  RP_ExternalApi => "ExternalApi" | RP_Process => "Process" | RP_Python => "Python" | RP_Network => "Network" |
  RP_Kubernetes => "Kubernetes" | RP_Other => "Other"
  end.

Definition severity_debug (severity : DiagnosticSeverity) : rstr :=
  match severity with Sev_Info => "Info" | Sev_Warning => "Warning" | Sev_Error => "Error" | Sev_Blocked => "Blocked" end.

Definition write_provider_diagnostic (provider : RuntimeProviderKind) (severity : DiagnosticSeverity) (message : rstr) : rstr :=
  "provider diagnostic (" +s+ provider_debug provider +s+ ", " +s+ severity_debug severity +s+ "): " +s+ message +s+ [10%N].

(** [push_provider_diagnostic] (publication.rs); it also writes [diagnostic_line] to stderr,
    whose errors it ignores. *)
Definition push_provider_diagnostic (c : ProviderCollection) (provider : RuntimeProviderKind)
    (severity : DiagnosticSeverity) (message : rstr) : ProviderCollection := {|
  pc_nodes := pc_nodes c; pc_edges := pc_edges c;
  pc_diagnostics := pc_diagnostics c ++
    [{| rd_provider := provider; rd_severity := severity;
        rd_message := normalize_runtime_display_string (redact_sensitive_text message) |}];
  pc_states := pc_states c |}.

Definition diagnostic_line (d : RuntimeMapDiagnostic) : rstr :=
  write_provider_diagnostic (rd_provider d) (rd_severity d) (rd_message d).

(** Whatever a provider says, its diagnostic is one line of stderr. *)
Lemma diagnostic_is_one_line c provider severity message d :
  pc_diagnostics (push_provider_diagnostic c provider severity message) = pc_diagnostics c ++ [d] →
  ∃ text, diagnostic_line d = text ++ [10%N] ∧ 10%N ∉ text.
Proof.
  cbn [push_provider_diagnostic pc_diagnostics]. intros [= <-]%app_inv_head. unfold diagnostic_line, write_provider_diagnostic.
  cbn [rd_provider rd_severity rd_message]. set (safe := normalize_runtime_display_string _).
  exists ("provider diagnostic (" +s+ provider_debug provider +s+ ", " +s+ severity_debug severity +s+ "): " +s+ safe).
  unfold rapp. rewrite <- !app_assoc. split; [done|]. rewrite !not_elem_of_app. split_and!; try (intros Hin; refute Hin).
  - destruct provider; intros Hin; refute Hin.
  - destruct severity; intros Hin; refute Hin.
  - unfold safe, normalize_runtime_display_string. intros (ch & Hch & _)%list_elem_of_fmap. revert Hch.
    unfold normalize_char. case_match eqn:E; [done|]. by intros <-.
Qed.

(** The derived [Ord] of [ProviderSlot]: the order of its constructors. *)
Definition slot_index (slot : ProviderSlot) : nat :=
  match slot with
  | NetworkInfrastructure => 0 | HostScoped => 1 | Slot_Tmux => 2 | Slot_Cron => 3 | Slot_Systemd => 4
  | PythonProcesses => 5 | NativeProcesses => 6 | ProjectNpm => 7
  end.

Definition new_state (slot : ProviderSlot) (state : ProviderStateKind) : ProviderState := {|
  ps_slot := slot; ps_state := state; ps_last_attempt_ms := None; ps_last_success_ms := None;
  ps_last_duration_ms := None; ps_consecutive_failure_count := 0; ps_data_revision := None;
  ps_status_reason := None |}.

Definition with_state (s : ProviderState) (state : ProviderStateKind) : ProviderState := {|
  ps_slot := ps_slot s; ps_state := state; ps_last_attempt_ms := ps_last_attempt_ms s;
  ps_last_success_ms := ps_last_success_ms s; ps_last_duration_ms := ps_last_duration_ms s;
  ps_consecutive_failure_count := ps_consecutive_failure_count s;
  ps_data_revision := ps_data_revision s; ps_status_reason := ps_status_reason s |}.

(** The first entry of the slot, rewritten in place. *)
Fixpoint update_first (slot : ProviderSlot) (state : ProviderStateKind) (l : list ProviderState)
    : option (list ProviderState) :=
  match l with
  | [] => None
  | existing :: l =>
      if ps_slot existing == slot then Some (with_state existing state :: l)
      else l ← update_first slot state l; Some (existing :: l)
  end.

Definition slot_leb (a b : ProviderState) : bool := (slot_index (ps_slot a) <=? slot_index (ps_slot b))%nat.

Definition set_state (c : ProviderCollection) (slot : ProviderSlot) (state : ProviderStateKind)
    : ProviderCollection := {|
  pc_nodes := pc_nodes c; pc_edges := pc_edges c; pc_diagnostics := pc_diagnostics c;
  pc_states := match update_first slot state (pc_states c) with
               | Some states => states
               | None => sort_by slot_leb (pc_states c ++ [new_state slot state])
               end |}.

(** ** providers/mod.rs *)

Definition ai_agent_needles : list rstr :=
  lit <$> ["openai"; "anthropic"; "langchain"; "llamaindex"; "autogen"; "crewai"; "agent";
           "@modelcontextprotocol/sdk"].

Definition looks_like_ai_agent (value : rstr) : bool := existsb (contains value) ai_agent_needles.

Definition non_empty_string (value : rstr) : option rstr :=
  let trimmed := trim value in if negb (trimmed == []) then Some trimmed else None.

(** A node without service or package entity. *)
Definition plain_node (id : rstr) (provider : RuntimeProviderKind) (kind : RuntimeNodeKind) (label : rstr)
    (status : option rstr) (layer : RuntimeNodeLayer) (metadata : gmap rstr rstr) : RuntimeMapNode := {|
  rn_id := id; rn_provider := provider; rn_kind := kind; rn_label := label; rn_status := status;
  rn_layer := Some layer; rn_metadata := metadata; rn_service := None; rn_package := None |}.

(** ** providers/listeners.rs *)

(** [&s[n..]]; [None] when [n] is past the end or not a character boundary. *)
Fixpoint drop_bytes (n : nat) (s : rstr) : option rstr :=
  if (n =? 0)%nat then Some s
  else match s with
       | [] => None
       | c :: s' =>
           let width := length (utf8_char c) in
           if (width <=? n)%nat then drop_bytes (n - width) s' else None
       end.

(** [&s[..n]]. *)
Fixpoint take_bytes (n : nat) (s : rstr) : option rstr :=
  if (n =? 0)%nat then Some []
  else match s with
       | [] => None
       | c :: s' =>
           let width := length (utf8_char c) in
           if (width <=? n)%nat then rest ← take_bytes (n - width) s'; Some (c :: rest) else None
       end.

(** [&s[from..to]]. *)
Definition byte_slice (s : rstr) (from to : nat) : option rstr :=
  rest ← drop_bytes from s; take_bytes (to - from) rest.

Fixpoint parse_hex_digits (acc : N) (s : rstr) : option N :=
  match s with
  | [] => Some acc
  | c :: s' => if is_ascii_hexdigit c then parse_hex_digits (acc * 16 + hex_value c) s' else None
  end.

(** [uN::from_str_radix(s, 16).ok()]: an optional [+], then at least one digit. *)
Definition parse_hex (max : N) (s : rstr) : option N :=
  match strip_plus s with
  | [] => None
  | body => n ← parse_hex_digits 0 body; if (n <=? max)%N then Some n else None
  end.

Definition dotted (bytes : list N) : rstr :=
  dec_str (nth 3 bytes 0%N) +s+ "." +s+ dec_str (nth 2 bytes 0%N) +s+ "."
  +s+ dec_str (nth 1 bytes 0%N) +s+ "." +s+ dec_str (nth 0 bytes 0%N).

(** The outer [None] is a panic of a slice. *)
Definition parse_proc_net_local_address (value : rstr) : option (option (rstr * N)) :=
  match split_once 58 value with
  | None => Some None
  | Some (raw_address, raw_port) =>
      match parse_hex u16_max raw_port with
      | None => Some None
      | Some port =>
          if (str_len raw_address =? 8)%nat then
            slices ← mapM (λ index, byte_slice raw_address (index * 2) (index * 2 + 2)) (seq 0 4);
            let bytes := omap (parse_hex u8_max) slices in
            if negb (length bytes =? 4)%nat then Some None
            else Some (Some (dotted bytes, port))
          else Some (Some (to_ascii_lowercase raw_address, port))
      end
  end.

Definition parse_proc_net_listener_line (line : rstr) : option (option (rstr * N * rstr)) :=
  let fields := split_whitespace line in
  if (length fields <? 10)%nat || (nth 3 fields [] != ("0A" : rstr)) then Some None
  else
    match parse_proc_net_local_address (nth 1 fields []) with
    | None => None
    | Some None => Some None
    | Some (Some (address, port)) => Some (Some (address, port, nth 9 fields []))
    end.

Section listeners.
Context `{Sha256} `{HostView}.

Definition PROC_TCP_TABLES : list rstr := lit <$> ["/proc/net/tcp"; "/proc/net/tcp6"].

Definition listener_node (entry : rstr * N * rstr) : RuntimeMapNode :=
  let '(address, port, socket_inode) := entry in
  plain_node
    ("network_listener_" +s+ collision_resistant_id_component address +s+ "_" +s+ dec_str port)
    RP_Network RN_NetworkListener (address +s+ ":" +s+ dec_str port) (Some ("listening" : rstr)) L_Host
    (<[("address" : rstr) := address]> (<[("port" : rstr) := dec_str port]>
      (<[("socketInode" : rstr) := socket_inode]> ∅))).

(** The nodes of one table, its heading left out. *)
Definition listener_table_nodes (content : rstr) : option (list RuntimeMapNode) :=
  entries ← mapM parse_proc_net_listener_line (drop 1 (lines content));
  Some (listener_node <$> omap id entries).

Fixpoint collect_listener_tables (c : ProviderCollection) (paths : list rstr) : option ProviderCollection :=
  match paths with
  | [] => Some c
  | path :: paths =>
      match hv_read path with
      | None =>
          collect_listener_tables
            (push_provider_diagnostic c RP_Network Sev_Info ("network listener discovery skipped for " +s+ path))
            paths
      | Some content =>
          nodes ← listener_table_nodes content;
          collect_listener_tables (extend_nodes c nodes) paths
      end
  end.

Definition collect_network_listeners (c : ProviderCollection) : option ProviderCollection :=
  collect_listener_tables c PROC_TCP_TABLES.
End listeners.

(** ** providers/tmux.rs *)

Definition MAX_TMUX_SESSIONS : nat := 64.

Definition tmux_command : list rstr :=
  ["tmux" : rstr; "list-sessions" : rstr; "-F" : rstr;
   "#{session_id}" +s+ [9%N] +s+ "#{session_name}" +s+ [9%N] +s+ "#{session_attached}" +s+ [9%N]
   +s+ "#{session_windows}"].

Definition is_tmux_no_server_diagnostic (stderr : list N) (truncated : bool) : bool :=
  if truncated then false
  else match from_utf8 stderr with
       | Utf8_ok stderr =>
           let diagnostic := default stderr (strip_suffix [10%N] stderr) in
           is_some_and (strip_prefix "no server running on " diagnostic)
             (λ location, negb (location == []) && negb (existsb (contains_char location) [10; 13]%N))
       | Utf8_error _ _ => false
       end.

Definition tmux_session_listing_edges (sessions : list RuntimeMapNode) : list RuntimeMapEdge :=
  (λ session, {| re_source := rn_id session; re_target := "host_local"; re_relationship := RR_RunsOn;
                 re_metadata := {[ TMUX_EVIDENCE_SESSION_LISTING_MARKER := ("observed" : rstr) ]};
                 re_evidence_refs := [] |})
  <$> filterb (λ session, (rn_provider session == RP_Tmux) && (rn_kind session == RN_TmuxSession)
                          && starts_with (rn_id session) "tmux_session_") sessions.

Section tmux.
Context `{Sha256} `{HostView}.
(** The process key of [opaque_runtime_id_key]. *)
Variable key : list N.

Definition tmux_node (session_id : rstr) : RuntimeMapNode :=
  plain_node ("tmux_session_" +s+ opaque_runtime_id_component key session_id "session")
    RP_Tmux RN_TmuxSession "tmux session" None L_Session
    {[ ("serviceEntityKind" : rstr) := service_entity_kind_name SE_Session ]}.

(** The session id of a line with all four fields. *)
Definition session_record (line : rstr) : option rstr :=
  match split_char 9 line with
  | session_id :: _ :: _ :: _ :: _ => Some session_id
  | _ => None
  end.

Fixpoint tmux_session_loop (nodes : list RuntimeMapNode) (l : list rstr) : list RuntimeMapNode :=
  match l with
  | [] => nodes
  | line :: l =>
      match session_record line with
      | None => tmux_session_loop nodes l
      | Some session_id =>
          let nodes := nodes ++ [tmux_node session_id] in
          if (length nodes =? MAX_TMUX_SESSIONS)%nat then nodes else tmux_session_loop nodes l
      end
  end.

Definition tmux_session_nodes_from_output (value : rstr) : list RuntimeMapNode :=
  tmux_session_loop [] (lines value).

(** [collect_tmux_sessions_with_runner]: an error drops the collection. *)
Definition collect_tmux_sessions_with_runner (c : ProviderCollection)
    : ProviderCollection * (unit + ProviderCommandError) :=
  match hv_run tmux_command with
  | inr error =>
      (push_provider_diagnostic c RP_Tmux Sev_Info
         ("tmux discovery skipped: " +s+ provider_command_error_text error), inr error)
  | inl output =>
      if (es_code (po_status output) == Some 1%Z)
         && is_tmux_no_server_diagnostic (po_stderr output) (po_stderr_truncated output)
      then (c, inl tt)
      else if negb (es_success (po_status output)) then
        (push_provider_diagnostic c RP_Tmux Sev_Warning "tmux discovery command failed", inr Err_Wait)
      else
        let sessions := tmux_session_nodes_from_output (from_utf8_lossy (po_stdout output)) in
        (extend_nodes (extend_edges c (tmux_session_listing_edges sessions)) sessions, inl tt)
  end.
End tmux.

(** ** providers/pm2.rs *)

Definition dec_z (z : Z) : rstr :=
  if (z <? 0)%Z then "-" +s+ dec_str (Z.to_N (- z)) else dec_str (Z.to_N z).

Definition insert_some (key : rstr) (value : option rstr) (m : gmap rstr rstr) : gmap rstr rstr :=
  match value with Some value => <[key := value]> m | None => m end.

Section pm2.
Context `{Sha256} `{HostView} `{JsonValues}.

Definition value_to_string (value : option JValue) : option rstr :=
  match value with
  | Some value => match json_str value with Some text => Some text | None => json_number_text value end
  | None => None
  end.

Definition pm2_app_node (app : JValue) : RuntimeMapNode :=
  let id := default ("unknown" : rstr) (value_to_string (json_get app "pm_id")) in
  let env := default json_null (json_get app "pm2_env") in
  let field (value : JValue) (name : rstr) := v ← json_get value name; json_str v in
  let name := default ("pm2-app" : rstr) (or_else (field env "name") (field app "name")) in
  plain_node ("pm2_app_" +s+ collision_resistant_id_component id) RP_Pm2 RN_Pm2App name
    (field env "status") L_Process
    (<[("serviceEntityKind" : rstr) := service_entity_kind_name SE_NodeApplication]>
      (insert_some "restartCount" (dec_z <$> (v ← json_get env "restart_time"; json_i64 v))
        (insert_some "script" (field env "pm_exec_path")
          (insert_some "cwd" (field env "pm_cwd") ∅)))).

Definition pm2_app_nodes_from_jlist (value : rstr) : option (list RuntimeMapNode) :=
  match json_vec_from_str value with Some apps => Some (pm2_app_node <$> apps) | None => None end.

Definition collect_pm2_apps (c : ProviderCollection) : ProviderCollection :=
  match hv_run ["pm2" : rstr; "jlist" : rstr] with
  | inr error =>
      push_provider_diagnostic c RP_Pm2 Sev_Info
        ("PM2 discovery skipped: " +s+ provider_command_error_text error)
  | inl output =>
      if negb (es_success (po_status output)) then
        push_provider_diagnostic c RP_Pm2 Sev_Warning "PM2 discovery command failed"
      else match pm2_app_nodes_from_jlist (from_utf8_lossy (po_stdout output)) with
           | Some app_nodes => extend_nodes c app_nodes
           | None => push_provider_diagnostic c RP_Pm2 Sev_Warning "PM2 discovery returned invalid JSON"
           end
  end.
End pm2.

(** ** The host node (runtime_collection.rs) *)

Section host_node.
Context `{HostView}.

Definition local_hostname : rstr :=
  let from_file :=
    content ← hv_read "/etc/hostname";
    let value := trim content in if negb (value == []) then Some value else None in
  match env_ok (hv_env "HOSTNAME") with
  | Some value => if negb (trim value == []) then value else default ("localhost" : rstr) from_file
  | None => default ("localhost" : rstr) from_file
  end.

Definition collect_host_node (project_root : option rstr) (c : ProviderCollection) : ProviderCollection :=
  let hostname := local_hostname in
  extend_nodes c [plain_node "host_local" RP_Host RN_Host hostname (Some ("online" : rstr)) L_Host
    (insert_some "projectRoot" project_root
      (<[("serviceEntityKind" : rstr) := service_entity_kind_name SE_Host]>
        (<[("hostname" : rstr) := hostname]> ∅)))].
End host_node.

Lemma redact_not_sensitive v : is_sensitive_text (redact_sensitive_text v) = false.
Proof. unfold redact_sensitive_text. destruct (is_sensitive_text v) eqn:E; [vm_compute; reflexivity|done]. Qed.

(** ** Theorems: slot states *)

Definition state_of (c : ProviderCollection) (slot : ProviderSlot) : option ProviderStateKind :=
  ps_state <$> find (λ state, ps_slot state == slot) (pc_states c).

(** One entry per slot, in the order of the slots. *)
Definition states_ordered (l : list ProviderState) : Prop :=
  StronglySorted (λ a b, slot_index (ps_slot a) < slot_index (ps_slot b)) l.

#[export] Instance slot_index_inj : Inj (=) (=) slot_index.
Proof. by intros [] []. Qed.

Lemma update_first_None slot state l : update_first slot state l = None ↔ slot ∉ ps_slot <$> l.
Proof.
  induction l as [|s l IH]; cbn; [set_solver|]. case_bool_decide as E.
  - split; [done|]. set_solver.
  - destruct (update_first slot state l); cbn; set_solver.
Qed.

Lemma update_first_slots slot state l l' : update_first slot state l = Some l' → ps_slot <$> l' = ps_slot <$> l.
Proof.
  revert l'. induction l as [|s l IH]; intros l'; cbn; [done|]. case_bool_decide as E.
  - by intros [= <-].
  - destruct (update_first slot state l) as [r|]; [|done]. intros [= <-]. cbn. f_equal. by apply IH.
Qed.

Lemma update_first_find slot state l l' other : update_first slot state l = Some l' →
  ps_state <$> find (λ s, ps_slot s == other) l' =
  if other == slot then Some state else ps_state <$> find (λ s, ps_slot s == other) l.
Proof.
  revert l'. induction l as [|s l IH]; intros l'; cbn; [done|]. destruct (ps_slot s == slot) eqn:E; bool_unfold.
  - intros [= <-]. cbn. rewrite E. destruct (decide (other = slot)) as [->|Hne].
    + by rewrite !bool_decide_eq_true_2.
    + by rewrite !bool_decide_eq_false_2 by congruence.
  - destruct (update_first slot state l) as [r|]; [|done]. intros [= <-]. cbn.
    destruct (ps_slot s == other) eqn:E'; bool_unfold; [|by apply IH].
    rewrite bool_decide_eq_false_2 by congruence. done.
Qed.

Lemma slots_sorted_iff l :
  states_ordered l ↔ StronglySorted lt (slot_index ∘ ps_slot <$> l).
Proof.
  unfold states_ordered. induction l as [|s l IH]; cbn; [split; constructor|].
  split; intros [Hs Hall]%StronglySorted_inv; constructor; try (by apply IH);
    by rewrite Forall_fmap in *.
Qed.

Lemma insert_slot_ordered s l :
  states_ordered l → ps_slot s ∉ ps_slot <$> l → states_ordered (insert_by slot_leb s l).
Proof.
  unfold states_ordered. induction 1 as [|x l Hs IH Hx]; cbn; intros Hin; [by repeat constructor|].
  unfold slot_leb at 1. destruct (Nat.leb_spec (slot_index (ps_slot s)) (slot_index (ps_slot x))) as [Hle|Hlt].
  - assert (slot_index (ps_slot s) ≠ slot_index (ps_slot x)).
    { intros E%(inj slot_index). set_solver. }
    constructor; [by constructor|]. constructor; [lia|]. eapply Forall_impl; [exact Hx|]. cbn. lia.
  - constructor; [apply IH; set_solver|]. rewrite insert_by_Permutation. by constructor.
Qed.

Lemma sort_slots_ordered l : NoDup (ps_slot <$> l) → states_ordered (sort_by slot_leb l).
Proof.
  induction l as [|s l IH]; cbn; [constructor|]. intros [Hs Hl]%NoDup_cons.
  change (states_ordered (insert_by slot_leb s (sort_by slot_leb l))).
  apply insert_slot_ordered; [by apply IH|]. by rewrite sort_by_Permutation.
Qed.

Lemma ordered_NoDup l : states_ordered l → NoDup (ps_slot <$> l).
Proof.
  induction 1 as [|s l _ IH Hs]; cbn; [constructor|]. constructor; [|done].
  intros (x & E & Hx)%list_elem_of_fmap. rewrite Forall_forall in Hs. specialize (Hs _ Hx). rewrite E in Hs. lia.
Qed.

Lemma find_slot l s : NoDup (ps_slot <$> l) → find (λ state, ps_slot state == ps_slot s) l = Some s ↔ s ∈ l.
Proof.
  induction l as [|x l IH]; cbn; [set_solver|]. intros [Hx Hl]%NoDup_cons. case_bool_decide as E.
  - split; [intros [= <-]; left|]. intros [->|Hs]%elem_of_cons; [done|].
    destruct Hx. rewrite E. by apply list_elem_of_fmap_2.
  - rewrite IH by done. rewrite elem_of_cons. naive_solver.
Qed.

Lemma state_of_Permutation l l' slot : NoDup (ps_slot <$> l) → l ≡ₚ l' →
  find (λ state, ps_slot state == slot) l = find (λ state, ps_slot state == slot) l'.
Proof.
  intros Hl Hp. assert (Hl' : NoDup (ps_slot <$> l')) by (by rewrite <- Hp).
  apply option_eq. intros s. split; intros Hs.
  - pose proof (find_Some _ _ _ Hs) as [_ E]. apply bool_decide_eq_true in E. subst slot.
    apply find_slot in Hs; [|done]. apply find_slot; [done|]. by rewrite <- Hp.
  - pose proof (find_Some _ _ _ Hs) as [_ E]. apply bool_decide_eq_true in E. subst slot.
    apply find_slot in Hs; [|done]. apply find_slot; [done|]. by rewrite Hp.
Qed.

(** The slot states of a collection behave as a map from slots to states: setting a state
    changes the state of that slot only, and the public list keeps one entry per slot in the
    order of the slots, without timestamps, counters or revisions of its own. *)
Theorem set_state_spec c slot state :
  states_ordered (pc_states c) →
  states_ordered (pc_states (set_state c slot state)) ∧
  (∀ other, state_of (set_state c slot state) other = if other == slot then Some state else state_of c other) ∧
  (state_of c slot = None → new_state slot state ∈ pc_states (set_state c slot state)) ∧
  pc_nodes (set_state c slot state) = pc_nodes c ∧ pc_edges (set_state c slot state) = pc_edges c ∧
  pc_diagnostics (set_state c slot state) = pc_diagnostics c.
Proof.
  intros Hord. unfold state_of, set_state. cbn [pc_states pc_nodes pc_edges pc_diagnostics].
  destruct (update_first slot state (pc_states c)) as [states|] eqn:E.
  - split_and!; try done.
    + apply slots_sorted_iff. rewrite list_fmap_compose, (update_first_slots _ _ _ _ E), <- list_fmap_compose.
      by apply slots_sorted_iff.
    + intros other. by apply update_first_find.
    + intros Hnone. apply fmap_None in Hnone. rewrite find_None in Hnone.
      assert (Hin : slot ∉ ps_slot <$> pc_states c).
      { intros (x & -> & Hx)%list_elem_of_fmap. specialize (Hnone _ Hx). by rewrite bool_decide_eq_true_2 in Hnone. }
      apply update_first_None with (state := state) in Hin. congruence.
  - apply update_first_None in E.
    assert (Hnd : NoDup (ps_slot <$> pc_states c ++ [new_state slot state])).
    { rewrite fmap_app. apply NoDup_app. split_and!; [by apply ordered_NoDup| |apply NoDup_singleton].
      intros x Hx ->%list_elem_of_singleton. done. }
    split_and!; try done.
    + by apply sort_slots_ordered.
    + intros other. rewrite <- (state_of_Permutation _ _ other Hnd (symmetry (sort_by_Permutation slot_leb _))).
      induction (pc_states c) as [|x l IH]; cbn in *.
      * rewrite (bool_decide_ext (slot = other) (other = slot)) by done. by destruct (other == slot).
      * apply NoDup_cons in Hnd as [_ Hnd]. apply StronglySorted_inv in Hord as [Hord _].
        destruct (ps_slot x == other) eqn:Ex; bool_unfold; 
          [|apply IH; [done|set_solver|done]].
        subst other. rewrite bool_decide_eq_false_2 by set_solver. done.
    + intros _. rewrite sort_by_Permutation. set_solver.
Qed.

(** ** Theorems: listeners *)

(** [%02X] and [%04X] of the kernel. *)
Definition upper_digit (d : N) : N := if (d <? 10)%N then (48 + d)%N else (55 + d)%N.
Definition kernel_byte (b : N) : rstr := [upper_digit (b / 16); upper_digit (b mod 16)].
Definition kernel_port (port : N) : rstr := kernel_byte (port / 256) ++ kernel_byte (port mod 256).

Lemma below_bound (P : N → bool) n k : forallb P (N.of_nat <$> seq 0 n) = true → (k < N.of_nat n)%N → P k = true.
Proof.
  rewrite forallb_forall. intros HP Hk. apply HP, list_elem_of_In, list_elem_of_fmap.
  exists (N.to_nat k). split; [lia|]. apply elem_of_seq. lia.
Qed.

Lemma upper_digit_value d : (d < 16)%N →
  is_ascii_hexdigit (upper_digit d) = true ∧ hex_value (upper_digit d) = d ∧ (upper_digit d < 128)%N ∧
  upper_digit d ≠ 43%N ∧ upper_digit d ≠ 58%N.
Proof.
  intros Hd.
  pose proof (below_bound (λ d, is_ascii_hexdigit (upper_digit d) && (hex_value (upper_digit d) =? d)%N
    && (upper_digit d <? 128)%N && negb (upper_digit d =? 43)%N && negb (upper_digit d =? 58)%N) 16 d
    ltac:(reflexivity) Hd) as H. cbv beta in H.
  apply andb_prop in H as [H ?%negb_true_iff%N.eqb_neq]. apply andb_prop in H as [H ?%negb_true_iff%N.eqb_neq].
  apply andb_prop in H as [H ?%N.ltb_lt]. apply andb_prop in H as [H ?%N.eqb_eq]. done.
Qed.

Lemma byte_digits b : (b < 256)%N → (b / 16 < 16)%N ∧ (b mod 16 < 16)%N ∧ (b / 16 * 16 + b mod 16 = b)%N.
Proof.
  intros Hb. split_and!; [apply N.Div0.div_lt_upper_bound; lia|apply N.mod_lt; lia|].
  pose proof (N.div_mod b 16 ltac:(lia)). lia.
Qed.

Lemma parse_kernel_byte acc b : (b < 256)%N → parse_hex_digits acc (kernel_byte b) = Some (acc * 256 + b)%N.
Proof.
  intros (Hq & Hr & E)%byte_digits. unfold kernel_byte. cbn [parse_hex_digits].
  destruct (upper_digit_value _ Hq) as (-> & -> & _). destruct (upper_digit_value _ Hr) as (-> & -> & _).
  f_equal. rewrite <- E at 3. lia.
Qed.

Lemma parse_hex_digits_app acc a b : parse_hex_digits acc (a ++ b) = n ← parse_hex_digits acc a; parse_hex_digits n b.
Proof. revert acc. induction a as [|c a IH]; intros acc; cbn; [done|]. destruct (is_ascii_hexdigit c); [apply IH|done]. Qed.

Lemma kernel_byte_chars b : (b < 256)%N → Forall (λ c, (c < 128)%N ∧ c ≠ 43%N ∧ c ≠ 58%N) (kernel_byte b).
Proof.
  intros (Hq & Hr & _)%byte_digits. unfold kernel_byte.
  destruct (upper_digit_value _ Hq) as (_ & _ & ? & ? & ?). destruct (upper_digit_value _ Hr) as (_ & _ & ? & ? & ?).
  by repeat constructor.
Qed.

Lemma kernel_byte_plus b s : (b < 256)%N → strip_plus (kernel_byte b ++ s) = kernel_byte b ++ s.
Proof.
  intros (Hq & _)%byte_digits. destruct (upper_digit_value _ Hq) as (_ & _ & _ & Hp & _).
  unfold kernel_byte, strip_plus. cbn [app]. apply N.eqb_neq in Hp. by rewrite Hp.
Qed.

Lemma parse_hex_value max s n : strip_plus s = s → s ≠ [] → parse_hex_digits 0 s = Some n → (n <= max)%N →
  parse_hex max s = Some n.
Proof.
  intros E Hs Hp Hn. unfold parse_hex. rewrite E. destruct s as [|c s]; [done|].
  rewrite Hp. cbn [mbind option_bind]. by rewrite (proj2 (N.leb_le n max) Hn).
Qed.

Lemma parse_hex_byte b : (b < 256)%N → parse_hex u8_max (kernel_byte b) = Some b.
Proof.
  intros Hb. pose proof (kernel_byte_plus b [] Hb) as E. rewrite app_nil_r in E.
  apply parse_hex_value; [done|done| |unfold u8_max; lia]. by rewrite parse_kernel_byte.
Qed.

Lemma parse_hex_port p : (p < 65536)%N → parse_hex u16_max (kernel_port p) = Some p.
Proof.
  intros Hp. assert (Hq : (p / 256 < 256)%N) by (apply N.Div0.div_lt_upper_bound; lia).
  assert (Hr : (p mod 256 < 256)%N) by (apply N.mod_lt; lia).
  apply parse_hex_value; [by apply kernel_byte_plus|done| |unfold u16_max; lia].
  unfold kernel_port. rewrite parse_hex_digits_app, parse_kernel_byte by done. cbn [mbind option_bind].
  rewrite parse_kernel_byte by done. f_equal. pose proof (N.div_mod p 256 ltac:(lia)). lia.
Qed.

Lemma drop_bytes_ascii n s : Forall (λ c, (c < 128)%N) s → n ≤ length s → drop_bytes n s = Some (drop n s).
Proof.
  intros Hs. revert n. induction Hs as [|c s Hc _ IH]; intros [|n] Hn; cbn in *; try done; [lia|].
  unfold utf8_char. rewrite (proj2 (N.ltb_lt c 128) Hc). cbn. rewrite Nat.sub_0_r. apply IH. lia.
Qed.

Lemma take_bytes_ascii n s : Forall (λ c, (c < 128)%N) s → n ≤ length s → take_bytes n s = Some (take n s).
Proof.
  intros Hs. revert n. induction Hs as [|c s Hc _ IH]; intros [|n] Hn; cbn in *; try done; [lia|].
  unfold utf8_char. rewrite (proj2 (N.ltb_lt c 128) Hc). cbn. rewrite Nat.sub_0_r, IH by lia. done.
Qed.

Lemma byte_slice_ascii s from to : Forall (λ c, (c < 128)%N) s → from ≤ to → to ≤ length s →
  byte_slice s from to = Some (take (to - from) (drop from s)).
Proof.
  intros Hs Hle Hto. unfold byte_slice. rewrite drop_bytes_ascii by (done || lia). cbn [mbind option_bind].
  apply take_bytes_ascii; [by apply Forall_drop|]. rewrite length_drop. lia.
Qed.

Lemma length_kernel_byte b : length (kernel_byte b) = 2.
Proof. done. Qed.

(** The local address that the kernel prints for an IPv4 socket, its bytes from last to
    first, is read back as the dotted address and the port, and the line of a listening socket
    with it as its second word gives that address, that port and its inode. *)
Theorem listener_address_roundtrip a b c d port line :
  (a < 256)%N → (b < 256)%N → (c < 256)%N → (d < 256)%N → (port < 65536)%N →
  let local := kernel_byte d ++ kernel_byte c ++ kernel_byte b ++ kernel_byte a ++ [58%N] ++ kernel_port port in
  let address := dec_str a +s+ "." +s+ dec_str b +s+ "." +s+ dec_str c +s+ "." +s+ dec_str d in
  parse_proc_net_local_address local = Some (Some (address, port)) ∧
  (10 ≤ length (split_whitespace line) → split_whitespace line !! 1 = Some local →
   split_whitespace line !! 3 = Some ("0A" : rstr) →
   ∃ inode, split_whitespace line !! 9 = Some inode ∧
     parse_proc_net_listener_line line = Some (Some (address, port, inode))).
Proof.
  intros Ha Hb Hc Hd Hp local address.
  assert (Hlocal : parse_proc_net_local_address local = Some (Some (address, port))).
  { pose proof (kernel_byte_chars a Ha). pose proof (kernel_byte_chars b Hb).
    pose proof (kernel_byte_chars c Hc). pose proof (kernel_byte_chars d Hd).
    set (raw := kernel_byte d ++ kernel_byte c ++ kernel_byte b ++ kernel_byte a).
    assert (Hchars : Forall (λ c, (c < 128)%N ∧ c ≠ 43%N ∧ c ≠ 58%N) raw) by (unfold raw; by rewrite !Forall_app).
    assert (Hascii : Forall (λ c, (c < 128)%N) raw) by (eapply Forall_impl; [exact Hchars|]; naive_solver).
    unfold parse_proc_net_local_address.
    assert (split_once 58 local = Some (raw, kernel_port port)) as ->.
    { apply split_once_Some. split; [unfold local, raw; by rewrite <- !app_assoc|].
      intros Hin. rewrite Forall_forall in Hchars. by destruct (Hchars _ Hin) as (_ & _ & ?). }
    rewrite parse_hex_port by done.
    assert (str_len raw =? 8 = true)%nat as -> by (unfold str_len; by rewrite ascii_utf8).
    cbn [seq mapM]. rewrite !byte_slice_ascii by first [exact Hascii | lia | unfold raw; rewrite !length_app, !length_kernel_byte; lia].
    cbn [mbind option_bind mret option_ret]. unfold raw. cbn [Nat.mul Nat.add Nat.sub].
    change (match omap (parse_hex u8_max) [kernel_byte d; kernel_byte c; kernel_byte b; kernel_byte a] with
            | bytes => if negb (length bytes =? 4) then Some None else Some (Some (dotted bytes, port)) end
            = Some (Some (address, port))).
    cbn [omap list_omap]. by rewrite !parse_hex_byte by done. }
  split; [done|]. intros Hlen H1 H3. destruct (lookup_lt_is_Some_2 (split_whitespace line) 9 ltac:(lia)) as [inode H9].
  exists inode. split; [done|]. unfold parse_proc_net_listener_line.
  rewrite (proj2 (Nat.ltb_ge _ _) Hlen), !(nth_lookup_Some _ _ _ _ H1), (nth_lookup_Some _ _ _ _ H3), (nth_lookup_Some _ _ _ _ H9).
  rewrite bool_decide_eq_true_2 by done. cbn [negb orb]. by rewrite Hlocal.
Qed.

Definition example_listener_line : rstr :=
  "   0: 0100007F:1F90 00000000:0000 0A 00000000:00000000 00:00000000 00000000   100        0 12345 1 0000000000000000".

Lemma listener_address_roundtrip_witness :
  parse_proc_net_listener_line example_listener_line =
  Some (Some ("127.0.0.1" : rstr, 8080%N, "12345" : rstr)).
Proof.
  destruct (listener_address_roundtrip 127 0 0 1 8080 example_listener_line) as [_ H]; [reflexivity..|].
  destruct H as (inode & Hi & ->); [vm_compute; lia|vm_compute; reflexivity|vm_compute; reflexivity|].
  vm_compute in Hi. injection Hi as <-. vm_compute. reflexivity.
Defined.

(** Text of ASCII never makes a slice panic. *)
Lemma listener_address_ascii value : Forall (λ c, (c < 128)%N) value → is_Some (parse_proc_net_local_address value).
Proof.
  intros Hv. unfold parse_proc_net_local_address. destruct (split_once 58 value) as [[raw port]|] eqn:E; [|done].
  apply split_once_Some in E as [-> _]. apply Forall_app in Hv as [Hraw _].
  destruct (parse_hex u16_max port); [|done]. unfold str_len. rewrite ascii_utf8 by done.
  destruct (length raw =? 8)%nat eqn:El; [|done]. apply Nat.eqb_eq in El. cbn [seq mapM].
  rewrite !byte_slice_ascii by first [done | lia]. cbn [mbind option_bind mret option_ret].
  by case_match.
Qed.

(** A slice inside a character: eight bytes, three of them in one character. *)
Example listener_slice_panics : parse_proc_net_local_address ([48; 48; 48; 48; 48; 8364; 58; 49]%N) = None.
Proof. reflexivity. Qed.

Lemma split_char_chars (P : N → Prop) c s p : Forall P s → p ∈ split_char c s → Forall P p.
Proof.
  intros Hs. revert p. induction Hs as [|x s Hx Hs IH]; intros p; cbn [split_char].
  - by intros ->%list_elem_of_singleton.
  - destruct (x =? c)%N; [intros [->|Hp]%elem_of_cons; [done|by apply IH]|].
    destruct (split_char c s) as [|q qs]; [intros ->%list_elem_of_singleton; by constructor|].
    intros [->|Hp]%elem_of_cons; [constructor; [done|]; apply IH; left|]. apply IH. by right.
Qed.

Lemma strip_cr_chars (P : N → Prop) s : Forall P s → Forall P (strip_cr s).
Proof.
  intros Hs. unfold strip_cr, strip_suffix.
  destruct (strip_prefix (reverse [13%N]) (reverse s)) as [r|] eqn:E; [|done]. cbn.
  apply strip_prefix_Some in E. apply Forall_reverse in Hs. rewrite E in Hs.
  apply Forall_app in Hs as [_ Hs]. by apply Forall_reverse.
Qed.

Lemma lines_chars (P : N → Prop) s line : Forall P s → line ∈ lines s → Forall P line.
Proof.
  intros Hs. unfold lines.
  assert (Hpieces : ∀ p, p ∈ split_char 10 s → Forall P p) by (intros p; by apply split_char_chars).
  destruct (split_char 10 s) as [|q qs] eqn:E using rev_ind.
  { cbn [removelast last default fmap list_fmap app]. rewrite bool_decide_eq_true_2 by done.
    by intros ?%not_elem_of_nil. }
  rewrite removelast_last, last_snoc. cbn [default]. intros [Hl|Hl]%elem_of_app.
  - apply list_elem_of_fmap in Hl as (p & -> & Hp). apply strip_cr_chars, Hpieces. set_solver.
  - case_bool_decide; [by apply not_elem_of_nil in Hl|]. apply list_elem_of_singleton in Hl as ->.
    apply Hpieces. set_solver.
Qed.

Lemma listener_line_ascii line : Forall (λ c, (c < 128)%N) line → is_Some (parse_proc_net_listener_line line).
Proof.
  intros Hl. unfold parse_proc_net_listener_line. case_match; [done|].
  assert (Hword : Forall (λ c, (c < 128)%N) (nth 1 (split_whitespace line) [])).
  { destruct (nth_in_or_default 1 (split_whitespace line) []) as [Hin|E]; [|rewrite E; constructor].
    apply list_elem_of_In in Hin. eapply split_whitespace_words; [|exact Hin].
    rewrite Forall_forall in Hl. auto. }
  by destruct (listener_address_ascii _ Hword) as [[[address port]|] ->].
Qed.

Lemma listener_table_ascii `{Sha256} content : Forall (λ c, (c < 128)%N) content →
  is_Some (listener_table_nodes content).
Proof.
  intros Hc. unfold listener_table_nodes.
  assert (Hlines : Forall (λ line, is_Some (parse_proc_net_listener_line line)) (drop 1 (lines content))).
  { apply Forall_drop, Forall_forall. intros line Hline. apply listener_line_ascii. by eapply lines_chars. }
  by apply mapM_is_Some_2 in Hlines as [entries ->].
Qed.

Section listener_theorems.
Context `{Sha256} `{HostView}.

(** The kernel's tables are ASCII, so the collection of listeners never panics on them. *)
Lemma collect_listener_tables_total c paths :
  (∀ path content, path ∈ paths → hv_read path = Some content → Forall (λ c, (c < 128)%N) content) →
  is_Some (collect_listener_tables c paths).
Proof.
  revert c. induction paths as [|path paths IH]; intros c Hp; [done|]. cbn [collect_listener_tables].
  destruct (hv_read path) as [content|] eqn:E.
  - destruct (listener_table_ascii content) as [nodes ->]; [by eapply Hp; [left|]|]. cbn [mbind option_bind].
    apply IH. intros. eapply Hp; [by right|done].
  - apply IH. intros. eapply Hp; [by right|done].
Qed.

(** Two sockets that share an address and a port, as [SO_REUSEPORT] allows, get one identity. *)
Lemma reuse_port_identity address port inode inode' :
  rn_id (listener_node (address, port, inode)) = rn_id (listener_node (address, port, inode')).
Proof. done. Qed.
End listener_theorems.

(** ** Theorems: tmux *)

Section tmux_theorems.
Context `{Sha256} `{HostView}.
Variable key : list N.

Lemma tmux_loop_take nodes l : length nodes < MAX_TMUX_SESSIONS →
  tmux_session_loop key nodes l = take MAX_TMUX_SESSIONS (nodes ++ (tmux_node key <$> omap session_record l)).
Proof.
  revert nodes. induction l as [|line l IH]; intros nodes Hn; cbn [tmux_session_loop omap list_omap].
  - rewrite fmap_nil, app_nil_r, take_ge; [done|lia].
  - destruct (session_record line) as [id|]; [|by apply IH]. cbv zeta. rewrite fmap_cons.
    change (nodes ++ tmux_node key id :: (tmux_node key <$> omap session_record l))
      with (nodes ++ [tmux_node key id] ++ (tmux_node key <$> omap session_record l)).
    rewrite (app_assoc nodes [_]). assert (Hlen : length (nodes ++ [tmux_node key id]) = S (length nodes)).
    { rewrite length_app. cbn. lia. }
    destruct (Nat.eqb_spec (length (nodes ++ [tmux_node key id])) MAX_TMUX_SESSIONS) as [E|E].
    + by rewrite take_app_le, take_ge by lia.
    + apply IH. lia.
Qed.

(** The ids of a listing: the first field of each line with all four. *)
Definition session_ids (value : rstr) : list rstr := take MAX_TMUX_SESSIONS (omap session_record (lines value)).

Lemma tmux_nodes_spec value : tmux_session_nodes_from_output key value = tmux_node key <$> session_ids value.
Proof.
  unfold tmux_session_nodes_from_output, session_ids. rewrite tmux_loop_take by (unfold MAX_TMUX_SESSIONS; cbn; lia).
  by rewrite fmap_take.
Qed.

Definition tmux_edge (session_id : rstr) : RuntimeMapEdge := {|
  re_source := rn_id (tmux_node key session_id); re_target := "host_local"; re_relationship := RR_RunsOn;
  re_metadata := {[ TMUX_EVIDENCE_SESSION_LISTING_MARKER := ("observed" : rstr) ]}; re_evidence_refs := [] |}.

Lemma tmux_edges_spec ids : tmux_session_listing_edges (tmux_node key <$> ids) = tmux_edge <$> ids.
Proof.
  unfold tmux_session_listing_edges. induction ids as [|id ids IH]; [done|]. rewrite fmap_cons. cbn [filterb].
  assert (starts_with (rn_id (tmux_node key id)) "tmux_session_" = true) as ->.
  { unfold tmux_node, plain_node. cbn [rn_id]. auto with dockermap. }
  rewrite !bool_decide_eq_true_2 by done. cbn [andb]. by rewrite !fmap_cons, IH.
Qed.

(** What a tmux collection publishes depends on the session ids of the listing only, each
    through the keyed digest of the process: one node and one marked edge to the host for each
    of the first 64 complete records, and nothing of names, attachment or windows. A failed
    command, and text of the command, never reach nodes, edges or messages; the closed
    no-server answer is an empty listing. *)
Theorem tmux_sessions_opaque c c' result :
  collect_tmux_sessions_with_runner key c = (c', result) →
  pc_states c' = pc_states c ∧
  match result with
  | inl _ => ∃ output, hv_run tmux_command = inl output ∧ pc_diagnostics c' = pc_diagnostics c ∧
      ∃ ids, length ids ≤ MAX_TMUX_SESSIONS ∧
        pc_nodes c' = pc_nodes c ++ (tmux_node key <$> ids) ∧ pc_edges c' = pc_edges c ++ (tmux_edge <$> ids) ∧
        (es_success (po_status output) = true → es_code (po_status output) ≠ Some 1%Z →
          ids = session_ids (from_utf8_lossy (po_stdout output))) ∧
        (es_success (po_status output) = false → ids = [] ∧ es_code (po_status output) = Some 1%Z)
  | inr error =>
      (hv_run tmux_command = inr error ∨
       ∃ output, hv_run tmux_command = inl output ∧ es_success (po_status output) = false ∧ error = Err_Wait) ∧
      pc_nodes c' = pc_nodes c ∧ pc_edges c' = pc_edges c ∧
      ∃ d, pc_diagnostics c' = pc_diagnostics c ++ [d] ∧
        rd_message d ∈ (redact <$> (("tmux discovery command failed" : rstr) ::
          ((λ e, ("tmux discovery skipped: " +s+ provider_command_error_text e)) <$> [error])))
  end.
Proof.
  unfold collect_tmux_sessions_with_runner. destruct (hv_run tmux_command) as [output|error] eqn:Erun.
  - destruct (_ && _) eqn:Eserver.
    { intros [= <- <-]. split; [done|]. exists output. split_and!; [done..|]. exists [].
      apply andb_prop in Eserver as [Ecode%bool_decide_eq_true _].
      rewrite !fmap_nil, !app_nil_r. split_and!; [cbn; lia|done|done|congruence|done]. }
    destruct (es_success (po_status output)) eqn:Es; cbn [negb].
    + intros [= <- <-]. split; [done|]. exists output. split_and!; [done..|].
      exists (session_ids (from_utf8_lossy (po_stdout output))).
      rewrite tmux_nodes_spec, tmux_edges_spec. split_and!; [|done|done|done|congruence].
      unfold session_ids. rewrite length_take. lia.
    + intros [= <- <-]. split; [done|]. split_and!; try done; [by right; exists output|].
      eexists. split; [done|]. left.
  - intros [= <- <-]. split; [done|]. split_and!; try done; [by left|].
    eexists. split; [done|]. right. left.
Qed.
End tmux_theorems.

(** A host that answers the fixed commands with the given outputs. *)
Definition example_output (code : Z) (stdout stderr : rstr) : ProviderCommandOutput := {|
  po_status := {| es_success := (code =? 0)%Z; es_code := Some code |};
  po_stdout := utf8_bytes stdout; po_stdout_truncated := false;
  po_stderr := utf8_bytes stderr; po_stderr_truncated := false |}.

Definition example_listing : rstr :=
  "$0" +s+ [9%N] +s+ "private-name" +s+ [9%N] +s+ "0" +s+ [9%N] +s+ "1" +s+ [10%N] +s+ "broken line".

Section tmux_witness.
#[local] Existing Instance Toy_sha256.
#[local] Instance listing_host : HostView := {|
  hv_env := λ _, NotPresent; hv_run := λ _, inl (example_output 0 example_listing []);
  hv_read := λ _, None; hv_exists := λ _, false |}.

Lemma tmux_sessions_opaque_witness :
  pc_nodes (collect_tmux_sessions_with_runner [7%N] empty_collection).1 = [tmux_node [7%N] "$0"] ∧
  pc_edges (collect_tmux_sessions_with_runner [7%N] empty_collection).1 = [tmux_edge [7%N] "$0"].
Proof.
  destruct (collect_tmux_sessions_with_runner [7%N] empty_collection) as [c' result] eqn:E.
  pose proof (tmux_sessions_opaque [7%N] empty_collection c' result E) as [_ H].
  destruct result as [u|error]; [|exfalso].
  - destruct H as (output & Hrun & _ & ids & _ & Hn & He & Hids & _). cbn in Hrun. injection Hrun as <-.
    rewrite Hids in Hn, He by (vm_compute; congruence).
    cbn [fst]. rewrite Hn, He. split; vm_compute; reflexivity.
  - destruct H as [[Hrun|(output & Hrun & Hs & _)] _]; cbn in Hrun; [discriminate Hrun|].
    injection Hrun as <-. vm_compute in Hs. discriminate Hs.
Defined.
End tmux_witness.

(** The closed answer for no server is an empty listing; any other failure is not. *)
Example no_server_is_empty :
  is_tmux_no_server_diagnostic (utf8_bytes ("no server running on /tmp/tmux-1000/default" +s+ [10%N])) false = true.
Proof. reflexivity. Qed.

Example other_failure_is_not_empty :
  is_tmux_no_server_diagnostic (utf8_bytes "permission denied opening private tmux socket") false = false.
Proof. reflexivity. Qed.
