(* ===== verification/Words.v ===== *)
(** * Words and the whitespace around them

    What [str::trim], [str::split_whitespace] and the walk over tokens with [str::find] do to a
    line: a line is gaps of whitespace and words without it, and skipping a word by searching
    for its text stops right after that word. *)

From S2P Require Import Prelude RustStr Redaction.

(** The walk over the first tokens with [find]: what follows the last of them. [None] is a token
    that is not found. *)
Fixpoint skip_tokens (tokens : list rstr) (rest : rstr) : option rstr :=
  match tokens with
  | [] => Some rest
  | token :: tokens => match after_first token rest with Some rest => skip_tokens tokens rest | None => None end
  end.

Definition gap (s : rstr) : Prop := Forall (λ c, is_whitespace c = true) s.
Definition word (s : rstr) : Prop := s ≠ [] ∧ Forall (λ c, is_whitespace c = false) s.

(** Text that begins and ends with a character that is no whitespace. *)
Definition bounded (s : rstr) : Prop :=
  (∃ c t, s = c :: t ∧ is_whitespace c = false) ∧ (∃ t c, s = t ++ [c] ∧ is_whitespace c = false).

(** Text that is empty or begins with whitespace: what may follow a word. *)
Definition gap_start (s : rstr) : Prop := s = [] ∨ ∃ c t, s = c :: t ∧ is_whitespace c = true.

Lemma gap_reverse s : gap s → gap (reverse s).
Proof. apply Forall_reverse. Qed.

Lemma word_bounded s : word s → bounded s.
Proof.
  intros [Hne Hs]. split.
  - destruct s as [|c t]; [done|]. apply Forall_cons in Hs as [Hc _]. by exists c, t.
  - destruct (exists_last Hne) as (t & c & ->). apply Forall_app in Hs as [_ Hc].
    rewrite Forall_singleton in Hc. by exists t, c.
Qed.

Lemma bounded_ne s : bounded s → s ≠ [].
Proof. intros [(c & t & -> & _) _]. done. Qed.

Lemma bounded_app a g b : bounded a → bounded b → bounded (a ++ g ++ b).
Proof.
  intros [(c & t & -> & Hc) _] [_ (t' & d & -> & Hd)]. split.
  - by exists c, (t ++ g ++ t' ++ [d]).
  - exists ((c :: t) ++ g ++ t'), d. split; [by rewrite <- !app_assoc|done].
Qed.

(** ** Trimming *)

Lemma drop_while_gap s : ∃ g, s = g ++ drop_while is_whitespace s ∧ gap g.
Proof.
  induction s as [|c s (g & E & Hg)]; cbn; [exists []; split; [done|constructor]|].
  destruct (is_whitespace c) eqn:Ec.
  - exists (c :: g). split; [cbn; by rewrite <- E|]. by constructor.
  - exists []. split; [done|constructor].
Qed.

Lemma drop_while_view s : drop_while is_whitespace s = [] ∨
  ∃ c t, drop_while is_whitespace s = c :: t ∧ is_whitespace c = false.
Proof. induction s as [|c s IH]; cbn; [by left|]. destruct (is_whitespace c) eqn:E; [done|]. right. eauto. Qed.

Lemma drop_while_app g s : gap g → drop_while is_whitespace (g ++ s) = drop_while is_whitespace s.
Proof. induction 1 as [|c g Hc _ IH]; [done|]. cbn. by rewrite Hc. Qed.

Lemma drop_while_id c s : is_whitespace c = false → drop_while is_whitespace (c :: s) = c :: s.
Proof. cbn. by intros ->. Qed.

(** A line is its trimmed text between two gaps. *)
Lemma trim_split s : ∃ g t, s = g ++ trim s ++ t ∧ gap g ∧ gap t ∧ (trim s = [] ∨ bounded (trim s)).
Proof.
  unfold trim, trim_start, trim_end. destruct (drop_while_gap s) as (g & E & Hg).
  set (u := drop_while is_whitespace s) in *.
  destruct (drop_while_gap (reverse u)) as (h & Eh & Hh).
  set (v := drop_while is_whitespace (reverse u)) in *.
  assert (Eu : u = reverse v ++ reverse h).
  { rewrite <- (reverse_involutive u), Eh, reverse_app. done. }
  exists g, (reverse h). split_and!; [by rewrite <- Eu|done|by apply gap_reverse|].
  destruct (drop_while_view (reverse u)) as [Ev|(c & t & Ev & Hc)]; fold v in Ev; rewrite Ev in *.
  - left. done.
  - right. split.
    + destruct (drop_while_view s) as [Es|(d & t' & Es & Hd)]; fold u in Es.
      * rewrite Es in Eh. cbn in Eh. by destruct h.
      * destruct (reverse (c :: t)) as [|x r] eqn:Er.
        { apply (f_equal length) in Er. rewrite length_reverse in Er. done. }
        rewrite Es in Eu. cbn in Eu. injection Eu as -> _. eauto.
    + exists (reverse t), c. by rewrite reverse_cons.
Qed.

Lemma trim_bounded g s t : gap g → bounded s → gap t → trim (g ++ s ++ t) = s.
Proof.
  intros Hg [(c & r & -> & Hc) (r' & d & Ed & Hd)] Ht. unfold trim, trim_start, trim_end.
  rewrite drop_while_app by done. rewrite <- app_comm_cons, drop_while_id by done.
  rewrite app_comm_cons, Ed, reverse_app, drop_while_app by (by apply gap_reverse).
  rewrite reverse_app. change (reverse [d]) with [d]. cbn [app]. rewrite drop_while_id by done.
  change (d :: reverse r') with ([d] ++ reverse r'). change [d] with (reverse [d]).
  rewrite <- reverse_app, reverse_involutive. done.
Qed.

Lemma trim_id s : bounded s → trim s = s.
Proof. intros Hs. pose proof (trim_bounded [] s [] ltac:(constructor) Hs ltac:(constructor)) as E. by rewrite app_nil_r in E. Qed.

Lemma trim_gap g : gap g → trim g = [].
Proof.
  intros Hg. destruct (trim_split g) as (a & b & E & _ & _ & [H|[(c & t & Ec & Hc) _]]); [done|].
  exfalso. unfold gap in Hg. rewrite Forall_forall in Hg.
  rewrite (Hg c) in Hc; [done|]. rewrite E, Ec. set_solver.
Qed.

(** ** Splitting into words *)

Lemma split_go_gap g s : gap g → split_whitespace_go [] (g ++ s) = split_whitespace_go [] s.
Proof. induction 1 as [|c g Hc _ IH]; [done|]. cbn. by rewrite Hc. Qed.

Lemma split_go_word cur w s : Forall (λ c, is_whitespace c = false) w →
  split_whitespace_go cur (w ++ s) = split_whitespace_go (reverse w ++ cur) s.
Proof.
  intros Hw. revert cur. induction Hw as [|c w Hc _ IH]; intros cur; [done|].
  cbn [app split_whitespace_go]. by rewrite Hc, IH, reverse_cons, <- app_assoc.
Qed.

Lemma split_go_flush cur s : cur ≠ [] → gap_start s → split_whitespace_go cur s = reverse cur :: split_whitespace s.
Proof.
  intros Hcur [->|(c & t & -> & Hc)]; cbn [split_whitespace_go].
  - by destruct cur.
  - unfold split_whitespace. cbn [split_whitespace_go]. rewrite Hc. by destruct cur.
Qed.

Lemma split_word g w s : gap g → word w → gap_start s → split_whitespace (g ++ w ++ s) = w :: split_whitespace s.
Proof.
  intros Hg [Hne Hw] Hs. unfold split_whitespace at 1. rewrite split_go_gap, split_go_word by done.
  rewrite app_nil_r, split_go_flush; [by rewrite reverse_involutive| |done].
  intros E. apply (f_equal length) in E. rewrite length_reverse in E. by destruct w.
Qed.

(** A line is a gap, or a gap, a word and the rest. *)
Lemma split_view s : (gap s ∧ split_whitespace s = []) ∨
  ∃ g w r, s = g ++ w ++ r ∧ gap g ∧ word w ∧ gap_start r ∧ split_whitespace s = w :: split_whitespace r.
Proof.
  destruct (drop_while_gap s) as (g & E & Hg). destruct (drop_while_view s) as [Ed|(c & t & Ed & Hc)].
  - left. rewrite Ed, app_nil_r in E. subst g. split; [done|].
    pose proof (split_go_gap s [] Hg) as H. by rewrite app_nil_r in H.
  - right. rewrite Ed in E. clear Ed.
    assert (Hspan : ∃ w r, c :: t = w ++ r ∧ word w ∧ gap_start r).
    { clear E. revert c Hc. induction t as [|d t IH]; intros c Hc.
      - exists [c], []. split; [done|]. split; [|by left]. split; [done|]. by constructor.
      - destruct (is_whitespace d) eqn:Ed.
        + exists [c], (d :: t). split; [done|]. split; [|right; eauto]. split; [done|]. by constructor.
        + destruct (IH d Ed) as (w & r & -> & [_ Hw] & Hr). exists (c :: w), r. split; [done|]. split; [|done].
          split; [done|]. by constructor. }
    destruct Hspan as (w & r & Et & Hw & Hr). exists g, w, r. rewrite Et in E. split_and!; [done..|].
    rewrite E. by apply split_word.
Qed.

(** ** Searching for a word *)

Lemma strip_prefix_word w c s : word w → is_whitespace c = true → strip_prefix w (c :: s) = None.
Proof.
  intros [Hne Hw] Hc. destruct (strip_prefix w (c :: s)) as [r|] eqn:E; [|done].
  apply strip_prefix_Some in E. destruct w as [|x w]; [done|]. injection E as -> _.
  apply Forall_cons in Hw as [Hx _]. congruence.
Qed.

Lemma after_first_word g w s : gap g → word w → after_first w (g ++ w ++ s) = Some s.
Proof.
  intros Hg Hw. induction Hg as [|c g Hc _ IH].
  - cbn [app]. assert (E : strip_prefix w (w ++ s) = Some s) by (by apply strip_prefix_Some).
    destruct Hw as [Hne _]. destruct w as [|x w]; [done|]. cbn [app after_first] in *. by rewrite E.
  - cbn [app after_first]. by rewrite strip_prefix_word.
Qed.

(** The walk stops right after the last of the words it skips. *)
Lemma skip_words s n : n ≤ length (split_whitespace s) →
  ∃ rest, skip_tokens (take n (split_whitespace s)) s = Some rest ∧
    split_whitespace rest = drop n (split_whitespace s) ∧ (0 < n → gap_start rest) ∧ ∃ before, s = before ++ rest.
Proof.
  revert s. induction n as [|n IH]; intros s Hn.
  { exists s. split_and!; [done|done|lia|by exists []]. }
  destruct (split_view s) as [[_ E]|(g & w & r & -> & Hg & Hw & Hr & E)]; rewrite E in *; [cbn in Hn; lia|].
  cbn [length] in Hn. cbn [take skip_tokens drop]. rewrite after_first_word by done.
  destruct (IH r ltac:(lia)) as (rest & Hskip & Hsplit & Hgap & before & ->). exists rest. split_and!; [done|done| |].
  - intros _. destruct n; [|apply Hgap; lia]. cbn in Hskip. by injection Hskip as <-.
  - exists (g ++ w ++ before). by rewrite <- !app_assoc.
Qed.

Lemma gap_start_gap g w r : gap_start (g ++ w ++ r) → bounded w → g ≠ [].
Proof.
  intros Hs [(c & t & -> & Hc) _] ->. destruct Hs as [|(d & u & E & Hd)]; [done|].
  injection E as -> _. congruence.
Qed.

Lemma gap_gap_start g s : gap g → g ≠ [] → gap_start (g ++ s).
Proof. intros Hg Hne. destruct g as [|c g]; [done|]. apply Forall_cons in Hg as [Hc _]. right. by exists c, (g ++ s). Qed.

Lemma bounded_start g w r : gap g → bounded (g ++ w ++ r) → g = [].
Proof.
  intros Hg [(c & t & E & Hc) _]. destruct g as [|d g]; [done|]. apply Forall_cons in Hg as [Hd _].
  injection E as -> _. congruence.
Qed.

Lemma bounded_words s : bounded s → split_whitespace s ≠ [].
Proof.
  intros [(c & t & -> & Hc) _]. destruct (split_view (c :: t)) as [[Hg _]|(g & w & r & _ & _ & _ & _ & ->)]; [|done].
  apply Forall_cons in Hg as [Hg _]. congruence.
Qed.

Lemma split_first_word w s : word w → gap_start s → split_whitespace (w ++ s) = w :: split_whitespace s.
Proof. intros. apply (split_word [] w s); [constructor|done..]. Qed.

Lemma after_first_start w s : word w → after_first w (w ++ s) = Some s.
Proof. intros. apply (after_first_word [] w s); [constructor|done]. Qed.
