(* ===== verification/Processes.v ===== *)
(** * Host processes ([crates/dockermap-daemon/src/providers/processes.rs])

    One fixed [ps] table gives two views: Python applications and native processes. The host's
    answers come in through [HostView]; the daemon's own pid is an argument. *)

From S2P Require Import Prelude RustStr RustNum Models Serial Identity Redaction RuntimeTopology Scheduler Utf8 Boundary Providers Words.

Definition MAX_PYTHON_PROCESSES : nat := 64.
Definition MAX_NATIVE_PROCESSES : nat := 256.

Record ProcessRecord := { pr_pid : N; pr_user : rstr; pr_comm : rstr; pr_args : rstr }.

(** ** The table *)

(** One line of [parse_ps_table]; [None] is [continue]. *)
Definition parse_ps_line (line : rstr) : option ProcessRecord :=
  let trimmed := trim line in
  if trimmed == [] then None
  else
    let fields := split_whitespace trimmed in
    if (length fields <? 4)%nat then None
    else match parse_uint u32_max (nth 0 fields []) with
         | None => None
         | Some pid =>
             match skip_tokens (take 3 fields) trimmed with
             | None => None
             | Some rest =>
                 if rest == [] then None
                 else let args := trim rest in
                      if args == [] then None
                      else Some {| pr_pid := pid; pr_user := nth 1 fields []; pr_comm := nth 2 fields [];
                                   pr_args := args |}
             end
         end.

Definition parse_ps_table (value : rstr) : list ProcessRecord := omap parse_ps_line (lines value).

(** The bytes up to the last line feed, when there is one. *)
Fixpoint through_last_newline (output : list N) : option (list N) :=
  match output with
  | [] => None
  | b :: output =>
      match through_last_newline output with
      | Some kept => Some (b :: kept)
      | None => if (b =? 10)%N then Some [b] else None
      end
  end.

Definition complete_provider_lines (output : list N) (output_truncated : bool) : list N :=
  if negb output_truncated || (last output == Some 10%N) then output
  else default [] (through_last_newline output).

(** ** The executable of a command line *)

Definition trim_end_colons (s : rstr) : rstr := reverse (drop_while (N.eqb 58) (reverse s)).

Definition basename (token : rstr) : rstr := default token (last (split_char 47 token)).

Definition wrappers : list rstr :=
  lit <$> ["env"; "sudo"; "nice"; "nohup"; "timeout"; "dumb-init"; "tini"].

Definition wrapper_option_arguments (wrapper : rstr) : list rstr :=
  if wrapper == ("sudo" : rstr) then lit <$> ["-u"; "--user"]
  else if wrapper == ("timeout" : rstr) then lit <$> ["-s"; "--signal"; "-k"; "--kill-after"]
  else if wrapper == ("env" : rstr) then lit <$> ["-u"; "--unset"; "-C"; "--chdir"]
  else [].

Definition is_duration_like (token : rstr) : bool :=
  let bytes := utf8_bytes token in
  let digits := length (span is_ascii_digit bytes).1 in
  (0 <? digits)%nat
  && ((digits =? length bytes)%nat
      || ((digits + 1 =? length bytes)%nat && one_of (nth digits bytes 0%N) [115; 109; 104; 100]%N)).

Fixpoint effective_executable_loop (skip : nat) (wrapper : option rstr) (tokens : list rstr) : option rstr :=
  match tokens with
  | [] => None
  | token :: tokens =>
      match skip with
      | S skip => effective_executable_loop skip wrapper tokens
      | 0 =>
          if starts_with token "[" then Some token
          else if one_of (basename token) wrappers then effective_executable_loop 0 (Some (basename token)) tokens
          else if starts_with token "-" then
            let skip :=
              match wrapper with
              | Some active => if one_of token (wrapper_option_arguments active) then 1%nat else 0%nat
              | None => 0%nat
              end in
            effective_executable_loop skip wrapper tokens
          else if contains token "=" || is_duration_like token then effective_executable_loop 0 wrapper tokens
          else Some (basename token)
      end
  end.

Definition effective_executable (args : rstr) : option rstr :=
  effective_executable_loop 0 None (split_whitespace args).

Definition python_frameworks : list rstr := lit <$> ["uvicorn"; "gunicorn"; "celery"; "flower"; "daphne"].

Definition is_python_owned (executable : rstr) : bool :=
  let executable := trim_end_colons executable in
  one_of executable python_frameworks || contains executable "python"
  || one_of executable (lit <$> ["pypy"; "pypy2"; "pypy3"]) || starts_with executable "pypy3.".

Definition is_python_process (args : rstr) : bool := is_some_and (effective_executable args) is_python_owned.

Definition process_comm (args : rstr) : option rstr :=
  match effective_executable args with
  | None => None
  | Some executable => Some (if starts_with executable "[" then executable else trim_end_colons executable)
  end.

Definition is_native_process (args : rstr) : bool :=
  match effective_executable args with
  | None => false
  | Some comm =>
      negb (starts_with comm "[") && negb (is_python_owned comm) && (comm != ("dockermap-daemon" : rstr))
      && (comm != ("ps" : rstr)) && negb (starts_with comm "containerd-shim")
  end.

(** ** The entry of a Python application *)

Definition contains_control_character (value : rstr) : bool := existsb is_control value.

Definition unless_control (checked value : rstr) : option rstr :=
  if negb (contains_control_character checked) then Some value else None.

(** The loop of [python_entry] over the fields that are left. *)
Fixpoint python_entry_loop (fields : list rstr) : option rstr :=
  match fields with
  | [] => None
  | field :: rest =>
      if field == ("-m" : rstr) then
        match rest with module :: _ => unless_control module ("module:" +s+ module) | [] => None end
      else if field == ("-c" : rstr) then Some ("inline:-c" : rstr)
      else if ends_with field ".py" then unless_control field field
      else
        let trimmed := trim_end_colons (basename field) in
        if one_of trimmed python_frameworks then Some trimmed
        else if contains field ":" && negb (starts_with field "--") then unless_control field trimmed
        else python_entry_loop rest
  end.

Definition python_entry (args : rstr) : option rstr :=
  match split_whitespace args with
  | [] => None
  | field :: rest => python_entry_loop (if contains field "python" then rest else field :: rest)
  end.

(** ** Kernel command names *)

Definition safe_kernel_comm (comm : rstr) : option rstr :=
  let comm := trim comm in
  if negb (comm == []) && negb (contains_control_character comm) then Some (take 16 comm) else None.

(** ** The views *)

Section views.
Context `{HostView}.

Definition real_comm (pid : N) (fallback : rstr) : rstr :=
  let ps_comm := default ("unknown" : rstr) (safe_kernel_comm fallback) in
  match hv_read ("/proc/" +s+ dec_str pid +s+ "/comm") with
  | Some comm => default ps_comm (safe_kernel_comm comm)
  | None => ps_comm
  end.

(** [is_container_owned] reads [/proc/<pid>/cgroup]. *)
Definition pid_is_container_owned (pid : N) : bool :=
  is_container_owned (λ pid, hv_read ("/proc/" +s+ dec_str pid +s+ "/cgroup")) pid.

Definition python_node (record : ProcessRecord) : RuntimeMapNode :=
  let entry := default ("python" : rstr) (redact_sensitive_text <$> python_entry (pr_args record)) in
  plain_node ("python_process_" +s+ dec_str (pr_pid record)) RP_Python RN_PythonApplication entry
    (Some ("running" : rstr)) L_Process
    (<[("serviceEntityKind" : rstr) := service_entity_kind_name SE_PythonApplication]>
      (<[("entry" : rstr) := entry]> (<[("user" : rstr) := pr_user record]>
        (<[("pid" : rstr) := dec_str (pr_pid record)]> ∅)))).

Definition python_nodes_from_ps_output_with_container_filter (value : rstr) (container_owned : N → bool)
    : list RuntimeMapNode * bool :=
  let filtered :=
    filterb (λ record, is_python_process (pr_args record) && negb (container_owned (pr_pid record)))
      (parse_ps_table value) in
  (python_node <$> take MAX_PYTHON_PROCESSES filtered, (MAX_PYTHON_PROCESSES <? length filtered)%nat).

Definition python_nodes_from_ps_output (value : rstr) : list RuntimeMapNode * bool :=
  python_nodes_from_ps_output_with_container_filter value pid_is_container_owned.

Definition native_node (record : ProcessRecord) : RuntimeMapNode :=
  let ps_comm :=
    default ("unknown" : rstr)
      (match process_comm (pr_comm record) with Some comm => safe_kernel_comm comm | None => None end) in
  let comm := real_comm (pr_pid record) ps_comm in
  plain_node ("native_process_" +s+ dec_str (pr_pid record)) RP_Process RN_Process comm
    (Some ("running" : rstr)) L_Process
    (<[("comm" : rstr) := comm]> (<[("user" : rstr) := pr_user record]>
      (<[("pid" : rstr) := dec_str (pr_pid record)]> ∅))).

Definition native_process_nodes_from_ps_output (value : rstr) (self_pid : N) : list RuntimeMapNode * bool :=
  let filtered :=
    filterb (λ record, is_native_process (pr_args record) && negb (pid_is_container_owned (pr_pid record))
                       && (pr_pid record != self_pid)) (parse_ps_table value) in
  (native_node <$> take MAX_NATIVE_PROCESSES filtered, (MAX_NATIVE_PROCESSES <? length filtered)%nat).

(** ** Collection *)

Definition push_output_truncation (c : ProviderCollection) (provider : RuntimeProviderKind) : ProviderCollection :=
  push_provider_diagnostic c provider Sev_Info
    ("Provider output exceeded " +s+ dec_str MAX_PROVIDER_OUTPUT_BYTES +s+ " bytes; truncated").

Definition collect_python_processes_from_output (stdout : list N) (output_truncated : bool)
    (c : ProviderCollection) : ProviderCollection :=
  let c := if output_truncated then push_output_truncation c RP_Python else c in
  let '(found, capped) :=
    python_nodes_from_ps_output (from_utf8_lossy (complete_provider_lines stdout output_truncated)) in
  let c := if capped then
             push_provider_diagnostic c RP_Python Sev_Info
               ("Python process discovery capped at " +s+ dec_str (N.of_nat MAX_PYTHON_PROCESSES) +s+ " processes")
           else c in
  extend_nodes c found.

Definition collect_native_processes_from_output (self_pid : N) (stdout : list N) (output_truncated : bool)
    (c : ProviderCollection) : ProviderCollection :=
  let c := if output_truncated then push_output_truncation c RP_Process else c in
  let '(found, capped) :=
    native_process_nodes_from_ps_output (from_utf8_lossy (complete_provider_lines stdout output_truncated)) self_pid in
  let c := if capped then
             push_provider_diagnostic c RP_Process Sev_Info
               ("Native process discovery capped at " +s+ dec_str (N.of_nat MAX_NATIVE_PROCESSES) +s+ " processes")
           else c in
  extend_nodes c found.

Definition process_discovery_command : list rstr := lit <$> ["ps"; "-eo"; "pid=,user:32=,comm=,args="].

Definition collect_with_command (command : list rstr) (restricted : bool) (provider : RuntimeProviderKind)
    (name : rstr) (collect : list N → bool → ProviderCollection → ProviderCollection) (c : ProviderCollection)
    : ProviderCollection :=
  if restricted then
    push_provider_diagnostic c provider Sev_Info
      (name +s+ " process discovery omitted because the daemon runs in a restricted PID namespace; only the container's own processes would be visible")
  else match hv_run command with
       | inr error =>
           let message :=
             if is_spawn error then name +s+ " process discovery command unavailable"
             else name +s+ " process discovery skipped: " +s+ provider_command_error_text error in
           push_provider_diagnostic c provider Sev_Warning message
       | inl output =>
           if negb (es_success (po_status output)) then
             push_provider_diagnostic c provider Sev_Warning (name +s+ " process discovery command failed")
           else collect (po_stdout output) (po_stdout_truncated output) c
       end.

Definition collect_python_processes (restricted : bool) (c : ProviderCollection) : ProviderCollection :=
  collect_with_command process_discovery_command restricted RP_Python "Python"
    collect_python_processes_from_output c.

Definition collect_native_processes_with_scope (self_pid : N) (restricted : bool) (c : ProviderCollection)
    : ProviderCollection :=
  collect_with_command process_discovery_command restricted RP_Process "Native"
    (collect_native_processes_from_output self_pid) c.
End views.


(** ** Theorems: the table *)

(** A line of the table: a pid, a user and a command name without whitespace, then the
    arguments, with gaps between and around them. *)
Definition ps_line (line : rstr) (r : ProcessRecord) : Prop :=
  ∃ g0 pid g1 g2 g3 t,
    line = g0 ++ pid ++ g1 ++ pr_user r ++ g2 ++ pr_comm r ++ g3 ++ pr_args r ++ t ∧
    gap g0 ∧ gap g1 ∧ gap g2 ∧ gap g3 ∧ gap t ∧ g1 ≠ [] ∧ g2 ≠ [] ∧ g3 ≠ [] ∧
    word pid ∧ word (pr_user r) ∧ word (pr_comm r) ∧ bounded (pr_args r) ∧
    parse_uint u32_max pid = Some (pr_pid r).

Lemma ps_line_parsed line r : ps_line line r → parse_ps_line line = Some r.
Proof.
  intros (g0 & pid & g1 & g2 & g3 & t & -> & Hg0 & Hg1 & Hg2 & Hg3 & Ht & Hn1 & Hn2 & Hn3 & Hp & Hu & Hc & Ha & Hpid).
  set (text := pid ++ g1 ++ pr_user r ++ g2 ++ pr_comm r ++ g3 ++ pr_args r).
  assert (Htext : bounded text).
  { unfold text. apply bounded_app; [by apply word_bounded|]. apply bounded_app; [by apply word_bounded|].
    apply bounded_app; [by apply word_bounded|done]. }
  unfold parse_ps_line.
  assert (trim (g0 ++ pid ++ g1 ++ pr_user r ++ g2 ++ pr_comm r ++ g3 ++ pr_args r ++ t) = text) as ->.
  { rewrite <- (trim_bounded g0 text t) by done. f_equal. unfold text. by rewrite <- !app_assoc. }
  rewrite bool_decide_eq_false_2 by (by apply bounded_ne).
  assert (split_whitespace text = pid :: pr_user r :: pr_comm r :: split_whitespace (g3 ++ pr_args r)) as ->.
  { unfold text. rewrite (split_first_word pid) by (try done; by apply gap_gap_start).
    rewrite (split_word g1 (pr_user r)) by (try done; by apply gap_gap_start).
    by rewrite (split_word g2 (pr_comm r)) by (try done; by apply gap_gap_start). }
  assert (Hw : split_whitespace (g3 ++ pr_args r) ≠ []).
  { unfold split_whitespace. rewrite split_go_gap by done. by apply bounded_words. }
  destruct (split_whitespace (g3 ++ pr_args r)) as [|w ws]; [done|]. cbn [length nth take Nat.ltb Nat.leb]. rewrite Hpid.
  cbn [skip_tokens]. unfold text. rewrite (after_first_start pid) by done.
  rewrite (after_first_word g1 (pr_user r)), (after_first_word g2 (pr_comm r)) by done.
  rewrite bool_decide_eq_false_2 by (intros [? _]%app_eq_nil; done).
  assert (trim (g3 ++ pr_args r) = pr_args r) as ->.
  { rewrite <- (trim_bounded g3 (pr_args r) []) at 2 by (done || constructor). by rewrite app_nil_r. }
  rewrite bool_decide_eq_false_2 by (by apply bounded_ne). by destruct r.
Qed.

Lemma parsed_ps_line line r : parse_ps_line line = Some r → ps_line line r.
Proof.
  unfold parse_ps_line. destruct (trim_split line) as (g & t & Eline & Hg & Ht & Htrim).
  destruct (decide (trim line = [])) as [Hn|Hn]; [by rewrite bool_decide_eq_true_2|].
  rewrite bool_decide_eq_false_2 by done. destruct Htrim as [|Hb]; [done|]. set (text := trim line) in *.
  destruct (length (split_whitespace text) <? 4)%nat eqn:Elen; [done|]. apply Nat.ltb_ge in Elen.
  destruct (split_view text) as [[_ E0]|(a0 & w0 & r0 & Et & Ha0 & Hw0 & Hr0 & E0)]; rewrite E0 in *; [cbn in Elen; lia|].
  destruct (split_view r0) as [[_ E1]|(a1 & w1 & r1 & -> & Ha1 & Hw1 & Hr1 & E1)]; rewrite E1 in *; [cbn in Elen; lia|].
  destruct (split_view r1) as [[_ E2]|(a2 & w2 & r2 & -> & Ha2 & Hw2 & Hr2 & E2)]; rewrite E2 in *; [cbn in Elen; lia|].
  assert (a0 = []) as -> by (eapply bounded_start; [done|]; by rewrite <- Et).
  cbn [nth]. destruct (parse_uint u32_max w0) as [pid|] eqn:Epid; [|done]. cbn [take skip_tokens].
  rewrite Et. cbn [app]. rewrite (after_first_start w0), (after_first_word a1 w1), (after_first_word a2 w2) by done.
  change (skip_tokens (take 0 (split_whitespace r2)) r2) with (Some r2). cbv iota beta zeta.
  case_bool_decide as Er2; [done|]. case_bool_decide as Eargs; [done|]. intros [= <-].
  destruct (trim_split r2) as (a3 & t2 & Er & Ha3 & Ht2 & [|Hargs]); [done|].
  exists g, w0, a1, a2, a3, (t2 ++ t). cbn [pr_user pr_comm pr_args pr_pid]. split_and!; try done.
  - rewrite Eline, Et. rewrite Er at 1. by rewrite <- !app_assoc.
  - by apply Forall_app.
  - eapply gap_start_gap; [exact Hr0|by apply word_bounded].
  - eapply gap_start_gap; [exact Hr1|by apply word_bounded].
  - rewrite Er in Hr2. by eapply gap_start_gap.
Qed.

(** [parse_ps_table] reads exactly the lines of that form. *)
Lemma parse_ps_table_spec value r : r ∈ parse_ps_table value ↔ ∃ line, line ∈ lines value ∧ ps_line line r.
Proof.
  unfold parse_ps_table. rewrite list_elem_of_omap. split; intros (line & Hl & H); exists line; split; try done;
    [by apply parsed_ps_line|by apply ps_line_parsed].
Qed.

(** Output that was cut is used up to its last complete line. *)
Lemma through_last_newline_spec output kept : through_last_newline output = Some kept →
  ∃ rest, output = kept ++ rest ∧ last kept = Some 10%N ∧ 10%N ∉ rest.
Proof.
  revert kept. induction output as [|b output IH]; intros kept; cbn; [done|].
  destruct (through_last_newline output) as [k|] eqn:E.
  - intros [= <-]. destruct (IH k eq_refl) as (rest & -> & Hl & Hr). exists rest. split_and!; [done| |done].
    by destruct k.
  - destruct (N.eqb_spec b 10) as [->|]; [|done]. intros [= <-]. exists output. split_and!; [done|done|].
    clear IH. revert E. induction output as [|d output IH]; cbn; [set_solver|].
    destruct (through_last_newline output); [done|]. destruct (N.eqb_spec d 10); [done|]. set_solver.
Qed.

(** ** Theorems: the views *)

Lemma owned_executables executable : is_python_owned executable = true → ∀ args,
  effective_executable args = Some executable → is_native_process args = false.
Proof.
  intros Hp args E. unfold is_native_process. rewrite E, Hp. by destruct (starts_with executable "[").
Qed.

Lemma python_not_native args : is_python_process args = true → is_native_process args = false.
Proof.
  unfold is_python_process, is_some_and. destruct (effective_executable args) as [executable|] eqn:E; [|done].
  intros Hp. by eapply owned_executables.
Qed.

Section view_theorems.
Context `{HostView}.

Definition in_python_view (r : ProcessRecord) : bool :=
  is_python_process (pr_args r) && negb (pid_is_container_owned (pr_pid r)).

Definition in_native_view (self_pid : N) (r : ProcessRecord) : bool :=
  is_native_process (pr_args r) && negb (pid_is_container_owned (pr_pid r)) && (pr_pid r != self_pid).

Lemma capped_view {A B} (node : A → B) (keep : A → bool) n l :
  let kept := filterb keep l in
  length (node <$> take n kept) ≤ n ∧
  (∀ b, b ∈ node <$> take n kept → ∃ a, a ∈ l ∧ keep a = true ∧ b = node a) ∧
  ((n <? length kept)%nat = false → ∀ a, a ∈ l → keep a = true → node a ∈ node <$> take n kept).
Proof.
  intros kept. split_and!.
  - rewrite length_fmap, length_take. lia.
  - intros b (a & -> & Ha)%list_elem_of_fmap. apply elem_of_take in Ha as (i & Ha & _).
    apply list_elem_of_lookup_2, elem_of_filterb in Ha as [? ?]. eauto.
  - intros Hn%Nat.ltb_ge a Ha Hk. apply list_elem_of_fmap_2. rewrite take_ge by done. by apply elem_of_filterb.
Qed.

Lemma NoDup_coarser {A B C} (f : A → B) (g : A → C) l :
  (∀ a b, g a = g b → f a = f b) → NoDup (f <$> l) → NoDup (g <$> l).
Proof.
  intros Hfg. induction l as [|a l IH]; cbn; [constructor|]. intros [Ha Hl]%NoDup_cons. constructor; [|by apply IH].
  intros (b & E & Hb)%list_elem_of_fmap. apply Ha. rewrite (Hfg _ _ E). by apply list_elem_of_fmap_2.
Qed.

(** The identities of a view are distinct when those of the table are. *)
Lemma view_ids_NoDup (node : ProcessRecord → RuntimeMapNode) keep n l :
  (∀ a b, rn_id (node a) = rn_id (node b) → pr_pid a = pr_pid b) → NoDup (pr_pid <$> l) →
  NoDup (rn_id <$> (node <$> take n (filterb keep l))).
Proof.
  intros Hid Hl. rewrite <- list_fmap_compose. apply (NoDup_coarser pr_pid); [exact Hid|].
  eapply sublist_NoDup; [exact Hl|]. apply fmap_sublist.
  etrans; [apply sublist_take|apply filterb_sublist].
Qed.

Lemma python_node_pid r r' : rn_id (python_node r) = rn_id (python_node r') → pr_pid r = pr_pid r'.
Proof. unfold python_node, plain_node. cbn [rn_id]. intros E%app_inv_head. by apply dec_str_inj. Qed.

Lemma native_node_pid r r' : rn_id (native_node r) = rn_id (native_node r') → pr_pid r = pr_pid r'.
Proof. unfold native_node, plain_node. cbn [rn_id]. intros E%app_inv_head. by apply dec_str_inj. Qed.

(** C31: The two process views come from the well-formed lines of one table: each node is a
    record that belongs to its view and to no container; without the cap every such record has
    its node; the caps hold. When the pids of the table are distinct, no process is in both
    views and no view names one twice. The arguments of a process never reach its native node. *)
Theorem process_views_spec value self_pid :
  let records := parse_ps_table value in
  let python := python_nodes_from_ps_output value in
  let native := native_process_nodes_from_ps_output value self_pid in
  (∀ r, r ∈ records ↔ ∃ line, line ∈ lines value ∧ ps_line line r) ∧
  length python.1 ≤ MAX_PYTHON_PROCESSES ∧ length native.1 ≤ MAX_NATIVE_PROCESSES ∧
  (∀ n, n ∈ python.1 → ∃ r, r ∈ records ∧ in_python_view r = true ∧ n = python_node r) ∧
  (∀ n, n ∈ native.1 → ∃ r, r ∈ records ∧ in_native_view self_pid r = true ∧ n = native_node r) ∧
  (python.2 = false → ∀ r, r ∈ records → in_python_view r = true → python_node r ∈ python.1) ∧
  (native.2 = false → ∀ r, r ∈ records → in_native_view self_pid r = true → native_node r ∈ native.1) ∧
  (NoDup (pr_pid <$> records) → NoDup (rn_id <$> python.1) ∧ NoDup (rn_id <$> native.1) ∧
     ∀ r r', python_node r ∈ python.1 → native_node r' ∈ native.1 → pr_pid r ≠ pr_pid r') ∧
  (∀ r args, native_node r = native_node {| pr_pid := pr_pid r; pr_user := pr_user r; pr_comm := pr_comm r;
                                            pr_args := args |}).
Proof.
  intros records python native.
  destruct (capped_view python_node in_python_view MAX_PYTHON_PROCESSES records) as (Hpl & Hpn & Hpc).
  destruct (capped_view native_node (in_native_view self_pid) MAX_NATIVE_PROCESSES records) as (Hnl & Hnn & Hnc).
  split_and!; try done; [apply parse_ps_table_spec|]. intros Hnd. split_and!.
  - apply (view_ids_NoDup python_node in_python_view MAX_PYTHON_PROCESSES); [apply python_node_pid|done].
  - apply (view_ids_NoDup native_node (in_native_view self_pid) MAX_NATIVE_PROCESSES); [apply native_node_pid|done].
  - intros r r' Hr Hr' E. destruct (Hpn _ Hr) as (a & Ha & Hka & Ea). destruct (Hnn _ Hr') as (b & Hb & Hkb & Eb).
    assert (pr_pid a = pr_pid b) as Eab.
    { rewrite <- (python_node_pid r a), <- (native_node_pid r' b); [done|by rewrite <- Eb|by rewrite <- Ea]. }
    assert (a = b) as ->.
    { apply list_elem_of_lookup in Ha as [i Hi], Hb as [j Hj].
      assert (i = j) as ->.
      { eapply (NoDup_lookup (pr_pid <$> records)); [done|by rewrite list_lookup_fmap, Hi|].
        by rewrite list_lookup_fmap, Hj, Eab. }
      congruence. }
    unfold in_python_view in Hka. unfold in_native_view in Hkb. apply andb_prop in Hka as [Hka _].
    apply python_not_native in Hka. by rewrite Hka in Hkb.
Qed.
End view_theorems.

(** ** What a space in a command name does

    The kernel allows any byte in a command name, and [ps] prints it as it is. A line whose
    command name has a space is still a line of the table, with the rest of the name taken for
    the arguments: a name such as [x \[y] hides its process from both views. *)

Definition spaced_name_line : rstr := "42 root x [y /usr/bin/evil --serve".

Example spaced_name_read :
  parse_ps_line spaced_name_line =
  Some {| pr_pid := 42; pr_user := "root"; pr_comm := "x"; pr_args := "[y /usr/bin/evil --serve" |}.
Proof. vm_compute. reflexivity. Qed.

Lemma spaced_name_hidden :
  (∀ r, parse_ps_line spaced_name_line = Some r →
     is_native_process (pr_args r) = false ∧ is_python_process (pr_args r) = false) ∧
  is_native_process "/usr/bin/evil --serve" = true.
Proof.
  split; [|vm_compute; reflexivity]. rewrite spaced_name_read. intros r [= <-]. split; vm_compute; reflexivity.
Qed.

Example shared_ownership :
  ((λ args, (is_python_process args, is_native_process args)) <$> (lit <$>
    ["pypy3 /srv/x.py"; "/usr/bin/pypy3.10 /srv/x.py"; "gunicorn: master [app]"; "env python3 -m celery -A tasks";
     "/opt/pypy3-tool --serve"; "sudo -u app timeout 5m node server.js"])) =
  [(true, false); (true, false); (true, false); (true, false); (false, true); (false, true)].
Proof. vm_compute. reflexivity. Qed.
