(* ===== verification/HostFiles.v ===== *)
(** * Files as the providers read them, and the order of paths
      ([std::fs] and [std::path::PathBuf] as [providers/cron.rs] and [providers/npm.rs] use them)

    An open file is its metadata and what reading it to its end yields; [read_limited] is
    [File::take] with [read_to_string]. Paths are ordered by their components. *)

From S2P Require Import Prelude RustStr RustNum Order Utf8 Paths.

(** A descriptor: the metadata (is it a regular file, and how long), and its content, each with
    the text of its error. *)
Record OpenFile := {
  of_metadata : (bool * N) + rstr;
  of_content : list N + rstr
}.

Definition INVALID_UTF8 : rstr := "stream did not contain valid UTF-8".

(** [file.take(limit + 1).read_to_string(&mut content)]. *)
Definition read_limited (limit : N) (file : OpenFile) : rstr + rstr :=
  match of_content file with
  | inr error => inr error
  | inl bytes =>
      match from_utf8 (take (N.to_nat (saturating_add u64_max limit 1)) bytes) with
      | Utf8_ok text => inl text
      | Utf8_error _ _ => inr INVALID_UTF8
      end
  end.

(** ** The order of paths *)

(** [Component] derives its order: the root, [.], [..], then names by their bytes. *)
Definition component_key (c : Component) : rstr * rstr :=
  match c with
  | RootDir => ([0%N], [])
  | CurDir => ([1%N], [])
  | ParentDir => ([2%N], [])
  | Normal name => ([3%N], name)
  end.

Definition component_cmp (a b : Component) : comparison :=
  pair_cmp str_cmp str_cmp (component_key a) (component_key b).

Definition path_cmp (a b : rstr) : comparison := list_cmp component_cmp (components a) (components b).

Definition path_leb (a b : rstr) : bool := match path_cmp a b with Gt => false | _ => true end.

Definition same_path (a b : rstr) : bool := match path_cmp a b with Eq => true | _ => false end.

Definition path_set_insert (set : list rstr) (path : rstr) : list rstr :=
  if existsb (same_path path) set then set else set ++ [path].

(** [BTreeSet<PathBuf>], iterated in its order. *)
Definition path_set (paths : list rstr) : list rstr := sort_by path_leb (foldl path_set_insert [] paths).

#[export] Instance component_key_inj : Inj (=) (=) component_key.
Proof. by intros [] [] [=]; subst. Qed.

#[export] Instance component_cmp_total : TotalCmp component_cmp.
Proof. apply (keyed_total component_key (pair_cmp str_cmp str_cmp)); apply _. Qed.

Lemma path_cmp_eq a b : path_cmp a b = Eq ↔ components a = components b.
Proof. unfold path_cmp. apply cmp_eq. Qed.

Lemma path_leb_total a b : path_leb a b = true ∨ path_leb b a = true.
Proof. apply (leb_of_total (list_cmp component_cmp)). Qed.

Lemma path_leb_trans a b c : path_leb a b = true → path_leb b c = true → path_leb a c = true.
Proof. apply (leb_of_trans (list_cmp component_cmp)). Qed.

Lemma path_leb_antisym a b : path_leb a b = true → path_leb b a = true → components a = components b.
Proof. apply (leb_of_antisym (list_cmp component_cmp)). Qed.

(** Different texts are different paths. *)
Definition distinct_paths (paths : list rstr) : Prop :=
  NoDup paths ∧ ∀ a b, a ∈ paths → b ∈ paths → components a = components b → a = b.

Lemma foldl_path_set set paths : distinct_paths (set ++ paths) → foldl path_set_insert set paths = set ++ paths.
Proof.
  revert set. induction paths as [|p paths IH]; intros set [Hnd Heq]; [by rewrite app_nil_r|]. cbn [foldl].
  assert (path_set_insert set p = set ++ [p]) as ->.
  { unfold path_set_insert. destruct (existsb (same_path p) set) eqn:E; [|done]. exfalso.
    apply existsb_exists in E as (q & Hq%list_elem_of_In & E). unfold same_path in E.
    destruct (path_cmp p q) eqn:Ec; try done. apply path_cmp_eq in Ec.
    assert (p = q) as -> by (apply Heq; set_solver).
    apply NoDup_app in Hnd as (_ & Hd & _). apply (Hd q Hq). by left. }
  rewrite IH; [by rewrite <- app_assoc|]. by rewrite <- app_assoc.
Qed.

Lemma distinct_paths_Permutation l l' : l ≡ₚ l' → distinct_paths l → distinct_paths l'.
Proof. intros Hp [Hnd Heq]. split; [by rewrite <- Hp|]. intros a b. rewrite <- !Hp. apply Heq. Qed.

(** The set of a directory's entries does not depend on the order in which they are listed. *)
Lemma path_set_canonical l l' : distinct_paths l → l ≡ₚ l' → path_set l = path_set l'.
Proof.
  intros Hl Hp. unfold path_set. rewrite (foldl_path_set [] l), (foldl_path_set [] l'); cbn [app];
    [|by eapply distinct_paths_Permutation|done].
  eapply StronglySorted_unique_strong;
    [|apply sort_by_sorted; eauto using path_leb_total, path_leb_trans..|by rewrite !sort_by_Permutation].
  intros a b. rewrite !elem_of_sort_by, <- Hp. intros Ha Hb H1 H2. apply Hl; [done..|]. by apply path_leb_antisym.
Qed.
