(* ===== verification/Cron.v ===== *)
(** * Scheduled jobs ([crates/dockermap-daemon/src/providers/cron.rs])

    The jobs of [/etc/crontab], [/etc/cron.d] and the user's crontab. The directory and the
    files answer through [CronFiles], the command through [HostView]. *)

From S2P Require Import Prelude RustStr RustNum Models Serial Identity Redaction Publication RuntimeTopology Scheduler Utf8 Boundary Paths Order HostFiles Providers Words.

Definition MAX_CRON_D_ENTRIES : nat := 64.
Definition MAX_CRON_FILE_BYTES : N := (64 * 1024)%N.

(** What the host answers about cron files: the entries of a directory in the order of its
    iteration ([None] is an entry that cannot be read), whether [symlink_metadata] says a
    regular file, and opening without following links or blocking. *)
Class CronFiles := {
  cron_read_dir : rstr → option (list (option rstr));
  cron_is_regular : rstr → bool;
  cron_open : rstr → option OpenFile
}.

(** ** Lines *)

Definition cron_command (line : rstr) (user_crontab : bool) : option rstr :=
  let trimmed := trim line in
  if (trimmed == []) || starts_with trimmed "#" then None
  else
    let fields := split_whitespace trimmed in
    if starts_with trimmed "@" then
      let command_start := if user_crontab then 1%nat else 2%nat in
      if (length fields <=? command_start)%nat then None
      else match skip_tokens (take command_start fields) trimmed with
           | None => None
           | Some rest => let command := trim rest in if command == [] then None else Some command
           end
    else
      let command_start := if user_crontab then 5%nat else 6%nat in
      if (length fields <=? command_start)%nat then None else Some (join [32%N] (drop command_start fields)).

(** [lines().enumerate()]: the commands of a text, with the source and the line number of each. *)
Definition cron_jobs (source : rstr) (user_crontab : bool) (content : rstr) : list (rstr * N * rstr) :=
  concat (imap (λ index line,
    match cron_command line user_crontab with
    | Some command => [(source, N.of_nat (index + 1), command)]
    | None => []
    end) (lines content)).

(** ** Files *)

(** The jobs read so far and the collection with its diagnostics. *)
Definition Jobs : Type := list (rstr * N * rstr).

Definition cron_diagnostic (c : ProviderCollection) (message : rstr) : ProviderCollection :=
  push_provider_diagnostic c RP_ScheduledJob Sev_Info message.

Definition too_large_message : rstr := "cron file skipped because it exceeds " +s+ dec_str MAX_CRON_FILE_BYTES +s+ " bytes".

Definition checked_open_cron_file (file : OpenFile) (c : ProviderCollection) : option OpenFile * ProviderCollection :=
  match of_metadata file with
  | inr _ => (None, c)
  | inl (is_file, len) =>
      if negb is_file then (None, c)
      else if (MAX_CRON_FILE_BYTES <? len)%N then (None, cron_diagnostic c too_large_message)
      else (Some file, c)
  end.

Definition read_checked_cron_file (file : OpenFile) (path : rstr) (jobs : Jobs) (c : ProviderCollection)
    : Jobs * ProviderCollection :=
  match read_limited MAX_CRON_FILE_BYTES file with
  | inr _ => (jobs, c)
  | inl content =>
      if (MAX_CRON_FILE_BYTES <? N.of_nat (str_len content))%N then (jobs, cron_diagnostic c too_large_message)
      else (jobs ++ cron_jobs path false content, c)
  end.

Definition read_open_cron_file (file : OpenFile) (path : rstr) (jobs : Jobs) (c : ProviderCollection)
    : Jobs * ProviderCollection :=
  match checked_open_cron_file file c with
  | (None, c) => (jobs, c)
  | (Some file, c) => read_checked_cron_file file path jobs c
  end.

Section cron.
Context `{Sha256} `{HostView} `{CronFiles}.

Definition read_cron_file_after_precheck (path : rstr) (jobs : Jobs) (c : ProviderCollection)
    : Jobs * ProviderCollection :=
  match cron_open path with
  | None => (jobs, c)
  | Some file => read_open_cron_file file path jobs c
  end.

Definition read_cron_file (path : rstr) (jobs : Jobs) (c : ProviderCollection) : Jobs * ProviderCollection :=
  if negb (cron_is_regular path) then (jobs, c) else read_cron_file_after_precheck path jobs c.

(** The loop of [bounded_cron_d_paths]: [None] when there is an entry beyond the cap. *)
Fixpoint select_cron_d_paths (index : nat) (entries : list (option rstr)) : option (list rstr) :=
  match entries with
  | [] => Some []
  | entry :: entries =>
      if (index =? MAX_CRON_D_ENTRIES)%nat then None
      else
        rest ← select_cron_d_paths (S index) entries;
        Some (match entry with
              | Some path => if cron_is_regular path then path :: rest else rest
              | None => rest
              end)
  end.

(** The paths and whether the directory was over the cap. *)
Definition bounded_cron_d_paths (entries : list (option rstr)) : list rstr * bool :=
  match select_cron_d_paths 0 entries with
  | Some selected => (path_set selected, false)
  | None => ([], true)
  end.

Fixpoint read_cron_files (paths : list rstr) (jobs : Jobs) (c : ProviderCollection) : Jobs * ProviderCollection :=
  match paths with
  | [] => (jobs, c)
  | path :: paths => let '(jobs, c) := read_cron_file path jobs c in read_cron_files paths jobs c
  end.

Definition collect_cron_d_files (directory : rstr) (jobs : Jobs) (c : ProviderCollection) : Jobs * ProviderCollection :=
  match cron_read_dir directory with
  | None => (jobs, cron_diagnostic c "cron.d discovery skipped because its fixed directory is unavailable")
  | Some entries =>
      let '(paths, was_capped) := bounded_cron_d_paths entries in
      let c := if was_capped then
                 cron_diagnostic c ("cron.d discovery capped at " +s+ dec_str (N.of_nat MAX_CRON_D_ENTRIES) +s+ " entries")
               else c in
      read_cron_files paths jobs c
  end.

Definition job_id (job : rstr * N * rstr) : rstr :=
  let '(source, line, command) := job in
  "scheduled_job_" +s+ safe_runtime_id_component source "source" +s+ "_"
  +s+ safe_runtime_id_component (dec_str line +s+ "_" +s+ redact_sensitive_text command) "command".

Definition job_node (job : rstr * N * rstr) : RuntimeMapNode :=
  let '(source, line, command) := job in
  let safe_command := redact_sensitive_text command in
  plain_node (job_id job) RP_ScheduledJob RN_ScheduledJob safe_command (Some ("scheduled" : rstr)) L_Process
    (<[("command" : rstr) := safe_command]> (<[("line" : rstr) := dec_str line]>
      (<[("source" : rstr) := source]> ∅))).

Definition job_edge (job : rstr * N * rstr) : RuntimeMapEdge := {|
  re_source := job_id job; re_target := "host_local"; re_relationship := RR_RunsOn;
  re_metadata := {[ CRON_EVIDENCE_SCHEDULE_MARKER := ("declared" : rstr) ]}; re_evidence_refs := [] |}.

Definition crontab_command : list rstr := lit <$> ["crontab"; "-l"].

Definition user_crontab_jobs (jobs : Jobs) (c : ProviderCollection) : Jobs * ProviderCollection :=
  match hv_run crontab_command with
  | inl output =>
      if es_success (po_status output) then
        (jobs ++ cron_jobs "user crontab" true (from_utf8_lossy (po_stdout output)), c)
      else (jobs, c)
  | inr error => (jobs, cron_diagnostic c ("user crontab discovery skipped: " +s+ provider_command_error_text error))
  end.

(** The jobs of the three sources, in their order. *)
Definition job_sources (c : ProviderCollection) : Jobs * ProviderCollection :=
  let '(jobs, c) := read_cron_file "/etc/crontab" [] c in
  let '(jobs, c) := collect_cron_d_files "/etc/cron.d" jobs c in
  user_crontab_jobs jobs c.

Fixpoint publish_jobs (jobs : Jobs) (c : ProviderCollection) : ProviderCollection :=
  match jobs with
  | [] => c
  | job :: jobs => publish_jobs jobs (extend_edges (extend_nodes c [job_node job]) [job_edge job])
  end.

Definition collect_scheduled_jobs (c : ProviderCollection) : ProviderCollection :=
  let '(jobs, c) := job_sources c in publish_jobs jobs c.
End cron.

(** ** Theorems: lines *)

(** The start of a macro line: the macro, and in a system crontab the user, with what precedes
    the command. *)
Definition macro_prefix (user_crontab : bool) (prefix : rstr) : Prop :=
  ∃ macro g, starts_with macro "@" = true ∧ word macro ∧ gap g ∧ g ≠ [] ∧
    (if user_crontab then prefix = macro ++ g
     else ∃ user g', word user ∧ gap g' ∧ g' ≠ [] ∧ prefix = macro ++ g ++ user ++ g').

Lemma macro_not_comment s r : starts_with s "@" = true → starts_with (s ++ r) "#" = false ∧ starts_with (s ++ r) "@" = true.
Proof. intros (t & ->)%starts_with_spec. done. Qed.

(** The command of a macro line of a crontab ([@daily] and the like) is the rest of the
    line after the macro, and after the user in a system crontab, verbatim with its inner
    whitespace. *)
Theorem cron_macro_verbatim user_crontab prefix command g t :
  macro_prefix user_crontab prefix → gap g → gap t → bounded command →
  cron_command (g ++ prefix ++ command ++ t) user_crontab = Some command.
Proof.
  intros (macro & g1 & Hat & Hm & Hg1 & Hn1 & Hprefix) Hg Ht Hc.
  assert (Htext : trim (g ++ (prefix ++ command) ++ t) = prefix ++ command ∧ bounded (prefix ++ command)).
  { assert (Hb : bounded (prefix ++ command)).
    { destruct user_crontab.
      - subst prefix. rewrite <- app_assoc. apply bounded_app; [by apply word_bounded|done].
      - destruct Hprefix as (user & g2 & Hu & Hg2 & Hn2 & ->). rewrite <- !app_assoc.
        apply bounded_app; [by apply word_bounded|]. apply bounded_app; [by apply word_bounded|done]. }
    split; [by apply trim_bounded|done]. }
  destruct Htext as [Htrim Hb]. unfold cron_command.
  replace (g ++ prefix ++ command ++ t) with (g ++ (prefix ++ command) ++ t) by (by rewrite <- !app_assoc).
  rewrite Htrim, bool_decide_eq_false_2 by (by apply bounded_ne). cbn [orb].
  assert (Hcmd : split_whitespace command ≠ []) by (by apply bounded_words).
  assert (Hgap : ∀ g' : rstr, gap g' → split_whitespace (g' ++ command) = split_whitespace command).
  { intros g' Hg'. unfold split_whitespace. by rewrite split_go_gap. }
  assert (Hrest : ∀ g' : rstr, gap g' → trim (g' ++ command) = command).
  { intros g' Hg'. rewrite <- (trim_bounded g' command []) at 2 by (done || constructor). by rewrite app_nil_r. }
  destruct user_crontab.
  - subst prefix. rewrite <- app_assoc. destruct (macro_not_comment macro (g1 ++ command) Hat) as [-> ->].
    rewrite (split_first_word macro), Hgap by (try done; by apply gap_gap_start).
    destruct (split_whitespace command) as [|w ws] eqn:Ew; [done|]. cbn [length Nat.leb take skip_tokens].
    rewrite (after_first_start macro) by done. cbv zeta. rewrite Hrest by done.
    by rewrite bool_decide_eq_false_2 by (by apply bounded_ne).
  - destruct Hprefix as (user & g2 & Hu & Hg2 & Hn2 & ->). rewrite <- !app_assoc.
    destruct (macro_not_comment macro (g1 ++ user ++ g2 ++ command) Hat) as [-> ->].
    rewrite (split_first_word macro), (split_word g1 user), Hgap by (try done; by apply gap_gap_start).
    destruct (split_whitespace command) as [|w ws] eqn:Ew; [done|]. cbn [length Nat.leb take skip_tokens].
    rewrite (after_first_start macro), (after_first_word g1 user) by done. cbv zeta. rewrite Hrest by done.
    by rewrite bool_decide_eq_false_2 by (by apply bounded_ne).
Qed.

(** The other lines rebuild the command from its words: repeated spaces are lost, also inside
    quoted arguments. *)
Lemma schedule_spaces_collapse :
  cron_command "0 3 * * * backup --tag 'prod  sealed'" true = Some ("backup --tag 'prod sealed'" : rstr) ∧
  cron_command "@daily backup --tag 'prod  sealed'" true = Some ("backup --tag 'prod  sealed'" : rstr).
Proof. split; vm_compute; reflexivity. Qed.

Lemma cron_macro_verbatim_witness :
  cron_command "@reboot root /srv/bootstrap.sh  --env production " false =
  Some ("/srv/bootstrap.sh  --env production" : rstr).
Proof.
  apply (cron_macro_verbatim false ("@reboot root " : rstr) ("/srv/bootstrap.sh  --env production" : rstr) [] [32%N]).
  - exists ("@reboot" : rstr), [32%N]. split_and!; [reflexivity|split; [discriminate|decided]|decided|discriminate|].
    exists ("root" : rstr), [32%N]. split_and!; [split; [discriminate|decided]|decided|discriminate|reflexivity].
  - constructor.
  - decided.
  - split.
    + eexists _, _. split; [reflexivity|reflexivity].
    + exists ("/srv/bootstrap.sh  --env productio" : rstr), 110%N. split; reflexivity.
Defined.

(** ** Theorems: collection *)

Section cron_theorems.
Context `{Sha256} `{HostView} `{CronFiles}.

(** The text of a cron file that may be read: regular before and after opening, and within the
    limit by its metadata and by what was read. *)
Definition cron_text (path : rstr) : option rstr :=
  if negb (cron_is_regular path) then None
  else
    file ← cron_open path;
    match of_metadata file with
    | inr _ => None
    | inl (is_file, len) =>
        if negb is_file || (MAX_CRON_FILE_BYTES <? len)%N then None
        else match read_limited MAX_CRON_FILE_BYTES file with
             | inr _ => None
             | inl content => if (MAX_CRON_FILE_BYTES <? N.of_nat (str_len content))%N then None else Some content
             end
    end.

Definition file_jobs (path : rstr) : Jobs := from_option (cron_jobs path false) [] (cron_text path).

Definition crontab_jobs : Jobs :=
  match hv_run crontab_command with
  | inl output =>
      if es_success (po_status output) then cron_jobs "user crontab" true (from_utf8_lossy (po_stdout output)) else []
  | inr _ => []
  end.

(** The jobs of [/etc/cron.d], in the order of the paths, or none. *)
Definition cron_d_jobs : Jobs :=
  match cron_read_dir "/etc/cron.d" with
  | Some entries => (bounded_cron_d_paths entries).1 ≫= file_jobs
  | None => []
  end.

(** Only diagnostics are added. *)
Definition same_graph (c c' : ProviderCollection) : Prop :=
  pc_nodes c' = pc_nodes c ∧ pc_edges c' = pc_edges c ∧ pc_states c' = pc_states c.

#[local] Instance same_graph_preorder : PreOrder same_graph.
Proof. split; [done|]. intros a b d (? & ? & ?) (? & ? & ?). repeat split; congruence. Qed.

Lemma diagnostic_graph c message : same_graph c (cron_diagnostic c message).
Proof. done. Qed.

Lemma read_cron_file_spec path jobs c :
  ∃ c', read_cron_file path jobs c = (jobs ++ file_jobs path, c') ∧ same_graph c c'.
Proof.
  unfold read_cron_file, read_cron_file_after_precheck, read_open_cron_file, checked_open_cron_file,
    read_checked_cron_file, file_jobs, cron_text.
  destruct (cron_is_regular path); cbn [negb]; [|exists c; by rewrite app_nil_r].
  destruct (cron_open path) as [file|]; cbn [mbind option_bind]; [|exists c; by rewrite app_nil_r].
  destruct (of_metadata file) as [[[] len]|]; cbn [negb orb]; try (exists c; by rewrite app_nil_r).
  destruct (MAX_CRON_FILE_BYTES <? len)%N.
  { eexists. rewrite app_nil_r. split; [done|apply diagnostic_graph]. }
  destruct (read_limited MAX_CRON_FILE_BYTES file) as [content|]; [|exists c; by rewrite app_nil_r].
  destruct (MAX_CRON_FILE_BYTES <? N.of_nat (str_len content))%N; [|by exists c].
  eexists. rewrite app_nil_r. split; [done|apply diagnostic_graph].
Qed.

Lemma read_cron_files_spec paths jobs c :
  ∃ c', read_cron_files paths jobs c = (jobs ++ (paths ≫= file_jobs), c') ∧ same_graph c c'.
Proof.
  revert jobs c. induction paths as [|path paths IH]; intros jobs c; cbn [read_cron_files].
  - exists c. by rewrite app_nil_r.
  - destruct (read_cron_file_spec path jobs c) as (c1 & -> & G1).
    destruct (IH (jobs ++ file_jobs path) c1) as (c2 & -> & G2). exists c2. split; [|by etrans].
    by rewrite <- app_assoc.
Qed.

Lemma job_sources_spec c :
  ∃ c', job_sources c = (file_jobs "/etc/crontab" ++ cron_d_jobs ++ crontab_jobs, c') ∧ same_graph c c'.
Proof.
  unfold job_sources. destruct (read_cron_file_spec "/etc/crontab" [] c) as (c1 & -> & G1). cbn [app].
  assert (Hd : ∃ c2, collect_cron_d_files "/etc/cron.d" (file_jobs "/etc/crontab") c1
    = (file_jobs "/etc/crontab" ++ cron_d_jobs, c2) ∧ same_graph c1 c2).
  { unfold collect_cron_d_files, cron_d_jobs. destruct (cron_read_dir "/etc/cron.d") as [entries|].
    - destruct (bounded_cron_d_paths entries) as [paths capped]. cbn [fst].
      destruct (read_cron_files_spec paths (file_jobs "/etc/crontab")
        (if capped then cron_diagnostic c1 ("cron.d discovery capped at " +s+ dec_str (N.of_nat MAX_CRON_D_ENTRIES) +s+ " entries") else c1))
        as (c2 & -> & G2). exists c2. split; [done|]. etrans; [|exact G2]. by destruct capped.
    - eexists. rewrite app_nil_r. split; [done|apply diagnostic_graph]. }
  destruct Hd as (c2 & -> & G2). unfold user_crontab_jobs, crontab_jobs.
  destruct (hv_run crontab_command) as [output|error].
  - destruct (es_success (po_status output)); exists c2; split;
      rewrite ?app_nil_r, <- ?app_assoc; (done || by etrans).
  - eexists. rewrite app_nil_r. split; [done|]. do 2 (etrans; [eassumption|]). apply diagnostic_graph.
Qed.

Lemma publish_jobs_spec jobs c :
  pc_nodes (publish_jobs jobs c) = pc_nodes c ++ (job_node <$> jobs) ∧
  pc_edges (publish_jobs jobs c) = pc_edges c ++ (job_edge <$> jobs) ∧
  pc_diagnostics (publish_jobs jobs c) = pc_diagnostics c ∧ pc_states (publish_jobs jobs c) = pc_states c.
Proof.
  revert c. induction jobs as [|job jobs IH]; intros c; cbn [publish_jobs].
  - by rewrite !fmap_nil, !app_nil_r.
  - destruct (IH (extend_edges (extend_nodes c [job_node job]) [job_edge job])) as (-> & -> & -> & ->).
    cbn [pc_nodes pc_edges pc_diagnostics pc_states extend_nodes extend_edges]. by rewrite !fmap_cons, <- !app_assoc.
Qed.

Lemma select_cron_d_spec index entries : index ≤ MAX_CRON_D_ENTRIES →
  select_cron_d_paths index entries =
  if (index + length entries <=? MAX_CRON_D_ENTRIES)%nat then Some (filterb cron_is_regular (omap id entries)) else None.
Proof.
  revert index. induction entries as [|entry entries IH]; intros index Hi; cbn [select_cron_d_paths].
  - cbn [length]. by rewrite Nat.add_0_r, (proj2 (Nat.leb_le _ _)) by done.
  - destruct (Nat.eqb_spec index MAX_CRON_D_ENTRIES) as [->|Hne].
    + rewrite (proj2 (Nat.leb_gt _ _)); [done|]. cbn [length]. lia.
    + rewrite IH by lia. cbn [length]. rewrite Nat.add_succ_comm. destruct (_ <=? _)%nat; [|done].
      cbn [mbind option_bind]. f_equal. by destruct entry.
Qed.

Lemma cron_d_paths_spec entries :
  bounded_cron_d_paths entries =
  if (length entries <=? MAX_CRON_D_ENTRIES)%nat then (path_set (filterb cron_is_regular (omap id entries)), false)
  else ([], true).
Proof.
  unfold bounded_cron_d_paths. rewrite select_cron_d_spec by (unfold MAX_CRON_D_ENTRIES; lia).
  cbn [Nat.add]. by destruct (_ <=? _)%nat.
Qed.

Lemma path_set_order_irrelevant entries entries' : entries ≡ₚ entries' →
  distinct_paths (filterb cron_is_regular (omap id entries)) →
  bounded_cron_d_paths entries = bounded_cron_d_paths entries'.
Proof.
  intros Hp Hd. rewrite !cron_d_paths_spec, (Permutation_length Hp).
  destruct (_ <=? _)%nat; [|done]. f_equal. apply path_set_canonical; [done|]. by rewrite Hp.
Qed.

(** What the scheduled-job collection publishes: one node and one marked edge to the host
    for each job of the three fixed sources, in their order, and nothing else but diagnostics.
    A cron file counts only if it is regular before and after it is opened and within the byte
    limit by its metadata and by what was read; a [cron.d] with too many entries counts as
    empty, and otherwise the order in which its entries are listed does not matter. No
    published command is sensitive text. *)
Theorem scheduled_jobs_spec c :
  let jobs := file_jobs "/etc/crontab" ++ cron_d_jobs ++ crontab_jobs in
  let c' := collect_scheduled_jobs c in
  pc_nodes c' = pc_nodes c ++ (job_node <$> jobs) ∧ pc_edges c' = pc_edges c ++ (job_edge <$> jobs) ∧
  pc_states c' = pc_states c ∧
  Forall (λ job, is_sensitive_text (rn_label (job_node job)) = false ∧ re_source (job_edge job) = rn_id (job_node job)) jobs ∧
  (∀ path job, job ∈ file_jobs path → job.1.1 = path ∧ cron_is_regular path = true ∧
     ∃ file len text, cron_open path = Some file ∧ of_metadata file = inl (true, len) ∧ (len <= MAX_CRON_FILE_BYTES)%N ∧
       read_limited MAX_CRON_FILE_BYTES file = inl text ∧ (N.of_nat (str_len text) <= MAX_CRON_FILE_BYTES)%N ∧
       job ∈ cron_jobs path false text) ∧
  (∀ entries, cron_read_dir "/etc/cron.d" = Some entries → MAX_CRON_D_ENTRIES < length entries → cron_d_jobs = []) ∧
  (∀ entries entries', entries ≡ₚ entries' → distinct_paths (filterb cron_is_regular (omap id entries)) →
     bounded_cron_d_paths entries = bounded_cron_d_paths entries').
Proof.
  intros jobs c'. unfold c', collect_scheduled_jobs. destruct (job_sources_spec c) as (c1 & -> & Hn & He & Hs).
  destruct (publish_jobs_spec jobs c1) as (Pn & Pe & _ & Ps). fold jobs. split_and!.
  - by rewrite Pn, Hn.
  - by rewrite Pe, He.
  - by rewrite Ps.
  - apply Forall_forall. intros [[source line] command] _. split; [|done]. apply redact_not_sensitive.
  - intros path job Hjob. unfold file_jobs, cron_text in Hjob.
    destruct (cron_is_regular path); [|by apply not_elem_of_nil in Hjob]. cbn [negb] in Hjob.
    destruct (cron_open path) as [file|]; cbn [mbind option_bind from_option] in Hjob; [|by apply not_elem_of_nil in Hjob].
    destruct (of_metadata file) as [[[] len]|] eqn:Em; cbn [negb orb from_option] in Hjob; try by apply not_elem_of_nil in Hjob.
    destruct (MAX_CRON_FILE_BYTES <? len)%N eqn:El; cbn [from_option] in Hjob; [by apply not_elem_of_nil in Hjob|].
    destruct (read_limited MAX_CRON_FILE_BYTES file) as [text|] eqn:Er; cbn [from_option] in Hjob; [|by apply not_elem_of_nil in Hjob].
    destruct (MAX_CRON_FILE_BYTES <? N.of_nat (str_len text))%N eqn:Et; cbn [from_option] in Hjob; [by apply not_elem_of_nil in Hjob|].
    split_and!; [|done|].
    + unfold cron_jobs in Hjob. apply list_elem_of_In, in_concat in Hjob as (l & Hl%list_elem_of_In & Hj%list_elem_of_In).
      apply elem_of_lookup_imap in Hl as (i & x & -> & _). destruct (cron_command x false); [|by apply not_elem_of_nil in Hj].
      by apply list_elem_of_singleton in Hj as ->.
    + exists file, len, text. apply N.ltb_ge in El, Et. done.
  - intros entries E Hlen. unfold cron_d_jobs. rewrite E, cron_d_paths_spec.
    by rewrite (proj2 (Nat.leb_gt _ _)) by done.
  - apply path_set_order_irrelevant.
Qed.
End cron_theorems.
