(* ===== verification/RustFloat.v ===== *)
(** * Binary64 numbers as the sources use them

    [f64] is the binary64 instance of the standard library's specification of IEEE 754
    ([SpecFloat]): [str::parse::<f64>], [u64 as f64], subtraction, division, [f64::max],
    [f64::round] and the saturating cast to [u64]. No primitive floats are used. *)

From Stdlib Require SpecFloat.
From S2P Require Import Prelude RustStr RustNum Boundary.

Definition f64 : Type := SpecFloat.spec_float.

(** An integer, rounded to nearest, ties to even. *)
Definition f64_of_Z (z : Z) : f64 := SpecFloat.binary_normalize 53 1024 z 0 false.

Definition f64_of_u64 (n : N) : f64 := f64_of_Z (Z.of_N n).

Definition f64_sub (x y : f64) : f64 := SpecFloat.SFsub 53 1024 x y.
Definition f64_div (x y : f64) : f64 := SpecFloat.SFdiv 53 1024 x y.

(** [f64::max]: a NaN operand is ignored. *)
Definition f64_max (x y : f64) : f64 :=
  match x, y with
  | SpecFloat.S754_nan, _ => y
  | _, SpecFloat.S754_nan => x
  | _, _ => if SpecFloat.SFltb x y then y else x
  end.

(** [x.round() as u64]: halves away from zero, then a saturating cast. *)
Definition f64_round_u64 (x : f64) : N :=
  match x with
  | SpecFloat.S754_finite false m e =>
      if (0 <=? e)%Z then N.min u64_max (Z.to_N (Z.pos m * 2 ^ e))
      else N.min u64_max (Z.to_N ((Z.pos m + 2 ^ (- e - 1)) / 2 ^ (- e)))
  | SpecFloat.S754_infinity false => u64_max
  | _ => 0%N
  end.

(** ** Parsing *)

Definition digits_value (s : rstr) : Z := foldl (λ acc c, (acc * 10 + Z.of_N (c - 48))%Z) 0%Z s.

(** [digits * 10 ^ exponent], correctly rounded. *)
Definition f64_of_decimal (digits exponent : Z) : f64 :=
  if (0 <=? exponent)%Z then f64_of_Z (digits * 10 ^ exponent)
  else match digits with
       | Z.pos m => match (10 ^ (- exponent))%Z with
                    | Z.pos d => f64_div (SpecFloat.S754_finite false m 0) (SpecFloat.S754_finite false d 0)
                    | _ => f64_of_Z 0
                    end
       | _ => f64_of_Z 0
       end.

Definition strip_sign (s : rstr) : bool * rstr :=
  match s with
  | [] => (false, [])
  | c :: t => if (c =? 45)%N then (true, t) else if (c =? 43)%N then (false, t) else (false, s)
  end.

(** The exponent, when nothing else follows: [None] is a malformed one. *)
Definition parse_exponent (s : rstr) : option Z :=
  match s with
  | [] => Some 0%Z
  | c :: s =>
      if one_of c [101; 69]%N then
        let '(negative, digits) := strip_sign s in
        if (digits == []) || negb (forallb is_ascii_digit digits) then None
        else Some (if negative then - digits_value digits else digits_value digits)%Z
      else None
  end.

Definition parse_number (s : rstr) : option f64 :=
  let '(integral, rest) := span is_ascii_digit s in
  let '(fraction, rest) :=
    match rest with
    | c :: rest' => if (c =? 46)%N then span is_ascii_digit rest' else ([], rest)
    | [] => ([], rest)
    end in
  if (integral == []) && (fraction == []) then None
  else
    exponent ← parse_exponent rest;
    Some (f64_of_decimal (digits_value (integral ++ fraction)) (exponent - Z.of_nat (length fraction))).

(** [s.parse::<f64>().ok()]. *)
Definition parse_f64 (s : rstr) : option f64 :=
  let '(negative, body) := strip_sign s in
  let lower := to_ascii_lowercase body in
  let magnitude :=
    if one_of lower (lit <$> ["inf"; "infinity"]) then Some (SpecFloat.S754_infinity false)
    else if lower == ("nan" : rstr) then Some SpecFloat.S754_nan
    else parse_number body in
  if negative then SpecFloat.SFopp <$> magnitude else magnitude.

Example parse_uptime : parse_f64 "350735.47" = Some (SpecFloat.S754_finite false 6025589492788756 (-34)).
Proof. vm_compute. reflexivity. Qed.

Example parse_f64_forms :
  ((λ s, is_some (parse_f64 s)) <$> (lit <$> ["1"; "1."; ".5"; "+2e3"; "-1E-2"; "inf"; "NaN"; ""; "."; "1e"; "1x"; "e5"])) =
  [true; true; true; true; true; true; true; false; false; false; false; false].
Proof. vm_compute. reflexivity. Qed.

Example parse_tenth : parse_f64 "0.1" = Some (SpecFloat.S754_finite false 7205759403792794 (-56)).
Proof. vm_compute. reflexivity. Qed.

Example round_halves : ((λ s, f64_round_u64 <$> parse_f64 s) <$> (lit <$> ["0.5"; "1.4999"; "2.5"; "-3"; "1e30"])) =
  [Some 1%N; Some 1%N; Some 3%N; Some 0%N; Some u64_max].
Proof. vm_compute. reflexivity. Qed.
