(* ===== verification/Systemd.v ===== *)
(** * systemd services ([crates/dockermap-daemon/src/providers/systemd.rs])

    The two fixed [systemctl] listings, the nodes of the services and the dependency edges with
    their private markers. The commands and [/proc/uptime] answer through [HostView]. *)

From S2P Require Import Prelude RustStr RustNum Models Serial Identity Redaction Publication RuntimeTopology Scheduler Utf8 Boundary Order RustFloat Providers Words.

Definition MAX_SYSTEMD_UNITS : nat := 128.

Inductive SystemdDependencyKind := Dep_Requires | Dep_Wants | Dep_PartOf.

#[export] Instance SystemdDependencyKind_eq_dec : EqDecision SystemdDependencyKind. Proof. solve_decision. Defined.

Definition dependency_marker (kind : SystemdDependencyKind) : rstr :=
  match kind with
  | Dep_Requires => SYSTEMD_EVIDENCE_REQUIRES
  | Dep_Wants => SYSTEMD_EVIDENCE_WANTS
  | Dep_PartOf => SYSTEMD_EVIDENCE_PART_OF
  end.

Definition dependency_relationship (kind : SystemdDependencyKind) : RuntimeRelationshipKind :=
  match kind with Dep_Requires => RR_Requires | Dep_Wants => RR_Wants | Dep_PartOf => RR_PartOf end.

Record SystemdUnitSummary := {
  su_unit : rstr;
  su_active_state : rstr;
  su_sub_state : rstr;
  su_description : rstr
}.

Record SystemdUnitDetails := {
  sd_id : rstr;
  sd_active_state : option rstr;
  sd_sub_state : option rstr;
  sd_description : option rstr;
  sd_fragment_path : option rstr;
  sd_load_state : option rstr;
  sd_exec_start : option rstr;
  sd_restart : option rstr;
  sd_active_enter_timestamp : option rstr;
  sd_active_enter_monotonic_us : option N;
  sd_requires : list rstr;
  sd_wants : list rstr;
  sd_part_of : list rstr
}.

Definition default_details : SystemdUnitDetails := {|
  sd_id := []; sd_active_state := None; sd_sub_state := None; sd_description := None; sd_fragment_path := None;
  sd_load_state := None; sd_exec_start := None; sd_restart := None; sd_active_enter_timestamp := None;
  sd_active_enter_monotonic_us := None; sd_requires := []; sd_wants := []; sd_part_of := [] |}.

(** ** Parsing *)

Definition parse_unit_line (line : rstr) : option SystemdUnitSummary :=
  let parts := split_whitespace line in
  if (length parts <? 4)%nat || negb (ends_with (nth 0 parts []) ".service") then None
  else Some {| su_unit := nth 0 parts []; su_active_state := nth 2 parts []; su_sub_state := nth 3 parts [];
               su_description := join [32%N] (drop 4 parts) |}.

Definition parse_systemd_list_units (value : rstr) : list SystemdUnitSummary := omap parse_unit_line (lines value).

Definition parse_systemd_unit_list (value : rstr) : list rstr :=
  btree_set (filterb (λ unit, ends_with unit ".service") (split_whitespace value)).

(** The [match key] of [parse_systemd_show_records]. *)
Definition set_property (d : SystemdUnitDetails) (key value : rstr) : SystemdUnitDetails :=
  let text := non_empty_string value in
  let build id active sub description fragment load exec restart enter monotonic requires wants part_of := {|
    sd_id := id; sd_active_state := active; sd_sub_state := sub; sd_description := description;
    sd_fragment_path := fragment; sd_load_state := load; sd_exec_start := exec; sd_restart := restart;
    sd_active_enter_timestamp := enter; sd_active_enter_monotonic_us := monotonic; sd_requires := requires;
    sd_wants := wants; sd_part_of := part_of |} in
  let on (name : rstr) {A} (new old : A) : A := if key == name then new else old in
  build (on "Id" value (sd_id d))
    (on "ActiveState" text (sd_active_state d))
    (on "SubState" text (sd_sub_state d))
    (on "Description" text (sd_description d))
    (on "FragmentPath" text (sd_fragment_path d))
    (on "LoadState" text (sd_load_state d))
    (on "ExecStart" text (sd_exec_start d))
    (on "Restart" text (sd_restart d))
    (on "ActiveEnterTimestamp" text (sd_active_enter_timestamp d))
    (on "ActiveEnterTimestampMonotonic" (parse_uint u64_max value) (sd_active_enter_monotonic_us d))
    (on "Requires" (parse_systemd_unit_list value) (sd_requires d))
    (on "Wants" (parse_systemd_unit_list value) (sd_wants d))
    (on "PartOf" (parse_systemd_unit_list value) (sd_part_of d)).

Definition finish_record (records : list SystemdUnitDetails) (current : SystemdUnitDetails) : list SystemdUnitDetails :=
  if sd_id current == [] then records else records ++ [current].

Fixpoint show_records_loop (records : list SystemdUnitDetails) (current : SystemdUnitDetails) (l : list rstr)
    : list SystemdUnitDetails :=
  match l with
  | [] => finish_record records current
  | line :: l =>
      if trim line == [] then show_records_loop (finish_record records current) default_details l
      else match split_once 61 line with
           | None => show_records_loop records current l
           | Some (key, raw_value) => show_records_loop records (set_property current (trim key) (trim raw_value)) l
           end
  end.

Definition parse_systemd_show_records (value : rstr) : list SystemdUnitDetails :=
  show_records_loop [] default_details (lines value).

Definition systemd_dependency_pairs (d : SystemdUnitDetails) : list (SystemdDependencyKind * rstr) :=
  ((Dep_Requires,.) <$> sd_requires d) ++ ((Dep_Wants,.) <$> sd_wants d) ++ ((Dep_PartOf,.) <$> sd_part_of d).

(** ** Nodes *)

Definition python_needles : list rstr := lit <$> ["python"; ".py"; "uvicorn"; "gunicorn"; "celery"].
Definition node_needles : list rstr := lit <$> ["node"; "npm"; "npx"; ".js"; ".mjs"].

Definition classify_systemd_service_entity (detail : option SystemdUnitDetails) : ServiceEntityKind :=
  match (d ← detail; sd_exec_start d) with
  | None => SE_Service
  | Some exec_start =>
      let haystack := to_ascii_lowercase exec_start in
      if looks_like_ai_agent haystack then SE_AiAgent
      else if existsb (contains haystack) python_needles then SE_PythonApplication
      else if existsb (contains haystack) node_needles then SE_NodeApplication
      else SE_Service
  end.

Definition systemd_uptime_seconds (d : SystemdUnitDetails) (system_uptime : option f64) : option N :=
  if sd_active_state d != Some ("active" : rstr) then None
  else
    monotonic_us ← sd_active_enter_monotonic_us d;
    uptime ← system_uptime;
    Some (f64_round_u64
            (f64_max (f64_sub uptime (f64_div (f64_of_u64 monotonic_us) (f64_of_Z 1000000))) (f64_of_Z 0))).

(** [trim_end_matches] of a text: the suffix is removed as often as it occurs; the fuel is the
    length of the text. *)
Fixpoint trim_end_text (fuel : nat) (suffix s : rstr) : rstr :=
  match fuel with
  | 0 => s
  | S fuel => match strip_suffix suffix s with Some s' => trim_end_text fuel suffix s' | None => s end
  end.

Section nodes.
Context `{Sha256}.

Definition systemd_node_id (unit : rstr) : rstr :=
  "systemd_service_" +s+ safe_runtime_id_component unit "redacted".

Definition systemd_runtime_node (unit : rstr) (summary : option SystemdUnitSummary)
    (detail : option SystemdUnitDetails) (system_uptime : option f64) : RuntimeMapNode :=
  let active_state := or_else (d ← detail; sd_active_state d) (su_active_state <$> summary) in
  let sub_state := or_else (d ← detail; sd_sub_state d) (su_sub_state <$> summary) in
  let keep_if (test : rstr → bool) (o : option rstr) := v ← o; if test v then Some v else None in
  let description :=
    keep_if (λ v, negb (v == [])) (or_else (d ← detail; sd_description d) (su_description <$> summary)) in
  let restart := keep_if (λ v, negb (v == []) && (v != ("no" : rstr))) (d ← detail; sd_restart d) in
  plain_node (systemd_node_id unit) RP_Systemd RN_SystemdService
    (trim_end_text (length unit) ".service" unit) active_state L_Service
    (insert_some "uptimeSeconds" (dec_str <$> (d ← detail; systemd_uptime_seconds d system_uptime))
      (insert_some "activeEnter" (d ← detail; sd_active_enter_timestamp d)
        (insert_some "restartPolicy" restart
          (insert_some "loadState" (d ← detail; sd_load_state d)
            (insert_some "fragmentPath" (d ← detail; sd_fragment_path d)
              (insert_some "description" description
                (insert_some "subState" sub_state
                  (<[("serviceEntityKind" : rstr) :=
                       service_entity_kind_name (classify_systemd_service_entity detail)]>
                    (<[("unit" : rstr) := unit]> ∅))))))))).
End nodes.

(** ** Collection *)

Definition list_units_command : list rstr :=
  lit <$> ["systemctl"; "list-units"; "--type=service"; "--all"; "--no-legend"; "--no-pager"; "--plain"].

Definition show_command (units : list rstr) : list rstr :=
  (lit <$> ["systemctl"; "show"; "--no-pager";
            "--property=Id,ActiveState,SubState,Description,FragmentPath,LoadState,ExecStart,Restart,ActiveEnterTimestamp,ActiveEnterTimestampMonotonic,Requires,Wants,PartOf"])
  ++ units.

(** The derived order of the triples (source, target, kind). *)
Definition kind_cmp (a b : SystemdDependencyKind) : comparison :=
  let rank k := match k with Dep_Requires => 0 | Dep_Wants => 1 | Dep_PartOf => 2 end%nat in
  Nat.compare (rank a) (rank b).

Definition Dependency : Type := rstr * (rstr * SystemdDependencyKind).

Definition dependency_cmp : Dependency → Dependency → comparison := pair_cmp str_cmp (pair_cmp str_cmp kind_cmp).

(** [BTreeSet] of the triples, iterated in its order. *)
Definition dependency_set (l : list Dependency) : list Dependency := dedup (sort_by (leb_of dependency_cmp) l).

Section collection.
Context `{Sha256} `{HostView}.

Definition system_uptime_seconds_from_proc : option f64 :=
  content ← hv_read "/proc/uptime";
  field ← head (split_whitespace content);
  parse_f64 field.

(** The dependencies of one unit, those on itself left out. *)
Definition unit_dependencies (d : SystemdUnitDetails) : list (Dependency * rstr) :=
  omap (λ '(kind, dependency),
    let source := systemd_node_id (sd_id d) in
    let target := systemd_node_id dependency in
    if source == target then None else Some ((source, (target, kind)), dependency))
  (systemd_dependency_pairs d).

Definition dependency_edge (d : Dependency) : RuntimeMapEdge :=
  let '(source, (target, kind)) := d in {|
  re_source := source; re_target := target; re_relationship := dependency_relationship kind;
  re_metadata := {[ SYSTEMD_EVIDENCE_KIND_MARKER := dependency_marker kind ]}; re_evidence_refs := [] |}.

Definition index_details (records : list SystemdUnitDetails) : gmap rstr SystemdUnitDetails :=
  foldl (λ m detail, if sd_id detail == [] then m else <[sd_id detail := detail]> m) ∅ records.

(** What follows the two commands: the nodes of the listing, the dependency edges, and a node
    for each occurrence of a dependency that is not listed. *)
Definition publish_units (summaries : list SystemdUnitSummary) (details_by_unit : gmap rstr SystemdUnitDetails)
    (system_uptime : option f64) (c : ProviderCollection) : ProviderCollection :=
  let c := extend_nodes c
    ((λ summary, systemd_runtime_node (su_unit summary) (Some summary) (details_by_unit !! su_unit summary)
                   system_uptime) <$> summaries) in
  let dependencies := btree_values details_by_unit ≫= unit_dependencies in
  let c := extend_nodes c
    ((λ dependency, systemd_runtime_node dependency None None system_uptime)
     <$> filterb (λ dependency, negb (one_of dependency (su_unit <$> summaries))) dependencies.*2) in
  extend_edges c (dependency_edge <$> dependency_set dependencies.*1).

Definition collect_systemd_services (c : ProviderCollection) : ProviderCollection * (unit + ProviderCommandError) :=
  let system_uptime := system_uptime_seconds_from_proc in
  match hv_run list_units_command with
  | inr error =>
      (push_provider_diagnostic c RP_Systemd Sev_Info
         ("systemd discovery skipped: " +s+ provider_command_error_text error), inr error)
  | inl output =>
      if negb (es_success (po_status output)) then
        (push_provider_diagnostic c RP_Systemd Sev_Warning "systemd discovery command failed", inr Err_Wait)
      else
        let listed := parse_systemd_list_units (from_utf8_lossy (po_stdout output)) in
        let capped := (MAX_SYSTEMD_UNITS <? length listed)%nat in
        let summaries := if capped then take MAX_SYSTEMD_UNITS listed else listed in
        let c := if capped then
                   push_provider_diagnostic c RP_Systemd Sev_Info
                     ("systemd discovery capped at " +s+ dec_str (N.of_nat MAX_SYSTEMD_UNITS) +s+ " services")
                 else c in
        if summaries == [] then (publish_units summaries ∅ system_uptime c, inl tt)
        else match hv_run (show_command (su_unit <$> summaries)) with
             | inl show_output =>
                 if es_success (po_status show_output) then
                   (publish_units summaries
                      (index_details (parse_systemd_show_records (from_utf8_lossy (po_stdout show_output))))
                      system_uptime c, inl tt)
                 else
                   (push_provider_diagnostic c RP_Systemd Sev_Warning
                      "systemd show command failed; dependency edges omitted", inr Err_Wait)
             | inr error =>
                 (push_provider_diagnostic c RP_Systemd Sev_Info
                    ("systemd dependency discovery skipped: " +s+ provider_command_error_text error), inr error)
             end
  end.
End collection.

(** ** Theorems *)

#[export] Instance kind_cmp_total : TotalCmp kind_cmp.
Proof. split; [by intros [] []|by intros [] []|by intros [] [] []]. Qed.

#[export] Instance dependency_cmp_total : TotalCmp dependency_cmp.
Proof. unfold dependency_cmp. apply _. Qed.

Lemma elem_of_dependency_set d l : d ∈ dependency_set l ↔ d ∈ l.
Proof. unfold dependency_set. by rewrite elem_of_dedup, elem_of_sort_by. Qed.

Lemma dependency_set_NoDup l : NoDup (dependency_set l).
Proof.
  unfold dependency_set. eapply dedup_NoDup; [|apply sort_by_sorted].
  - intros x y. apply (leb_of_antisym dependency_cmp).
  - apply (leb_of_total dependency_cmp).
  - apply (leb_of_trans dependency_cmp).
Qed.

Section theorems.
Context `{Sha256} `{HostView}.

Lemma dependency_edge_inj : Inj (=) (=) dependency_edge.
Proof. intros [s [t k]] [s' [t' k']]. unfold dependency_edge. intros E. destruct k, k'; naive_solver. Qed.

Lemma elem_of_unit_dependencies d source target kind dependency :
  ((source, (target, kind)), dependency) ∈ unit_dependencies d ↔
  (kind, dependency) ∈ systemd_dependency_pairs d ∧ source = systemd_node_id (sd_id d) ∧
  target = systemd_node_id dependency ∧ source ≠ target.
Proof.
  unfold unit_dependencies. rewrite list_elem_of_omap. split.
  - intros ([k dep] & Hp & E). case_bool_decide; [done|]. by simplify_eq.
  - intros (Hp & -> & -> & Hne). exists (kind, dependency). by rewrite bool_decide_eq_false_2.
Qed.

(** The dependencies that the listing and the properties declare. *)
Definition declares (details : gmap rstr SystemdUnitDetails) (e : RuntimeMapEdge) : Prop :=
  ∃ unit d kind dependency, details !! unit = Some d ∧ (kind, dependency) ∈ systemd_dependency_pairs d ∧
    systemd_node_id (sd_id d) ≠ systemd_node_id dependency ∧
    e = dependency_edge (systemd_node_id (sd_id d), (systemd_node_id dependency, kind)).

Lemma elem_of_btree_values {V} (m : gmap rstr V) v : v ∈ btree_values m ↔ ∃ k, m !! k = Some v.
Proof.
  unfold btree_values. rewrite list_elem_of_fmap. split.
  - intros ([k w] & -> & Hin). exists k. by apply elem_of_btree_iter.
  - intros (k & Hk). exists (k, v). split; [done|]. by apply elem_of_btree_iter.
Qed.

Lemma publish_units_spec summaries details uptime c :
  let c' := publish_units summaries details uptime c in
  ∃ extra edges, pc_nodes c' = pc_nodes c ++
    ((λ s, systemd_runtime_node (su_unit s) (Some s) (details !! su_unit s) uptime) <$> summaries) ++ extra ∧
  pc_edges c' = pc_edges c ++ edges ∧ pc_diagnostics c' = pc_diagnostics c ∧ pc_states c' = pc_states c ∧
  NoDup edges ∧ (∀ e, e ∈ edges ↔ declares details e) ∧
  (∀ e, e ∈ edges → re_target e ∈ rn_id <$> pc_nodes c') ∧
  (∀ e, e ∈ edges → re_source e ≠ re_target e).
Proof.
  intros c'. set (dependencies := btree_values details ≫= unit_dependencies).
  assert (Hdep : ∀ e, e ∈ dependency_edge <$> dependency_set dependencies.*1 ↔ declares details e).
  { intros e. rewrite list_elem_of_fmap. split.
    - intros ([source [target kind]] & -> & Hin). rewrite elem_of_dependency_set in Hin.
      apply list_elem_of_fmap in Hin as ([q dependency] & E & Hin). cbn [fst] in E. subst q.
      apply list_elem_of_bind in Hin as (d & Hin & Hd). apply elem_of_unit_dependencies in Hin as (Hp & -> & -> & Hne).
      apply elem_of_btree_values in Hd as (unit & Hd). exists unit, d, kind, dependency. done.
    - intros (unit & d & kind & dependency & Hd & Hp & Hne & ->). eexists. split; [done|].
      apply elem_of_dependency_set, list_elem_of_fmap. eexists (_, dependency). split; [done|].
      apply list_elem_of_bind. exists d. split; [by apply elem_of_unit_dependencies|].
      apply elem_of_btree_values. by exists unit. }
  eexists _, (dependency_edge <$> dependency_set dependencies.*1).
  unfold c', publish_units. cbn [pc_nodes pc_edges pc_diagnostics pc_states extend_nodes extend_edges].
  split_and!; [by rewrite <- app_assoc|done|done|done| |exact Hdep| |].
  - apply NoDup_fmap_2; [apply dependency_edge_inj|apply dependency_set_NoDup].
  - intros e (unit & d & kind & dependency & Hd & Hp & Hne & ->)%Hdep. cbn [re_target dependency_edge].
    rewrite !fmap_app, !elem_of_app, <- !list_fmap_compose.
    destruct (decide (dependency ∈ su_unit <$> summaries)) as [Hin|Hin].
    + left. right. apply list_elem_of_fmap in Hin as (s & -> & Hs). apply list_elem_of_fmap. by exists s.
    + right. apply list_elem_of_fmap. exists dependency. split; [done|]. apply elem_of_filterb. split.
      * unfold one_of. by rewrite bool_decide_eq_false_2.
      * apply list_elem_of_fmap. eexists ((_, (_, kind)), dependency). split; [done|]. apply list_elem_of_bind. exists d.
        split; [by apply elem_of_unit_dependencies|]. apply elem_of_btree_values. by exists unit.
  - intros e (unit & d & kind & dependency & Hd & Hp & Hne & ->)%Hdep. done.
Qed.

(** What the second command says about the listed units. *)
Definition shown (summaries : list SystemdUnitSummary) (details : gmap rstr SystemdUnitDetails) : Prop :=
  if summaries == [] then details = ∅
  else ∃ output, hv_run (show_command (su_unit <$> summaries)) = inl output ∧ es_success (po_status output) = true ∧
    details = index_details (parse_systemd_show_records (from_utf8_lossy (po_stdout output))).

(** C32: A systemd collection is all or nothing. When it succeeds, the first 128 services of
    the listing have their nodes, in the order of the listing; the edges are exactly the
    declared Requires, Wants and PartOf dependencies of the shown units, once each, with the
    marker of their kind, none from a unit to itself, and each towards a node of the
    collection. When either command fails, nodes and edges are as before, and the error of the
    command, or its failure, is the result. *)
Theorem systemd_collection_spec c c' result :
  collect_systemd_services c = (c', result) →
  pc_states c' = pc_states c ∧
  match result with
  | inr error => pc_nodes c' = pc_nodes c ∧ pc_edges c' = pc_edges c ∧
      (hv_run list_units_command = inr error ∨ error = Err_Wait ∨
       ∃ units, hv_run (show_command units) = inr error ∧ length units ≤ MAX_SYSTEMD_UNITS)
  | inl _ => ∃ output details extra edges,
      hv_run list_units_command = inl output ∧ es_success (po_status output) = true ∧
      let summaries := take MAX_SYSTEMD_UNITS (parse_systemd_list_units (from_utf8_lossy (po_stdout output))) in
      shown summaries details ∧
      pc_nodes c' = pc_nodes c ++
        ((λ s, systemd_runtime_node (su_unit s) (Some s) (details !! su_unit s) system_uptime_seconds_from_proc)
         <$> summaries) ++ extra ∧
      pc_edges c' = pc_edges c ++ edges ∧ NoDup edges ∧ (∀ e, e ∈ edges ↔ declares details e) ∧
      (∀ e, e ∈ edges → re_target e ∈ rn_id <$> pc_nodes c') ∧ (∀ e, e ∈ edges → re_source e ≠ re_target e)
  end.
Proof.
  unfold collect_systemd_services. destruct (hv_run list_units_command) as [output|error] eqn:Erun; cycle 1.
  { intros [= <- <-]. split_and!; [done..|by left]. }
  destruct (es_success (po_status output)) eqn:Es; cbn [negb]; cycle 1.
  { intros [= <- <-]. split_and!; [done..|by right; left]. }
  cbv zeta. set (listed := parse_systemd_list_units _).
  assert (Hcap : (if (MAX_SYSTEMD_UNITS <? length listed)%nat then take MAX_SYSTEMD_UNITS listed else listed)
                 = take MAX_SYSTEMD_UNITS listed).
  { destruct (Nat.ltb_spec MAX_SYSTEMD_UNITS (length listed)); [done|]. by rewrite take_ge. }
  rewrite Hcap. set (summaries := take MAX_SYSTEMD_UNITS listed).
  set (c0 := if (MAX_SYSTEMD_UNITS <? length listed)%nat then _ else c).
  assert (Hc0 : pc_nodes c0 = pc_nodes c ∧ pc_edges c0 = pc_edges c ∧ pc_states c0 = pc_states c)
    by (unfold c0; by destruct (_ <? _)%nat).
  destruct Hc0 as (Hn0 & He0 & Hs0).
  assert (Hdone : ∀ details, shown summaries details →
    (publish_units summaries details system_uptime_seconds_from_proc c0, inl tt) = (c', result) →
    pc_states c' = pc_states c ∧ ∃ (u : unit) extra edges, result = inl u ∧
      pc_nodes c' = pc_nodes c ++ ((λ s, systemd_runtime_node (su_unit s) (Some s) (details !! su_unit s)
        system_uptime_seconds_from_proc) <$> summaries) ++ extra ∧
      pc_edges c' = pc_edges c ++ edges ∧ NoDup edges ∧ (∀ e, e ∈ edges ↔ declares details e) ∧
      (∀ e, e ∈ edges → re_target e ∈ rn_id <$> pc_nodes c') ∧ (∀ e, e ∈ edges → re_source e ≠ re_target e)).
  { intros details _ [= <- <-].
    destruct (publish_units_spec summaries details system_uptime_seconds_from_proc c0)
      as (extra & edges & Hn & He & _ & Hst & Hrest). rewrite Hn0 in Hn. rewrite He0 in He.
    split; [congruence|]. exists tt, extra, edges. split; [done|]. split; [exact Hn|]. split; [exact He|]. exact Hrest. }
  case_bool_decide as Hnil.
  - intros E. assert (Hshown : shown summaries ∅) by (unfold shown; by rewrite bool_decide_eq_true_2).
    destruct (Hdone ∅ Hshown E) as (Hst & u & extra & edges & -> & Hrest). split; [done|].
    exists output, ∅, extra, edges. done.
  - destruct (hv_run (show_command _)) as [show_output|error] eqn:Eshow.
    + destruct (es_success (po_status show_output)) eqn:Ess.
      * intros E. assert (Hshown : shown summaries (index_details (parse_systemd_show_records (from_utf8_lossy (po_stdout show_output))))).
        { unfold shown. rewrite bool_decide_eq_false_2 by done. eauto. }
        destruct (Hdone _ Hshown E) as (Hst & u & extra & edges & -> & Hrest). split; [done|].
        eexists output, _, extra, edges. do 2 (split; [done|]). split; [exact Hshown|exact Hrest].
      * intros [= <- <-]. split_and!; [done..|by right; left].
    + intros [= <- <-]. split_and!; [done..|]. right; right. eexists. split; [exact Eshow|].
      rewrite length_fmap. unfold summaries. rewrite length_take. lia.
Qed.
End theorems.

(** ** Examples *)

Definition example_units : rstr :=
  "web.service loaded active running Web application" +s+ [10%N] +s+
  "api.service loaded active running API" +s+ [10%N] +s+ "boot.mount loaded active mounted Boot".

Definition example_show : rstr :=
  "Id=web.service" +s+ [10%N] +s+ "ActiveState=active" +s+ [10%N] +s+ "ExecStart=/usr/bin/node server.js" +s+ [10%N]
  +s+ "ActiveEnterTimestampMonotonic=1500000" +s+ [10%N] +s+ "Requires=db.service system.slice" +s+ [10%N] +s+ [10%N]
  +s+ "Id=api.service" +s+ [10%N] +s+ "Restart=no" +s+ [10%N] +s+ "Requires=db.service" +s+ [10%N] +s+ "Wants=web.service".

Section example.
#[local] Existing Instance Toy_sha256.
#[local] Instance systemd_host : HostView := {|
  hv_env := λ _, NotPresent;
  hv_run := λ command, if command == list_units_command then inl (example_output 0 example_units [])
                       else inl (example_output 0 example_show []);
  hv_read := λ path, if path == ("/proc/uptime" : rstr) then Some ("350735.47 1.00" : rstr) else None;
  hv_exists := λ _, false |}.

Definition example_collected : ProviderCollection := (collect_systemd_services empty_collection).1.

Example systemd_uptime_example :
  ((λ n, rn_metadata n !! ("uptimeSeconds" : rstr)) <$> pc_nodes example_collected) =
  [Some ("350734" : rstr); None; None; None].
Proof. vm_compute. reflexivity. Qed.

(** Two listed services that require the same service that is not listed: its node is pushed
    twice, so its identity is ambiguous in every map that holds this collection. *)
Lemma shared_dependency_collides :
  collect_systemd_services empty_collection = (example_collected, inl tt) ∧
  duplicate_runtime_node_ids (pc_nodes example_collected) = [systemd_node_id "db.service"].
Proof. split; vm_compute; reflexivity. Qed.

Lemma systemd_collection_spec_witness :
  length (pc_edges example_collected) = 3 ∧
  ∀ e, e ∈ pc_edges example_collected → re_target e ∈ rn_id <$> pc_nodes example_collected.
Proof.
  split; [vm_compute; reflexivity|].
  destruct (systemd_collection_spec empty_collection example_collected (inl tt)) as [_ H].
  { exact (proj1 shared_dependency_collides). }
  destruct H as (output & details & extra & edges & _ & _ & _ & _ & He & _ & _ & Ht & _).
  intros e. rewrite He. exact (Ht e).
Defined.
End example.
