(* ===== verification/NetworkProviders.v ===== *)
(** * Network infrastructure and overlay networks
      ([crates/dockermap-daemon/src/providers/network_infrastructure.rs] and
      [providers/overlay_network.rs])

    Opt-in overlay networks, fixed configuration markers and the classification of containers.
    The environment, the commands and the markers answer through [HostView], JSON through
    [JsonValues]. *)

From S2P Require Import Prelude RustStr RustNum Models Serial Identity Redaction Publication RuntimeTopology Scheduler Utf8 Boundary Providers.

(** ** overlay_network.rs *)

(** [trim_end_matches(c)]. *)
Definition trim_end_char (c : N) (s : rstr) : rstr := reverse (drop_while (N.eqb c) (reverse s)).

Section overlay.
Context `{Sha256} `{HostView} `{JsonValues}.

Definition provider_opt_in (name : rstr) : bool := env_ok (hv_env name) == Some ("true" : rstr).

Definition overlay_provider_id (provider : RuntimeProviderKind) : rstr :=
  match provider with RP_Tailscale => "tailscale" | RP_Headscale => "headscale" | _ => "tailnet" end.

(** The first of the fields that has a value of the right kind. *)
Fixpoint first_field {A} (as_ : JValue → option A) (value : JValue) (names : list rstr) : option A :=
  match names with
  | [] => None
  | name :: names =>
      match json_get value name with
      | Some v => match as_ v with Some a => Some a | None => first_field as_ value names end
      | None => first_field as_ value names
      end
  end.

Definition tailnet_node (provider : RuntimeProviderKind) (fallback_id : rstr) (value : JValue) : RuntimeMapNode :=
  let label :=
    trim_end_char 46
      (default fallback_id (first_field json_str value (lit <$> ["DNSName"; "HostName"; "givenName"; "name"]))) in
  let online := first_field json_bool value (lit <$> ["Online"; "online"]) in
  let ips :=
    match first_field json_array value (lit <$> ["TailscaleIPs"; "ipAddresses"]) with
    | Some addresses =>
        let ips := omap json_str addresses in if ips == [] then None else Some (join [44%N] ips)
    | None => None
    end in
  let user := first_field json_str value (lit <$> ["User"; "user"]) in
  plain_node (overlay_provider_id provider +s+ "_node_" +s+ safe_runtime_id_component label fallback_id)
    provider RN_TailnetNode label ((λ value : bool, if value then "online" : rstr else "offline" : rstr) <$> online) L_Edge
    (insert_some "user" user (insert_some "ips" ips ∅)).

(** [status.get("Self")], then the peers by their index. *)
Definition tailscale_nodes (status : JValue) : list RuntimeMapNode :=
  match json_get status "Self" with
  | Some self_node => [tailnet_node RP_Tailscale "self" self_node]
  | None => []
  end ++
  match (v ← json_get status "Peer"; json_object_values v) with
  | Some peers => imap (λ index peer, tailnet_node RP_Tailscale ("peer_" +s+ dec_str (N.of_nat index)) peer) peers
  | None => []
  end.

Definition headscale_nodes (value : JValue) : list RuntimeMapNode :=
  let nodes_json := default [] (or_else (json_array value) (v ← json_get value "nodes"; json_array v)) in
  imap (λ index node, tailnet_node RP_Headscale ("node_" +s+ dec_str (N.of_nat index)) node) nodes_json.

(** [collect_tailscale] and [collect_headscale] differ in the command, the messages and the
    reading of the value. *)
Definition collect_overlay (provider : RuntimeProviderKind) (command : list rstr) (skipped failed invalid : rstr)
    (read : JValue → list RuntimeMapNode) (c : ProviderCollection) : ProviderCollection :=
  match hv_run command with
  | inr error => push_provider_diagnostic c provider Sev_Info (skipped +s+ provider_command_error_text error)
  | inl output =>
      if negb (es_success (po_status output)) then push_provider_diagnostic c provider Sev_Warning failed
      else match json_from_slice (po_stdout output) with
           | None => push_provider_diagnostic c provider Sev_Warning invalid
           | Some value => extend_nodes c (read value)
           end
  end.

Definition collect_tailscale (c : ProviderCollection) : ProviderCollection :=
  collect_overlay RP_Tailscale (lit <$> ["tailscale"; "status"; "--json"]) "Tailscale discovery skipped: "
    "Tailscale status command failed" "Tailscale status returned invalid JSON" tailscale_nodes c.

Definition collect_headscale (c : ProviderCollection) : ProviderCollection :=
  collect_overlay RP_Headscale (lit <$> ["headscale"; "nodes"; "list"; "--output"; "json"])
    "Headscale discovery skipped: " "Headscale nodes command failed"
    "Headscale nodes command returned invalid JSON" headscale_nodes c.
End overlay.

(** ** network_infrastructure.rs *)

(** [NetworkMarker]: the product and the path. *)
Definition reverse_proxy_markers : list (rstr * rstr) :=
  [("nginx" : rstr, "/etc/nginx/nginx.conf" : rstr); ("Caddy" : rstr, "/etc/caddy/Caddyfile" : rstr);
   ("Traefik" : rstr, "/etc/traefik/traefik.yml" : rstr); ("HAProxy" : rstr, "/etc/haproxy/haproxy.cfg" : rstr);
   ("Envoy" : rstr, "/etc/envoy/envoy.yaml" : rstr); ("Apache httpd" : rstr, "/etc/apache2/apache2.conf" : rstr)].

Definition local_dns_markers : list (rstr * rstr) :=
  [("Pi-hole" : rstr, "/etc/pihole/setupVars.conf" : rstr); ("dnsmasq" : rstr, "/etc/dnsmasq.d" : rstr);
   ("Unbound" : rstr, "/etc/unbound" : rstr); ("CoreDNS" : rstr, "/etc/coredns/Corefile" : rstr);
   ("AdGuard Home" : rstr, "/opt/adguardhome/conf/AdGuardHome.yaml" : rstr)].

Definition find_product (table : list (rstr * rstr)) (value : rstr) : option rstr :=
  snd <$> find (λ row, contains value row.1) table.

Definition classify_reverse_proxy : rstr → option rstr := find_product
  [("nginx-proxy-manager" : rstr, "Nginx Proxy Manager" : rstr);
   ("jc21/nginx-proxy-manager" : rstr, "Nginx Proxy Manager" : rstr); ("traefik" : rstr, "Traefik" : rstr);
   ("caddy" : rstr, "Caddy" : rstr); ("haproxy" : rstr, "HAProxy" : rstr); ("envoy" : rstr, "Envoy" : rstr);
   ("nginx" : rstr, "nginx" : rstr); ("apache" : rstr, "Apache httpd" : rstr); ("httpd" : rstr, "Apache httpd" : rstr);
   ("cloudflared" : rstr, "Cloudflare Tunnel" : rstr); ("frps" : rstr, "frp" : rstr); ("frpc" : rstr, "frp" : rstr)].

Definition classify_local_dns : rstr → option rstr := find_product
  [("pihole" : rstr, "Pi-hole" : rstr); ("pi-hole" : rstr, "Pi-hole" : rstr); ("adguard" : rstr, "AdGuard Home" : rstr);
   ("dnsmasq" : rstr, "dnsmasq" : rstr); ("unbound" : rstr, "Unbound" : rstr); ("coredns" : rstr, "CoreDNS" : rstr);
   ("technitium" : rstr, "Technitium DNS" : rstr)].

Section network.
Context `{Sha256} `{HostView} `{JsonValues}.

Definition network_marker_node (marker : rstr * rstr) (provider : RuntimeProviderKind) (kind : RuntimeNodeKind)
    (service_entity_kind : ServiceEntityKind) (id_prefix : rstr) : RuntimeMapNode :=
  let '(product, path) := marker in
  plain_node (id_prefix +s+ "_" +s+ safe_runtime_id_component product "product" +s+ "_"
              +s+ safe_runtime_id_component path "path")
    provider kind product (Some ("configured" : rstr)) L_Network
    (<[("serviceEntityKind" : rstr) := service_entity_kind_name service_entity_kind]>
      (<[("product" : rstr) := product]> (<[("source" : rstr) := path]> ∅))).

Definition network_config_markers : list RuntimeMapNode :=
  let present := filterb (λ marker : rstr * rstr, hv_exists marker.2) in
  ((λ marker, network_marker_node marker RP_ReverseProxy RN_ReverseProxy SE_ReverseProxy "reverse_proxy_config")
   <$> present reverse_proxy_markers) ++
  ((λ marker, network_marker_node marker RP_LocalDns RN_LocalDnsResolver SE_DnsProvider "local_dns_config")
   <$> present local_dns_markers).

Definition collect_network_config_markers (c : ProviderCollection) : ProviderCollection :=
  extend_nodes c network_config_markers.

Definition network_container_id (container : ContainerRecord) (product : rstr) : rstr :=
  collision_resistant_id_component product +s+ "_container_" +s+ collision_resistant_id_component (c_id container).

Definition network_container_node (container : ContainerRecord) (provider : RuntimeProviderKind)
    (kind : RuntimeNodeKind) (product : rstr) : RuntimeMapNode :=
  let service_entity_kind :=
    match kind with
    | RN_ReverseProxy => SE_ReverseProxy
    | RN_LocalDnsResolver | RN_DnsProvider => SE_DnsProvider
    | _ => SE_Service
    end in
  {| rn_id := network_container_id container product; rn_provider := provider; rn_kind := kind;
     rn_label := product +s+ ": " +s+ c_name container; rn_status := Some (c_status container);
     rn_layer := Some L_Container;
     rn_metadata := <[("serviceEntityKind" : rstr) := service_entity_kind_name service_entity_kind]>
       (<[("image" : rstr) := c_image container]> (<[("container" : rstr) := c_name container]>
         (<[("product" : rstr) := product]> ∅)));
     rn_service := Some (service_minimal (c_name container) (from_status_text (c_status container)));
     rn_package := None |}.

Definition network_container_edge (container : ContainerRecord) (product : rstr) : RuntimeMapEdge := {|
  re_source := network_container_id container product;
  re_target := "docker_container_" +s+ collision_resistant_id_component (c_id container);
  re_relationship := RR_RelatedTo; re_metadata := ∅; re_evidence_refs := [] |}.

Definition push_network_container_node (c : ProviderCollection) (container : ContainerRecord)
    (provider : RuntimeProviderKind) (kind : RuntimeNodeKind) (product : rstr) : ProviderCollection :=
  extend_edges (extend_nodes c [network_container_node container provider kind product])
    [network_container_edge container product].

Definition container_haystack (container : ContainerRecord) : rstr :=
  to_ascii_lowercase (c_name container) +s+ " " +s+ to_ascii_lowercase (c_image container) +s+ " "
  +s+ to_ascii_lowercase (c_role container).

Definition collect_network_container (c : ProviderCollection) (container : ContainerRecord) : ProviderCollection :=
  let haystack := container_haystack container in
  let c := match classify_reverse_proxy haystack with
           | Some product => push_network_container_node c container RP_ReverseProxy RN_ReverseProxy product
           | None => c
           end in
  let c := match classify_local_dns haystack with
           | Some product => push_network_container_node c container RP_LocalDns RN_LocalDnsResolver product
           | None => c
           end in
  let c := if contains haystack "tailscale" || contains haystack "tailscaled" then
             push_network_container_node c container RP_Tailscale RN_TailnetNode "Tailscale"
           else c in
  if contains haystack "headscale" then
    push_network_container_node c container RP_Headscale RN_TailnetNode "Headscale"
  else c.

Definition collect_network_containers (snapshot : DockerSnapshot) (c : ProviderCollection) : ProviderCollection :=
  foldl collect_network_container c (s_containers snapshot).

Definition restricted_network_messages : list (RuntimeProviderKind * rstr) :=
  [(RP_Tailscale, "Tailscale discovery skipped in restricted PID namespace" : rstr);
   (RP_Headscale, "Headscale discovery skipped in restricted PID namespace" : rstr);
   (RP_ReverseProxy, "Reverse-proxy configuration marker discovery skipped in restricted PID namespace" : rstr);
   (RP_LocalDns, "Local DNS configuration marker discovery skipped in restricted PID namespace" : rstr)].

Definition push_messages (c : ProviderCollection) (messages : list (RuntimeProviderKind * rstr)) : ProviderCollection :=
  foldl (λ c '(provider, message), push_provider_diagnostic c provider Sev_Info message) c messages.

Definition collect_network_infrastructure (pid_namespace : PidNamespaceScope) (snapshot : DockerSnapshot)
    (c : ProviderCollection) : ProviderCollection :=
  if is_restricted pid_namespace then
    collect_network_containers snapshot (push_messages c restricted_network_messages)
  else
    let c := if provider_opt_in "DOCKERMAP_ENABLE_TAILSCALE" then collect_tailscale c
             else push_provider_diagnostic c RP_Tailscale Sev_Info
                    "Tailscale discovery disabled; set DOCKERMAP_ENABLE_TAILSCALE=true to opt in" in
    let c := if provider_opt_in "DOCKERMAP_ENABLE_HEADSCALE" then collect_headscale c
             else push_provider_diagnostic c RP_Headscale Sev_Info
                    "Headscale discovery disabled; set DOCKERMAP_ENABLE_HEADSCALE=true to opt in" in
    collect_network_containers snapshot (collect_network_config_markers c).
End network.

(** ** Theorems *)

Definition Row : Type := ContainerRecord * (RuntimeProviderKind * RuntimeNodeKind * rstr).

(** The services a container is classified as, in order. *)
Definition container_rows (container : ContainerRecord) : list Row :=
  let haystack := container_haystack container in
  (container,.) <$>
  (match classify_reverse_proxy haystack with Some p => [(RP_ReverseProxy, RN_ReverseProxy, p)] | None => [] end ++
   match classify_local_dns haystack with Some p => [(RP_LocalDns, RN_LocalDnsResolver, p)] | None => [] end ++
   (if contains haystack "tailscale" || contains haystack "tailscaled" then [(RP_Tailscale, RN_TailnetNode, "Tailscale" : rstr)] else []) ++
   (if contains haystack "headscale" then [(RP_Headscale, RN_TailnetNode, "Headscale" : rstr)] else [])).

Lemma filterb_ext {A} (f g : A → bool) l : (∀ x, f x = g x) → filterb f l = filterb g l.
Proof. intros E. induction l as [|x l IH]; cbn; [done|]. by rewrite E, IH. Qed.

Lemma app_eq_self {A} (l k : list A) : l ++ k = l → k = [].
Proof. intros E. apply (app_inv_head l). by rewrite app_nil_r. Qed.

Section network_theorems.
Context `{Sha256} `{JsonValues}.

Definition row_node (row : Row) : RuntimeMapNode :=
  let '(container, (provider, kind, product)) := row in network_container_node container provider kind product.

Definition row_edge (row : Row) : RuntimeMapEdge :=
  let '(container, (_, _, product)) := row in network_container_edge container product.

(** The collection extended with the nodes and edges of rows. *)
Definition with_rows (c : ProviderCollection) (rows : list Row) : ProviderCollection :=
  extend_edges (extend_nodes c (row_node <$> rows)) (row_edge <$> rows).

Lemma with_rows_nil c : with_rows c [] = c.
Proof. destruct c. unfold with_rows, extend_edges, extend_nodes. cbn. by rewrite !app_nil_r. Qed.

Lemma with_rows_app c a b : with_rows (with_rows c a) b = with_rows c (a ++ b).
Proof. unfold with_rows, extend_edges, extend_nodes. cbn. by rewrite !fmap_app, !app_assoc. Qed.

Lemma push_row c container provider kind product :
  push_network_container_node c container provider kind product = with_rows c [(container, (provider, kind, product))].
Proof. done. Qed.

Lemma collect_network_container_rows c container :
  collect_network_container c container = with_rows c (container_rows container).
Proof.
  unfold collect_network_container, container_rows. rewrite !fmap_app, <- !with_rows_app.
  destruct (classify_reverse_proxy _), (classify_local_dns _), (contains _ "tailscale" || contains _ "tailscaled"),
    (contains _ "headscale"); cbn [fmap list_fmap]; rewrite ?with_rows_nil, ?push_row; done.
Qed.

Lemma collect_network_containers_rows snapshot c :
  collect_network_containers snapshot c = with_rows c (s_containers snapshot ≫= container_rows).
Proof.
  unfold collect_network_containers. revert c. induction (s_containers snapshot) as [|container l IH]; intros c.
  - by rewrite with_rows_nil.
  - cbn [foldl]. rewrite IH, collect_network_container_rows, with_rows_app. done.
Qed.

Lemma push_messages_graph c messages :
  pc_nodes (push_messages c messages) = pc_nodes c ∧ pc_edges (push_messages c messages) = pc_edges c.
Proof.
  unfold push_messages. revert c. induction messages as [|[p m] messages IH]; intros c; [done|]. cbn [foldl].
  destruct (IH (push_provider_diagnostic c p Sev_Info m)) as [-> ->]. done.
Qed.

(** An overlay collection adds nodes of its own provider only, and no edges. *)
Definition overlay_only (provider : RuntimeProviderKind) (c c' : ProviderCollection) : Prop :=
  pc_edges c' = pc_edges c ∧ ∃ nodes, pc_nodes c' = pc_nodes c ++ nodes ∧ Forall (λ n, rn_provider n = provider) nodes.

Lemma overlay_diagnostic provider p c severity message :
  overlay_only provider c (push_provider_diagnostic c p severity message).
Proof. split; [done|]. exists []. by rewrite app_nil_r. Qed.

Lemma collect_overlay_only `{HostView} provider command skipped failed invalid read c :
  (∀ value, Forall (λ n, rn_provider n = provider) (read value)) →
  overlay_only provider c (collect_overlay provider command skipped failed invalid read c).
Proof.
  intros Hread. unfold collect_overlay. destruct (hv_run command) as [output|error]; [|apply overlay_diagnostic].
  destruct (negb (es_success (po_status output))); [apply overlay_diagnostic|].
  destruct (json_from_slice (po_stdout output)) as [value|]; [|apply overlay_diagnostic].
  split; [done|]. by exists (read value).
Qed.

Lemma imap_provider {A} (f : nat → A → RuntimeMapNode) provider l :
  (∀ i x, rn_provider (f i x) = provider) → Forall (λ n, rn_provider n = provider) (imap f l).
Proof. intros Hf. apply Forall_forall. intros n (i & x & -> & _)%elem_of_lookup_imap. apply Hf. Qed.

Lemma tailscale_nodes_provider value : Forall (λ n, rn_provider n = RP_Tailscale) (tailscale_nodes value).
Proof.
  unfold tailscale_nodes. apply Forall_app. split.
  - destruct (json_get value "Self"); by repeat constructor.
  - destruct (json_get value "Peer") as [v|]; [|constructor]. cbn [mbind option_bind].
    destruct (json_object_values v); [|constructor]. by apply imap_provider.
Qed.

Lemma headscale_nodes_provider value : Forall (λ n, rn_provider n = RP_Headscale) (headscale_nodes value).
Proof. unfold headscale_nodes. by apply imap_provider. Qed.

Lemma provider_opt_in_present (h : HostView) name : provider_opt_in name = true ↔ hv_env name = Present "true".
Proof. unfold provider_opt_in. rewrite bool_decide_eq_true. destruct (hv_env name); cbn; naive_solver. Qed.

(** The nodes of the host: of the two opted-in networks and the markers that are there. *)
Lemma network_host_nodes (host : HostView) scope snapshot c :
  let c' := collect_network_infrastructure scope snapshot c in
  ∃ host_nodes, pc_nodes c' = pc_nodes c ++ host_nodes ++ (row_node <$> (s_containers snapshot ≫= container_rows)) ∧
    (is_restricted scope = true → host_nodes = []) ∧
    ∀ n, n ∈ host_nodes →
      (rn_provider n = RP_Tailscale ∧ hv_env "DOCKERMAP_ENABLE_TAILSCALE" = Present "true") ∨
      (rn_provider n = RP_Headscale ∧ hv_env "DOCKERMAP_ENABLE_HEADSCALE" = Present "true") ∨
      ∃ product path, (product, path) ∈ reverse_proxy_markers ++ local_dns_markers ∧ hv_exists path = true ∧
        rn_label n = product ∧ rn_status n = Some ("configured" : rstr).
Proof.
  cbv zeta.
  unfold collect_network_infrastructure. destruct (is_restricted scope) eqn:Er.
  { exists []. rewrite collect_network_containers_rows. cbn [with_rows extend_edges extend_nodes pc_nodes].
    destruct (push_messages_graph c restricted_network_messages) as [-> _]. split_and!; [done|done|set_solver]. }
  set (c1 := if provider_opt_in "DOCKERMAP_ENABLE_TAILSCALE" then _ else _).
  set (c2 := if provider_opt_in "DOCKERMAP_ENABLE_HEADSCALE" then _ else _).
  assert (Ht : overlay_only RP_Tailscale c c1 ∧ (provider_opt_in "DOCKERMAP_ENABLE_TAILSCALE" = false → pc_nodes c1 = pc_nodes c)).
  { unfold c1. destruct (provider_opt_in "DOCKERMAP_ENABLE_TAILSCALE"); [split; [|done]|split; [apply overlay_diagnostic|done]].
    apply collect_overlay_only, tailscale_nodes_provider. }
  assert (Hh : overlay_only RP_Headscale c1 c2 ∧ (provider_opt_in "DOCKERMAP_ENABLE_HEADSCALE" = false → pc_nodes c2 = pc_nodes c1)).
  { unfold c2. destruct (provider_opt_in "DOCKERMAP_ENABLE_HEADSCALE"); [split; [|done]|split; [apply overlay_diagnostic|done]].
    apply collect_overlay_only, headscale_nodes_provider. }
  clearbody c1 c2. destruct Ht as [[_ (t & Et & Ht)] Ht0], Hh as [[_ (h & Eh & Hh)] Hh0].
  exists (t ++ h ++ network_config_markers). rewrite collect_network_containers_rows.
  cbn [with_rows extend_edges extend_nodes pc_nodes collect_network_config_markers]. split_and!; [|done|].
  + rewrite Eh, Et. by rewrite <- !app_assoc.
  + intros n [Hn|[Hn|Hn]%elem_of_app]%elem_of_app.
    * left. rewrite Forall_forall in Ht. split; [by apply Ht|]. apply provider_opt_in_present.
      destruct (provider_opt_in "DOCKERMAP_ENABLE_TAILSCALE"); [done|]. specialize (Ht0 eq_refl).
      rewrite Et in Ht0. apply app_eq_self in Ht0. rewrite Ht0 in Hn. by apply not_elem_of_nil in Hn.
    * right. left. rewrite Forall_forall in Hh. split; [by apply Hh|]. apply provider_opt_in_present.
      destruct (provider_opt_in "DOCKERMAP_ENABLE_HEADSCALE"); [done|]. specialize (Hh0 eq_refl).
      rewrite Eh in Hh0. apply app_eq_self in Hh0. rewrite Hh0 in Hn. by apply not_elem_of_nil in Hn.
    * do 2 right. unfold network_config_markers in Hn.
      apply elem_of_app in Hn as [Hn|Hn]; apply list_elem_of_fmap in Hn as ([product path] & -> & Hm);
        apply elem_of_filterb in Hm as [He Hm]; exists product, path; rewrite elem_of_app;
        (split; [by eauto|done]).
Qed.

Lemma network_edges (host : HostView) scope snapshot c :
  pc_edges (collect_network_infrastructure scope snapshot c)
  = pc_edges c ++ (row_edge <$> (s_containers snapshot ≫= container_rows)).
Proof.
  unfold collect_network_infrastructure. rewrite !collect_network_containers_rows.
  destruct (is_restricted scope).
  { cbn [with_rows extend_edges extend_nodes pc_edges].
    by destruct (push_messages_graph c restricted_network_messages) as [_ ->]. }
  cbn [with_rows extend_edges extend_nodes pc_edges collect_network_config_markers]. f_equal.
  assert (Ht : ∀ d, pc_edges (collect_tailscale d) = pc_edges d)
    by (intros d; apply (collect_overlay_only RP_Tailscale), tailscale_nodes_provider).
  assert (Hh : ∀ d, pc_edges (collect_headscale d) = pc_edges d)
    by (intros d; apply (collect_overlay_only RP_Headscale), headscale_nodes_provider).
  destruct (provider_opt_in "DOCKERMAP_ENABLE_TAILSCALE"), (provider_opt_in "DOCKERMAP_ENABLE_HEADSCALE");
    rewrite ?Hh, ?Ht; cbn [push_provider_diagnostic pc_edges]; rewrite ?Ht; reflexivity.
Qed.

(** C33: The network collection publishes each classified container with one node and one edge
    to its Docker node, in the order of the snapshot, whatever the scope. Nothing else has an
    edge. In a restricted PID namespace nothing of the host is published, and nothing depends
    on it; outside one, the tailscale and headscale commands matter only when the environment
    opts in with exactly [true], and every other host node is a fixed marker that exists. *)
Theorem network_collection_spec (host : HostView) scope snapshot c :
  let c' := collect_network_infrastructure scope snapshot c in
  let rows := s_containers snapshot ≫= container_rows in
  (∃ host_nodes, pc_nodes c' = pc_nodes c ++ host_nodes ++ (row_node <$> rows) ∧
     (is_restricted scope = true → host_nodes = []) ∧
     ∀ n, n ∈ host_nodes →
       (rn_provider n = RP_Tailscale ∧ hv_env "DOCKERMAP_ENABLE_TAILSCALE" = Present "true") ∨
       (rn_provider n = RP_Headscale ∧ hv_env "DOCKERMAP_ENABLE_HEADSCALE" = Present "true") ∨
       ∃ product path, (product, path) ∈ reverse_proxy_markers ++ local_dns_markers ∧ hv_exists path = true ∧
         rn_label n = product ∧ rn_status n = Some ("configured" : rstr)) ∧
  pc_edges c' = pc_edges c ++ (row_edge <$> rows) ∧
  (∀ row, re_source (row_edge row) = rn_id (row_node row)) ∧
  (∀ other : HostView, is_restricted scope = true →
     @collect_network_infrastructure _ other _ scope snapshot c = c') ∧
  (∀ other : HostView, (∀ name, @hv_env other name = @hv_env host name) →
     (∀ path, @hv_exists other path = @hv_exists host path) →
     @hv_env host "DOCKERMAP_ENABLE_TAILSCALE" ≠ Present "true" →
     @hv_env host "DOCKERMAP_ENABLE_HEADSCALE" ≠ Present "true" →
     @collect_network_infrastructure _ other _ scope snapshot c = c').
Proof.
  intros c' rows. split_and!; [by apply network_host_nodes|by apply network_edges|..].
  - by intros [container [[provider kind] product]].
  - intros other Hr. unfold c', collect_network_infrastructure. by rewrite Hr.
  - intros other Henv Hex Hnt Hnh. unfold c', collect_network_infrastructure. destruct (is_restricted scope); [done|].
    assert (Hoff : ∀ name, @hv_env host name ≠ Present "true" → @provider_opt_in host name = false ∧ @provider_opt_in other name = false).
    { intros name Hn. split; apply not_true_is_false; rewrite provider_opt_in_present; [done|by rewrite Henv]. }
    destruct (Hoff _ Hnt) as [-> ->], (Hoff _ Hnh) as [-> ->]. f_equal. unfold collect_network_config_markers, network_config_markers.
    f_equal. f_equal; f_equal; apply filterb_ext; intros marker; apply Hex.
Qed.
End network_theorems.
