(* ===== verification/Npm.v ===== *)
(** * npm projects ([crates/dockermap-daemon/src/providers/npm.rs])

    The bounded walk below the project root, the manifests read descriptor by descriptor without
    following links, and what is published of a project. Directories and descriptors answer
    through [NpmFiles], whose [nf_manifest] is [serde_json::from_str] at the manifest type. *)

From S2P Require Import Prelude RustStr RustNum Models Serial Identity Evidence Redaction Publication Graph RuntimeTopology Scheduler Utf8 Boundary Paths Order HostFiles Providers.

Definition MAX_DISCOVERY_DIRS : nat := 4096.
Definition MAX_NPM_PROJECTS : nat := 64.
Definition MAX_NPM_DEPENDENCIES_PER_PROJECT : nat := 64.
Definition MAX_PACKAGE_JSON_BYTES : N := 262144.
Definition MAX_NPM_SCRIPTS : nat := 16.
Definition MAX_SCRIPT_CHARS : nat := 200.

Record PackageDependencyRecord := { pd_name : rstr; pd_version : rstr; pd_scope : rstr }.

Record NpmProjectSummary := {
  np_directory : rstr;
  np_package_name : option rstr;
  np_display_name : rstr;
  np_kind : RuntimeNodeKind;
  np_service_entity_kind : ServiceEntityKind;
  np_package_manager : option rstr;
  np_lockfiles : list rstr;
  np_dependencies : list PackageDependencyRecord;
  np_scripts : gmap rstr rstr;
  np_framework_hints : list rstr;
  np_private : bool
}.

Record PackageManifestDocument := {
  pm_name : option rstr;
  pm_private : bool;
  pm_package_manager : option rstr;
  pm_scripts : gmap rstr rstr;
  pm_dependencies : gmap rstr rstr;
  pm_optional_dependencies : gmap rstr rstr;
  pm_peer_dependencies : gmap rstr rstr;
  pm_dev_dependencies : gmap rstr rstr
}.

(** [DirEntry::file_type]. *)
Inductive FileType := Ft_dir | Ft_file | Ft_other.

Inductive OpenError := Open_not_found | Open_error (text : rstr).

(** What the host answers: the entries of a directory in the order of its iteration ([None] is
    an entry that cannot be read, then its name and its type), canonical paths, and [openat]
    from a descriptor, with [O_NOFOLLOW]. *)
Class NpmFiles := {
  nf_descriptor : Type;
  nf_read_dir : rstr → list (option (rstr * option FileType)) + rstr;
  nf_canonicalize : rstr → rstr + rstr;
  nf_open_root : nf_descriptor + rstr;
  nf_openat_directory : nf_descriptor → rstr → nf_descriptor + rstr;
  nf_openat_file : nf_descriptor → rstr → OpenFile + OpenError;
  nf_manifest : rstr → PackageManifestDocument + rstr
}.

(** ** Manifests *)

Definition should_skip_discovery_dir (name : rstr) : bool :=
  one_of name (lit <$> [".git"; ".hg"; ".svn"; "node_modules"; "dist"; "build"; "target"; "coverage"; ".next";
                        ".turbo"; ".yarn"; ".pnpm-store"; ".venv"; "venv"; "__pycache__"]).

Definition is_node_lockfile (name : rstr) : bool :=
  one_of name (lit <$> ["package-lock.json"; "npm-shrinkwrap.json"; "pnpm-lock.yaml"; "yarn.lock"]).

(** [collect_dependency_scope]. *)
Definition dependency_scope (scope : rstr) (entries : gmap rstr rstr) : list PackageDependencyRecord :=
  (λ '(name, version), {| pd_name := redact_sensitive_text name; pd_version := redact_sensitive_text version;
                          pd_scope := scope |}) <$> btree_iter entries.

Definition package_manifest_dependencies (m : PackageManifestDocument) : list PackageDependencyRecord :=
  take MAX_NPM_DEPENDENCIES_PER_PROJECT
    (dependency_scope "dependencies" (pm_dependencies m)
     ++ dependency_scope "optional_dependencies" (pm_optional_dependencies m)
     ++ dependency_scope "peer_dependencies" (pm_peer_dependencies m)
     ++ dependency_scope "dev_dependencies" (pm_dev_dependencies m)).

Definition classify_package_manifest (m : PackageManifestDocument) : RuntimeNodeKind * ServiceEntityKind :=
  let haystack :=
    to_ascii_lowercase <$>
      (opt_strings (pm_name m) ++ btree_keys (pm_scripts m) ++ btree_values (pm_scripts m)
       ++ btree_keys (pm_dependencies m) ++ btree_keys (pm_optional_dependencies m)
       ++ btree_keys (pm_peer_dependencies m) ++ btree_keys (pm_dev_dependencies m)) in
  if existsb looks_like_ai_agent haystack then (RN_AiAgent, SE_AiAgent)
  else (RN_NodeApplication, SE_NodeApplication).

Definition FRAMEWORK_MARKERS : list (rstr * rstr) :=
  (λ '(marker, name), (lit marker, lit name)) <$>
  [("@nestjs/core", "NestJS"); ("@remix-run/react", "Remix"); ("@sveltejs/kit", "SvelteKit");
   ("@vitejs/plugin-react", "Vite"); ("angular/core", "Angular"); ("astro", "Astro"); ("docusaurus", "Docusaurus");
   ("electron", "Electron"); ("expo", "Expo"); ("express", "Express"); ("fastify", "Fastify"); ("gatsby", "Gatsby");
   ("hono", "Hono"); ("next", "Next.js"); ("nuxt", "Nuxt"); ("react", "React"); ("solid-js", "Solid");
   ("svelte", "Svelte"); ("tauri", "Tauri"); ("vite", "Vite"); ("vue", "Vue")].

(** The loop over the markers. *)
Fixpoint framework_hints_loop (haystacks hints : list rstr) (markers : list (rstr * rstr)) : list rstr :=
  match markers with
  | [] => hints
  | (marker, name) :: markers =>
      if (4 <=? length hints)%nat then hints
      else framework_hints_loop haystacks
             (if existsb (λ value, contains value marker) haystacks && negb (one_of name hints) then hints ++ [name]
              else hints) markers
  end.

Definition classify_package_frameworks (m : PackageManifestDocument) : list rstr :=
  framework_hints_loop
    (btree_keys (pm_scripts m) ++ btree_keys (pm_dependencies m) ++ btree_keys (pm_dev_dependencies m)
     ++ btree_keys (pm_optional_dependencies m) ++ btree_keys (pm_peer_dependencies m)) [] FRAMEWORK_MARKERS.

(** The map is collected in the order of the names: of names that redact alike the last stays. *)
Definition bounded_package_scripts (scripts : gmap rstr rstr) : gmap rstr rstr :=
  foldl (λ m '(name, script),
    <[redact_sensitive_text name := truncate_chars (redact_sensitive_text script) MAX_SCRIPT_CHARS]> m)
  ∅ (take MAX_NPM_SCRIPTS (btree_iter scripts)).

(** ** Reading a manifest beneath the root *)

Section files.
Context `{NpmFiles}.

Definition open_directory_at_no_follow (parent : nf_descriptor) (name : rstr) : nf_descriptor + rstr :=
  if one_of 0%N name then inr ("npm project path contains NUL" : rstr)
  else match nf_openat_directory parent name with
       | inl descriptor => inl descriptor
       | inr error => inr ("cannot open npm project directory: " +s+ error)
       end.

(** The loop over the components of the canonical root; [RootDir] stays at the descriptor. *)
Fixpoint open_canonical_components (current : nf_descriptor) (l : list Component) : nf_descriptor + rstr :=
  match l with
  | [] => inl current
  | RootDir :: l => open_canonical_components current l
  | Normal name :: l =>
      match open_directory_at_no_follow current name with
      | inl current => open_canonical_components current l
      | inr error => inr error
      end
  | _ :: _ => inr ("configured project root is ambiguous" : rstr)
  end.

Definition open_canonical_directory_no_follow (path : rstr) : nf_descriptor + rstr :=
  if negb (is_absolute path) then inr ("configured project root is not absolute" : rstr)
  else match nf_open_root with
       | inr error => inr ("cannot open filesystem root: " +s+ error)
       | inl current => open_canonical_components current (components path)
       end.

Fixpoint open_relative_components (parent : nf_descriptor) (l : list Component) : nf_descriptor + rstr :=
  match l with
  | [] => inl parent
  | Normal name :: l =>
      match open_directory_at_no_follow parent name with
      | inl parent => open_relative_components parent l
      | inr error => inr error
      end
  | _ :: _ => inr ("npm project path is ambiguous" : rstr)
  end.

Definition manifest_too_large : rstr := "package manifest exceeds " +s+ dec_str MAX_PACKAGE_JSON_BYTES +s+ " bytes".

(** The checks of an open manifest, and its document. *)
Definition read_open_manifest (file : OpenFile) : PackageManifestDocument + rstr :=
  match of_metadata file with
  | inr error => inr ("cannot inspect package manifest: " +s+ error)
  | inl (is_file, len) =>
      if negb is_file then inr ("package manifest is not a regular file" : rstr)
      else if (MAX_PACKAGE_JSON_BYTES <? len)%N then inr manifest_too_large
      else match read_limited MAX_PACKAGE_JSON_BYTES file with
           | inr error => inr ("cannot read package manifest: " +s+ error)
           | inl content =>
               if (MAX_PACKAGE_JSON_BYTES <? N.of_nat (str_len content))%N then inr manifest_too_large
               else match nf_manifest content with
                    | inl manifest => inl manifest
                    | inr error => inr ("invalid package manifest JSON: " +s+ error)
                    end
           end
  end.

Definition read_package_manifest_beneath (project_root directory : rstr)
    : option PackageManifestDocument + rstr :=
  match path_strip_prefix directory project_root with
  | None => inr ("npm project `" +s+ directory +s+ "` is outside configured project root")
  | Some relative =>
      match nf_canonicalize project_root with
      | inr error => inr ("cannot resolve configured project root: " +s+ error)
      | inl canonical_root =>
          match open_canonical_directory_no_follow canonical_root with
          | inr error => inr error
          | inl root =>
              match open_relative_components root relative with
              | inr error => inr error
              | inl parent =>
                  match nf_openat_file parent "package.json" with
                  | inr Open_not_found => inl None
                  | inr (Open_error error) => inr ("cannot open package manifest: " +s+ error)
                  | inl file =>
                      match read_open_manifest file with
                      | inl manifest => inl (Some manifest)
                      | inr error => inr error
                      end
                  end
              end
          end
      end
  end.

(** ** Projects *)

(** [directory.strip_prefix(project_root).unwrap_or(directory)], as text. *)
Definition relative_text (project_root directory : rstr) : rstr :=
  match path_strip_prefix directory project_root with
  | Some relative => join [SLASH] (as_os_str <$> relative)
  | None => directory
  end.

Definition non_empty (o : option rstr) : option rstr := v ← o; if negb (v == []) then Some v else None.

Definition project_summary (project_root directory : rstr) (lockfiles : list rstr)
    (manifest : option PackageManifestDocument) : NpmProjectSummary :=
  let relative_path := relative_text project_root directory in
  let name := m ← manifest; pm_name m in
  let display_name :=
    default (if relative_path == [] then "project-root" : rstr else relative_path)
      (non_empty (or_else name (file_name directory))) in
  let '(kind, service_entity_kind) :=
    from_option classify_package_manifest (RN_NodeApplication, SE_NodeApplication) manifest in
  {| np_directory := directory;
     np_package_name := redact_sensitive_text <$> name;
     np_display_name := redact_sensitive_text display_name;
     np_kind := kind;
     np_service_entity_kind := service_entity_kind;
     np_package_manager := redact_sensitive_text <$> (m ← manifest; pm_package_manager m);
     np_lockfiles := lockfiles;
     np_dependencies := from_option package_manifest_dependencies [] manifest;
     np_scripts := from_option (λ m, bounded_package_scripts (pm_scripts m)) ∅ manifest;
     np_framework_hints := from_option classify_package_frameworks [] manifest;
     np_private := from_option pm_private false manifest |}.

Definition summarize_npm_project (project_root directory : rstr) (lockfiles : list rstr)
    : option NpmProjectSummary + rstr :=
  match read_package_manifest_beneath project_root directory with
  | inr error => inr error
  | inl manifest =>
      if is_none manifest && (lockfiles == []) then inl None
      else inl (Some (project_summary project_root directory lockfiles manifest))
  end.

(** ** Discovery *)

(** What is gathered of the entries of one directory. *)
Record Listing := { li_child_dirs : list rstr; li_has_package_json : bool; li_lockfiles : list rstr }.

Definition no_entries : Listing := {| li_child_dirs := []; li_has_package_json := false; li_lockfiles := [] |}.

Definition list_entry (directory : rstr) (l : Listing) (entry : option (rstr * option FileType)) : Listing :=
  match entry with
  | None | Some (_, None) | Some (_, Some Ft_other) => l
  | Some (name, Some Ft_dir) =>
      if should_skip_discovery_dir name then l
      else {| li_child_dirs := li_child_dirs l ++ [path_push directory name];
              li_has_package_json := li_has_package_json l; li_lockfiles := li_lockfiles l |}
  | Some (name, Some Ft_file) =>
      if name == ("package.json" : rstr) then
        {| li_child_dirs := li_child_dirs l; li_has_package_json := true; li_lockfiles := li_lockfiles l |}
      else if is_node_lockfile name then
        {| li_child_dirs := li_child_dirs l; li_has_package_json := li_has_package_json l;
           li_lockfiles := li_lockfiles l ++ [name] |}
      else l
  end.

Definition list_directory (directory : rstr) (entries : list (option (rstr * option FileType))) : Listing :=
  foldl (list_entry directory) no_entries entries.

(** The variables of the loop; the top of the stack [pending] is the head of the list. *)
Record Discovery := {
  ds_projects : list NpmProjectSummary;
  ds_pending : list rstr;
  ds_visited : nat;
  ds_collection : ProviderCollection
}.

Definition npm_diagnostic (c : ProviderCollection) (severity : DiagnosticSeverity) (message : rstr) : ProviderCollection :=
  push_provider_diagnostic c RP_Npm severity message.

(** The match on [summarize_npm_project]. *)
Definition add_project (project_root directory : rstr) (lockfiles : list rstr) (s : Discovery) : Discovery :=
  match summarize_npm_project project_root directory lockfiles with
  | inl (Some project) =>
      {| ds_projects := ds_projects s ++ [project]; ds_pending := ds_pending s; ds_visited := ds_visited s;
         ds_collection := ds_collection s |}
  | inl None => s
  | inr error =>
      {| ds_projects := ds_projects s; ds_pending := ds_pending s; ds_visited := ds_visited s;
         ds_collection := npm_diagnostic (ds_collection s) Sev_Warning
           ("npm project `" +s+ directory +s+ "` skipped: " +s+ error) |}
  end.

(** The body of the loop for one directory: the next state, and whether the loop goes on. *)
Definition visit_directory (project_root directory : rstr) (s : Discovery) : Discovery * bool :=
  let stop message :=
    {| ds_projects := ds_projects s; ds_pending := ds_pending s; ds_visited := ds_visited s;
       ds_collection := npm_diagnostic (ds_collection s) Sev_Info message |} in
  if (MAX_DISCOVERY_DIRS <? ds_visited s)%nat then
    (stop ("npm discovery capped at " +s+ dec_str (N.of_nat MAX_DISCOVERY_DIRS) +s+ " directories"), false)
  else match nf_read_dir directory with
       | inr error => (stop ("npm discovery skipped `" +s+ directory +s+ "`: " +s+ error), true)
       | inl entries =>
           let l := list_directory directory entries in
           let pushed d :=
             {| ds_projects := ds_projects s; ds_pending := sort_by path_leb (li_child_dirs l) ++ ds_pending s;
                ds_visited := ds_visited s; ds_collection := d |} in
           if negb (li_has_package_json l) && (li_lockfiles l == []) then (pushed (ds_collection s), true)
           else if (MAX_NPM_PROJECTS <=? length (ds_projects s))%nat then
             (pushed (npm_diagnostic (ds_collection s) Sev_Info
                ("npm discovery capped at " +s+ dec_str (N.of_nat MAX_NPM_PROJECTS) +s+ " projects")), false)
           else (add_project project_root directory (li_lockfiles l) (pushed (ds_collection s)), true)
       end.

(** One turn of the loop. *)
Definition discover_step (project_root : rstr) (s : Discovery) : Discovery * bool :=
  match ds_pending s with
  | [] => (s, false)
  | directory :: pending =>
      visit_directory project_root directory
        {| ds_projects := ds_projects s; ds_pending := pending; ds_visited := S (ds_visited s);
           ds_collection := ds_collection s |}
  end.

(** [None] when the fuel is used up before the loop ends. *)
Fixpoint discover_loop (fuel : nat) (project_root : rstr) (s : Discovery) : option Discovery :=
  match fuel with
  | 0 => None
  | S fuel =>
      let '(s, continue) := discover_step project_root s in
      if continue then discover_loop fuel project_root s else Some s
  end.

Definition discovery_start (project_root : rstr) (c : ProviderCollection) : Discovery :=
  {| ds_projects := []; ds_pending := [project_root]; ds_visited := 0; ds_collection := c |}.

Definition directory_leb (a b : NpmProjectSummary) : bool := path_leb (np_directory a) (np_directory b).

(** Turns that are enough: each visits a directory, and the visit beyond the cap is the last. *)
Definition DISCOVERY_FUEL : nat := MAX_DISCOVERY_DIRS + 1.

Definition discover_npm_projects (project_root : rstr) (c : ProviderCollection)
    : option (list NpmProjectSummary * ProviderCollection) :=
  s ← discover_loop DISCOVERY_FUEL project_root (discovery_start project_root c);
  Some (sort_by directory_leb (ds_projects s), ds_collection s).
End files.

(** ** What is published *)

Section published.
Context `{Sha256} `{NpmFiles}.

Definition scripts_text (scripts : gmap rstr rstr) : rstr :=
  join " | " ((λ '(name, script), name +s+ "=" +s+ script) <$> btree_iter scripts).

Definition project_metadata (relative_path : rstr) (p : NpmProjectSummary) : gmap rstr rstr :=
  let m := <[("private" : rstr) := bool_text (np_private p)]>
    (<[("serviceEntityKind" : rstr) := service_entity_kind_name (np_service_entity_kind p)]>
    (<[("path" : rstr) := relative_path]> ∅)) in
  let m := insert_some "packageName" (np_package_name p) m in
  let m := insert_some "packageManager" (np_package_manager p) m in
  let m := if np_lockfiles p == [] then m else <[("lockfiles" : rstr) := join "," (np_lockfiles p)]> m in
  let m := if np_framework_hints p == [] then m else <[("frameworks" : rstr) := join "," (np_framework_hints p)]> m in
  if btree_iter (np_scripts p) == [] then m
  else <[("scripts" : rstr) := truncate_chars (scripts_text (np_scripts p)) 1600]> m.

Definition project_id (project_root : rstr) (index : nat) (p : NpmProjectSummary) : rstr :=
  "npm_project_" +s+ safe_runtime_id_component (relative_text project_root (np_directory p))
                       ("project_" +s+ dec_str (N.of_nat index)).

Definition project_node (project_root : rstr) (index : nat) (p : NpmProjectSummary) : RuntimeMapNode :=
  plain_node (project_id project_root index p) RP_Npm (np_kind p) (np_display_name p) (Some ("discovered" : rstr))
    L_Package (project_metadata (relative_text project_root (np_directory p)) p).

Definition host_edges (scope : PidNamespaceScope) (node_id : rstr) : list RuntimeMapEdge :=
  if negb (is_restricted scope) then
    [{| re_source := node_id; re_target := "host_local"; re_relationship := RR_RunsOn; re_metadata := ∅;
        re_evidence_refs := [] |}]
  else [].

Definition package_id (index : nat) (d : PackageDependencyRecord) : rstr :=
  let safe_version := redact_sensitive_text (pd_version d) in
  "npm_package_" +s+ safe_runtime_id_component (redact_sensitive_text (pd_name d)) "package" +s+ "_"
  +s+ (if safe_version == REDACTED_VALUE then "redacted_" +s+ dec_str (N.of_nat index)
       else safe_runtime_id_component safe_version "version").

Definition package_node (index : nat) (d : PackageDependencyRecord) : RuntimeMapNode :=
  let safe_package_name := redact_sensitive_text (pd_name d) in
  let safe_version := redact_sensitive_text (pd_version d) in
  {| rn_id := package_id index d; rn_provider := RP_Npm; rn_kind := RN_PackageDependency;
     rn_label := safe_package_name; rn_status := None; rn_layer := Some L_Package;
     rn_metadata :=
       <[("serviceEntityKind" : rstr) := service_entity_kind_name SE_PackageDependency]>
       (<[("scope" : rstr) := redact_sensitive_text (pd_scope d)]>
       (<[("version" : rstr) := safe_version]> (<[("package" : rstr) := safe_package_name]> ∅)));
     rn_service := None; rn_package := Some (package_minimal safe_package_name safe_version) |}.

Definition dependency_edge (node_id : rstr) (index : nat) (d : PackageDependencyRecord) : RuntimeMapEdge := {|
  re_source := node_id; re_target := package_id index d; re_relationship := RR_DependsOn;
  re_metadata :=
    <[NPM_EVIDENCE_DEPENDENCY_MARKER := ("declared" : rstr)]>
    (<[("scope" : rstr) := redact_sensitive_text (pd_scope d)]>
    (<[("version" : rstr) := redact_sensitive_text (pd_version d)]> ∅));
  re_evidence_refs := [] |}.

Fixpoint publish_dependencies (node_id : rstr) (index : nat) (l : list PackageDependencyRecord)
    (c : ProviderCollection) : ProviderCollection :=
  match l with
  | [] => c
  | d :: l =>
      publish_dependencies node_id (S index) l
        (extend_edges (extend_nodes c [package_node index d]) [dependency_edge node_id index d])
  end.

Definition publish_project (project_root : rstr) (scope : PidNamespaceScope) (index : nat) (p : NpmProjectSummary)
    (c : ProviderCollection) : ProviderCollection :=
  let node_id := project_id project_root index p in
  let c := extend_nodes c [project_node project_root index p] in
  let c := extend_edges c (host_edges scope node_id) in
  publish_dependencies node_id 0 (np_dependencies p) c.

Fixpoint publish_projects (project_root : rstr) (scope : PidNamespaceScope) (index : nat)
    (l : list NpmProjectSummary) (c : ProviderCollection) : ProviderCollection :=
  match l with
  | [] => c
  | p :: l => publish_projects project_root scope (S index) l (publish_project project_root scope index p c)
  end.

Definition collect_npm_projects (project_root : rstr) (scope : PidNamespaceScope) (c : ProviderCollection)
    : option ProviderCollection :=
  '(projects, c) ← discover_npm_projects project_root c;
  Some (publish_projects project_root scope 0 projects c).
End published.

(** ** Theorems: discovery *)

Section discovery_theorems.
Context `{Sha256} `{NpmFiles}.

(** The directories the walk may reach: the root, and a listed directory of a reached one unless
    its name is skipped. *)
Inductive discovered (root : rstr) : rstr → Prop :=
  | discovered_root : discovered root root
  | discovered_child directory entries name :
      discovered root directory → nf_read_dir directory = inl entries →
      Some (name, Some Ft_dir) ∈ entries → should_skip_discovery_dir name = false →
      discovered root (path_push directory name).

(** A project of the result: where it was found, and that its manifest was read beneath the root. *)
Definition found_project (root : rstr) (p : NpmProjectSummary) : Prop :=
  discovered root (np_directory p) ∧
  ∃ manifest lockfiles, read_package_manifest_beneath root (np_directory p) = inl manifest ∧
    p = project_summary root (np_directory p) lockfiles manifest ∧ Forall (λ name, is_node_lockfile name = true) lockfiles.

(** What each turn keeps; only diagnostics are added to the collection [c]. *)
Definition discovery_ok (root : rstr) (c : ProviderCollection) (s : Discovery) : Prop :=
  Forall (found_project root) (ds_projects s) ∧ Forall (discovered root) (ds_pending s) ∧
  length (ds_projects s) ≤ MAX_NPM_PROJECTS ∧
  pc_nodes (ds_collection s) = pc_nodes c ∧ pc_edges (ds_collection s) = pc_edges c ∧
  pc_states (ds_collection s) = pc_states c.

Lemma list_directory_spec directory entries :
  let l := list_directory directory entries in
  (∀ child, child ∈ li_child_dirs l → ∃ name, child = path_push directory name ∧
     Some (name, Some Ft_dir) ∈ entries ∧ should_skip_discovery_dir name = false) ∧
  Forall (λ name, is_node_lockfile name = true) (li_lockfiles l).
Proof.
  unfold list_directory. induction entries as [|entry entries IH] using rev_ind;
    [split; [by intros ? ?%elem_of_nil|constructor]|].
  cbv zeta in *. rewrite foldl_app. cbn [foldl]. destruct IH as [IHc IHl].
  set (l := foldl (list_entry directory) no_entries entries) in *.
  assert (Hkeep : ∀ child, child ∈ li_child_dirs l → ∃ name, child = path_push directory name ∧
     Some (name, Some Ft_dir) ∈ entries ++ [entry] ∧ should_skip_discovery_dir name = false).
  { intros child Hin. apply IHc in Hin as (name & -> & Hin & Hs). exists name. rewrite elem_of_app. auto. }
  unfold list_entry. destruct entry as [[name [[]|]]|]; cbn [li_child_dirs li_lockfiles]; try (by split).
  - destruct (should_skip_discovery_dir name) eqn:Es; [by split|]. split; [|done]. cbn [li_child_dirs].
    intros child [Hin|Hin%list_elem_of_singleton]%elem_of_app; [by apply Hkeep|subst child].
    exists name. rewrite elem_of_app, list_elem_of_singleton. auto.
  - case_bool_decide; [by split|]. destruct (is_node_lockfile name) eqn:El; [|by split].
    split; [done|]. apply Forall_app_2; [done|]. by constructor.
Qed.

Lemma add_project_ok root directory lockfiles c s :
  discovered root directory → Forall (λ name, is_node_lockfile name = true) lockfiles →
  length (ds_projects s) < MAX_NPM_PROJECTS → discovery_ok root c s →
  discovery_ok root c (add_project root directory lockfiles s).
Proof.
  intros Hd Hl Hlen (Hp & Hpend & _ & Hn & He & Hs). unfold add_project, summarize_npm_project.
  destruct (read_package_manifest_beneath root directory) as [manifest|error] eqn:Er;
    [|unfold discovery_ok; cbn; split_and!; (done || lia)].
  destruct (is_none manifest && (lockfiles == [])); [by unfold discovery_ok; split_and!; (done || lia)|].
  unfold discovery_ok. cbn [ds_projects ds_pending ds_collection]. split_and!; try done.
  - apply Forall_app_2; [done|]. constructor; [|done].
    assert (Ed : np_directory (project_summary root directory lockfiles manifest) = directory)
      by (unfold project_summary; by destruct (from_option _ _ manifest)).
    unfold found_project. rewrite Ed. split; [done|]. eauto.
  - rewrite length_app. cbn [length]. lia.
Qed.

Lemma discover_step_ok root c s : discovery_ok root c s → discovery_ok root c (discover_step root s).1.
Proof.
  intros Hs. unfold discover_step. destruct (ds_pending s) as [|directory pending] eqn:Ep; [done|].
  destruct Hs as (Hp & Hpend & Hlen & Hn & He & Hst). rewrite Ep in Hpend. apply Forall_cons in Hpend as [Hd Hpend].
  unfold visit_directory. cbn [ds_visited ds_projects ds_pending ds_collection].
  destruct (_ <? _)%nat; [by split_and!|]. destruct (nf_read_dir directory) as [entries|error] eqn:Er; [|by split_and!].
  destruct (list_directory_spec directory entries) as [Hchild Hlock]. cbv zeta.
  set (l := list_directory directory entries) in *.
  assert (Hpush : Forall (discovered root) (sort_by path_leb (li_child_dirs l) ++ pending)).
  { apply Forall_app_2; [|done]. apply Forall_forall. intros child Hin%elem_of_sort_by. apply Hchild in Hin as (name & -> & Hin & Hskip).
    by eapply discovered_child. }
  destruct (_ && _); [by split_and!|]. destruct (MAX_NPM_PROJECTS <=? _)%nat eqn:Ecap; [by split_and!|].
  apply add_project_ok; [done|done|by apply Nat.leb_gt in Ecap|by split_and!].
Qed.

Lemma discover_step_visited root s s' :
  discover_step root s = (s', true) → ds_visited s' = S (ds_visited s) ∧ ds_visited s' ≤ MAX_DISCOVERY_DIRS.
Proof.
  unfold discover_step. destruct (ds_pending s) as [|directory pending]; [done|].
  unfold visit_directory. cbn [ds_visited ds_projects ds_pending ds_collection].
  destruct (MAX_DISCOVERY_DIRS <? S (ds_visited s))%nat eqn:Ev; [done|]. apply Nat.ltb_ge in Ev. cbv zeta.
  destruct (nf_read_dir directory); [|by intros [= <-]].
  destruct (_ && _); [by intros [= <-]|]. destruct (_ <=? _)%nat; [done|]. intros [= <-].
  unfold add_project, summarize_npm_project. repeat case_match; by cbn [ds_visited].
Qed.

Lemma discover_loop_total root c fuel s : discovery_ok root c s → 0 < fuel → MAX_DISCOVERY_DIRS < fuel + ds_visited s →
  ∃ s', (∀ more, discover_loop (fuel + more) root s = Some s') ∧ discovery_ok root c s'.
Proof.
  revert s. induction fuel as [|fuel IH]; intros s Hok Hpos Hf; [lia|].
  pose proof (discover_step_ok root c s Hok) as Hok'. cbn [discover_loop Nat.add].
  destruct (discover_step root s) as [s1 [|]] eqn:Es; cbn [fst] in Hok'; [|by exists s1].
  apply discover_step_visited in Es as [Ev Hv]. apply IH; [done|lia..].
Qed.

Lemma framework_hints_bounded haystacks hints markers :
  length hints ≤ 4 → length (framework_hints_loop haystacks hints markers) ≤ 4.
Proof.
  revert hints. induction markers as [|[marker name] markers IH]; intros hints Hl; cbn [framework_hints_loop]; [done|].
  destruct (4 <=? length hints)%nat eqn:E; [done|]. apply Nat.leb_gt in E. apply IH.
  destruct (_ && _); [|done]. rewrite length_app. cbn [length]. lia.
Qed.

Lemma bounded_scripts_size scripts : size (bounded_package_scripts scripts) ≤ MAX_NPM_SCRIPTS.
Proof.
  unfold bounded_package_scripts.
  assert (Hgen : ∀ (l : list (rstr * rstr)) (m : gmap rstr rstr),
    size (foldl (λ m '(name, script),
      <[redact_sensitive_text name := truncate_chars (redact_sensitive_text script) MAX_SCRIPT_CHARS]> m) m l)
    ≤ size m + length l).
  { induction l as [|[name script] l IH]; intros m; cbn [foldl length]; [lia|]. etrans; [apply IH|].
    rewrite map_size_insert. destruct (m !! _); cbn; lia. }
  etrans; [apply Hgen|]. rewrite map_size_empty, length_take. lia.
Qed.

Lemma project_summary_bounds root directory lockfiles manifest :
  let p := project_summary root directory lockfiles manifest in
  length (np_dependencies p) ≤ MAX_NPM_DEPENDENCIES_PER_PROJECT ∧ size (np_scripts p) ≤ MAX_NPM_SCRIPTS ∧
  length (np_framework_hints p) ≤ 4.
Proof.
  unfold project_summary. destruct manifest as [m|]; cbn [from_option]; [destruct (classify_package_manifest m)|];
    cbn [np_dependencies np_scripts np_framework_hints].
  - split_and!; [unfold package_manifest_dependencies; rewrite length_take; lia|apply bounded_scripts_size|].
    by apply framework_hints_bounded; cbn; lia.
  - rewrite map_size_empty. cbn. unfold MAX_NPM_DEPENDENCIES_PER_PROJECT, MAX_NPM_SCRIPTS. lia.
Qed.

Lemma discovery_result root c :
  ∃ s, (∀ fuel, MAX_DISCOVERY_DIRS < fuel → discover_loop fuel root (discovery_start root c) = Some s) ∧
    discover_npm_projects root c = Some (sort_by directory_leb (ds_projects s), ds_collection s) ∧
    discovery_ok root c s.
Proof.
  destruct (discover_loop_total root c DISCOVERY_FUEL (discovery_start root c)) as (s & Hloop & Hok).
  - unfold discovery_ok. cbn. unfold MAX_NPM_PROJECTS. split_and!; try (done || lia).
    constructor; [constructor|done].
  - unfold DISCOVERY_FUEL. lia.
  - unfold DISCOVERY_FUEL. cbn [ds_visited discovery_start]. lia.
  - exists s. split_and!; [| |done].
    + intros fuel Hfuel. rewrite <- (Hloop (fuel - DISCOVERY_FUEL)). f_equal. unfold DISCOVERY_FUEL. lia.
    + unfold discover_npm_projects. specialize (Hloop 0). rewrite Nat.add_0_r in Hloop. by rewrite Hloop.
Qed.

(** C34: The npm walk ends on every answer of the host: any fuel beyond the cap of directories
    gives the same result, also when the directories listed are cyclic or without end. The
    projects are at most 64, sorted by their paths; each was found in the root or in a directory
    reached from it by listed directories whose names are not skipped, and is the summary of a
    manifest read beneath the root, with at most 64 dependencies, 16 scripts and 4 frameworks.
    Only diagnostics are added to the collection. *)
Theorem npm_discovery_terminates root c :
  ∃ s, (∀ fuel, MAX_DISCOVERY_DIRS < fuel → discover_loop fuel root (discovery_start root c) = Some s) ∧
    let projects := sort_by directory_leb (ds_projects s) in
    discover_npm_projects root c = Some (projects, ds_collection s) ∧
    StronglySorted (λ p q, directory_leb p q = true) projects ∧
    length projects ≤ MAX_NPM_PROJECTS ∧
    Forall (λ p, found_project root p ∧ length (np_dependencies p) ≤ MAX_NPM_DEPENDENCIES_PER_PROJECT ∧
                 size (np_scripts p) ≤ MAX_NPM_SCRIPTS ∧ length (np_framework_hints p) ≤ 4) projects ∧
    pc_nodes (ds_collection s) = pc_nodes c ∧ pc_edges (ds_collection s) = pc_edges c ∧
    pc_states (ds_collection s) = pc_states c.
Proof.
  destruct (discovery_result root c) as (s & Hloop & Hd & Hp & _ & Hlen & Hgraph). exists s. cbv zeta.
  split_and!; [done|done| |by rewrite length_sort_by| |apply Hgraph..].
  - apply sort_by_sorted; unfold directory_leb; eauto using path_leb_total, path_leb_trans.
  - apply Forall_forall. intros p Hin%elem_of_sort_by. rewrite Forall_forall in Hp. specialize (Hp p Hin).
    split; [done|]. destruct Hp as (_ & manifest & lockfiles & _ & -> & _). apply project_summary_bounds.
Qed.
End discovery_theorems.

(** ** Theorems: manifests stay beneath the root *)

Section manifest_theorems.
Context `{NpmFiles}.

(** Opening names one below the other, never following a link. *)
Fixpoint descend (descriptor : nf_descriptor) (names : list rstr) : option nf_descriptor :=
  match names with
  | [] => Some descriptor
  | name :: names =>
      if decide (0%N ∈ name) then None
      else match nf_openat_directory descriptor name with
           | inl child => descend child names
           | inr _ => None
           end
  end.

Lemma descend_app descriptor names names' :
  descend descriptor (names ++ names') = parent ← descend descriptor names; descend parent names'.
Proof.
  revert descriptor. induction names as [|name names IH]; intros descriptor; [done|]. cbn [app descend].
  case_decide; [done|]. by destruct (nf_openat_directory descriptor name).
Qed.

Lemma open_directory_spec parent name child :
  open_directory_at_no_follow parent name = inl child ↔ 0%N ∉ name ∧ nf_openat_directory parent name = inl child.
Proof.
  unfold open_directory_at_no_follow. destruct (one_of 0%N name) eqn:E.
  - split; [done|]. intros [Hn _]. unfold one_of in E. apply bool_decide_eq_true in E. done.
  - unfold one_of in E. apply bool_decide_eq_false in E. destruct (nf_openat_directory parent name); naive_solver.
Qed.

Lemma open_relative_spec parent l child :
  open_relative_components parent l = inl child ↔
  ∃ names, l = Normal <$> names ∧ descend parent names = Some child.
Proof.
  revert parent. induction l as [|c l IH]; intros parent; cbn [open_relative_components].
  - split; [intros [= <-]; by exists []|]. intros ([|] & E & Hd); [|done]. cbn in Hd. congruence.
  - destruct c as [| | |name]; try (split; [done|]; intros ([|] & ? & _); done).
    split.
    + destruct (open_directory_at_no_follow parent name) as [next|] eqn:E; [|done].
      intros Hd. apply IH in Hd as (names & -> & Hd). apply open_directory_spec in E as [Hz E]. exists (name :: names).
      split; [done|]. cbn [descend]. by rewrite decide_False, E.
    + intros ([|name' names] & [= <- ->] & Hd). cbn [descend] in Hd. case_decide; [done|].
      destruct (nf_openat_directory parent name) as [next|] eqn:E; [|done].
      rewrite (proj2 (open_directory_spec parent name next)) by done. apply IH. by exists names.
Qed.

Lemma open_canonical_components_spec current l descriptor : RootDir ∉ l →
  open_canonical_components current l = inl descriptor ↔
  ∃ names, l = Normal <$> names ∧ descend current names = Some descriptor.
Proof.
  intros Hr. rewrite <- open_relative_spec. revert current. induction l as [|c l IH]; intros current; [done|].
  apply not_elem_of_cons in Hr as [Hc Hr]. cbn [open_canonical_components open_relative_components].
  destruct c; [done..|]. destruct (open_directory_at_no_follow current name); [by apply IH|done].
Qed.

Lemma open_canonical_spec path descriptor :
  open_canonical_directory_no_follow path = inl descriptor ↔
  ∃ top names, nf_open_root = inl top ∧ components path = RootDir :: (Normal <$> names) ∧
    descend top names = Some descriptor.
Proof.
  unfold open_canonical_directory_no_follow. pose proof (root_only_first path) as Hroot.
  unfold components. destruct (is_absolute path) eqn:Ea; cbn [negb app].
  - destruct nf_open_root as [top|]; [|split; [done|by intros (? & ? & [=] & _)]]. cbn [open_canonical_components].
    rewrite open_canonical_components_spec by done. split.
    + intros (names & -> & Hd). by exists top, names.
    + intros (? & names & [= <-] & [= ->] & Hd). by exists names.
  - split; [done|]. intros (_ & names & _ & E & _). exfalso.
    assert (Hin : RootDir ∈ RootDir :: (Normal <$> names)) by by left. rewrite <- E in Hin.
    apply elem_of_app in Hin as [Hin|Hin]; [|done]. destruct (path_pieces path); [by apply elem_of_nil in Hin|].
    case_bool_decide; [by apply list_elem_of_singleton in Hin|by apply elem_of_nil in Hin].
Qed.

Lemma read_open_manifest_spec file m :
  read_open_manifest file = inl m ↔
  ∃ len text, of_metadata file = inl (true, len) ∧ (len <= MAX_PACKAGE_JSON_BYTES)%N ∧
    read_limited MAX_PACKAGE_JSON_BYTES file = inl text ∧ (N.of_nat (str_len text) <= MAX_PACKAGE_JSON_BYTES)%N ∧
    nf_manifest text = inl m.
Proof.
  unfold read_open_manifest. destruct (of_metadata file) as [[[] len]|]; cbn [negb]; try naive_solver.
  destruct (N.ltb_spec MAX_PACKAGE_JSON_BYTES len) as [Hl|Hl].
  { split; [done|]. intros (? & ? & [= <-] & ? & _). lia. }
  destruct (read_limited MAX_PACKAGE_JSON_BYTES file) as [text|]; [|naive_solver].
  destruct (N.ltb_spec MAX_PACKAGE_JSON_BYTES (N.of_nat (str_len text))) as [Ht|Ht].
  { split; [done|]. intros (? & ? & _ & _ & [= <-] & ? & _). lia. }
  split.
  - destruct (nf_manifest text) eqn:Em; [|done]. intros [= <-]. by exists len, text.
  - intros (? & ? & _ & _ & [= <-] & _ & E). by rewrite E.
Qed.

(** C35: A manifest is read exactly when the directory lies below the project root by plain names,
    every name of the canonical root and then of the directory opens as a directory of the
    descriptor before it without following a link, from the root of the file system down, the
    last one holds a [package.json] that is a regular file within the byte limit, by its
    metadata and by what was read, and the text parses. So neither a link nor a [..]
    makes the walk read a manifest elsewhere. *)
Theorem npm_manifest_confined root directory m :
  read_package_manifest_beneath root directory = inl (Some m) ↔
  ∃ canonical top root_names names parent file len text,
    components directory = components root ++ (Normal <$> names) ∧
    nf_canonicalize root = inl canonical ∧ components canonical = RootDir :: (Normal <$> root_names) ∧
    nf_open_root = inl top ∧ descend top (root_names ++ names) = Some parent ∧
    nf_openat_file parent "package.json" = inl file ∧
    of_metadata file = inl (true, len) ∧ (len <= MAX_PACKAGE_JSON_BYTES)%N ∧
    read_limited MAX_PACKAGE_JSON_BYTES file = inl text ∧ (N.of_nat (str_len text) <= MAX_PACKAGE_JSON_BYTES)%N ∧
    nf_manifest text = inl m.
Proof.
  unfold read_package_manifest_beneath, path_strip_prefix. split.
  - destruct (strip_components _ _) as [relative|] eqn:Es; [|done]. apply strip_components_spec in Es.
    destruct (nf_canonicalize root) as [canonical|]; [|done].
    destruct (open_canonical_directory_no_follow canonical) as [base|] eqn:Eb; [|done].
    apply open_canonical_spec in Eb as (top & root_names & Et & Ec & Hd).
    destruct (open_relative_components base relative) as [parent|] eqn:Ep; [|done].
    apply open_relative_spec in Ep as (names & -> & Hd').
    destruct (nf_openat_file parent "package.json") as [file|[]] eqn:Ef; [|done..].
    destruct (read_open_manifest file) as [manifest|] eqn:Em; [|done]. intros [= ->].
    apply read_open_manifest_spec in Em as (len & text & ? & ? & ? & ? & ?).
    exists canonical, top, root_names, names, parent, file, len, text. split_and!; try done.
    rewrite descend_app, Hd. done.
  - intros (canonical & top & root_names & names & parent & file & len & text & Ed & -> & Ec & Et & Hd & Ef & Hm).
    rewrite (proj2 (strip_components_spec _ _ (Normal <$> names)) Ed). rewrite descend_app in Hd.
    destruct (descend top root_names) as [base|] eqn:Eb; [|done].
    rewrite (proj2 (open_canonical_spec canonical base)) by (exists top, root_names; done).
    rewrite (proj2 (open_relative_spec base (Normal <$> names) parent)) by (exists names; done).
    rewrite Ef. rewrite (proj2 (read_open_manifest_spec file m)); [done|]. exists len, text. exact Hm.
Qed.
End manifest_theorems.

(** ** Theorems: what is published *)

Section published_theorems.
Context `{Sha256} `{NpmFiles}.

Definition project_nodes (root : rstr) (index : nat) (p : NpmProjectSummary) : list RuntimeMapNode :=
  project_node root index p :: imap package_node (np_dependencies p).

Definition project_edges (root : rstr) (scope : PidNamespaceScope) (index : nat) (p : NpmProjectSummary)
    : list RuntimeMapEdge :=
  host_edges scope (project_id root index p) ++ imap (dependency_edge (project_id root index p)) (np_dependencies p).

Lemma publish_dependencies_spec node_id index l c :
  let c' := publish_dependencies node_id index l c in
  pc_nodes c' = pc_nodes c ++ imap (λ i, package_node (index + i)) l ∧
  pc_edges c' = pc_edges c ++ imap (λ i, dependency_edge node_id (index + i)) l ∧
  pc_diagnostics c' = pc_diagnostics c ∧ pc_states c' = pc_states c.
Proof.
  cbv zeta. revert index c. induction l as [|d l IH]; intros index c; cbn [publish_dependencies imap].
  - by rewrite !app_nil_r.
  - destruct (IH (S index) (extend_edges (extend_nodes c [package_node index d]) [dependency_edge node_id index d]))
      as (-> & -> & -> & ->).
    cbn [pc_nodes pc_edges pc_diagnostics pc_states extend_nodes extend_edges].
    rewrite <- !app_assoc. cbn [app]. rewrite !Nat.add_0_r. split_and!; try done; do 2 f_equal;
      apply imap_ext; intros i x _; cbn; by rewrite Nat.add_succ_r.
Qed.

Lemma publish_projects_spec root scope index l c :
  let c' := publish_projects root scope index l c in
  pc_nodes c' = pc_nodes c ++ concat (imap (λ i, project_nodes root (index + i)) l) ∧
  pc_edges c' = pc_edges c ++ concat (imap (λ i, project_edges root scope (index + i)) l) ∧
  pc_diagnostics c' = pc_diagnostics c ∧ pc_states c' = pc_states c.
Proof.
  cbv zeta. revert index c. induction l as [|p l IH]; intros index c; cbn [publish_projects imap concat].
  - by rewrite !app_nil_r.
  - destruct (IH (S index) (publish_project root scope index p c)) as (-> & -> & -> & ->).
    unfold publish_project.
    match goal with |- context [publish_dependencies ?n ?i ?ds ?d] =>
      destruct (publish_dependencies_spec n i ds d) as (-> & -> & -> & ->) end.
    cbn [pc_nodes pc_edges pc_diagnostics pc_states extend_nodes extend_edges].
    unfold project_nodes, project_edges. rewrite <- !app_assoc. cbn [app]. rewrite !Nat.add_0_r.
    split_and!; try done; do 4 f_equal; apply imap_ext; intros i x _; cbn; by rewrite Nat.add_succ_r.
Qed.

Lemma summary_label root directory lockfiles manifest :
  is_sensitive_text (np_display_name (project_summary root directory lockfiles manifest)) = false.
Proof. unfold project_summary. destruct (from_option _ _ manifest). apply redact_not_sensitive. Qed.

(** What the npm collection publishes, for the projects of the walk in their order: a node for
    each project and one for each of its dependencies, an edge from the project to the host
    unless the scope is restricted, and a marked edge from the project to each of its
    dependencies. So every edge starts at a published project and ends at the host or at a
    published package, only dependency edges carry the marker, and no label is sensitive text.
    The provider states are left alone. *)
Theorem npm_collection_spec root scope c :
  ∃ projects c1 c', discover_npm_projects root c = Some (projects, c1) ∧
    collect_npm_projects root scope c = Some c' ∧
    pc_nodes c' = pc_nodes c ++ concat (imap (project_nodes root) projects) ∧
    pc_edges c' = pc_edges c ++ concat (imap (project_edges root scope) projects) ∧
    pc_diagnostics c' = pc_diagnostics c1 ∧ pc_states c' = pc_states c ∧
    Forall (λ n, rn_provider n = RP_Npm ∧ is_sensitive_text (rn_label n) = false)
      (concat (imap (project_nodes root) projects)) ∧
    Forall (λ e,
      (∃ i p, projects !! i = Some p ∧ re_source e = rn_id (project_node root i p) ∧
        project_node root i p ∈ pc_nodes c') ∧
      ((re_relationship e = RR_RunsOn ∧ re_target e = "host_local" ∧ is_restricted scope = false ∧ re_metadata e = ∅) ∨
       (re_relationship e = RR_DependsOn ∧ re_metadata e !! NPM_EVIDENCE_DEPENDENCY_MARKER = Some ("declared" : rstr) ∧
        ∃ n, n ∈ pc_nodes c' ∧ rn_kind n = RN_PackageDependency ∧ rn_id n = re_target e)))
      (concat (imap (project_edges root scope) projects)).
Proof.
  destruct (discovery_result root c) as (s & _ & Ed & Hp & _ & _ & Hn & He & Hs).
  set (projects := sort_by directory_leb (ds_projects s)) in *. set (c1 := ds_collection s) in *.
  destruct (publish_projects_spec root scope 0 projects c1) as (Pn & Pe & Pd & Ps).
  exists projects, c1, (publish_projects root scope 0 projects c1).
  assert (Hnodes : pc_nodes (publish_projects root scope 0 projects c1)
    = pc_nodes c ++ concat (imap (project_nodes root) projects)) by (by rewrite Pn, Hn).
  assert (Hin : ∀ i p n, projects !! i = Some p → n ∈ project_nodes root i p →
    n ∈ pc_nodes (publish_projects root scope 0 projects c1)).
  { intros i p n Hi Hin. rewrite Hnodes. apply elem_of_app. right. eapply elem_of_concat_imap; eauto. }
  split_and!; [done| |done| |done|by rewrite Ps| |].
  - unfold collect_npm_projects. by rewrite Ed.
  - by rewrite Pe, He.
  - apply Forall_forall. intros n (i & p & Hi & Hmem)%elem_of_concat_imap.
    apply elem_of_cons in Hmem as [->|Hmem].
    + split; [done|]. apply list_elem_of_lookup_2, elem_of_sort_by in Hi. rewrite Forall_forall in Hp.
      destruct (Hp p Hi) as (_ & manifest & lockfiles & _ & -> & _). apply summary_label.
    + apply elem_of_lookup_imap in Hmem as (k & d & -> & _). split; [done|]. apply redact_not_sensitive.
  - apply Forall_forall. intros e (i & p & Hi & Hmem)%elem_of_concat_imap.
    assert (Hsrc : project_node root i p ∈ pc_nodes (publish_projects root scope 0 projects c1))
      by (apply (Hin i p); [done|]; left).
    apply elem_of_app in Hmem as [Hmem|Hmem].
    + unfold host_edges in Hmem. destruct (is_restricted scope); cbn [negb] in Hmem; [by apply elem_of_nil in Hmem|].
      apply list_elem_of_singleton in Hmem as ->. split; [by exists i, p|]. by left.
    + apply elem_of_lookup_imap in Hmem as (k & d & -> & Hk). split; [by exists i, p|]. right.
      split_and!; [done|by apply lookup_insert_eq|]. exists (package_node k d). split_and!; [|done|done].
      apply (Hin i p); [done|]. right. apply elem_of_lookup_imap. by exists k, d.
Qed.
End published_theorems.

(** ** Examples *)

Section example.
#[local] Existing Instance Toy_sha256.

Definition example_manifest (dependency version : rstr) : PackageManifestDocument := {|
  pm_name := None; pm_private := false; pm_package_manager := None; pm_scripts := ∅;
  pm_dependencies := {[ dependency := version ]}; pm_optional_dependencies := ∅;
  pm_peer_dependencies := ∅; pm_dev_dependencies := ∅ |}.

(** A host of the directories [/srv], [/srv/api] and [/srv/web], each with a manifest but the
    first; a descriptor is the names it was reached by, and [/srv/web/link] is a link. *)
#[local] Instance npm_host : NpmFiles := {|
  nf_descriptor := list rstr;
  nf_read_dir := λ path,
    if path == ("/srv" : rstr) then
      inl [Some ("web" : rstr, Some Ft_dir); Some ("node_modules" : rstr, Some Ft_dir); None;
           Some ("api" : rstr, Some Ft_dir)]
    else inl [Some ("package.json" : rstr, Some Ft_file); Some ("link" : rstr, Some Ft_other)];
  nf_canonicalize := λ path, inl path;
  nf_open_root := inl [];
  nf_openat_directory := λ parent name,
    if name == ("link" : rstr) then inr ("Too many levels of symbolic links" : rstr) else inl (parent ++ [name]);
  nf_openat_file := λ parent _,
    if (length parent <=? 2)%nat then inl {| of_metadata := inl (true, 2%N); of_content := inl [123%N; 125%N] |}
    else inr Open_not_found;
  nf_manifest := λ _, inl (example_manifest "express" "4.18.2") |}.

Definition npm_example : option ProviderCollection :=
  collect_npm_projects "/srv" (Scope_Host None) empty_collection.

(** Two projects that declare the same version of a package: its node is pushed twice, so its
    identity is ambiguous in every map that holds this collection. *)
Lemma shared_package_collides :
  (λ c, (length (pc_nodes c), length (pc_edges c), duplicate_runtime_node_ids (pc_nodes c))) <$> npm_example =
  Some (4, 4, ["npm_package_" +s+ safe_runtime_id_component "express" "package" +s+ "_"
               +s+ safe_runtime_id_component "4.18.2" "version"]).
Proof. vm_compute. reflexivity. Qed.

Example npm_manifest_read_example :
  read_package_manifest_beneath "/srv" "/srv/web" = inl (Some (example_manifest "express" "4.18.2")).
Proof. vm_compute. reflexivity. Qed.

Example npm_link_refused_example :
  read_package_manifest_beneath "/srv" "/srv/link" =
  inr ("cannot open npm project directory: Too many levels of symbolic links" : rstr).
Proof. vm_compute. reflexivity. Qed.
End example.
