(* ===== verification/Collection.v ===== *)
(** * One collection of one provider slot
      ([crates/dockermap-daemon/src/runtime_collection.rs] and [ProviderSlotFlights] of
      [cache_refresh.rs])

    Which collectors a slot runs in which scope, what its outcome is, and the guards that keep
    one blocking worker per slot. A panic of a collector is [None]; [elapsed] says that the time
    of the collection ran out before its work did. *)

From S2P Require Import Prelude RustStr RustNum Models Serial Identity Evidence Redaction Publication Graph RuntimeTopology Scheduler Utf8 Boundary Paths Order ComposeApi HostFiles Providers Processes Cron Systemd NetworkProviders Npm.

(** [RUNTIME_MAP_COLLECTION_TIMEOUT]. *)
Definition RUNTIME_MAP_COLLECTION_TIMEOUT : N := from_secs 15.

Inductive ProviderCollectionError := Collection_Failed | Collection_TimedOut.

Definition collection_error_from (error : ProviderCommandError) : ProviderCollectionError :=
  match error with Err_TimedOut _ => Collection_TimedOut | _ => Collection_Failed end.

Definition provider_collection_outcome (result : ProviderCollection + ProviderCollectionError)
    : ProviderCollectionOutcome :=
  match result with
  | inl collection => Collected collection
  | inr Collection_Failed => Outcome_Failed
  | inr Collection_TimedOut => Outcome_TimedOut
  end.

(** ** The collectors of the slots *)

Section collectors.
Context `{Sha256} `{HostView} `{JsonValues} `{CronFiles} `{NpmFiles} `{Host} `{HostPaths}.
(** The process key of the opaque identities, and the pid of the daemon. *)
Variable key : list N.
Variable self_pid : N.

(** [daemon_pid_namespace_scope()], with what the host answers. *)
Definition pid_namespace_scope : PidNamespaceScope :=
  daemon_pid_namespace_scope hv_env (hv_read "/proc/self/cgroup") (hv_exists "/.dockerenv")
    (hv_exists "/run/systemd/container") (hv_exists "/run/.containerenv").

(** [project_root().ok()]. *)
Definition project_root_ok : option rstr := match project_root hv_env with inl root => Some root | inr _ => None end.

Definition push_info (c : ProviderCollection) (provider : RuntimeProviderKind) (message : rstr) : ProviderCollection :=
  push_provider_diagnostic c provider Sev_Info message.

Definition collect_host_scoped_runtime_providers (pid_namespace : PidNamespaceScope) (c : ProviderCollection)
    : option ProviderCollection :=
  if is_restricted pid_namespace then
    Some (push_info
      (push_info c RP_Network "Network listener discovery omitted because the daemon runs in a restricted PID namespace")
      RP_Pm2 "PM2 discovery omitted because the daemon runs in a restricted PID namespace")
  else c ← collect_network_listeners c; Some (collect_pm2_apps c).

Definition collect_tmux_runtime_provider (pid_namespace : PidNamespaceScope) (c : ProviderCollection)
    : ProviderCollection * (unit + ProviderCommandError) :=
  if is_restricted pid_namespace then
    (push_info c RP_Tmux "tmux discovery omitted because the daemon runs in a restricted PID namespace", inl tt)
  else collect_tmux_sessions_with_runner key c.

Definition collect_cron_runtime_provider (pid_namespace : PidNamespaceScope) (c : ProviderCollection)
    : ProviderCollection :=
  if is_restricted pid_namespace then
    push_info c RP_ScheduledJob
      "Scheduled job discovery omitted because the daemon runs in a restricted PID namespace"
  else collect_scheduled_jobs c.

Definition collect_systemd_runtime_provider (pid_namespace : PidNamespaceScope) (c : ProviderCollection)
    : ProviderCollection * (unit + ProviderCommandError) :=
  if is_restricted pid_namespace then
    (push_info c RP_Systemd "systemd discovery omitted because the daemon runs in a restricted PID namespace", inl tt)
  else collect_systemd_services c.

Definition scoped_state (pid_namespace : PidNamespaceScope) : ProviderStateKind :=
  if is_restricted pid_namespace then PS_Disabled else PS_Fresh.

(** [map_err(ProviderCollectionError::from)?], then the state of the slot. *)
Definition stated (slot : ProviderSlot) (state : ProviderStateKind)
    (result : ProviderCollection * (unit + ProviderCommandError)) : ProviderCollection + ProviderCollectionError :=
  match result with
  | (c, inl _) => inl (set_state c slot state)
  | (_, inr error) => inr (collection_error_from error)
  end.

Definition collect_provider_slot (slot : ProviderSlot) (snapshot : DockerSnapshot)
    : option (ProviderCollection + ProviderCollectionError) :=
  let collection := empty_collection in
  let project_root := project_root_ok in
  let pid_namespace := pid_namespace_scope in
  match slot with
  | NetworkInfrastructure =>
      Some (inl (set_state (collect_network_infrastructure pid_namespace snapshot collection) slot PS_Fresh))
  | HostScoped =>
      let c := match scope_diagnostic pid_namespace with
               | Some message => push_info collection RP_Process message
               | None => collection
               end in
      let c := if is_restricted pid_namespace then
                 push_info c RP_Host "Host node omitted because the daemon runs in a restricted PID namespace"
               else collect_host_node project_root c in
      c ← collect_host_scoped_runtime_providers pid_namespace c;
      Some (inl (set_state c slot (scoped_state pid_namespace)))
  | Slot_Tmux => Some (stated slot (scoped_state pid_namespace) (collect_tmux_runtime_provider pid_namespace collection))
  | Slot_Cron =>
      Some (inl (set_state (collect_cron_runtime_provider pid_namespace collection) slot (scoped_state pid_namespace)))
  | Slot_Systemd =>
      Some (stated slot (scoped_state pid_namespace) (collect_systemd_runtime_provider pid_namespace collection))
  | PythonProcesses =>
      Some (inl (set_state (collect_python_processes (is_restricted pid_namespace) collection) slot
                   (scoped_state pid_namespace)))
  | NativeProcesses =>
      Some (inl (set_state (collect_native_processes_with_scope self_pid (is_restricted pid_namespace) collection) slot
                   (scoped_state pid_namespace)))
  | ProjectNpm =>
      match project_root with
      | Some root =>
          c ← collect_npm_projects root pid_namespace collection;
          Some (inl (set_state c slot PS_Fresh))
      | None =>
          Some (inl (set_state
            (push_info collection RP_Npm "npm discovery skipped: project root unavailable") slot PS_Disabled))
      end
  end.
End collectors.

(** ** The guards *)

Record ProviderSlotFlights := {
  fl_compose_projection : bool;
  fl_network : bool; fl_host : bool; fl_tmux : bool; fl_cron : bool;
  fl_systemd : bool; fl_python : bool; fl_native : bool; fl_npm : bool
}.

Definition flights_default : ProviderSlotFlights := {|
  fl_compose_projection := false; fl_network := false; fl_host := false; fl_tmux := false; fl_cron := false;
  fl_systemd := false; fl_python := false; fl_native := false; fl_npm := false |}.

Definition for_slot (f : ProviderSlotFlights) (slot : ProviderSlot) : bool :=
  match slot with
  | NetworkInfrastructure => fl_network f | HostScoped => fl_host f | Slot_Tmux => fl_tmux f
  | Slot_Cron => fl_cron f | Slot_Systemd => fl_systemd f | PythonProcesses => fl_python f
  | NativeProcesses => fl_native f | ProjectNpm => fl_npm f
  end.

(** A store to the flag of [for_slot]. *)
Definition store_flight (f : ProviderSlotFlights) (slot : ProviderSlot) (flag : bool) : ProviderSlotFlights := {|
  fl_compose_projection := fl_compose_projection f;
  fl_network := if slot == NetworkInfrastructure then flag else fl_network f;
  fl_host := if slot == HostScoped then flag else fl_host f;
  fl_tmux := if slot == Slot_Tmux then flag else fl_tmux f;
  fl_cron := if slot == Slot_Cron then flag else fl_cron f;
  fl_systemd := if slot == Slot_Systemd then flag else fl_systemd f;
  fl_python := if slot == PythonProcesses then flag else fl_python f;
  fl_native := if slot == NativeProcesses then flag else fl_native f;
  fl_npm := if slot == ProjectNpm then flag else fl_npm f |}.

Definition active_count (f : ProviderSlotFlights) : nat :=
  count_if id [fl_network f; fl_host f; fl_tmux f; fl_cron f; fl_systemd f; fl_python f; fl_native f; fl_npm f].

(** [RuntimeCollectionGuard::acquire] and [ComposeProjectionFlight::claim]: one
    [compare_exchange] of the flag, whose new value this is. *)
Definition acquire (flag : bool) : option bool := if flag then None else Some true.

(** [Drop] of the guards. *)
Definition release (_ : bool) : bool := false.

Section bounded.
Context `{Sha256} `{HostView} `{JsonValues} `{CronFiles} `{NpmFiles} `{Host} `{HostPaths}.
Variable key : list N.
Variable self_pid : N.

(** The outcome, and the flag when the await is over: the guard is dropped with the work, not
    with the await. *)
Definition collect_provider_slot_bounded (in_flight elapsed : bool) (slot : ProviderSlot) (snapshot : DockerSnapshot)
    : ProviderCollectionOutcome * bool :=
  match acquire in_flight with
  | None => (InFlight, in_flight)
  | Some held =>
      if elapsed then (Outcome_TimedOut, held)
      else (match collect_provider_slot key self_pid slot snapshot with
            | Some result => provider_collection_outcome result
            | None => Outcome_Failed
            end, release held)
  end.
End bounded.

(** The guards and the blocking workers that hold them: a collection starts a worker if it gets
    the guard, and a worker ends (returning or panicking) in any order and at any time. *)
Definition Flights : Type := ProviderSlotFlights * list ProviderSlot.

Inductive flight_step : Flights → Flights → Prop :=
  | flight_started f running slot held :
      acquire (for_slot f slot) = Some held → flight_step (f, running) (store_flight f slot held, slot :: running)
  | flight_refused f running slot :
      acquire (for_slot f slot) = None → flight_step (f, running) (f, running)
  | flight_ended f before slot after :
      flight_step (f, before ++ slot :: after)
        (store_flight f slot (release (for_slot f slot)), before ++ after).

(** ** Theorems: the guards *)

Lemma for_slot_store f slot flag other :
  for_slot (store_flight f slot flag) other = if slot == other then flag else for_slot f other.
Proof. by destruct other. Qed.

Lemma active_count_slots f : active_count f = length (filterb (for_slot f) STATIC_PROVIDER_SLOTS).
Proof.
  unfold active_count, STATIC_PROVIDER_SLOTS, id. cbn [filterb for_slot count_if].
  repeat (match goal with |- context [if ?b then _ else _] => destruct b end); reflexivity.
Qed.

(** The raised guards are those of the running workers. *)
Lemma raised_running f running :
  NoDup running → (∀ slot, for_slot f slot = true ↔ slot ∈ running) → filterb (for_slot f) STATIC_PROVIDER_SLOTS ≡ₚ running.
Proof.
  intros Hnd Hin. apply NoDup_Permutation; [|done|].
  - eapply sublist_NoDup; [apply static_slots_NoDup|apply filterb_sublist].
  - intros x. rewrite elem_of_filterb, <- Hin. pose proof (static_slots_all x). naive_solver.
Qed.

Definition flights_ok (s : Flights) : Prop :=
  NoDup s.2 ∧ (∀ slot, for_slot s.1 slot = true ↔ slot ∈ s.2) ∧ fl_compose_projection s.1 = false.

Lemma flight_step_ok s s' : flight_step s s' → flights_ok s → flights_ok s'.
Proof.
  intros [f running slot held Ha|f running slot Ha|f before slot after] (Hnd & Hin & Hc); unfold flights_ok;
    cbn [fst snd] in *.
  - unfold acquire in Ha. destruct (for_slot f slot) eqn:Ef; [done|]. injection Ha as <-.
    split_and!; [|intros other; rewrite for_slot_store, elem_of_cons, <- Hin|done].
    + constructor; [|done]. rewrite <- Hin. congruence.
    + case_bool_decide; naive_solver.
  - done.
  - apply NoDup_app in Hnd as Hnd'. destruct Hnd' as (Hb & Hd & [Hs Ha]%NoDup_cons).
    split_and!; [|intros other; rewrite for_slot_store|done].
    + apply NoDup_app. split_and!; [done| |done]. intros x Hx Hx'. apply (Hd x Hx). by right.
    + unfold release. case_bool_decide as E; [subst other|rewrite Hin, !elem_of_app, elem_of_cons; naive_solver].
      split; [done|]. intros [Hx|Hx]%elem_of_app; [|done]. destruct (Hd slot Hx). by left.
Qed.

(** Single flight: however collections start, are refused, time out and end, there is never
    more than one blocking worker of a slot, the flag of a slot is up exactly while its worker
    runs, and the number the scheduler reads is the number of workers that still run, timed
    out ones included; a collection is refused exactly when the worker of its slot runs. *)
Theorem single_flight f running slot :
  rtc flight_step (flights_default, []) (f, running) →
  NoDup running ∧ active_count f = length running ∧ length running ≤ length STATIC_PROVIDER_SLOTS ∧
  (acquire (for_slot f slot) = None ↔ slot ∈ running).
Proof.
  intros Hrun. assert (Hok : flights_ok (f, running)).
  { remember (flights_default, []) as s eqn:Es. remember (f, running) as s' eqn:Es'.
    assert (Hs : flights_ok s).
    { subst s. split_and!; [constructor| |done]. intros x. cbn. rewrite elem_of_nil. by destruct x. }
    clear Es Es'. induction Hrun; [done|]. eauto using flight_step_ok. }
  destruct Hok as (Hnd & Hin & _). cbn [fst snd] in *.
  pose proof (raised_running f running Hnd Hin) as Hp.
  split_and!; [done| | |].
  - by rewrite active_count_slots, Hp.
  - rewrite <- Hp. apply sublist_length, filterb_sublist.
  - unfold acquire. destruct (for_slot f slot) eqn:E; [|rewrite <- Hin, E; done]. apply Hin in E. done.
Qed.

Lemma single_flight_witness :
  NoDup [Slot_Tmux; Slot_Cron] ∧
  active_count (store_flight (store_flight flights_default Slot_Cron true) Slot_Tmux true) = 2.
Proof.
  destruct (single_flight (store_flight (store_flight flights_default Slot_Cron true) Slot_Tmux true)
    [Slot_Tmux; Slot_Cron] Slot_Tmux) as (H1 & H2 & _).
  - eapply rtc_l; [apply (flight_started flights_default [] Slot_Cron true); reflexivity|].
    eapply rtc_l; [apply (flight_started _ _ Slot_Tmux true); reflexivity|]. apply rtc_refl.
  - split; [exact H1|exact H2].
Defined.

(** ** Theorems: what a slot may publish *)

(** An edge without evidence, and without the marker of another slot. *)
Definition own_edge (slot : ProviderSlot) (e : RuntimeMapEdge) : Prop :=
  re_evidence_refs e = [] ∧
  ∀ other marker, slot_marker other = Some marker → other ≠ slot → re_metadata e !! marker = None.

(** A collector only adds, states none of the slots, and adds only edges of the slot. *)
Definition grows (slot : ProviderSlot) (c c' : ProviderCollection) : Prop :=
  pc_states c' = pc_states c ∧ (∃ nodes, pc_nodes c' = pc_nodes c ++ nodes) ∧
  ∃ edges, pc_edges c' = pc_edges c ++ edges ∧ Forall (own_edge slot) edges.

#[export] Instance grows_preorder slot : PreOrder (grows slot).
Proof.
  split.
  - intros c. split_and!; [done|exists []; by rewrite app_nil_r|exists []; by rewrite app_nil_r].
  - intros a b c (Hs1 & [n1 Hn1] & e1 & He1 & Hf1) (Hs2 & [n2 Hn2] & e2 & He2 & Hf2). split_and!.
    + congruence.
    + exists (n1 ++ n2). by rewrite Hn2, Hn1, app_assoc.
    + exists (e1 ++ e2). rewrite He2, He1, app_assoc. split; [done|by apply Forall_app_2].
Qed.

Lemma grows_same slot c c' :
  pc_states c' = pc_states c → pc_edges c' = pc_edges c → (∃ nodes, pc_nodes c' = pc_nodes c ++ nodes) → grows slot c c'.
Proof. intros Hs He Hn. split_and!; [done|done|]. exists []. by rewrite He, app_nil_r. Qed.

Lemma grows_diagnostic slot c provider severity message :
  grows slot c (push_provider_diagnostic c provider severity message).
Proof. apply grows_same; [done|done|]. exists []. by rewrite app_nil_r. Qed.

Lemma grows_nodes slot c nodes : grows slot c (extend_nodes c nodes).
Proof. apply grows_same; [done|done|]. by exists nodes. Qed.

Lemma grows_edges slot c edges : Forall (own_edge slot) edges → grows slot c (extend_edges c edges).
Proof. intros He. split_and!; [done|exists []; by rewrite app_nil_r|by exists edges]. Qed.

Lemma own_plain slot e : re_evidence_refs e = [] → re_metadata e = ∅ → own_edge slot e.
Proof. intros Hr Hm. split; [done|]. intros other marker _ _. rewrite Hm. apply lookup_empty. Qed.

Lemma slot_marker_inj slot other marker :
  slot_marker slot = Some marker → slot_marker other = Some marker → slot = other.
Proof. by destruct slot, other; intros [= <-]; try done; intros [= E]; vm_compute in E. Qed.

Lemma own_marked slot e marker value :
  slot_marker slot = Some marker → re_evidence_refs e = [] → re_metadata e = {[ marker := value ]} → own_edge slot e.
Proof.
  intros Hs Hr Hm. split; [done|]. intros other marker' Ho Hne. rewrite Hm. apply lookup_singleton_ne.
  intros ->. by apply Hne, (slot_marker_inj other slot marker').
Qed.

Create HintDb collecting.
#[export] Hint Resolve grows_diagnostic grows_nodes grows_edges own_plain : collecting.

(** Diagnostics and nodes pushed in a row. *)
Ltac grow := repeat (case_match; simplify_eq); try reflexivity; eauto with collecting.

Section slot_theorems.
Context `{Sha256} `{HostView} `{JsonValues} `{CronFiles} `{NpmFiles} `{Host} `{HostPaths}.
Variable key : list N.
Variable self_pid : N.

Lemma listeners_grow slot c c' : collect_network_listeners c = Some c' → grows slot c c'.
Proof.
  unfold collect_network_listeners. revert c. induction PROC_TCP_TABLES as [|path paths IH]; intros c;
    cbn [collect_listener_tables]; [by intros [= <-]|].
  destruct (hv_read path) as [content|].
  - destruct (listener_table_nodes content) as [nodes|]; [|done]. cbn [mbind option_bind].
    intros Hc%IH. by etrans; [apply grows_nodes|].
  - intros Hc%IH. by etrans; [apply grows_diagnostic|].
Qed.

Lemma pm2_grows slot c : grows slot c (collect_pm2_apps c).
Proof. unfold collect_pm2_apps. grow. Qed.

Lemma tmux_grows c : grows Slot_Tmux c (collect_tmux_sessions_with_runner key c).1.
Proof.
  unfold collect_tmux_sessions_with_runner. destruct (hv_run tmux_command) as [output|]; [|apply grows_diagnostic].
  destruct (_ && _); [done|]. destruct (negb _); [apply grows_diagnostic|]. cbv zeta. cbn [fst].
  rewrite tmux_nodes_spec, tmux_edges_spec. etrans; [|apply grows_nodes]. apply grows_edges, Forall_fmap, Forall_true.
  intros id. by eapply own_marked.
Qed.

Lemma cron_grows c : grows Slot_Cron c (collect_scheduled_jobs c).
Proof.
  unfold collect_scheduled_jobs. destruct (job_sources_spec c) as (c1 & -> & Hn & He & Hs).
  match goal with |- grows _ _ (publish_jobs ?jobs _) => destruct (publish_jobs_spec jobs c1) as (Pn & Pe & _ & Ps) end.
  split_and!; [congruence|eexists; rewrite Pn, Hn; reflexivity|]. eexists. rewrite Pe, He. split; [reflexivity|].
  apply Forall_fmap, Forall_true. intros [[source line] command]. by eapply own_marked.
Qed.

Lemma systemd_units_grow summaries details uptime c : grows Slot_Systemd c (publish_units summaries details uptime c).
Proof.
  destruct (publish_units_spec summaries details uptime c) as (extra & edges & Hn & He & _ & Hs & _ & Hdecl & _ & _).
  split_and!; [done|eexists; exact Hn|]. exists edges. split; [done|]. apply Forall_forall.
  intros e (unit & d & kind & dependency & _ & _ & _ & ->)%Hdecl. by eapply own_marked.
Qed.

Lemma systemd_grows c : grows Slot_Systemd c (collect_systemd_services c).1.
Proof.
  unfold collect_systemd_services. destruct (hv_run list_units_command) as [output|]; [|apply grows_diagnostic].
  destruct (negb _); [apply grows_diagnostic|]. cbv zeta.
  set (c1 := if (MAX_SYSTEMD_UNITS <? _)%nat then _ else c).
  assert (Hc1 : grows Slot_Systemd c c1) by (unfold c1; destruct (_ <? _)%nat; [apply grows_diagnostic|done]).
  etrans; [exact Hc1|]. destruct (_ == _); [apply systemd_units_grow|].
  destruct (hv_run (show_command _)) as [show|]; [|apply grows_diagnostic].
  destruct (es_success (po_status show)); [apply systemd_units_grow|apply grows_diagnostic].
Qed.

Lemma processes_grow slot command restricted provider name collect c :
  (∀ stdout truncated c, grows slot c (collect stdout truncated c)) →
  grows slot c (collect_with_command command restricted provider name collect c).
Proof. intros Hc. unfold collect_with_command. cbv zeta. grow. Qed.

Lemma python_grows slot restricted c : grows slot c (collect_python_processes restricted c).
Proof.
  apply processes_grow. intros stdout truncated c1. unfold collect_python_processes_from_output.
  destruct (python_nodes_from_ps_output _) as [found capped].
  etrans; [|apply grows_nodes]. destruct truncated, capped; try done; unfold push_output_truncation;
    repeat (etrans; [|apply grows_diagnostic]); done.
Qed.

Lemma native_grows slot restricted c : grows slot c (collect_native_processes_with_scope self_pid restricted c).
Proof.
  apply processes_grow. intros stdout truncated c1. unfold collect_native_processes_from_output.
  destruct (native_process_nodes_from_ps_output _ _) as [found capped].
  etrans; [|apply grows_nodes]. destruct truncated, capped; try done; unfold push_output_truncation;
    repeat (etrans; [|apply grows_diagnostic]); done.
Qed.

Lemma messages_grow slot c messages : grows slot c (push_messages c messages).
Proof.
  unfold push_messages. revert c. induction messages as [|[p m] messages IH]; intros c; [done|]. cbn [foldl].
  etrans; [|apply IH]. apply grows_diagnostic.
Qed.

Lemma rows_grow slot c rows : grows slot c (with_rows c rows).
Proof.
  unfold with_rows. etrans; [apply grows_nodes|]. apply grows_edges, Forall_fmap, Forall_true.
  intros [container [[provider kind] product]]. by apply own_plain.
Qed.

Lemma overlay_grows slot provider command skipped failed invalid read c :
  grows slot c (collect_overlay provider command skipped failed invalid read c).
Proof. unfold collect_overlay. grow. Qed.

Lemma network_grows slot scope snapshot c : grows slot c (collect_network_infrastructure scope snapshot c).
Proof.
  unfold collect_network_infrastructure. rewrite !collect_network_containers_rows. destruct (is_restricted scope).
  - etrans; [|apply rows_grow]. apply messages_grow.
  - cbv zeta. etrans; [|apply rows_grow]. etrans; [|apply grows_nodes].
    assert (Ho : ∀ (b : bool) d d', grows slot c d → grows slot c d' → grows slot c (if b then d else d')) by (by intros []).
    apply Ho; (etrans; [|apply overlay_grows || apply grows_diagnostic]); apply Ho;
      apply overlay_grows || apply grows_diagnostic.
Qed.

Lemma npm_grows root scope c c' : collect_npm_projects root scope c = Some c' → grows ProjectNpm c c'.
Proof.
  unfold collect_npm_projects. destruct (discovery_result root c) as (s & _ & -> & _ & _ & _ & Hn & He & Hs).
  cbn [mbind option_bind]. intros [= <-].
  destruct (publish_projects_spec root scope 0 (sort_by directory_leb (ds_projects s)) (ds_collection s)) as (Pn & Pe & _ & Ps).
  split_and!; [congruence|eexists; rewrite Pn, Hn; reflexivity|]. eexists. rewrite Pe, He. split; [reflexivity|].
  apply Forall_forall. intros e (i & p & _ & Hmem)%elem_of_concat_imap.
  apply elem_of_app in Hmem as [Hmem|Hmem].
  - unfold host_edges in Hmem. destruct (is_restricted scope); cbn [negb] in Hmem; [by apply elem_of_nil in Hmem|].
    apply list_elem_of_singleton in Hmem as ->. by apply own_plain.
  - apply elem_of_lookup_imap in Hmem as (k & d & -> & _). split; [done|].
    intros other marker Ho Hne. cbn [re_metadata Npm.dependency_edge].
    destruct other; try done; injection Ho as <-; rewrite !lookup_insert_ne by (by vm_compute); apply lookup_empty.
Qed.
(** A slot that only says something about the whole host. *)
Definition host_only (slot : ProviderSlot) : bool := negb (one_of slot [NetworkInfrastructure; ProjectNpm]).

Lemma set_first_state c slot state : pc_states c = [] → pc_states (set_state c slot state) = [new_state slot state].
Proof. intros E. unfold set_state. cbn [pc_states]. by rewrite E. Qed.

(** What a collection that started empty may be: its only state is of its slot, a disabled one
    publishes nothing, and its edges are the slot's own. *)
Definition slot_collection (slot : ProviderSlot) (disabled : bool) (c : ProviderCollection) : Prop :=
  pc_states c = [new_state slot (if disabled then PS_Disabled else PS_Fresh)] ∧
  (disabled = true → pc_nodes c = [] ∧ pc_edges c = []) ∧ Forall (own_edge slot) (pc_edges c).

Lemma grown_collection slot (disabled : bool) c :
  grows slot empty_collection c → (disabled = true → pc_nodes c = [] ∧ pc_edges c = []) →
  slot_collection slot disabled (set_state c slot (if disabled then PS_Disabled else PS_Fresh)).
Proof.
  intros (Hs & _ & edges & He & Hf) Hd. split_and!; [by apply set_first_state|done|].
  cbn [set_state pc_edges]. by rewrite He.
Qed.

(** [None] when the collector panics, which only the reading of a listener table can. *)
Definition slot_result_ok (slot : ProviderSlot) (result : option (ProviderCollection + ProviderCollectionError)) : Prop :=
  match result with
  | None => slot = HostScoped ∧ is_restricted pid_namespace_scope = false ∧
      ∃ path content, path ∈ PROC_TCP_TABLES ∧ hv_read path = Some content ∧ listener_table_nodes content = None
  | Some (inl c) =>
      slot_collection slot
        ((host_only slot && is_restricted pid_namespace_scope) || ((slot == ProjectNpm) && is_none project_root_ok)) c
  | Some (inr error) =>
      is_restricted pid_namespace_scope = false ∧
      ∃ command failure, (slot = Slot_Tmux ∧ command = tmux_command ∨
                          slot = Slot_Systemd ∧ (command = list_units_command ∨ ∃ units, command = show_command units)) ∧
        error = collection_error_from failure ∧
        (hv_run command = inr failure ∨
         failure = Err_Wait ∧ ∃ output, hv_run command = inl output ∧ es_success (po_status output) = false)
  end.

Lemma listeners_panic c : collect_network_listeners c = None →
  ∃ path content, path ∈ PROC_TCP_TABLES ∧ hv_read path = Some content ∧ listener_table_nodes content = None.
Proof.
  unfold collect_network_listeners. revert c. induction PROC_TCP_TABLES as [|path paths IH]; intros c;
    cbn [collect_listener_tables]; [done|]. destruct (hv_read path) as [content|] eqn:Er.
  - destruct (listener_table_nodes content) as [nodes|] eqn:El; cbn [mbind option_bind].
    + intros (p & t & Hp & ?)%IH. exists p, t. split; [by right|done].
    + intros _. exists path, content. split; [by left|done].
  - intros (p & t & Hp & ?)%IH. exists p, t. split; [by right|done].
Qed.

Lemma tmux_error c c' error : collect_tmux_sessions_with_runner key c = (c', inr error) →
  hv_run tmux_command = inr error ∨
  error = Err_Wait ∧ ∃ output, hv_run tmux_command = inl output ∧ es_success (po_status output) = false.
Proof.
  unfold collect_tmux_sessions_with_runner. destruct (hv_run tmux_command) as [output|]; [|naive_solver].
  destruct (_ && _); [done|]. destruct (es_success (po_status output)) eqn:Es; cbn [negb]; [done|].
  intros [= _ <-]. right. split; [done|]. by exists output.
Qed.

Lemma systemd_error c c' error : collect_systemd_services c = (c', inr error) →
  ∃ command, (command = list_units_command ∨ ∃ units, command = show_command units) ∧
    (hv_run command = inr error ∨
     error = Err_Wait ∧ ∃ output, hv_run command = inl output ∧ es_success (po_status output) = false).
Proof.
  unfold collect_systemd_services. destruct (hv_run list_units_command) as [output|] eqn:Er; cycle 1.
  { intros [= _ <-]. exists list_units_command. split; [by left|by left]. }
  destruct (es_success (po_status output)) eqn:Es; cbn [negb]; cycle 1.
  { intros [= _ <-]. exists list_units_command. split; [by left|]. right. split; [done|]. by exists output. }
  cbv zeta. destruct (_ == _); [done|].
  match goal with |- context [hv_run (show_command ?l)] => set (units := l) end.
  destruct (hv_run (show_command units)) as [show|] eqn:Eshow; cycle 1.
  { intros [= _ <-]. exists (show_command units). split; [right; by exists units|by left]. }
  destruct (es_success (po_status show)) eqn:Ess; [done|]. intros [= _ <-].
  exists (show_command units). split; [right; by exists units|]. right. split; [done|]. by exists show.
Qed.
Lemma disabled_flag slot : host_only slot = true →
  (host_only slot && is_restricted pid_namespace_scope) || ((slot == ProjectNpm) && is_none project_root_ok)
  = is_restricted pid_namespace_scope.
Proof. intros Hs. rewrite Hs. cbn [andb]. destruct slot; try done; by rewrite orb_false_r. Qed.

(** The four slots that run one collector and cannot fail. *)
Lemma scoped_collection slot c :
  host_only slot = true → grows slot empty_collection c →
  (is_restricted pid_namespace_scope = true → pc_nodes c = [] ∧ pc_edges c = []) →
  slot_result_ok slot (Some (inl (set_state c slot (scoped_state pid_namespace_scope)))).
Proof.
  intros Hs Hg Hd. unfold slot_result_ok. rewrite disabled_flag by done. unfold scoped_state. by apply grown_collection.
Qed.

Lemma stated_collection slot result :
  host_only slot = true → grows slot empty_collection result.1 →
  (is_restricted pid_namespace_scope = true → pc_nodes result.1 = [] ∧ pc_edges result.1 = []) →
  (∀ failure, result.2 = inr failure →
     slot_result_ok slot (Some (inr (collection_error_from failure)))) →
  slot_result_ok slot (Some (stated slot (scoped_state pid_namespace_scope) result)).
Proof.
  intros Hs Hg Hd He. destruct result as [c [[]|failure]]; cbn [stated fst snd] in *; [by apply scoped_collection|by apply He].
Qed.

Lemma slot_result slot snapshot : slot_result_ok slot (collect_provider_slot key self_pid slot snapshot).
Proof.
  destruct slot; cbn [collect_provider_slot].
  - apply (grown_collection NetworkInfrastructure false); [apply network_grows|done].
  - set (c := if is_restricted pid_namespace_scope then _ else _).
    assert (Hc : grows HostScoped empty_collection c ∧
      (is_restricted pid_namespace_scope = true → pc_nodes c = [] ∧ pc_edges c = [])).
    { unfold c. destruct (is_restricted pid_namespace_scope).
      - split; [|by destruct (scope_diagnostic pid_namespace_scope)].
        etrans; [|apply grows_diagnostic]. destruct (scope_diagnostic pid_namespace_scope); [apply grows_diagnostic|done].
      - split; [|done]. etrans; [|apply grows_nodes].
        destruct (scope_diagnostic pid_namespace_scope); [apply grows_diagnostic|done]. }
    clearbody c. destruct Hc as [Hg Hd]. unfold collect_host_scoped_runtime_providers.
    destruct (is_restricted pid_namespace_scope) eqn:Er; cbn [mbind option_bind].
    + apply scoped_collection; [done| |intros _; by apply Hd].
      do 2 (etrans; [|apply grows_diagnostic]). done.
    + destruct (collect_network_listeners c) as [c'|] eqn:El; cbn [mbind option_bind].
      * apply scoped_collection; [done| |by rewrite Er]. etrans; [exact Hg|]. etrans; [by apply listeners_grow|].
        apply pm2_grows.
      * split_and!; [done|done|by eapply listeners_panic].
  - apply stated_collection; [done|..]; unfold collect_tmux_runtime_provider;
      destruct (is_restricted pid_namespace_scope) eqn:Er; try done; [apply grows_diagnostic|apply tmux_grows|].
    intros failure E. split; [done|]. exists tmux_command, failure. split_and!; [by left|done|].
    destruct (collect_tmux_sessions_with_runner key empty_collection) as [c r] eqn:Ec. cbn [snd] in E. subst r.
    by eapply tmux_error.
  - apply scoped_collection; [done|..]; unfold collect_cron_runtime_provider;
      destruct (is_restricted pid_namespace_scope); try done; [apply grows_diagnostic|apply cron_grows].
  - apply stated_collection; [done|..]; unfold collect_systemd_runtime_provider;
      destruct (is_restricted pid_namespace_scope) eqn:Er; try done; [apply grows_diagnostic|apply systemd_grows|].
    intros failure E. split; [done|]. destruct (collect_systemd_services empty_collection) as [c r] eqn:Ec.
    cbn [snd] in E. subst r. destruct (systemd_error _ _ _ Ec) as (command & Hc & Hf).
    exists command, failure. split_and!; [by right|done|done].
  - apply scoped_collection; [done|apply python_grows|]. intros Hr. rewrite Hr. done.
  - apply scoped_collection; [done|apply native_grows|]. intros Hr. rewrite Hr. done.
  - destruct project_root_ok as [root|] eqn:Eroot.
    + destruct (collect_npm_projects root pid_namespace_scope empty_collection) as [c|] eqn:En.
      * cbn [mbind option_bind]. unfold slot_result_ok. rewrite Eroot.
        apply (grown_collection ProjectNpm false); [by eapply npm_grows|done].
      * exfalso. revert En. unfold collect_npm_projects.
        destruct (discovery_result root empty_collection) as (s & _ & -> & _). done.
    + unfold slot_result_ok. rewrite Eroot. apply (grown_collection ProjectNpm true); [apply grows_diagnostic|done].
Qed.

Lemma slot_states_own slot disabled c : slot_collection slot disabled c → states_own_slot slot c.
Proof.
  intros (Hs & _). unfold states_own_slot. rewrite Hs. eexists.
  split; [cbn; by rewrite bool_decide_eq_true_2|]. cbn [ps_state new_state]. destruct disabled; [right; left|left].
Qed.

Lemma bounded_collected in_flight elapsed slot snapshot c :
  (collect_provider_slot_bounded key self_pid in_flight elapsed slot snapshot).1 = Collected c →
  ∃ disabled, slot_collection slot disabled c.
Proof.
  pose proof (slot_result slot snapshot) as Hr. unfold collect_provider_slot_bounded.
  destruct (acquire in_flight); [|done]. destruct elapsed; [done|]. cbn [fst].
  destruct (collect_provider_slot key self_pid slot snapshot) as [[c'|[]]|]; [|done..]. intros [= <-]. by eexists.
Qed.

(** C36: One bounded collection of a slot, on every answer of the host. It is refused exactly when
    the worker of the slot still runs; a timed out one leaves the worker and its guard behind,
    and any other end frees the guard. A collected slot states itself and no other slot; it is
    disabled exactly when a slot of the whole host runs in a restricted scope, or there is no
    project root to walk, and then publishes neither nodes nor edges; otherwise it is fresh. Its
    edges carry no evidence yet and no marker of another slot, so no other slot can come to
    attest them. A collection fails only when a listing command of tmux or systemd did, with
    that command's kind of failure, or when a listener table breaks the parser; the network
    slot and the npm walk never fail. *)
Theorem slot_collection_spec (in_flight elapsed : bool) slot snapshot :
  let '(outcome, flag) := collect_provider_slot_bounded key self_pid in_flight elapsed slot snapshot in
  let result := collect_provider_slot key self_pid slot snapshot in
  (outcome = InFlight ↔ in_flight = true) ∧
  (in_flight = false → flag = elapsed ∧ (elapsed = true → outcome = Outcome_TimedOut)) ∧
  (in_flight = true → flag = true) ∧
  slot_result_ok slot result ∧
  match outcome with
  | Collected c => in_flight = false ∧ elapsed = false ∧ result = Some (inl c) ∧ states_own_slot slot c ∧
      ∀ other marker, slot_marker other = Some marker → other ≠ slot →
        Forall (λ e, slot_attests other e marker = None) (pc_edges c)
  | Outcome_Failed => result = None ∨ result = Some (inr Collection_Failed)
  | Outcome_TimedOut => elapsed = true ∨ result = Some (inr Collection_TimedOut)
  | InFlight => in_flight = true
  end.
Proof.
  pose proof (slot_result slot snapshot) as Hr. unfold collect_provider_slot_bounded, acquire, release.
  destruct in_flight; [done|]. destruct elapsed; [split_and!; auto; done|].
  destruct (collect_provider_slot key self_pid slot snapshot) as [[c|[]]|] eqn:Ec; cbn [provider_collection_outcome];
    try (split_and!; auto; done).
  pose proof Hr as (Hs & _ & Hf). split_and!; try done.
  - by eapply slot_states_own.
  - intros other marker Ho Hne. eapply Forall_impl; [exact Hf|]. intros e [_ Hm]. unfold slot_attests.
    rewrite (Hm other marker Ho Hne). by destruct other.
Qed.

(** A listing command that hits its own limit of three seconds is published as a slot that
    exceeded its budget of fifteen. *)
Lemma command_timeout_is_slot_timeout snapshot timeout :
  is_restricted pid_namespace_scope = false → hv_run tmux_command = inr (Err_TimedOut timeout) →
  collect_provider_slot_bounded key self_pid false false Slot_Tmux snapshot = (Outcome_TimedOut, false).
Proof.
  intros Hr Hc. unfold collect_provider_slot_bounded. cbn [acquire collect_provider_slot].
  unfold collect_tmux_runtime_provider. rewrite Hr. unfold collect_tmux_sessions_with_runner. by rewrite Hc.
Qed.
End slot_theorems.
