(* ===== verification/Fairness.v ===== *)
(** * Every due slot is claimed
      (the claims and outcomes of [crates/dockermap-daemon/src/cache_refresh.rs] in sequence)

    Claims take the slots in a fixed order and two at a time, so the later slots wait for the
    earlier ones. Within a window in which no slot that completes can be due again (ten seconds,
    the shortest interval) every slot that was due at its start is claimed after a bounded number of
    completions, in whatever order claims and completions come. Beyond such a window the fixed
    order can starve the later slots. *)

From S2P Require Import Prelude RustStr RustNum Models Serial Identity Evidence Redaction Publication Scheduler CacheSystem.

(** The shortest of the intervals. *)
Definition SHORTEST_INTERVAL : N := from_secs 10.

Section serving.
Context `{Json RuntimeMapNode} `{Json RuntimeMapEdge} `{Json RuntimeEvidenceRef}.
Context `{Json (list RuntimeMapNode * list RuntimeMapEdge * list RuntimeMapDiagnostic * list ProviderState)}.

(** What the table goes through from time [t0]: the outcome of a collecting slot, whose worker
    has ended, and claims in the window, with no worker left behind. The number counts the outcomes, the list
    the slots that were claimed. *)
Inductive serving (boot : rstr) (t0 : N) (start : RuntimeProviderSlots)
    : nat → list ProviderSlot → RuntimeProviderSlots → Prop :=
  | serving_start : serving boot t0 start 0 [] start
  | serving_outcome n claimed slots slot s s' wall completed_at same outcome :
      serving boot t0 start n claimed slots → slots !! slot = Some s →
      is_collecting (ss_observation s) = true → outcome ≠ InFlight → (t0 <= completed_at)%N →
      slot_outcome boot wall completed_at same outcome s = Some s' →
      serving boot t0 start (S n) claimed (<[slot := s']> slots)
  | serving_claim n claimed slots wall now active due slots' :
      serving boot t0 start n claimed slots → (t0 <= now < t0 + SHORTEST_INTERVAL)%N → active ≤ occupied slots →
      claim_due_slots_with_active_workers slots wall now MAX_CONCURRENT_PROVIDER_SLOTS active = Some (due, slots') →
      serving boot t0 start n (claimed ++ due) slots'.

(** Collecting, or completed since [t0]. *)
Definition busy_or_done (t0 : N) (s : SlotRuntimeState) : Prop :=
  is_collecting (ss_observation s) = true ∨ ∃ at_, ss_completed_at s = Some at_ ∧ (t0 <= at_)%N.

Lemma shortest_interval slot : (SHORTEST_INTERVAL <= slot_interval slot)%N.
Proof. by destruct slot. Qed.

Lemma busy_not_claimable t0 slot s now :
  busy_or_done t0 s → (now < t0 + SHORTEST_INTERVAL)%N → claimable slot s now = false.
Proof.
  intros [Hc|(at_ & Hat & Hle)] Hnow; unfold claimable; [by rewrite Hc|].
  assert (Hd : is_due slot s now = false).
  { unfold is_due. rewrite Hat. apply N.leb_gt. unfold saturating_sub. pose proof (shortest_interval slot). unfold SHORTEST_INTERVAL, from_secs in *. lia. }
  by rewrite Hd, andb_false_r.
Qed.

Lemma claimable_later slot s t0 now : claimable slot s t0 = true → (t0 <= now)%N → claimable slot s now = true.
Proof.
  unfold claimable, is_due. intros [[-> Hd]%andb_prop ->]%andb_prop Hle. rewrite andb_true_r. cbn [negb andb].
  destruct (ss_completed_at s) as [at_|]; [|done]. apply N.leb_le in Hd. apply N.leb_le.
  unfold saturating_sub in *. lia.
Qed.

Lemma outcome_done boot wall completed_at same outcome s s' :
  outcome ≠ InFlight → slot_outcome boot wall completed_at same outcome s = Some s' →
  is_collecting (ss_observation s') = false ∧ ss_completed_at s' = Some completed_at.
Proof.
  intros Hne. destruct outcome as [c| | |]; [|done|by intros [= <-]|by intros [= <-]].
  unfold slot_outcome, collected_state. destruct (update_slot_data_revision _ _ _); [|done].
  cbn [mbind option_bind]. intros [= <-]. by destruct same.
Qed.

Lemma occupied_remove slots slot (old new : SlotRuntimeState) :
  slots !! slot = Some old → is_collecting (ss_observation old) = true →
  is_collecting (ss_observation new) = false → occupied slots = S (occupied (<[slot := new]> slots)).
Proof.
  intros Hl Ho Hn. rewrite <- (occupied_insert (<[slot := new]> slots) slot new old); [|apply lookup_insert_eq|done..].
  by rewrite insert_insert_eq, insert_id.
Qed.

(** What holds while [slot] was not claimed. *)
Definition waiting (t0 : N) (start : RuntimeProviderSlots) (slot : ProviderSlot) (current : SlotRuntimeState)
    (n : nat) (claimed : list ProviderSlot) (slots : RuntimeProviderSlots) : Prop :=
  all_slots slots ∧ slots !! slot = Some current ∧ NoDup claimed ∧
  (∀ other s, other ∈ claimed → slots !! other = Some s → busy_or_done t0 s) ∧
  occupied slots + n = occupied start + length claimed.

Lemma claim_waiting t0 start slot current n claimed slots wall now active due slots' :
  (now < t0 + SHORTEST_INTERVAL)%N → active ≤ occupied slots → slot ∉ due →
  claim_due_slots_with_active_workers slots wall now MAX_CONCURRENT_PROVIDER_SLOTS active = Some (due, slots') →
  waiting t0 start slot current n claimed slots →
  waiting t0 start slot current n (claimed ++ due) slots' ∧
  (claimable slot current now = true → MAX_CONCURRENT_PROVIDER_SLOTS ≤ occupied slots').
Proof.
  intros Hnow Hact Hslot Hclaim (Hall & Hcur & Hnd & Hbusy & Hocc).
  unfold claim_due_slots_with_active_workers in Hclaim.
  destruct (claim_loop_spec STATIC_PROVIDER_SLOTS wall now slots
    (MAX_CONCURRENT_PROVIDER_SLOTS - Nat.max (occupied slots) active) static_slots_NoDup (λ s _, Hall s))
    as (due' & slots2 & E & Hsub & Hlen & Hin & Hout & Hocc' & Hwork).
  rewrite E in Hclaim. injection Hclaim as -> ->. split; [split_and!|].
  - intros other. destruct (decide (other ∈ due)) as [Ho|Ho]; [|by rewrite Hout].
    destruct (Hin other Ho) as (c & _ & _ & ->). eauto.
  - by rewrite Hout.
  - apply NoDup_app. split_and!; [done| |by eapply sublist_NoDup; [apply static_slots_NoDup|]].
    intros other Hc Hd. destruct (Hin other Hd) as (c & Hl & Hcl & _).
    rewrite (busy_not_claimable t0) in Hcl; [done|by eapply Hbusy|done].
  - intros other s [Hc|Hc]%elem_of_app Hs.
    + destruct (decide (other ∈ due)) as [Ho|Ho]; [|rewrite Hout in Hs by done; by eapply Hbusy].
      destruct (Hin other Ho) as (c & _ & _ & Hs'). rewrite Hs' in Hs. injection Hs as <-. by left.
    + destruct (Hin other Hc) as (c & _ & _ & Hs'). rewrite Hs' in Hs. injection Hs as <-. by left.
  - rewrite Hocc', length_app. lia.
  - intros Hclm. destruct (decide (length due < MAX_CONCURRENT_PROVIDER_SLOTS - Nat.max (occupied slots) active)) as [Hl|Hl].
    + destruct Hslot. apply (Hwork Hl slot current); [apply static_slots_all|done|done].
    + rewrite Hocc'. lia.
Qed.

Lemma serving_waiting boot t0 start slot current n claimed slots :
  all_slots start → start !! slot = Some current → claimable slot current t0 = true →
  serving boot t0 start n claimed slots → slot ∉ claimed → waiting t0 start slot current n claimed slots.
Proof.
  intros Hall Hcur Hcl Hrun. induction Hrun as [|n claimed slots other s s' wall at_ same outcome _ IH Hs Hc Hne Hle Ho
    |n claimed slots wall now active due slots' _ IH Hnow Hact Hclaim]; intros Hslot.
  - split_and!; [done|done|constructor|by intros ? ? ?%elem_of_nil|done].
  - destruct (IH Hslot) as (Hall' & Hcur' & Hnd & Hbusy & Hocc). destruct (outcome_done _ _ _ _ _ _ _ Hne Ho) as [Hn Hat].
    assert (Hother : other ≠ slot).
    { intros ->. rewrite Hcur' in Hs. injection Hs as <-. unfold claimable in Hcl. by rewrite Hc in Hcl. }
    split_and!; [|by rewrite lookup_insert_ne|done| |].
    + intros x. destruct (decide (other = x)) as [->|Hx]; [rewrite lookup_insert_eq; eauto|by rewrite lookup_insert_ne].
    + intros x sx Hx Hsx. destruct (decide (other = x)) as [->|Hne'].
      * rewrite lookup_insert_eq in Hsx. injection Hsx as <-. right. eauto.
      * rewrite lookup_insert_ne in Hsx by done. by eapply Hbusy.
    + pose proof (occupied_remove slots other s s' Hs Hc Hn). lia.
  - apply not_elem_of_app in Hslot as [Hs1 Hs2].
    by destruct (claim_waiting t0 start slot current n claimed slots wall now active due slots') as [Hw _]; [lia|done..|by apply IH|].
Qed.

(** C37: No due slot is forgotten. From any table, a slot that may be claimed at time [t0] has been
    claimed as soon as a claim follows six completions, and as many more as slots were
    collecting at [t0] (never more than two): whatever the outcomes, and however claims and
    completions come, as long as they come within ten seconds and leave no worker behind. *)
Theorem due_slot_claimed boot t0 start slot current n claimed slots wall now active due slots' :
  all_slots start → start !! slot = Some current → claimable slot current t0 = true →
  serving boot t0 start n claimed slots → 6 + occupied start ≤ n →
  (t0 <= now < t0 + SHORTEST_INTERVAL)%N → active ≤ occupied slots →
  claim_due_slots_with_active_workers slots wall now MAX_CONCURRENT_PROVIDER_SLOTS active = Some (due, slots') →
  slot ∈ claimed ++ due.
Proof.
  intros Hall Hcur Hcl Hrun Hn Hnow Hact Hclaim.
  destruct (decide (slot ∈ claimed ++ due)) as [|Hslot]; [done|exfalso]. apply not_elem_of_app in Hslot as Hslot'.
  destruct Hslot' as [Hs1 Hs2].
  pose proof (serving_waiting boot t0 start slot current n claimed slots Hall Hcur Hcl Hrun Hs1) as Hw.
  destruct (claim_waiting t0 start slot current n claimed slots wall now active due slots')
    as [(_ & _ & Hnd & _ & Hocc) Hfull]; [lia|done..|].
  assert (Hfree : claimable slot current now = true) by (eapply claimable_later; [done|lia]).
  specialize (Hfull Hfree). unfold MAX_CONCURRENT_PROVIDER_SLOTS in Hfull.
  assert (Hlen : length (slot :: claimed ++ due) ≤ length STATIC_PROVIDER_SLOTS).
  { apply submseteq_length, NoDup_submseteq; [by constructor|]. intros x _. apply static_slots_all. }
  cbn [length] in Hlen. change (length STATIC_PROVIDER_SLOTS) with 8 in Hlen. lia.
Qed.
End serving.

(** ** Beyond the window *)

Section hung.
Context `{Json RuntimeMapNode} `{Json RuntimeMapEdge} `{Json RuntimeEvidenceRef}.
Context `{Json (list RuntimeMapNode * list RuntimeMapEdge * list RuntimeMapDiagnostic * list ProviderState)}.

(** The state of a slot that never collected anything and whose collection took all its time. *)
Definition hung_state (s : SlotRuntimeState) (completed_at : N) : SlotRuntimeState := {|
  ss_observation := Obs_TimedOut (retained_collection (ss_observation s)); ss_completed_at := Some completed_at;
  ss_freshness := failed_freshness (ss_freshness s) CollectionTimedOut |}.

Lemma hung_outcome boot wall completed_at same s :
  slot_outcome boot wall completed_at same Outcome_TimedOut s = Some (hung_state s completed_at).
Proof. done. Qed.

(** Round [k]: the claim at [15 k] seconds; every slot it claims takes its 15 seconds. *)
Definition round_time (k : nat) : N := from_secs (15 * N.of_nat k).

Definition hang (at_ : N) (slots : RuntimeProviderSlots) (slot : ProviderSlot) : RuntimeProviderSlots :=
  match slots !! slot with Some s => <[slot := hung_state s at_]> slots | None => slots end.

Definition hung_round (k : nat) (slots : RuntimeProviderSlots) : option (list ProviderSlot * RuntimeProviderSlots) :=
  '(due, slots) ← claim_due_slots_with_active_workers slots (λ _, None) (round_time k) MAX_CONCURRENT_PROVIDER_SLOTS 0;
  Some (due, foldl (hang (round_time (S k))) slots due).

Fixpoint hung_rounds (k n : nat) (slots : RuntimeProviderSlots) : option (list (list ProviderSlot)) :=
  match n with
  | 0 => Some []
  | S n => '(due, slots) ← hung_round k slots; rest ← hung_rounds (S k) n slots; Some (due :: rest)
  end.

(** Neither collecting nor fresh. *)
Definition idle (s : SlotRuntimeState) : Prop :=
  is_collecting (ss_observation s) = false ∧ ∀ c, ss_observation s ≠ Obs_Fresh c.

Definition due_by (k : nat) (s : SlotRuntimeState) : Prop :=
  ∀ at_, ss_completed_at s = Some at_ → (at_ + from_secs 15 <= round_time k)%N.

(** The two slots that are claimed in round [k], and the two that rest. *)
Definition group (k : nat) : ProviderSlot * ProviderSlot :=
  if Nat.even k then (NetworkInfrastructure, HostScoped) else (Slot_Tmux, Slot_Cron).

Definition members (g : ProviderSlot * ProviderSlot) : list ProviderSlot := [g.1; g.2].

Definition hung_inv (k : nat) (slots : RuntimeProviderSlots) : Prop :=
  (∀ slot, ∃ s, slots !! slot = Some s ∧ idle s) ∧
  (∀ slot s, slots !! slot = Some s → slot ∈ members (group k) → due_by k s) ∧
  (∀ slot s, slots !! slot = Some s → slot ∈ members (group (S k)) → due_by (S k) s) ∧
  (Nat.even k = false → ∀ slot s, slots !! slot = Some s → slot ∈ members (group (S k)) →
     ss_completed_at s = Some (round_time k)).

Lemma idle_claimable k slot s : idle s → due_by k s → slot ∈ members (group 0) ++ members (group 1) →
  claimable slot s (round_time k) = true.
Proof.
  intros [Hc Hf] Hd Hs. unfold claimable. rewrite Hc. cbn [negb andb].
  assert (is_disabled_fact slot (ss_observation s) = false) as ->.
  { destruct (ss_observation s) as [|c| | |] eqn:E; try done. by destruct (Hf c). }
  rewrite andb_true_r. unfold is_due. destruct (ss_completed_at s) as [at_|] eqn:E; [|done].
  specialize (Hd at_ E). apply N.leb_le. unfold saturating_sub.
  assert (slot_interval slot <= from_secs 15)%N by (revert Hs; destruct slot; cbn; unfold from_secs; try lia; set_solver).
  lia.
Qed.

Lemma just_completed k slot s : ss_completed_at s = Some (round_time k) → claimable slot s (round_time k) = false.
Proof.
  intros E. unfold claimable, is_due. rewrite E. unfold saturating_sub. rewrite N.sub_diag.
  replace (slot_interval slot <=? 0)%N with false by (by destruct slot). by rewrite andb_false_r.
Qed.

Lemma idle_occupied slots : (∀ slot, ∃ s, slots !! slot = Some s ∧ idle s) → occupied slots = 0.
Proof.
  intros Hall. unfold occupied.
  assert (Hl : ∀ p, p ∈ map_to_list slots → is_collecting (ss_observation p.2) = false).
  { intros [slot s] Hp%elem_of_map_to_list. destruct (Hall slot) as (s' & Hs' & Hi & _). cbn. congruence. }
  induction (map_to_list slots) as [|p l IH]; [done|]. cbn [count_if].
  rewrite (Hl p) by by left. apply IH. intros q Hq. apply Hl. by right.
Qed.

(** One turn of the loop over the slots. *)
Lemma claim_loop_turn slot order wall now slots remaining current : slots !! slot = Some current →
  claim_loop (slot :: order) wall now slots (S remaining) =
  if claimable slot current now then
    '(claimed, slots) ← claim_loop order wall now (<[slot := claimed_state current (wall slot)]> slots) remaining;
    Some (slot :: claimed, slots)
  else claim_loop order wall now slots (S remaining).
Proof.
  intros Hl. cbn [claim_loop Nat.eqb]. rewrite Hl. cbn [mbind option_bind]. rewrite claimable_guard.
  destruct (claimable slot current now); cbn [negb]; [|done]. by rewrite Nat.sub_succ, Nat.sub_0_r.
Qed.

Lemma claim_loop_stop order wall now slots : claim_loop order wall now slots 0 = Some ([], slots).
Proof. by destruct order. Qed.

Lemma hung_claim k slots : hung_inv k slots →
  ∃ s1 s2, slots !! (group k).1 = Some s1 ∧ slots !! (group k).2 = Some s2 ∧
    claim_due_slots_with_active_workers slots (λ _, None) (round_time k) MAX_CONCURRENT_PROVIDER_SLOTS 0
    = Some (members (group k), <[(group k).2 := claimed_state s2 None]> (<[(group k).1 := claimed_state s1 None]> slots)).
Proof.
  intros (Hall & Hdue & _ & Hrest). unfold claim_due_slots_with_active_workers.
  rewrite idle_occupied by done. cbn [Nat.max]. change (MAX_CONCURRENT_PROVIDER_SLOTS - 0) with 2.
  assert (Hget : ∀ slot, slot ∈ members (group k) → slot ∈ members (group 0) ++ members (group 1) →
    ∃ s, slots !! slot = Some s ∧ claimable slot s (round_time k) = true).
  { intros slot Hin Hg. destruct (Hall slot) as (s & Hs & Hi). exists s. split; [done|].
    apply idle_claimable; [done|by eapply Hdue|done]. }
  assert (Hskip : Nat.even k = false → ∀ slot, slot ∈ members (group (S k)) →
    ∃ s, slots !! slot = Some s ∧ claimable slot s (round_time k) = false).
  { intros Hk slot Hin. destruct (Hall slot) as (s & Hs & Hi). exists s. split; [done|].
    by eapply just_completed, Hrest. }
  unfold group in *. rewrite Nat.even_succ, <- Nat.negb_even in Hskip. unfold STATIC_PROVIDER_SLOTS.
  destruct (Nat.even k); cbn [negb members fst snd Nat.even] in *.
  - destruct (Hget NetworkInfrastructure) as (s1 & E1 & C1); [left|left|].
    destruct (Hget HostScoped) as (s2 & E2 & C2); [right; left|right; left|]. exists s1, s2. split_and!; [done|done|].
    rewrite (claim_loop_turn _ _ _ _ _ _ s1), C1 by done.
    rewrite (claim_loop_turn _ _ _ _ _ _ s2), C2 by (by rewrite lookup_insert_ne). by rewrite claim_loop_stop.
  - destruct (Hskip eq_refl NetworkInfrastructure) as (s3 & E3 & C3); [left|].
    destruct (Hskip eq_refl HostScoped) as (s4 & E4 & C4); [right; left|].
    destruct (Hget Slot_Tmux) as (s1 & E1 & C1); [left|right; right; left|].
    destruct (Hget Slot_Cron) as (s2 & E2 & C2); [right; left|right; right; right; left|]. exists s1, s2. split_and!; [done|done|].
    rewrite (claim_loop_turn _ _ _ _ _ _ s3), C3, (claim_loop_turn _ _ _ _ _ _ s4), C4 by done.
    rewrite (claim_loop_turn _ _ _ _ _ _ s1), C1 by done.
    rewrite (claim_loop_turn _ _ _ _ _ _ s2), C2 by (by rewrite lookup_insert_ne). by rewrite claim_loop_stop.
Qed.

Lemma hung_pair g1 g2 c1 c2 at_ slots : g1 ≠ g2 →
  foldl (hang at_) (<[g2 := c2]> (<[g1 := c1]> slots)) [g1; g2] =
  <[g2 := hung_state c2 at_]> (<[g1 := hung_state c1 at_]> slots).
Proof.
  intros Hne. cbn [foldl]. unfold hang at 2. rewrite lookup_insert_ne, lookup_insert_eq by done.
  unfold hang. rewrite lookup_insert_ne, lookup_insert_eq by done. apply map_eq. intros x.
  destruct (decide (x = g2)) as [->|Hne2]; [by rewrite !lookup_insert_eq|].
  rewrite !(lookup_insert_ne _ g2) by done.
  destruct (decide (x = g1)) as [->|Hne1]; [by rewrite !lookup_insert_eq|].
  by rewrite !lookup_insert_ne by done.
Qed.

Lemma group_twice k : group (S (S k)) = group k.
Proof. unfold group. by rewrite Nat.even_succ_succ. Qed.

Lemma round_time_succ k : round_time (S k) = (round_time k + from_secs 15)%N.
Proof. unfold round_time, from_secs. lia. Qed.

Lemma group_disjoint k slot : slot ∈ members (group k) → slot ∈ members (group (S k)) → False.
Proof. unfold group, members. rewrite Nat.even_succ, <- Nat.negb_even. destruct (Nat.even k); cbn; set_solver. Qed.

Lemma hung_round_step k slots : hung_inv k slots →
  ∃ slots', hung_round k slots = Some (members (group k), slots') ∧ hung_inv (S k) slots'.
Proof.
  intros Hinv. destruct (hung_claim k slots Hinv) as (s1 & s2 & E1 & E2 & E). unfold hung_round. rewrite E.
  cbn [mbind option_bind]. eexists. split; [reflexivity|].
  assert (Hne : (group k).1 ≠ (group k).2) by (unfold group; by destruct (Nat.even k)).
  unfold members at 1. rewrite hung_pair by done. destruct Hinv as (Hall & _ & Hnext & _).
  set (h1 := hung_state (claimed_state s1 None) (round_time (S k))).
  set (h2 := hung_state (claimed_state s2 None) (round_time (S k))).
  assert (Hlook : ∀ slot s, <[(group k).2 := h2]> (<[(group k).1 := h1]> slots) !! slot = Some s →
    slot ∈ members (group k) ∧ idle s ∧ ss_completed_at s = Some (round_time (S k)) ∨ slots !! slot = Some s ∧ slot ∉ members (group k)).
  { intros slot s. destruct (decide (slot = (group k).2)) as [->|Hne2].
    { rewrite lookup_insert_eq. intros [= <-]. left. split_and!; [right; left|split; [done|discriminate]|done]. }
    rewrite lookup_insert_ne by done. destruct (decide (slot = (group k).1)) as [->|Hne1].
    { rewrite lookup_insert_eq. intros [= <-]. left. split_and!; [left|split; [done|discriminate]|done]. }
    rewrite lookup_insert_ne by done. intros Hs. right. split; [done|]. unfold members.
    intros [->|[->|Hx%elem_of_nil]%elem_of_cons]%elem_of_cons; done. }
  unfold hung_inv. rewrite group_twice. split_and!.
  - intros slot. destruct (Hall slot) as (s & Hs & Hi).
    assert (Hsome : is_Some (<[(group k).2 := h2]> (<[(group k).1 := h1]> slots) !! slot)).
    { rewrite !lookup_insert_is_Some'. eauto. }
    destruct Hsome as [s' Hs']. exists s'. split; [done|]. destruct (Hlook slot s' Hs') as [(_ & ? & _)|[Hx _]]; [done|].
    rewrite Hs in Hx. by injection Hx as <-.
  - intros slot s Hs Hin. destruct (Hlook slot s Hs) as [(Hg & _)|[Hx _]]; [by destruct (group_disjoint k slot)|].
    by apply (Hnext slot).
  - intros slot s Hs Hin. destruct (Hlook slot s Hs) as [(_ & _ & Hat)|[_ Hx]]; [|done].
    intros at_. rewrite Hat. intros [= <-]. by rewrite (round_time_succ (S k)).
  - intros _ slot s Hs Hin. by destruct (Hlook slot s Hs) as [(_ & _ & Hat)|[_ Hx]].
Qed.

(** Without the window the fixed order starves the later slots: when the first four collections
    always take their fifteen seconds, the rounds alternate between them for ever, and systemd,
    the processes and the npm projects are never claimed. *)
Lemma later_slots_starve n :
  hung_rounds 0 n unavailable_provider_slots = Some ((λ k, members (group k)) <$> seq 0 n).
Proof.
  assert (Hstart : hung_inv 0 unavailable_provider_slots).
  { assert (Hd : ∀ slot, unavailable_provider_slots !! slot = Some slot_default) by (intros []; by vm_compute).
    split_and!.
    - intros slot. exists slot_default. by split_and!.
    - intros slot s. rewrite Hd. by intros [= <-] _ ?.
    - intros slot s. rewrite Hd. by intros [= <-] _ ?.
    - done. }
  revert Hstart. generalize 0 unavailable_provider_slots. induction n as [|n IH]; intros k slots Hinv; [done|].
  destruct (hung_round_step k slots Hinv) as (slots' & E & Hinv'). cbn [hung_rounds seq]. rewrite E.
  cbn [mbind option_bind]. by rewrite (IH (S k) slots' Hinv').
Qed.
End hung.

(** ** A concrete run *)

Section example.
#[local] Existing Instances CacheSystem.example_node_json CacheSystem.example_edge_json
  CacheSystem.example_evidence_json CacheSystem.example_collection_json.

(** The first three rounds after the start, every collection failing. *)
Definition claimed_at (now : N) (slots : RuntimeProviderSlots) : RuntimeProviderSlots :=
  from_option snd slots (claim_due_slots_with_active_workers slots (λ _, None) now MAX_CONCURRENT_PROVIDER_SLOTS 0).

Definition failed_at (at_ : N) (slot : ProviderSlot) (slots : RuntimeProviderSlots) : RuntimeProviderSlots :=
  match slots !! slot with
  | Some s => from_option (λ s', <[slot := s']> slots) slots (slot_outcome "boot" None at_ true Outcome_Failed s)
  | None => slots
  end.

Definition round_of (now : N) (a b : ProviderSlot) (slots : RuntimeProviderSlots) : RuntimeProviderSlots :=
  failed_at (now + 2) b (failed_at (now + 1) a (claimed_at now slots)).

Definition three_rounds : RuntimeProviderSlots :=
  round_of 6 Slot_Systemd PythonProcesses
    (round_of 3 Slot_Tmux Slot_Cron (round_of 0 NetworkInfrastructure HostScoped unavailable_provider_slots)).

Ltac by_computing := vm_compute; reflexivity.

Lemma round_served n claimed start slots now a b sa sb :
  serving "boot" 0 start n claimed slots → (now < SHORTEST_INTERVAL)%N →
  claim_due_slots_with_active_workers slots (λ _, None) now MAX_CONCURRENT_PROVIDER_SLOTS 0
    = Some ([a; b], claimed_at now slots) →
  claimed_at now slots !! a = Some sa → is_collecting (ss_observation sa) = true →
  failed_at (now + 1) a (claimed_at now slots) !! b = Some sb → is_collecting (ss_observation sb) = true →
  serving "boot" 0 start (S (S n)) (claimed ++ [a; b]) (round_of now a b slots).
Proof.
  intros Hs Hnow Hc Ha Hca Hb Hcb. unfold round_of. unfold failed_at at 1. rewrite Hb.
  eapply (serving_outcome _ _ _ _ _ _ b sb _ None (now + 2) true Outcome_Failed); [|done|done|done|lia|reflexivity].
  unfold failed_at. rewrite Ha.
  eapply (serving_outcome _ _ _ _ _ _ a sa _ None (now + 1) true Outcome_Failed); [|done|done|done|lia|reflexivity].
  eapply serving_claim; [exact Hs|split; [lia|exact Hnow]|apply Nat.le_0_l|exact Hc].
Qed.

Lemma due_slot_claimed_witness :
  ∃ claimed due slots', claim_due_slots_with_active_workers three_rounds (λ _, None) 9 MAX_CONCURRENT_PROVIDER_SLOTS 0
    = Some (due, slots') ∧ ProjectNpm ∈ claimed ++ due.
Proof.
  exists ([] ++ [NetworkInfrastructure; HostScoped] ++ [Slot_Tmux; Slot_Cron] ++ [Slot_Systemd; PythonProcesses]),
    [NativeProcesses; ProjectNpm], (claimed_at 9 three_rounds). split; [by_computing|].
  apply (due_slot_claimed "boot" 0 unavailable_provider_slots ProjectNpm slot_default 6 _ three_rounds (λ _, None) 9 0 _
    (claimed_at 9 three_rounds)).
  - intros slot. exists slot_default. destruct slot; by_computing.
  - by_computing.
  - by_computing.
  - rewrite !app_assoc. unfold three_rounds. do 3 (eapply round_served; [|by_computing..]). apply serving_start.
  - vm_compute. lia.
  - split; by_computing || discriminate.
  - apply Nat.le_0_l.
  - by_computing.
Defined.
End example.
