(* ===== verification/Daemon.v ===== *)
(** * The daemon with its own collectors

    The runs of [CacheSystem], where the outcome of a worker is what the bounded collection of
    its slot returned ([Collection]), on whatever the host answered at that moment. What the
    public states need of the retained collections holds in every such run. *)

From S2P Require Import Prelude RustStr RustNum Models Serial Identity Evidence Redaction Publication ObservedHistory Graph RuntimeTopology Findings ComposeBinding Scheduler Assembly Fixtures Cache CacheSystem Utf8 Boundary Paths Order ComposeApi HostFiles Providers Processes Cron Systemd NetworkProviders Npm Collection.

Section daemon.
Context `{Sha256} `{Json RuntimeMapNode} `{Json RuntimeMapEdge} `{Json RuntimeEvidenceRef}.
Context `{Json (list RuntimeMapNode * list RuntimeMapEdge * list RuntimeMapDiagnostic * list ProviderState)}.
Context `{Json (DockerSnapshot * HealthResponse * RuntimeMap)} `{Json (RuntimeMode * DockerSnapshot)}.

(** The outcome of a bounded collection on some answers of the host. *)
Inductive collected_by (slot : ProviderSlot) (snapshot : DockerSnapshot) (outcome : ProviderCollectionOutcome) : Prop :=
  collected_on (host : HostView) (values : JsonValues) (cron : CronFiles) (npm : NpmFiles) (files : Host)
    (paths : HostPaths) (key : list N) (self_pid : N) (in_flight elapsed : bool) :
    outcome = (collect_provider_slot_bounded key self_pid in_flight elapsed slot snapshot).1 →
    collected_by slot snapshot outcome.

Definition is_worker (t : Task) : bool := match t with Task_worker _ _ _ _ => true | _ => false end.

Definition workers (s : System) : nat := count_if is_worker (sy_tasks s).

(** A step of the system that ends no worker, or ends one with the outcome of its collection. *)
Inductive daemon_step (process_boot : rstr) : System → System → Prop :=
  | daemon_other s s' :
      system_step process_boot s s' → workers s ≤ workers s' → daemon_step process_boot s s'
  | daemon_outcome c before slot snapshot mode generation after outcome completed_at wall taken c' :
      collected_by slot snapshot outcome →
      apply_provider_slot_outcome process_boot c slot snapshot mode generation outcome completed_at wall
      = Some (taken, c') →
      daemon_step process_boot
        {| sy_cache := c; sy_tasks := before ++ Task_worker slot snapshot mode generation :: after |}
        {| sy_cache := c'; sy_tasks := before ++ after_outcome taken c' ++ after |}.

Definition daemon_reachable (process_boot : rstr) (s : System) : Prop :=
  ∃ s0, initial process_boot s0 ∧ rtc (daemon_step process_boot) s0 s.

Lemma daemon_step_system process_boot s s' : daemon_step process_boot s s' → system_step process_boot s s'.
Proof. intros [? ? Hs _|]; [done|]. by eapply step_outcome. Qed.

Lemma daemon_reachable_system process_boot s : daemon_reachable process_boot s → reachable process_boot s.
Proof.
  intros (s0 & Hi & Hrun). exists s0. split; [done|]. clear Hi. induction Hrun; [done|].
  eapply rtc_l; [by apply daemon_step_system|done].
Qed.

(** ** What the slots retain *)

(** Of a slot itself: its state, and edges without evidence and without the marker of another. *)
Definition own_collection (slot : ProviderSlot) (c : ProviderCollection) : Prop :=
  states_own_slot slot c ∧ Forall (own_edge slot) (pc_edges c).

Definition own_retained (slots : RuntimeProviderSlots) : Prop :=
  ∀ slot c, retained_of slots !! slot = Some (Some c) → own_collection slot c.

Lemma redact_own slot e : own_edge slot e → own_edge slot (redact_runtime_edge e).
Proof.
  intros [Hr Hm]. unfold redact_runtime_edge. rewrite Hr. unfold own_edge.
  assert (He : ∀ other marker, slot_marker other = Some marker → other ≠ slot → (redact <$> re_metadata e) !! marker = None).
  { intros other marker Ho Hne. by rewrite lookup_fmap, (Hm other marker Ho Hne). }
  destruct (negb _); by split.
Qed.

Lemma sanitized_own slot c : own_collection slot c → own_collection slot (sanitized_for_retention c).
Proof.
  intros [Hs He]. split; [done|]. cbn [sanitized_for_retention pc_edges]. unfold redact_runtime_edges.
  apply Forall_fmap. eapply Forall_impl; [exact He|]. apply redact_own.
Qed.

Lemma collected_own slot snapshot c : collected_by slot snapshot (Collected c) → own_collection slot c.
Proof.
  intros [host values cron npm files paths key self_pid in_flight elapsed E].
  destruct (bounded_collected key self_pid in_flight elapsed slot snapshot c (eq_sym E)) as (disabled & Hc).
  split; [by eapply slot_states_own|]. apply Hc.
Qed.

Lemma nothing_own slots : nothing_retained slots → own_retained slots.
Proof. intros Hn slot c Hc. by apply Hn in Hc. Qed.

(** A publication keeps what the slots retain, or drops it all. *)
Lemma publish_retained process_boot b now read u cache boot epoch c' :
  boots_ok b → collect_snapshot process_boot b now read = Some u → cache_inv process_boot cache →
  publish_docker_snapshot_cache cache u boot epoch = Some c' →
  retained_of (dc_runtime_providers c') = retained_of (dc_runtime_providers cache) ∨
  nothing_retained (dc_runtime_providers c').
Proof.
  intros Hb Hu Hinv. destruct (collect_facts _ _ _ _ _ Hu) as [Hiu _].
  pose proof (new_integrity_ok b Hb) as Hib. rewrite <- Hiu in Hib.
  unfold publish_docker_snapshot_cache.
  destruct (carried_over cache u boot) as [c1|] eqn:E1; cbn [mbind option_bind]; [|done].
  destruct (carried_facts _ _ _ _ (inv_publishable _ _ Hinv) Hib E1) as (Hp & _).
  destruct (rebuild_runtime_map c1) as [c2|] eqn:E2; cbn [mbind option_bind]; [|done].
  destruct (rebuild_facts _ _ Hp E2) as [_ (_ & _ & Ep2 & _)].
  destruct (assign_revision _) as [c3|] eqn:E3; cbn [mbind option_bind]; [|done].
  apply assign_revision_facts in E3 as [_ (_ & _ & _ & _ & _ & Ep3 & _)].
  cbn [with_revision dc_runtime_providers] in Ep3. rewrite Ep2 in Ep3.
  assert (Hc1 : retained_of (dc_runtime_providers c1) = retained_of (dc_runtime_providers cache) ∨
    nothing_retained (dc_runtime_providers c1)).
  { revert E1. unfold carried_over. destruct (bool_decide (dc_mode cache = dc_mode u)); cbn [mbind option_bind andb].
    - destruct (negb _); cbn [mbind option_bind]; [|intros [= <-]; by left].
      destruct (mark_network_observation_stale _) as [slots|] eqn:Em; cbn [mbind option_bind]; [|done].
      intros [= <-]. left. by apply mark_stale_retained.
    - destruct (checked_add _ _ _); cbn [mbind option_bind]; [|done]. intros [= <-]. right. apply reset_retained. }
  rewrite <- Ep3 in Hc1. case_bool_decide; [|by intros [= <-]].
  destruct (observe_published_snapshot _ _ _); cbn [mbind option_bind]; [|done]. by intros [= <-].
Qed.

Lemma claim_keeps_retained process_boot c wall now active due c' :
  cache_inv process_boot c → claim_due_provider_slots c wall now active = Some (due, c') →
  retained_of (dc_runtime_providers c') = retained_of (dc_runtime_providers c).
Proof.
  intros Hinv. pose proof (inv_publishable _ _ Hinv) as (Hall & Hsan & _). unfold claim_due_provider_slots.
  destruct (claim_due_slots_with_active_workers _ _ _ _ _) as [[due' slots]|] eqn:Ec; cbn [mbind option_bind]; [|done].
  destruct (claim_retained _ _ _ _ _ _ _ Hall Ec) as [Hret _]. case_bool_decide; [by intros [= <- <-]|].
  destruct (republish _) as [c1|] eqn:Er; cbn [mbind option_bind]; [|done]. intros [= <- <-].
  destruct (republish_inv process_boot c slots c1 Hinv) as (_ & _ & _ & _ & ->); [..|done|done].
  - apply retained_of_all. rewrite Hret. by apply retained_of_all.
  - apply retained_of_sanitized. rewrite Hret. by apply retained_of_sanitized.
  - intros Hm. unfold nothing_retained. rewrite Hret. by destruct (inv_mock _ _ Hinv Hm).
Qed.

Lemma outcome_own process_boot c slot snapshot generation outcome completed_at wall taken c' :
  cache_inv process_boot c → (∀ collected, outcome = Collected collected → own_collection slot collected) →
  apply_provider_slot_outcome process_boot c slot snapshot Mode_Docker generation outcome completed_at wall = Some (taken, c') →
  own_retained (dc_runtime_providers c) → own_retained (dc_runtime_providers c').
Proof.
  intros Hinv Hcol. pose proof (inv_publishable _ _ Hinv) as (Hall & Hsan & _). unfold apply_provider_slot_outcome.
  destruct (_ || _) eqn:Eg; [by intros [= <- <-]|]. apply orb_false_elim in Eg as [Hm%negb_false_iff%bool_decide_eq_true _].
  destruct (dc_runtime_providers c !! slot) as [s|] eqn:Es; [|by intros [= <- <-]].
  destruct (slot_outcome _ _ _ _ _ _) as [s'|] eqn:Eo; cbn [mbind option_bind]; [|done].
  destruct (republish _) as [c1|] eqn:Er; cbn [mbind option_bind]; [|done]. intros [= <- <-] Hown.
  destruct (outcome_slots _ _ _ _ _ _ _ _ _ Es Eo Hall Hsan) as [Hall' Hsan'].
  destruct (republish_inv _ _ _ c1 Hinv Hall' Hsan') as (_ & _ & _ & _ & ->); [congruence|done|].
  intros other o. unfold retained_of. rewrite fmap_insert. destruct (decide (slot = other)) as [->|Hne].
  - rewrite lookup_insert_eq. intros [= Ho]. destruct (outcome_retained _ _ _ _ _ _ _ Eo) as [E|(c0 & -> & E)].
    + apply Hown. unfold retained_of. rewrite lookup_fmap, Es. cbn [fmap option_fmap option_map]. by rewrite <- E, Ho.
    + rewrite E in Ho. injection Ho as <-. by apply sanitized_own, Hcol.
  - rewrite lookup_insert_ne by done. apply Hown.
Qed.

Lemma other_step_own process_boot s s' :
  system_step process_boot s s' → workers s ≤ workers s' → system_inv process_boot s →
  own_retained (dc_runtime_providers (sy_cache s)) → own_retained (dc_runtime_providers (sy_cache s')).
Proof.
  intros Hstep Hw [Hinv Hmodes] Hown.
  destruct Hstep as [c tasks b now read u boot epoch c' Hb Hu Hp
    |c before snapshot mode generation after wall now active due c' Hcl
    |c before snapshot mode due after
    |c before slot snapshot mode generation after outcome completed_at wall taken c' Ho]; cbn [sy_cache] in *.
  - destruct (publish_retained _ _ _ _ _ _ _ _ _ Hb Hu Hinv Hp) as [E|Hn]; [|by apply nothing_own].
    unfold own_retained. by rewrite E.
  - unfold own_retained. by rewrite (claim_keeps_retained _ _ _ _ _ _ _ Hinv Hcl).
  - done.
  - exfalso. revert Hw. unfold workers. cbn [sy_tasks]. rewrite !count_if_app. cbn [count_if is_worker].
    assert (count_if is_worker (after_outcome taken c') = 0) as -> by (unfold after_outcome; by destruct (_ && _)). lia.
Qed.

Lemma daemon_own process_boot s : daemon_reachable process_boot s →
  system_inv process_boot s ∧ own_retained (dc_runtime_providers (sy_cache s)).
Proof.
  intros (s0 & Hi & Hrun). assert (Hown : own_retained (dc_runtime_providers (sy_cache s0))).
  { pose proof (initial_inv _ _ Hi) as [Hinv _]. apply nothing_own.
    destruct Hi as (b & now & _ & E & _). destruct (cache_mock_facts _ _ _ _ E) as (_ & Hm & _).
    by destruct (inv_mock _ _ Hinv Hm). }
  apply initial_inv in Hi. induction Hrun as [|s1 s2 s3 Hs _ IH]; [done|]. apply IH.
  - by destruct (step_inv _ _ _ (daemon_step_system _ _ _ Hs) Hi).
  - destruct Hs as [s s' Hs Hw|c before slot snapshot mode generation after outcome completed_at wall taken c' Hby Ho].
    + by eapply other_step_own.
    + destruct Hi as [Hinv Hmodes]. cbn [sy_cache sy_tasks] in *. rewrite Forall_app, Forall_cons in Hmodes.
      destruct Hmodes as (_ & Hmode & _). cbn [task_mode] in Hmode. subst mode.
      eapply outcome_own; [done| |done|done]. intros collected ->. by eapply collected_own.
Qed.

(** C38: In every state the daemon can reach with its own collectors, the published state vector
    has the eight slots once each, in order, and each entry is what the documented table says
    of its slot: fresh only on observations made against the published Docker evidence,
    disabled only with that reason, stale whenever older data is served. What a slot retains
    carries no evidence of its own and no marker of another slot, so that evidence of provider
    edges is minted by the binder of their slot only. Every such run is a run of the system, so
    what holds of its runs holds here. *)
Theorem published_states_documented process_boot s :
  daemon_reachable process_boot s →
  let slots := dc_runtime_providers (sy_cache s) in
  let states := rm_provider_states (dc_runtime_map (sy_cache s)) in
  reachable process_boot s ∧
  ps_slot <$> states = STATIC_PROVIDER_SLOTS ∧
  (∀ st, st ∈ states → ∃ slot_state, slots !! ps_slot st = Some slot_state ∧
     ps_state st = documented_state (ps_slot st) (ss_observation slot_state) ∧
     (ps_state st = PS_Fresh → ∃ c, ss_observation slot_state = Obs_Fresh c) ∧
     (ps_state st = PS_Disabled → ps_status_reason st = Some Reason_Disabled)) ∧
  ∀ slot c e, retained_of slots !! slot = Some (Some c) → e ∈ pc_edges c →
    re_evidence_refs e = [] ∧
    ∀ other marker, slot_marker other = Some marker → other ≠ slot → re_metadata e !! marker = None.
Proof.
  intros Hr. destruct (daemon_own _ _ Hr) as [[Hinv _] Hown]. cbv zeta.
  pose proof (inv_publishable _ _ Hinv) as (Hall & _). destruct (inv_map _ _ Hinv) as (_ & Hstates & _).
  split_and!; [by apply daemon_reachable_system|by eapply mapM_provider_slots| |].
  - intros st Hst. destruct (provider_states_all _ Hall) as (states & E & Hin).
    rewrite E in Hstates. injection Hstates as ->. destruct (Hin st Hst) as (slot & slot_state & Hs & ->). exists slot_state.
    cbn [provider_state_for ps_slot ps_state ps_status_reason].
    assert (Hdoc : public_state slot (ss_observation slot_state) = documented_state slot (ss_observation slot_state)).
    { apply public_state_documented. intros c Hc. apply Hown. unfold retained_of. by rewrite lookup_fmap, Hs, <- Hc. }
    split_and!; [done|done| |intros ->; by rewrite bool_decide_eq_true_2].
    rewrite Hdoc. unfold documented_state. case_bool_decide; [done|].
    destruct (ss_observation slot_state) as [|c|[c|]|[c|]|[c|]]; try done. eauto.
  - intros slot c e Hc He. destruct (Hown slot c Hc) as [_ Hf]. rewrite Forall_forall in Hf. by apply Hf.
Qed.
End daemon.

Section example.
#[local] Existing Instances Toy_sha256 CacheSystem.example_node_json CacheSystem.example_edge_json
  CacheSystem.example_evidence_json CacheSystem.example_collection_json CacheSystem.example_model_json
  CacheSystem.example_docker_json.

Lemma published_states_documented_witness :
  ∃ s, daemon_reachable "boot" s ∧ dc_mode (sy_cache s) = Mode_Docker ∧
    ps_slot <$> rm_provider_states (dc_runtime_map (sy_cache s)) = STATIC_PROVIDER_SLOTS.
Proof.
  destruct CacheSystem.example_run as (s0 & s1 & _ & _ & Hi & Hstep & _ & _ & _ & _ & Hm & _).
  exists s1. assert (Hr : daemon_reachable "boot" s1).
  { exists s0. split; [exact Hi|]. apply rtc_once, daemon_other; [exact Hstep|].
    destruct Hi as (b & now & _ & _ & Ht). unfold workers. rewrite Ht. apply Nat.le_0_l. }
  split; [exact Hr|]. split; [exact Hm|]. exact (proj1 (proj2 (published_states_documented "boot" s1 Hr))).
Defined.
End example.
