(* ===== verification/Workers.v ===== *)
(** * The blocking workers of the provider slots
      (claims, guards and outcomes of [crates/dockermap-daemon/src/cache_refresh.rs] and
      [collect_provider_slot_bounded] of [runtime_collection.rs] together)

    A claimed slot has one task, which takes the guard of its slot, waits for its blocking worker
    up to the time of a collection and applies the outcome; a worker whose task gave up goes on
    until it unwinds. A change of the source resets the table, and the tasks of the old source
    are retired: they go on, but their outcomes are dropped. A claim counts collecting slots and
    raised guards, and takes the larger number. The theorem says what that bounds: two
    collecting slots, and three blocking workers, two more for every change of the source. *)

From S2P Require Import Prelude RustStr RustNum Models Serial Identity Evidence Redaction Publication Scheduler CacheSystem Boundary Collection Fairness.

(** Where the task of a claimed slot is: spawned, waiting for its worker, or about to apply what
    the worker returned. *)
Inductive Phase := Spawned | Awaiting | Returned.

(** A task of the present source is live. *)
Record SlotTask := { st_slot : ProviderSlot; st_phase : Phase; st_live : bool }.

Definition is_awaiting (t : SlotTask) : bool := match st_phase t with Awaiting => true | _ => false end.
Definition retired_spawned (t : SlotTask) : bool :=
  negb (st_live t) && match st_phase t with Spawned => true | _ => false end.
Definition retired_awaiting (t : SlotTask) : bool := negb (st_live t) && is_awaiting t.

Definition spawned (slot : ProviderSlot) : SlotTask := {| st_slot := slot; st_phase := Spawned; st_live := true |}.
Definition in_phase (phase : Phase) (t : SlotTask) : SlotTask :=
  {| st_slot := st_slot t; st_phase := phase; st_live := st_live t |}.
Definition retired (t : SlotTask) : SlotTask := {| st_slot := st_slot t; st_phase := st_phase t; st_live := false |}.

(** The table, the guards, the tasks, the workers left behind, and how often the source changed. *)
Record Pool := {
  po_slots : RuntimeProviderSlots;
  po_flights : ProviderSlotFlights;
  po_tasks : list SlotTask;
  po_unwinding : list ProviderSlot;
  po_changes : nat
}.

(** The slots of the live tasks, and the slots with a blocking worker. *)
Definition live_slots (tasks : list SlotTask) : list ProviderSlot := st_slot <$> filterb st_live tasks.
Definition running (tasks : list SlotTask) (unwinding : list ProviderSlot) : list ProviderSlot :=
  (st_slot <$> filterb is_awaiting tasks) ++ unwinding.

Definition initial_pool : Pool := {|
  po_slots := unavailable_provider_slots; po_flights := flights_default; po_tasks := []; po_unwinding := [];
  po_changes := 0 |}.

Section pool.
Context `{Json RuntimeMapNode} `{Json RuntimeMapEdge} `{Json RuntimeEvidenceRef}.
Context `{Json (list RuntimeMapNode * list RuntimeMapEdge * list RuntimeMapDiagnostic * list ProviderState)}.

(** The end of a task: a live one applies its outcome, the outcome of a retired one is dropped. *)
Inductive applies (boot : rstr) (t : SlotTask) (outcome : ProviderCollectionOutcome) (slots : RuntimeProviderSlots)
    : RuntimeProviderSlots → Prop :=
  | applies_live s s' wall completed_at same :
      st_live t = true → slots !! st_slot t = Some s → slot_outcome boot wall completed_at same outcome s = Some s' →
      applies boot t outcome slots (<[st_slot t := s']> slots)
  | applies_retired : st_live t = false → applies boot t outcome slots slots.

(** The steps. [active_count] reads the guards one after the other while tasks go on, so a
    claim sees any number that has every worker left behind. *)
Inductive pool_step (boot : rstr) : Pool → Pool → Prop :=
  | pool_claim slots f tasks unwinding n wall now active due slots' :
      count_if retired_awaiting tasks + length unwinding ≤ active →
      claim_due_slots_with_active_workers slots wall now MAX_CONCURRENT_PROVIDER_SLOTS active = Some (due, slots') →
      pool_step boot (Build_Pool slots f tasks unwinding n)
        (Build_Pool slots' f ((spawned <$> due) ++ tasks) unwinding n)
  | pool_begins slots f before t after unwinding n held :
      st_phase t = Spawned → acquire (for_slot f (st_slot t)) = Some held →
      pool_step boot (Build_Pool slots f (before ++ t :: after) unwinding n)
        (Build_Pool slots (store_flight f (st_slot t) held) (before ++ in_phase Awaiting t :: after) unwinding n)
  | pool_refused slots slots' f before t after unwinding n :
      st_phase t = Spawned → acquire (for_slot f (st_slot t)) = None → applies boot t InFlight slots slots' →
      pool_step boot (Build_Pool slots f (before ++ t :: after) unwinding n)
        (Build_Pool slots' f (before ++ after) unwinding n)
  | pool_returns slots f before t after unwinding n :
      st_phase t = Awaiting →
      pool_step boot (Build_Pool slots f (before ++ t :: after) unwinding n)
        (Build_Pool slots (store_flight f (st_slot t) (release (for_slot f (st_slot t))))
           (before ++ in_phase Returned t :: after) unwinding n)
  | pool_outcome slots slots' f before t after unwinding n outcome :
      st_phase t = Returned → outcome ≠ InFlight → applies boot t outcome slots slots' →
      pool_step boot (Build_Pool slots f (before ++ t :: after) unwinding n)
        (Build_Pool slots' f (before ++ after) unwinding n)
  | pool_timeout slots slots' f before t after unwinding n :
      st_phase t = Awaiting → applies boot t Outcome_TimedOut slots slots' →
      pool_step boot (Build_Pool slots f (before ++ t :: after) unwinding n)
        (Build_Pool slots' f (before ++ after) (st_slot t :: unwinding) n)
  | pool_unwound slots f tasks before slot after n :
      pool_step boot (Build_Pool slots f tasks (before ++ slot :: after) n)
        (Build_Pool slots (store_flight f slot (release (for_slot f slot))) tasks (before ++ after) n)
  | pool_stale slots slots' f tasks unwinding n :
      mark_network_observation_stale slots = Some slots' →
      pool_step boot (Build_Pool slots f tasks unwinding n) (Build_Pool slots' f tasks unwinding n)
  | pool_change slots f tasks unwinding n :
      pool_step boot (Build_Pool slots f tasks unwinding n)
        (Build_Pool source_reset_provider_slots f (retired <$> tasks) unwinding (S n)).

(** ** The invariant *)

(** What may still hold a worker: a task that is live or has not returned. *)
Definition loads (t : SlotTask) : bool := st_live t || match st_phase t with Returned => false | _ => true end.

Lemma loads_split tasks :
  count_if loads tasks = count_if st_live tasks + count_if retired_spawned tasks + count_if retired_awaiting tasks.
Proof.
  induction tasks as [|[slot phase live] tasks IH]; [done|]. cbn [count_if]. rewrite IH.
  destruct live, phase; cbn; lia.
Qed.

Lemma awaiting_loads tasks : count_if is_awaiting tasks ≤ count_if loads tasks.
Proof.
  induction tasks as [|[slot phase live] tasks IH]; [done|]. cbn [count_if]. destruct live, phase; cbn; lia.
Qed.

Record pool_ok (p : Pool) : Prop := {
  ok_slots : all_slots (po_slots p);
  ok_tasks : NoDup (live_slots (po_tasks p));
  ok_collecting : ∀ slot s, po_slots p !! slot = Some s →
    is_collecting (ss_observation s) = true ↔ slot ∈ live_slots (po_tasks p);
  ok_running : NoDup (running (po_tasks p) (po_unwinding p));
  ok_flights : ∀ slot, for_slot (po_flights p) slot = true ↔ slot ∈ running (po_tasks p) (po_unwinding p);
  ok_live : count_if st_live (po_tasks p) ≤ 2;
  ok_retired : count_if retired_spawned (po_tasks p) ≤ 2 * po_changes p;
  ok_load : count_if loads (po_tasks p) + length (po_unwinding p) ≤ 3 + 2 * po_changes p
}.

(** Every part of the invariant looks at tasks and workers as multisets. *)
Lemma pool_ok_perm slots f tasks tasks' unwinding unwinding' n :
  tasks ≡ₚ tasks' → unwinding ≡ₚ unwinding' →
  pool_ok (Build_Pool slots f tasks unwinding n) → pool_ok (Build_Pool slots f tasks' unwinding' n).
Proof.
  intros Ht Hu [Hall Hnd Hcol Hrun Hfl Hl Hr Hb]. cbn [po_slots po_flights po_tasks po_unwinding po_changes] in *.
  unfold live_slots, running in *.
  split; cbn [po_slots po_flights po_tasks po_unwinding po_changes]; unfold live_slots, running;
    try setoid_rewrite <- Ht; try setoid_rewrite <- Hu; done.
Qed.

Lemma pool_ok_middle slots f before t after unwinding n :
  pool_ok (Build_Pool slots f (before ++ t :: after) unwinding n) ↔ pool_ok (Build_Pool slots f (t :: before ++ after) unwinding n).
Proof. split; (apply pool_ok_perm; [by rewrite Permutation_middle|done]). Qed.

Lemma length_live tasks : length (live_slots tasks) = count_if st_live tasks.
Proof. unfold live_slots. by rewrite length_fmap, count_if_filterb. Qed.

Lemma occupied_live slots tasks :
  all_slots slots → NoDup (live_slots tasks) →
  (∀ slot s, slots !! slot = Some s → is_collecting (ss_observation s) = true ↔ slot ∈ live_slots tasks) →
  occupied slots = count_if st_live tasks.
Proof.
  intros Hall Hnd Hcol. rewrite <- length_live. unfold occupied. rewrite count_if_filterb, <- (length_fmap fst).
  apply Permutation_length, NoDup_Permutation; [|done|].
  - eapply sublist_NoDup; [apply (NoDup_fst_map_to_list slots)|]. apply fmap_sublist, filterb_sublist.
  - intros slot. destruct (Hall slot) as [s Hs]. rewrite <- (Hcol slot s Hs). rewrite list_elem_of_fmap. split.
    + intros ([slot' s'] & -> & [Hc Hin%elem_of_map_to_list]%elem_of_filterb). cbn [fst snd] in *. congruence.
    + intros Hc. exists (slot, s). split; [done|]. apply elem_of_filterb. split; [done|]. by apply elem_of_map_to_list.
Qed.

Lemma all_slots_insert slots slot (s : SlotRuntimeState) : all_slots slots → all_slots (<[slot := s]> slots).
Proof.
  intros Hall x. destruct (decide (slot = x)) as [->|]; [rewrite lookup_insert_eq; eauto|by rewrite lookup_insert_ne].
Qed.

Lemma outcome_idle boot wall completed_at same outcome s s' :
  slot_outcome boot wall completed_at same outcome s = Some s' → is_collecting (ss_observation s') = false.
Proof. intros Ho. destruct outcome; [by eapply (outcome_done _ _ _ _ (Collected _)); [|exact Ho]|by injection Ho as <-..]. Qed.

(** The table of a task that ends: without its slot among the collecting ones, if it was live. *)
Lemma applies_table boot t outcome slots slots' tasks :
  applies boot t outcome slots slots' → all_slots slots → NoDup (live_slots (t :: tasks)) →
  (∀ slot s, slots !! slot = Some s → is_collecting (ss_observation s) = true ↔ slot ∈ live_slots (t :: tasks)) →
  all_slots slots' ∧ NoDup (live_slots tasks) ∧
  ∀ slot s, slots' !! slot = Some s → is_collecting (ss_observation s) = true ↔ slot ∈ live_slots tasks.
Proof.
  unfold live_slots. cbn [filterb].
  intros [s s' wall at_ same -> Hs Ho%outcome_idle| ->] Hall Hnd Hcol; [|done]. rewrite fmap_cons in Hnd, Hcol.
  apply NoDup_cons in Hnd as [Hn Hnd]. split_and!; [by apply all_slots_insert|done|].
  intros x sx. destruct (decide (st_slot t = x)) as [<-|Hx].
  - rewrite lookup_insert_eq. intros [= <-]. by rewrite Ho.
  - rewrite lookup_insert_ne by done. intros Hl. rewrite (Hcol x sx Hl), elem_of_cons. naive_solver.
Qed.

(** ** The steps keep it *)

Lemma claim_ok slots f tasks unwinding n wall now active due slots' :
  pool_ok (Build_Pool slots f tasks unwinding n) → count_if retired_awaiting tasks + length unwinding ≤ active →
  claim_due_slots_with_active_workers slots wall now MAX_CONCURRENT_PROVIDER_SLOTS active = Some (due, slots') →
  pool_ok (Build_Pool slots' f ((spawned <$> due) ++ tasks) unwinding n).
Proof.
  intros [Hall Hnd Hcol Hrun Hfl Hl Hr Hb] Hact Hclaim. cbn [po_slots po_flights po_tasks po_unwinding po_changes] in *.
  pose proof (occupied_live slots tasks Hall Hnd Hcol) as Hocc. unfold claim_due_slots_with_active_workers in Hclaim.
  destruct (claim_loop_spec STATIC_PROVIDER_SLOTS wall now slots
    (MAX_CONCURRENT_PROVIDER_SLOTS - Nat.max (occupied slots) active) static_slots_NoDup (λ s _, Hall s))
    as (due' & slots2 & E & Hsub & Hlen & Hin & Hout & _ & _).
  rewrite E in Hclaim. injection Hclaim as -> ->. unfold MAX_CONCURRENT_PROVIDER_SLOTS in Hlen.
  assert (Hlive : live_slots ((spawned <$> due) ++ tasks) = due ++ live_slots tasks).
  { unfold live_slots. rewrite filterb_app, fmap_app. f_equal. clear. induction due as [|slot due IH]; [done|]. cbn. by f_equal. }
  assert (Haw : running ((spawned <$> due) ++ tasks) unwinding = running tasks unwinding).
  { unfold running. rewrite filterb_app, filterb_none; [done|]. by intros ? (slot & -> & _)%list_elem_of_fmap. }
  assert (Hcount : count_if st_live (spawned <$> due) = length due ∧ count_if retired_spawned (spawned <$> due) = 0 ∧
    count_if loads (spawned <$> due) = length due).
  { clear. induction due as [|slot due IH]; [done|]. cbn. lia. }
  pose proof (loads_split tasks) as Hsplit.
  split; cbn [po_slots po_flights po_tasks po_unwinding po_changes]; rewrite ?Hlive, ?Haw, ?count_if_app; try done.
  - intros slot. destruct (decide (slot ∈ due)) as [Hd|Hd]; [|by rewrite Hout].
    destruct (Hin slot Hd) as (c & _ & _ & ->). eauto.
  - apply NoDup_app. split_and!; [by eapply sublist_NoDup; [apply static_slots_NoDup|]| |done].
    intros slot Hd Ht. destruct (Hin slot Hd) as (c & Hc & Hcl & _). apply (Hcol slot c Hc) in Ht.
    unfold claimable in Hcl. by rewrite Ht in Hcl.
  - intros slot s Hs. rewrite elem_of_app. destruct (decide (slot ∈ due)) as [Hd|Hd].
    + destruct (Hin slot Hd) as (c & _ & _ & Hs'). rewrite Hs' in Hs. injection Hs as <-. naive_solver.
    + rewrite Hout in Hs by done. rewrite (Hcol slot s Hs). naive_solver.
  - lia.
  - lia.
  - destruct due; cbn [length] in *; lia.
Qed.

(** A task ends, and leaves its worker behind if it was still waiting for it. *)
Lemma end_ok boot slots slots' f t tasks unwinding unwinding' n outcome :
  pool_ok (Build_Pool slots f (t :: tasks) unwinding n) → applies boot t outcome slots slots' →
  unwinding' = (if is_awaiting t then st_slot t :: unwinding else unwinding) →
  pool_ok (Build_Pool slots' f tasks unwinding' n).
Proof.
  intros [Hall Hnd Hcol Hrun Hfl Hl Hr Hb] Ha ->. cbn [po_slots po_flights po_tasks po_unwinding po_changes] in *.
  destruct (applies_table _ _ _ _ _ _ Ha Hall Hnd Hcol) as (Hall' & Hnd' & Hcol').
  assert (Hperm : running (t :: tasks) unwinding
    ≡ₚ running tasks (if is_awaiting t then st_slot t :: unwinding else unwinding)).
  { unfold running. cbn [filterb]. destruct (is_awaiting t); [|done]. cbn [fmap list_fmap app]. apply Permutation_middle. }
  assert (Hload : is_awaiting t = true → loads t = true) by (unfold is_awaiting, loads; destruct (st_phase t); by rewrite ?orb_true_r).
  cbn [count_if] in *.
  split; cbn [po_slots po_flights po_tasks po_unwinding po_changes]; try done.
  - by rewrite <- Hperm.
  - intros x. by rewrite <- Hperm.
  - lia.
  - lia.
  - destruct (is_awaiting t); [rewrite Hload in Hb by done|]; cbn [length]; lia.
Qed.

(** A worker begins, or ends: one guard is stored, and [running] changes by its slot. *)
Lemma store_ok slots f slot (flag : bool) tasks tasks' unwinding unwinding' n :
  pool_ok (Build_Pool slots f tasks unwinding n) → live_slots tasks' = live_slots tasks →
  count_if retired_spawned tasks' ≤ count_if retired_spawned tasks →
  count_if loads tasks' + length unwinding' ≤ count_if loads tasks + length unwinding →
  (if flag then slot ∉ running tasks unwinding ∧ running tasks' unwinding' ≡ₚ slot :: running tasks unwinding
   else running tasks unwinding ≡ₚ slot :: running tasks' unwinding') →
  pool_ok (Build_Pool slots (store_flight f slot flag) tasks' unwinding' n).
Proof.
  intros [Hall Hnd Hcol Hrun Hfl Hl Hr Hb] Ht Hs Hu Hperm. cbn [po_slots po_flights po_tasks po_unwinding po_changes] in *.
  rewrite <- length_live in Hl.
  split; cbn [po_slots po_flights po_tasks po_unwinding po_changes]; rewrite <- ?length_live, ?Ht; try done; try lia.
  - destruct flag; [destruct Hperm as [Hn ->]; by constructor|]. rewrite Hperm in Hrun. by apply NoDup_cons in Hrun as [_ ?].
  - intros x. rewrite for_slot_store. destruct flag.
    + destruct Hperm as [Hn ->]. rewrite elem_of_cons, <- Hfl. case_bool_decide; naive_solver.
    + rewrite Hperm in Hrun. apply NoDup_cons in Hrun as [Hn _]. specialize (Hfl x). rewrite Hperm, elem_of_cons in Hfl.
      case_bool_decide as E; [subst x|]; naive_solver.
Qed.

Lemma begin_ok slots f t tasks unwinding n :
  pool_ok (Build_Pool slots f (t :: tasks) unwinding n) → st_phase t = Spawned → for_slot f (st_slot t) = false →
  pool_ok (Build_Pool slots (store_flight f (st_slot t) true) (in_phase Awaiting t :: tasks) unwinding n).
Proof.
  intros Hok Hp Hf. destruct t as [slot phase live]. cbn [st_slot st_phase] in *. subst phase.
  eapply store_ok; [exact Hok|by destruct live|destruct live; cbn; lia|destruct live; cbn; lia|]. split; [|done].
  destruct Hok as [_ _ _ _ Hfl _ _ _]. specialize (Hfl slot). cbn [po_flights] in Hfl. rewrite Hf in Hfl. by intros Hr%Hfl.
Qed.

Lemma return_ok slots f t tasks unwinding n :
  pool_ok (Build_Pool slots f (t :: tasks) unwinding n) → st_phase t = Awaiting →
  pool_ok (Build_Pool slots (store_flight f (st_slot t) false) (in_phase Returned t :: tasks) unwinding n).
Proof.
  intros Hok Hp. destruct t as [slot phase live]. cbn [st_slot st_phase] in *. subst phase.
  eapply store_ok; [exact Hok|by destruct live|destruct live; cbn; lia|destruct live; cbn; lia|done].
Qed.

Lemma reset_idle slot s : source_reset_provider_slots !! slot = Some s → is_collecting (ss_observation s) = false.
Proof.
  assert (E : ∃ r, source_reset_provider_slots !! slot = Some r ∧ is_collecting (ss_observation r) = false)
    by (destruct slot; (eexists; split; [vm_compute; reflexivity|done])).
  destruct E as (r & -> & Hr). by intros [= <-].
Qed.

Lemma change_ok slots f tasks unwinding n :
  pool_ok (Build_Pool slots f tasks unwinding n) →
  pool_ok (Build_Pool source_reset_provider_slots f (retired <$> tasks) unwinding (S n)).
Proof.
  intros [Hall Hnd Hcol Hrun Hfl Hl Hr Hb]. cbn [po_slots po_flights po_tasks po_unwinding po_changes] in *.
  assert (Hlive : live_slots (retired <$> tasks) = []).
  { unfold live_slots. rewrite filterb_none; [done|]. by intros ? (t & -> & _)%list_elem_of_fmap. }
  assert (Haw : running (retired <$> tasks) unwinding = running tasks unwinding).
  { unfold running. f_equal. clear. induction tasks as [|t tasks IH]; [done|]. cbn [fmap list_fmap filterb].
    change (is_awaiting (retired t)) with (is_awaiting t). destruct (is_awaiting t); cbn; by rewrite IH. }
  assert (Hcount : count_if retired_spawned (retired <$> tasks) ≤ count_if retired_spawned tasks + count_if st_live tasks ∧
    count_if loads (retired <$> tasks) ≤ count_if loads tasks).
  { clear. induction tasks as [|[slot phase live] tasks IH]; [done|]. cbn [fmap list_fmap count_if]. destruct live, phase; cbn; lia. }
  split; cbn [po_slots po_flights po_tasks po_unwinding po_changes]; rewrite <- ?length_live, ?Hlive, ?Haw; try done; try (cbn; lia).
  - intros []; vm_compute; eauto.
  - constructor.
  - intros slot s ->%reset_idle. by rewrite elem_of_nil.
Qed.

Lemma stale_ok slots slots' f tasks unwinding n :
  mark_network_observation_stale slots = Some slots' →
  pool_ok (Build_Pool slots f tasks unwinding n) → pool_ok (Build_Pool slots' f tasks unwinding n).
Proof.
  unfold mark_network_observation_stale.
  destruct (slots !! NetworkInfrastructure) as [s|] eqn:Es; cbn [mbind option_bind]; [|done].
  destruct (ss_observation s) as [|c| | |] eqn:Eo; intros [= <-]; [done| |done..].
  intros [Hall Hnd Hcol Hrun Hfl Hl Hr Hb]. split; try done; cbn [po_slots po_tasks] in *; [by apply all_slots_insert|].
  intros x sx. destruct (decide (NetworkInfrastructure = x)) as [<-|Hx]; [|by rewrite lookup_insert_ne; eauto].
  rewrite lookup_insert_eq. intros [= <-]. by rewrite <- (Hcol _ s Es), Eo.
Qed.

Lemma pool_step_ok boot p p' : pool_step boot p p' → pool_ok p → pool_ok p'.
Proof.
  intros [slots f tasks unwinding n wall now active due slots' Hact Hcl
    |slots f before t after unwinding n held Hp Ha
    |slots slots' f before t after unwinding n Hp Ha Ho
    |slots f before t after unwinding n Hp
    |slots slots' f before t after unwinding n outcome Hp Hne Ho
    |slots slots' f before t after unwinding n Hp Ho
    |slots f tasks before slot after n
    |slots slots' f tasks unwinding n Hm
    |slots f tasks unwinding n]; rewrite ?pool_ok_middle; intros Hok.
  - by eapply claim_ok.
  - unfold acquire in Ha. destruct (for_slot f (st_slot t)) eqn:Ef; [done|]. injection Ha as <-. by apply begin_ok.
  - eapply end_ok; [done..|]. unfold is_awaiting. by rewrite Hp.
  - by apply return_ok.
  - eapply end_ok; [done..|]. unfold is_awaiting. by rewrite Hp.
  - eapply end_ok; [done..|]. unfold is_awaiting. by rewrite Hp.
  - eapply store_ok; [exact Hok|done|done|rewrite !length_app; cbn [length]; lia|]. unfold release, running.
    rewrite app_assoc. symmetry. rewrite app_assoc. apply Permutation_middle.
  - by eapply (stale_ok slots).
  - by eapply (change_ok slots).
Qed.

Lemma initial_pool_ok : pool_ok initial_pool.
Proof.
  split; try (by constructor); cbn [initial_pool po_slots po_tasks po_flights po_unwinding po_changes].
  - intros []; vm_compute; eauto.
  - intros slot s. assert (E : unavailable_provider_slots !! slot = Some slot_default) by (destruct slot; by vm_compute).
    rewrite E. intros [= <-]. cbn. by rewrite elem_of_nil.
  - intros slot. cbn. rewrite elem_of_nil. by destruct slot.
  - cbn. lia.
  - cbn. lia.
Qed.

(** C39: In every order of claims, tasks, time-outs, unwinding workers and changes of the source: at
    most two slots are collecting, exactly those of the live tasks; no slot ever has two blocking
    workers; the raised guards are the running workers; and at most three workers run, plus two
    for every change of the source, and never more than there are slots. (Three are reached
    without any change, see [three_workers_run]: while a worker that timed out unwinds, a claim that
    sees its guard but not yet the guard of a claimed slot counts one where there are two.) *)
Theorem worker_pool_bounded boot p :
  rtc (pool_step boot) initial_pool p →
  let workers := running (po_tasks p) (po_unwinding p) in
  occupied (po_slots p) = length (live_slots (po_tasks p)) ∧
  length (live_slots (po_tasks p)) ≤ MAX_CONCURRENT_PROVIDER_SLOTS ∧
  (∀ slot s, po_slots p !! slot = Some s → is_collecting (ss_observation s) = true ↔ slot ∈ live_slots (po_tasks p)) ∧
  NoDup workers ∧ active_count (po_flights p) = length workers ∧
  length workers ≤ S MAX_CONCURRENT_PROVIDER_SLOTS + 2 * po_changes p ∧ length workers ≤ length STATIC_PROVIDER_SLOTS.
Proof.
  intros Hrun. assert (Hok : pool_ok p).
  { pose proof initial_pool_ok as Hi. induction Hrun; [done|]. eauto using pool_step_ok. }
  destruct Hok as [Hall Hnd Hcol Hr Hfl Hl _ Hb]. cbv zeta. unfold MAX_CONCURRENT_PROVIDER_SLOTS.
  pose proof (raised_running _ _ Hr Hfl) as Hp. pose proof (awaiting_loads (po_tasks p)) as Ha.
  assert (Hlen : length (running (po_tasks p) (po_unwinding p)) = count_if is_awaiting (po_tasks p) + length (po_unwinding p))
    by (unfold running; by rewrite length_app, length_fmap, count_if_filterb).
  split_and!; try done.
  - rewrite length_live. by apply occupied_live.
  - by rewrite length_live.
  - by rewrite active_count_slots, Hp.
  - lia.
  - rewrite <- Hp. apply length_filterb.
Qed.
End pool.

(** ** A run in which three workers run *)

Section example.
#[local] Existing Instances CacheSystem.example_node_json CacheSystem.example_edge_json
  CacheSystem.example_evidence_json CacheSystem.example_collection_json.

Definition example_claim (now : N) (active : nat) (slots : RuntimeProviderSlots) : RuntimeProviderSlots :=
  from_option snd slots (claim_due_slots_with_active_workers slots (λ _, None) now MAX_CONCURRENT_PROVIDER_SLOTS active).

Definition example_outcome (slot : ProviderSlot) (outcome : ProviderCollectionOutcome) (slots : RuntimeProviderSlots)
    : RuntimeProviderSlots :=
  from_option (λ s, <[slot := s]> slots) slots (s ← slots !! slot; slot_outcome "boot" None (from_secs 15) true outcome s).

Definition slots_claimed : RuntimeProviderSlots := example_claim 0 0 unavailable_provider_slots.
Definition slots_timed_out : RuntimeProviderSlots := example_outcome HostScoped Outcome_TimedOut slots_claimed.
Definition slots_freed : RuntimeProviderSlots := example_outcome NetworkInfrastructure Outcome_Failed slots_timed_out.
Definition slots_refilled : RuntimeProviderSlots :=
  example_claim (from_secs 15) 1 (example_claim (from_secs 15) 1 slots_freed).

Definition two_raised : ProviderSlotFlights :=
  store_flight (store_flight flights_default NetworkInfrastructure true) HostScoped true.

Definition crowded : Pool := {|
  po_slots := slots_refilled;
  po_flights := store_flight (store_flight (store_flight two_raised NetworkInfrastructure false) Slot_Cron true) Slot_Tmux true;
  po_tasks := in_phase Awaiting <$> [spawned Slot_Cron; spawned Slot_Tmux];
  po_unwinding := [HostScoped]; po_changes := 0 |}.

Lemma example_claims now active slots due :
  fst <$> claim_due_slots_with_active_workers slots (λ _, None) now MAX_CONCURRENT_PROVIDER_SLOTS active = Some due →
  claim_due_slots_with_active_workers slots (λ _, None) now MAX_CONCURRENT_PROVIDER_SLOTS active
  = Some (due, example_claim now active slots).
Proof. unfold example_claim. destruct (claim_due_slots_with_active_workers _ _ _ _ _) as [[]|]; cbn; naive_solver. Qed.

Lemma example_applies t outcome slots :
  st_live t = true → is_Some (s ← slots !! st_slot t; slot_outcome "boot" None (from_secs 15) true outcome s) →
  applies "boot" t outcome slots (example_outcome (st_slot t) outcome slots).
Proof.
  intros Hl [s' E]. unfold example_outcome. rewrite E. destruct (slots !! st_slot t) as [s|] eqn:Es; [|done].
  cbn [mbind option_bind] in E. by eapply applies_live.
Qed.

Lemma crowded_reached : rtc (pool_step "boot") initial_pool crowded.
Proof.
  pose (network := spawned NetworkInfrastructure). pose (host := spawned HostScoped).
  eapply rtc_l; [apply (pool_claim _ _ _ [] [] 0 (λ _, None) 0 0 [NetworkInfrastructure; HostScoped] slots_claimed);
    [done|by apply example_claims; vm_compute]|].
  eapply rtc_l; [by apply (pool_begins _ _ _ [] network [host])|].
  eapply rtc_l; [by apply (pool_begins _ _ _ [in_phase Awaiting network] host [])|].
  eapply rtc_l; [apply (pool_timeout _ _ slots_timed_out _ [in_phase Awaiting network] (in_phase Awaiting host) []);
    [done|apply (example_applies (in_phase Awaiting host)); [done|vm_compute; eauto]]|].
  eapply rtc_l; [by apply (pool_returns _ _ _ [] (in_phase Awaiting network) [])|].
  eapply rtc_l; [apply (pool_outcome _ _ slots_freed _ [] (in_phase Returned network) [] _ _ Outcome_Failed);
    [done|done|apply (example_applies (in_phase Returned network)); [done|vm_compute; eauto]]|].
  eapply rtc_l; [apply (pool_claim _ slots_freed _ [] [HostScoped] 0 (λ _, None) (from_secs 15) 1 [Slot_Tmux]
    (example_claim (from_secs 15) 1 slots_freed)); [done|by apply example_claims; vm_compute]|].
  eapply rtc_l; [apply (pool_claim _ _ _ [spawned Slot_Tmux] [HostScoped] 0 (λ _, None) (from_secs 15) 1 [Slot_Cron] slots_refilled);
    [cbn; lia|by apply example_claims; vm_compute]|].
  eapply rtc_l; [by apply (pool_begins _ _ _ [] (spawned Slot_Cron) [spawned Slot_Tmux])|].
  eapply rtc_l; [by apply (pool_begins _ _ _ [in_phase Awaiting (spawned Slot_Cron)] (spawned Slot_Tmux) [])|].
  apply rtc_refl.
Qed.

(** Three workers at once in one source generation, although the scheduler means two. *)
Lemma three_workers_run :
  rtc (pool_step "boot") initial_pool crowded ∧ po_changes crowded = 0 ∧
  running (po_tasks crowded) (po_unwinding crowded) = [Slot_Cron; Slot_Tmux; HostScoped].
Proof. split_and!; [apply crowded_reached|done|done]. Qed.

Lemma worker_pool_bounded_witness :
  rtc (pool_step "boot") initial_pool crowded ∧ active_count (po_flights crowded) = 3.
Proof.
  split; [apply crowded_reached|].
  destruct (worker_pool_bounded "boot" crowded crowded_reached) as (_ & _ & _ & _ & E & _).
  rewrite E. reflexivity.
Defined.
End example.
