(* ===== verification/Refresh.v ===== *)
(** * A refresh: the cached Docker client, the read and the Compose projection
      ([AppState], [docker_collector], [collect_docker_snapshot_candidate] and [refresh_cache] of
      [crates/dockermap-daemon/src/cache_refresh.rs], [DockerCollector::connect] of
      [docker_collector.rs])

    The pieces of the other files put together: the collector's answers become the read that
    [Cache] publishes, the provider tasks are those of [Daemon]. The client library answers
    through [Bollard]; which waits run out, and how much time has passed, is in [ReadTiming]. *)

From S2P Require Import Prelude RustStr RustNum Models Serial Identity Evidence Redaction Publication ObservedHistory Graph RuntimeTopology Findings ComposeBinding Scheduler Assembly Fixtures Cache CacheSystem Utf8 Paths Compose Boundary Order DockerCollector ComposeApi HostFiles Providers Processes Cron Systemd NetworkProviders Npm Collection Daemon.

(** ** The Docker client *)

(** The client library: [connect_with_unix] at some moment gives a client of the socket it
    names, and a client answers the three lists at some moment. *)
Class Bollard := {
  Docker : Type;
  docker_socket : Docker → rstr;
  connect_with_unix : N → rstr → Docker + rstr;
  inventory_at : Docker → N → DockerClient;
  connect_with_unix_socket moment socket client :
    connect_with_unix moment socket = inl client → docker_socket client = socket
}.

Definition DOCKER_SNAPSHOT_COLLECTION_TIMEOUT : N := from_secs 5.

(** What reading the containers of an observation into a binding yields; [None] is a panic of
    the blocking task. *)
Definition Projection : Type :=
  option (list ComposeRuntimeContainer) → N → option (option (ComposeScan * ComposeRuntimeBinding)).

(** One read: when the lists are asked, the wall clock of the snapshot, whether the wait for the
    lists ran out, the time since the start when the projection is due, and whether the
    wait for the projection ran out. *)
Record ReadTiming := {
  rt_moment : N; rt_now : N; rt_elapsed : bool; rt_started : N; rt_projection_elapsed : bool
}.

Section refresh.
Context `{Sha256} `{Json RuntimeMapNode} `{Json RuntimeMapEdge} `{Json RuntimeEvidenceRef}.
Context `{Json (list RuntimeMapNode * list RuntimeMapEdge * list RuntimeMapDiagnostic * list ProviderState)}.
Context `{Json (DockerSnapshot * HealthResponse * RuntimeMap)} `{Json (RuntimeMode * DockerSnapshot)}.
Context `{Bollard}.
Variable env : rstr → EnvVar.

Record DockerCollector := { dcl_client : Docker; dcl_label_filter : option rstr }.

(** [DockerCollector::connect]. *)
Definition connect (moment : N) : DockerCollector + rstr :=
  match docker_label_filter_from_env env with
  | inr error => inr error
  | inl label_filter =>
      match docker_gateway_socket_from_env env with
      | inr error => inr error
      | inl socket =>
          match connect_with_unix moment socket with
          | inr error => inr ("failed to connect to Docker Read Gateway: " +s+ error)
          | inl client => inl {| dcl_client := client; dcl_label_filter := label_filter |}
          end
      end
  end.

(** [docker_collector]: what it returns and the cached client afterwards. The lock is released
    between the look at it ([seen]) and the store, so [docker] may be another client by then. *)
Definition docker_collector (moment : N) (seen docker : option DockerCollector)
    : (DockerCollector + rstr) * option DockerCollector :=
  match seen with
  | Some collector => (inl collector, docker)
  | None =>
      match connect moment with
      | inl collector => (inl collector, Some collector)
      | inr error => (inr error, docker)
      end
  end.

Definition observe (collector : DockerCollector) (moment now : N) : DockerObservation + rstr :=
  collect_observation (inventory_at (dcl_client collector) moment) (dcl_label_filter collector) now.

(** ** The candidate of one read *)

Inductive DockerReadFailure := Failed (error : rstr) | ReadTimedOut.

(** The projection under its flag: the binding, the flag, and whether a projection goes on. *)
Definition compose_projection (snapshot_timeout : N) (t : ReadTiming) (in_flight : bool) (projection : Projection)
    (containers : option (list ComposeRuntimeContainer)) (collected_at : N)
    : option (ComposeScan * ComposeRuntimeBinding) * bool * bool :=
  match acquire in_flight with
  | None => (None, in_flight, false)
  | Some held =>
      if (rt_started t <? snapshot_timeout)%N
      then if rt_projection_elapsed t then (None, held, true)
           else (mjoin (projection containers collected_at), release held, false)
      else (None, release held, false)
  end.

Definition collect_docker_snapshot_candidate (process_boot : rstr) (b : Boots) (collector : DockerCollector)
    (snapshot_timeout : N) (t : ReadTiming) (in_flight : bool) (projection : Projection)
    : (DaemonCache + DockerReadFailure) * bool * bool :=
  if rt_elapsed t then (inr ReadTimedOut, in_flight, false)
  else
    match observe collector (rt_moment t) (rt_now t) with
    | inr error => (inr (Failed error), in_flight, false)
    | inl observation =>
        let '(binding, in_flight, running) :=
          compose_projection snapshot_timeout t in_flight projection
            (do_compose_containers observation) (s_last_updated (do_snapshot observation)) in
        (inl (docker_candidate process_boot b (do_snapshot observation) binding), in_flight, running)
    end.

(** ** [collect_snapshot_with_projection], before and after the read *)

Inductive Begun :=
  | Forced
  | Unconnected (error : rstr)
  | Connected (collector : DockerCollector).

Definition force_mock : bool := env_ok (env "DOCKERMAP_FORCE_MOCK") == Some ("true" : rstr).

Definition read_begins (moment : N) (seen docker : option DockerCollector) : Begun * option DockerCollector :=
  if force_mock then (Forced, docker)
  else match docker_collector moment seen docker with
       | (inl collector, docker) => (Connected collector, docker)
       | (inr error, docker) => (Unconnected error, docker)
       end.

(** The cache, the cached client, the flag, and whether a projection goes on. *)
Definition read_ends (process_boot : rstr) (b : Boots) (snapshot_timeout : N) (t : ReadTiming)
    (begun : Begun) (docker : option DockerCollector) (in_flight : bool) (projection : Projection)
    : option DaemonCache * option DockerCollector * bool * bool :=
  let mock (message : rstr) :=
    cache ← cache_mock process_boot b (rt_now t); Some (with_redacted_health (with_message cache message)) in
  match begun with
  | Forced => (mock "Mock mode forced by DOCKERMAP_FORCE_MOCK", docker, in_flight, false)
  | Unconnected error => (mock ("Docker unavailable, serving mock data: " +s+ error), docker, in_flight, false)
  | Connected collector =>
      match collect_docker_snapshot_candidate process_boot b collector snapshot_timeout t in_flight projection with
      | (inl cache, in_flight, running) => (Some (with_redacted_health cache), docker, in_flight, running)
      | (inr (Failed error), in_flight, running) =>
          (mock ("Docker read failed, serving mock data: " +s+ error), None, in_flight, running)
      | (inr ReadTimedOut, in_flight, running) =>
          (mock "Docker snapshot read timed out, serving mock data", None, in_flight, running)
      end
  end.

(** A read publishes exactly one of five results, and the client, the flag and the binding
    follow from it. The snapshot is Docker's exactly when a client was there and its three lists came
    in time; then it is the collector's snapshot of those lists, whatever becomes of the
    Compose projection. A failed or timed-out read drops the cached client, every other keeps it. A
    binding is published exactly when the flag was free, time was left and the projection returned
    it in time; a projection that goes on keeps the flag. The read always yields a cache. *)
Lemma refresh_read_spec process_boot b t begun docker in_flight projection :
  let '(u, docker', in_flight', running) :=
    read_ends process_boot b DOCKER_SNAPSHOT_COLLECTION_TIMEOUT t begun docker in_flight projection in
  ∃ read cache, u = Some cache ∧ collect_snapshot process_boot b (rt_now t) read = Some cache ∧
    (dc_mode cache = Mode_Docker ↔ ∃ snapshot binding, read = Read_observed snapshot binding) ∧
    match begun with
    | Forced => read = Read_forced_mock ∧ docker' = docker ∧ in_flight' = in_flight ∧ running = false
    | Unconnected error => read = Read_no_collector error ∧ docker' = docker ∧ in_flight' = in_flight ∧ running = false
    | Connected collector =>
        match rt_elapsed t, observe collector (rt_moment t) (rt_now t) with
        | true, _ => read = Read_timed_out ∧ docker' = None ∧ in_flight' = in_flight ∧ running = false
        | _, inr error => read = Read_failed error ∧ docker' = None ∧ in_flight' = in_flight ∧ running = false
        | _, inl observation =>
            let in_time := negb in_flight && (rt_started t <? DOCKER_SNAPSHOT_COLLECTION_TIMEOUT)%N in
            docker' = docker ∧ running = in_time && rt_projection_elapsed t ∧ in_flight' = in_flight || running ∧
            dc_snapshot cache = with_images (do_snapshot observation) ∧
            ∃ binding, read = Read_observed (do_snapshot observation) binding ∧
              ∀ bound, binding = Some bound ↔ in_time = true ∧ rt_projection_elapsed t = false ∧
                projection (do_compose_containers observation) (s_last_updated (do_snapshot observation)) = Some (Some bound)
        end
    end.
Proof.
  destruct (cache_mock_total process_boot b (rt_now t)) as [c0 E0].
  destruct (cache_mock_facts _ _ _ _ E0) as (_ & Hm0 & _).
  assert (Hmock : ∀ message, dc_mode (with_redacted_health (with_message c0 message)) = Mode_Docker ↔ False)
    by (intros message; change (dc_mode c0 = Mode_Docker ↔ False); by rewrite Hm0).
  unfold read_ends. rewrite E0. cbn [mbind option_bind].
  destruct begun as [|error|collector].
  - exists Read_forced_mock. eexists. cbn [collect_snapshot]. rewrite E0. cbn [mbind option_bind]. rewrite Hmock. naive_solver.
  - exists (Read_no_collector error). eexists. cbn [collect_snapshot]. rewrite E0. cbn [mbind option_bind]. rewrite Hmock. naive_solver.
  - unfold collect_docker_snapshot_candidate. destruct (rt_elapsed t).
    { exists Read_timed_out. eexists. cbn [collect_snapshot]. rewrite E0. cbn [mbind option_bind]. rewrite Hmock. naive_solver. }
    destruct (observe collector _ _) as [observation|error].
    2:{ exists (Read_failed error). eexists. cbn [collect_snapshot]. rewrite E0. cbn [mbind option_bind]. rewrite Hmock. naive_solver. }
    unfold compose_projection, acquire, release.
    destruct in_flight, (rt_started t <? _)%N, (rt_projection_elapsed t);
      (eexists (Read_observed (do_snapshot observation) _); eexists; split; [reflexivity|]; split; [reflexivity|];
       split; [naive_solver|]; cbv zeta; cbn [negb andb orb]; split_and!; [done..|]; eexists; split; [reflexivity|]).
    all: intros bound; try naive_solver.
    destruct (projection _ _) as [[]|]; cbn [mjoin option_join]; naive_solver.
Qed.

(** ** The state of the daemon *)

(** [AppState], with the refresh that is under way, the tasks of the system and the number of
    projections still running. *)
Record AppState := {
  as_allow_mock : bool;
  as_system : System;
  as_docker : option DockerCollector;
  as_provider_slot_in_flight : ProviderSlotFlights;
  as_refresh : option Begun;
  as_projections : nat
}.

Definition store_projection (f : ProviderSlotFlights) (flag : bool) : ProviderSlotFlights := {|
  fl_compose_projection := flag;
  fl_network := fl_network f; fl_host := fl_host f; fl_tmux := fl_tmux f; fl_cron := fl_cron f;
  fl_systemd := fl_systemd f; fl_python := fl_python f; fl_native := fl_native f; fl_npm := fl_npm f |}.

(** [AppState::new], around the sample cache of [s]. *)
Definition AppState_new (allow_mock : bool) (s : System) : AppState := {|
  as_allow_mock := allow_mock; as_system := s; as_docker := None;
  as_provider_slot_in_flight := flights_default; as_refresh := None; as_projections := 0 |}.

(** A projection reads the Compose files as they are at that moment. *)
Definition reads_compose_files (projection : Projection) : Prop :=
  ∀ containers collected_at r, projection containers collected_at = Some r →
    ∃ (files : Host) (paths : HostPaths) (yaml : Yaml) (first second : Reading),
      r = bounded_compose_runtime_binding env first second containers collected_at.

(** [wall_clock_millis]; [since_epoch] is the system clock in milliseconds, [None] before 1970. *)
Definition wall_clock_millis (since_epoch : option N) : option N :=
  millis ← since_epoch; if (millis <=? MAX_SAFE_JS_INTEGER)%N then Some millis else None.

(** The steps of the provider tasks; [clock] is the system clock at each look at it. *)
Inductive provider_step (process_boot : rstr) : System → System → Prop :=
  | provider_claim c before snapshot mode generation after clock now active due c' :
      claim_due_provider_slots c (λ slot, wall_clock_millis (clock slot)) now active = Some (due, c') →
      provider_step process_boot {| sy_cache := c; sy_tasks := before ++ Task_claim snapshot mode generation :: after |}
        {| sy_cache := c'; sy_tasks := before ++ after_claim snapshot mode generation due ++ after |}
  | provider_spawn c before snapshot mode due after :
      provider_step process_boot {| sy_cache := c; sy_tasks := before ++ Task_spawn snapshot mode due :: after |}
        {| sy_cache := c;
           sy_tasks := before ++ spawn_provider_slots snapshot mode (dc_source_generation c) due ++ after |}
  | provider_outcome c before slot snapshot mode generation after outcome completed_at clock taken c' :
      collected_by slot snapshot outcome →
      apply_provider_slot_outcome process_boot c slot snapshot mode generation outcome completed_at
        (wall_clock_millis clock) = Some (taken, c') →
      provider_step process_boot
        {| sy_cache := c; sy_tasks := before ++ Task_worker slot snapshot mode generation :: after |}
        {| sy_cache := c'; sy_tasks := before ++ after_outcome taken c' ++ after |}.

(** The refresh loop, the log route's use of the client, and the tasks, in any order. *)
Inductive app_step (process_boot : rstr) : AppState → AppState → Prop :=
  | app_refresh_begins allow s docker f n seen moment begun docker' :
      (seen = docker ∨ seen = None) → read_begins moment seen docker = (begun, docker') →
      app_step process_boot
        {| as_allow_mock := allow; as_system := s; as_docker := docker; as_provider_slot_in_flight := f;
           as_refresh := None; as_projections := n |}
        {| as_allow_mock := allow; as_system := s; as_docker := docker'; as_provider_slot_in_flight := f;
           as_refresh := Some begun; as_projections := n |}
  | app_refresh_ends allow c tasks docker f n begun b t projection u docker' in_flight running boot epoch c' :
      boots_ok b → reads_compose_files projection →
      read_ends process_boot b DOCKER_SNAPSHOT_COLLECTION_TIMEOUT t begun docker (fl_compose_projection f) projection
      = (Some u, docker', in_flight, running) →
      publish_docker_snapshot_cache c u boot epoch = Some c' →
      app_step process_boot
        {| as_allow_mock := allow; as_system := {| sy_cache := c; sy_tasks := tasks |}; as_docker := docker;
           as_provider_slot_in_flight := f; as_refresh := Some begun; as_projections := n |}
        {| as_allow_mock := allow; as_system := {| sy_cache := c'; sy_tasks := after_publish c' ++ tasks |};
           as_docker := docker'; as_provider_slot_in_flight := store_projection f in_flight;
           as_refresh := None; as_projections := (if running then 1 else 0) + n |}
  | app_projection_ends allow s docker f refresh n :
      app_step process_boot
        {| as_allow_mock := allow; as_system := s; as_docker := docker; as_provider_slot_in_flight := f;
           as_refresh := refresh; as_projections := S n |}
        {| as_allow_mock := allow; as_system := s; as_docker := docker;
           as_provider_slot_in_flight := store_projection f (release (fl_compose_projection f));
           as_refresh := refresh; as_projections := n |}
  | app_logs allow s docker f refresh n seen moment result docker' :
      (seen = docker ∨ seen = None) → docker_collector moment seen docker = (result, docker') →
      app_step process_boot
        {| as_allow_mock := allow; as_system := s; as_docker := docker; as_provider_slot_in_flight := f;
           as_refresh := refresh; as_projections := n |}
        {| as_allow_mock := allow; as_system := s; as_docker := docker'; as_provider_slot_in_flight := f;
           as_refresh := refresh; as_projections := n |}
  | app_provider allow s s' docker f f' refresh n :
      provider_step process_boot s s' → fl_compose_projection f' = fl_compose_projection f →
      app_step process_boot
        {| as_allow_mock := allow; as_system := s; as_docker := docker; as_provider_slot_in_flight := f;
           as_refresh := refresh; as_projections := n |}
        {| as_allow_mock := allow; as_system := s'; as_docker := docker; as_provider_slot_in_flight := f';
           as_refresh := refresh; as_projections := n |}.

Definition app_reachable (process_boot : rstr) (a : AppState) : Prop :=
  ∃ allow s0, initial process_boot s0 ∧ rtc (app_step process_boot) (AppState_new allow s0) a.

(** ** The part of the cache that only a refresh changes *)

Definition unrevised (s : DockerSnapshot) : DockerSnapshot := with_snapshot_markers s (s_last_updated s) [].

Definition source_part (c : DaemonCache) : RuntimeMode * DockerSnapshot * option (ComposeScan * ComposeRuntimeBinding) :=
  (dc_mode c, unrevised (dc_snapshot c), dc_compose_runtime_binding c).

Lemma assign_revision_source c c' : assign_revision c = Some c' → source_part c' = source_part c.
Proof.
  intros E. destruct (assign_revision_facts _ _ E) as [_ (_ & _ & Es & _ & Em & _)]. revert E.
  unfold assign_revision. destruct (publication_assign _ _ _ _) as [[[[r s] h] m]|]; cbn [mbind option_bind]; [|done].
  destruct (cache_findings _ _ _ _); cbn [mbind option_bind]; [|done]. intros [= <-].
  unfold source_part. by rewrite Em, Es.
Qed.

Lemma rebuild_source c c' : rebuild_runtime_map c = Some c' → source_part c' = source_part c.
Proof.
  unfold rebuild_runtime_map, assign_docker_observation_revision, apply_runtime_identity_collision_fact.
  destruct (docker_observation_assign _ _ _); cbn [mbind option_bind]; [|done].
  destruct (runtime_map_for_snapshot _ _ _ _); cbn [mbind option_bind]; [|done].
  destruct (revision_see _ _); cbn [mbind option_bind]; [|done]. by intros [= <-].
Qed.

Lemma republish_source c c' : republish c = Some c' → source_part c' = source_part c.
Proof.
  unfold republish. destruct (rebuild_runtime_map c) as [c1|] eqn:E; cbn [mbind option_bind]; [|done].
  intros ->%assign_revision_source. by apply rebuild_source.
Qed.

Lemma publish_source cache u boot epoch c' :
  publish_docker_snapshot_cache cache u boot epoch = Some c' → source_part c' = source_part u.
Proof.
  unfold publish_docker_snapshot_cache.
  destruct (carried_over cache u boot) as [c1|] eqn:E1; cbn [mbind option_bind]; [|done].
  assert (H1' : source_part c1 = source_part u).
  { revert E1. unfold carried_over. destruct (bool_decide _); cbn [mbind option_bind andb].
    - destruct (negb _); cbn [mbind option_bind]; [|by intros [= <-]].
      destruct (mark_network_observation_stale _); cbn [mbind option_bind]; [|done]. by intros [= <-].
    - destruct (checked_add _ _ _); cbn [mbind option_bind]; [|done]. by intros [= <-]. }
  destruct (rebuild_runtime_map c1) as [c2|] eqn:E2; cbn [mbind option_bind]; [|done]. apply rebuild_source in E2.
  destruct (assign_revision _) as [c3|] eqn:E3; cbn [mbind option_bind]; [|done]. apply assign_revision_source in E3.
  assert (E : source_part c3 = source_part u) by (rewrite E3, <- H1', <- E2; done).
  case_bool_decide; [|by intros [= <-]].
  destruct (observe_published_snapshot _ _ _); cbn [mbind option_bind]; [|done]. by intros [= <-].
Qed.

Lemma provider_source process_boot s s' :
  provider_step process_boot s s' → source_part (sy_cache s') = source_part (sy_cache s).
Proof.
  intros [c before snapshot mode generation after clock now active due c' Hc| |
    c before slot snapshot mode generation after outcome completed_at clock taken c' _ Ho]; cbn [sy_cache]; [|done|].
  - revert Hc. unfold claim_due_provider_slots.
    destruct (claim_due_slots_with_active_workers _ _ _ _ _) as [[due' slots]|]; cbn [mbind option_bind]; [|done].
    case_bool_decide; [by intros [= _ <-]|]. destruct (republish _) as [c1|] eqn:Er; cbn [mbind option_bind]; [|done].
    intros [= _ <-]. by apply republish_source in Er.
  - revert Ho. unfold apply_provider_slot_outcome. destruct (_ || _); [by intros [= _ <-]|].
    destruct (_ !! slot); [|by intros [= _ <-]]. destruct (slot_outcome _ _ _ _ _ _); cbn [mbind option_bind]; [|done].
    destruct (republish _) as [c1|] eqn:Er; cbn [mbind option_bind]; [|done].
    intros [= _ <-]. by apply republish_source in Er.
Qed.

Lemma provider_daemon process_boot s s' : provider_step process_boot s s' → daemon_step process_boot s s'.
Proof.
  intros [c before snapshot mode generation after clock now active due c' Hc
    |c before snapshot mode due after|]; [| |by eapply daemon_outcome].
  - apply daemon_other; [by eapply step_claim|]. unfold workers. cbn [sy_tasks]. rewrite !count_if_app. cbn [count_if is_worker]. lia.
  - apply daemon_other; [by eapply step_spawn|]. unfold workers. cbn [sy_tasks]. rewrite !count_if_app. cbn [count_if is_worker]. lia.
Qed.

(** ** Theorems: what the daemon publishes *)

(** A client of the configured gateway socket, with the configured filter. *)
Definition gateway_client (collector : DockerCollector) : Prop :=
  docker_gateway_socket_from_env env = inl (docker_socket (dcl_client collector)) ∧
  docker_label_filter_from_env env = inl (dcl_label_filter collector).

(** The sockets [validate_docker_gateway_socket] names. *)
Definition raw_docker_sockets : list rstr := lit <$> ["/var/run/docker.sock"; "/run/docker.sock"].

Definition observed_inventory (c : DaemonCache) : Prop :=
  dc_mode c = Mode_Docker → force_mock = false ∧
  ∃ collector moment now observation,
    gateway_client collector ∧ observe collector moment now = inl observation ∧
    unrevised (dc_snapshot c) = with_images (do_snapshot observation) ∧
    ∀ bound, dc_compose_runtime_binding c = Some bound →
      ∃ (files : Host) (paths : HostPaths) (yaml : Yaml) (first second : Reading),
        bounded_compose_runtime_binding env first second (do_compose_containers observation) now = Some bound.

Lemma connect_gateway moment collector : connect moment = inl collector → gateway_client collector.
Proof.
  unfold connect. destruct (docker_label_filter_from_env env) as [filter|] eqn:Ef; [|done].
  destruct (docker_gateway_socket_from_env env) as [socket|] eqn:Es; [|done].
  destruct (connect_with_unix moment socket) as [client|] eqn:Ec; [|done]. intros [= <-].
  apply connect_with_unix_socket in Ec. split; cbn [dcl_client dcl_label_filter]; congruence.
Qed.

Definition all_gateway (o : option DockerCollector) : Prop := ∀ c, o = Some c → gateway_client c.

Lemma docker_collector_gateway moment seen docker result docker' :
  docker_collector moment seen docker = (result, docker') → (seen = docker ∨ seen = None) → all_gateway docker →
  all_gateway docker' ∧ ∀ c, result = inl c → gateway_client c.
Proof.
  unfold docker_collector. intros E Hs Hd. destruct seen as [c0|].
  - injection E as <- <-. split; [done|]. intros c [= <-]. apply Hd. naive_solver.
  - destruct (connect moment) as [c|e] eqn:Ec; injection E as <- <-; [apply connect_gateway in Ec|]; split; try done;
      intros ? [= <-]; done.
Qed.

Definition begun_ok (o : option Begun) : Prop := ∀ c, o = Some (Connected c) → gateway_client c ∧ force_mock = false.

Lemma read_begins_ok moment seen docker begun docker' :
  read_begins moment seen docker = (begun, docker') → (seen = docker ∨ seen = None) → all_gateway docker →
  all_gateway docker' ∧ begun_ok (Some begun).
Proof.
  unfold read_begins. intros E Hs Hd. destruct force_mock eqn:Ef; [injection E as <- <-; by split|].
  destruct (docker_collector moment seen docker) as [result d] eqn:Ec.
  destruct (docker_collector_gateway _ _ _ _ _ Ec Hs Hd) as [Hd' Hr].
  destruct result; injection E as <- <-; (split; [done|]); intros c [= <-]. by split; [apply Hr|].
Qed.

Lemma observe_now collector moment now observation : observe collector moment now = inl observation →
  s_last_updated (do_snapshot observation) = now ∧
  unrevised (with_images (do_snapshot observation)) = with_images (do_snapshot observation).
Proof.
  unfold observe, collect_observation. destruct (list_containers _ _) as [cs|]; [|done].
  destruct (list_networks _ _) as [ns|]; [|done]. destruct (list_volumes _ _) as [vs|]; [|done]. intros [= <-].
  cbn [do_snapshot]. unfold build_snapshot. by destruct (foldl _ _ _) as [[? ?] ?].
Qed.

(** What a completed read gives the cache, the client and the flag. *)
Lemma read_ends_ok process_boot b t begun docker f projection u docker' in_flight running n :
  read_ends process_boot b DOCKER_SNAPSHOT_COLLECTION_TIMEOUT t begun docker f projection
  = (Some u, docker', in_flight, running) →
  reads_compose_files projection → begun_ok (Some begun) → all_gateway docker → n ≤ 1 → (f = true ↔ n = 1) →
  (∃ read, collect_snapshot process_boot b (rt_now t) read = Some u) ∧ observed_inventory u ∧ all_gateway docker' ∧
  (if running then 1 else 0) + n ≤ 1 ∧ (in_flight = true ↔ (if running then 1 else 0) + n = 1).
Proof.
  intros E Hproj Hbegun Hd Hn Hf. pose proof (refresh_read_spec process_boot b t begun docker f projection) as Hspec.
  rewrite E in Hspec. destruct Hspec as (read & cache & [= <-] & Hcol & Hmode & Hcase).
  split; [by exists read|]. unfold observed_inventory. rewrite Hmode.
  destruct begun as [|error|collector].
  1,2: destruct Hcase as (-> & -> & -> & ->); split_and!; [by intros (? & ? & [=])|done|done|done].
  destruct (Hbegun collector eq_refl) as [Hc Hforce]. destruct (rt_elapsed t).
  { destruct Hcase as (-> & -> & -> & ->). split_and!; [by intros (? & ? & [=])|done|done|done]. }
  destruct (observe collector (rt_moment t) (rt_now t)) as [observation|error] eqn:Eo.
  2:{ destruct Hcase as (-> & -> & -> & ->). split_and!; [by intros (? & ? & [=])|done|done|done]. }
  cbv zeta in Hcase. destruct Hcase as (-> & Hr & -> & Hsnap & binding & -> & Hbind).
  destruct (observe_now _ _ _ _ Eo) as [Hnow Hun]. split_and!; [intros _|done|..].
  - split; [done|]. exists collector, (rt_moment t), (rt_now t), observation. rewrite Hsnap. split_and!; [done|done|done|].
    intros bound Hb. assert (Hb' : binding = Some bound).
    { cbn [collect_snapshot] in Hcol. by injection Hcol as <-. }
    apply Hbind in Hb' as (_ & _ & Hp). rewrite Hnow in Hp.
    destruct (Hproj _ _ _ Hp) as (files & paths & yaml & first & second & Eb). by exists files, paths, yaml, first, second.
  - subst running. destruct f; cbn [negb andb]; [done|]. destruct n as [|[]]; [|naive_solver lia|lia].
    destruct (_ && _); cbn; lia.
  - subst running. destruct f; cbn [negb andb orb]; [done|]. destruct n as [|[]]; [|naive_solver lia|lia].
    destruct (_ && _); cbn; naive_solver.
Qed.

Record app_inv (process_boot : rstr) (a : AppState) : Prop := {
  app_daemon : daemon_reachable process_boot (as_system a);
  app_observed : observed_inventory (sy_cache (as_system a));
  app_docker : all_gateway (as_docker a);
  app_refresh : begun_ok (as_refresh a);
  app_flight : as_projections a ≤ 1 ∧ (fl_compose_projection (as_provider_slot_in_flight a) = true ↔ as_projections a = 1)
}.

Lemma observed_source c c' : source_part c' = source_part c → observed_inventory c → observed_inventory c'.
Proof.
  intros E. unfold observed_inventory. pose proof (f_equal (λ p, p.1.1) E) as Em. pose proof (f_equal (λ p, p.1.2) E) as Es.
  pose proof (f_equal snd E) as Eb. cbn [source_part fst snd] in *. by rewrite Em, Es, Eb.
Qed.

Lemma daemon_reachable_step process_boot s s' :
  daemon_reachable process_boot s → daemon_step process_boot s s' → daemon_reachable process_boot s'.
Proof. intros (s0 & Hi & Hr) Hs. exists s0. split; [done|]. by eapply rtc_r. Qed.

Lemma app_step_inv process_boot a a' : app_step process_boot a a' → app_inv process_boot a → app_inv process_boot a'.
Proof.
  intros [allow s docker f n seen moment begun docker' Hs Hr
    |allow c tasks docker f n begun b t projection u docker' in_flight running boot epoch c' Hb Hp Hr Hpub
    |allow s docker f refresh n
    |allow s docker f refresh n seen moment result docker' Hs Hr
    |allow s s' docker f f' refresh n Hs Hf] [Hdae Hobs Hdoc Href [Hn Hfl]];
    cbn [as_system as_docker as_provider_slot_in_flight as_refresh as_projections sy_cache] in *.
  - destruct (read_begins_ok _ _ _ _ _ Hr Hs Hdoc). by split.
  - destruct (read_ends_ok _ _ _ _ _ _ _ _ _ _ _ n Hr Hp Href Hdoc Hn Hfl) as ([read Hcol] & Hu & Hd & Hn' & Hfl').
    split; cbn [as_system as_docker as_provider_slot_in_flight as_refresh as_projections sy_cache store_projection fl_compose_projection]; [|..|by split].
    + eapply daemon_reachable_step; [done|]. apply daemon_other; [by eapply step_refresh|].
      unfold workers. cbn [sy_tasks]. rewrite count_if_app. lia.
    + eapply observed_source; [by eapply publish_source|done].
    + done.
    + by intros ? [=].
  - split; try done. cbn [as_provider_slot_in_flight as_projections store_projection fl_compose_projection]. unfold release.
    split; [lia|]. split; [done|lia].
  - destruct (docker_collector_gateway _ _ _ _ _ Hr Hs Hdoc). by split.
  - split; cbn [as_system as_docker as_provider_slot_in_flight as_refresh as_projections]; try done; [| |by rewrite Hf].
    + eapply daemon_reachable_step; [done|by apply provider_daemon].
    + eapply observed_source; [by eapply provider_source|done].
Qed.

Lemma app_reachable_inv process_boot a : app_reachable process_boot a → app_inv process_boot a.
Proof.
  intros (allow & s0 & Hi & Hrun). assert (Hinv : app_inv process_boot (AppState_new allow s0)).
  { split; cbn [AppState_new as_system as_docker as_refresh as_projections as_provider_slot_in_flight].
    - exists s0. split; [done|reflexivity].
    - destruct Hi as (b & now & _ & E & _). destruct (cache_mock_facts _ _ _ _ E) as (_ & Hm & _).
      unfold observed_inventory. by rewrite Hm.
    - done.
    - done.
    - by split; [lia|]. }
  clear Hi; induction Hrun; [done|eauto using app_step_inv].
Qed.

(** C1: In every state the whole daemon can reach (the refresh loop with its reads and
    projections, the log route's use of the client, the provider tasks, in any order): when it
    publishes Docker's inventory, sample data was not forced, and the inventory is, up to the
    revision it is stamped with, the collector's snapshot of the three lists that a client of
    the gateway returned, with its images; a Compose binding it uses was read from bounded files for
    the containers of that same observation. Every cached client is connected to the validated
    gateway socket, which is not a raw Docker socket, with the configured label filter; at most
    one projection runs, under its flag. And every such run is a run of the system. *)
Theorem published_inventory_observed process_boot a :
  app_reachable process_boot a →
  daemon_reachable process_boot (as_system a) ∧ observed_inventory (sy_cache (as_system a)) ∧
  (∀ collector, as_docker a = Some collector →
     gateway_client collector ∧ docker_socket (dcl_client collector) ∉ raw_docker_sockets) ∧
  as_projections a ≤ 1 ∧ (fl_compose_projection (as_provider_slot_in_flight a) = true ↔ as_projections a = 1).
Proof.
  intros Hr. destruct (app_reachable_inv _ _ Hr) as [Hdae Hobs Hdoc _ [Hn Hfl]]. split_and!; try done; [|apply Hfl..].
  intros collector Hc. pose proof (Hdoc collector Hc) as Hg. split; [done|]. destruct Hg as [Hg _].
  revert Hg. unfold docker_gateway_socket_from_env, validate_docker_gateway_socket. set (socket := default _ _). clearbody socket.
  destruct (_ || _); [done|]. destruct ((socket == _) || (socket == _)) eqn:E; [done|]. intros [= <-]. bool_unfold.
  unfold raw_docker_sockets. cbn [fmap list_fmap]. rewrite !not_elem_of_cons. split_and!; [done|done|apply not_elem_of_nil].
Qed.
End refresh.

(** ** A concrete run *)

Section example.
#[local] Existing Instances Toy_sha256 CacheSystem.example_node_json CacheSystem.example_edge_json
  CacheSystem.example_evidence_json CacheSystem.example_collection_json CacheSystem.example_model_json
  CacheSystem.example_docker_json.

Definition prompt : ReadTiming :=
  {| rt_moment := 1; rt_now := 9; rt_elapsed := false; rt_started := from_secs 1; rt_projection_elapsed := true |}.

(** A first refresh: it connects, reads, and leaves its projection behind. *)
Lemma first_refresh `{Bollard} env collector o :
  read_begins env 1 None None = (Connected collector, Some collector) → observe collector 1 9 = inl o →
  ∃ a, app_reachable env "boot" a ∧ dc_mode (sy_cache (as_system a)) = Mode_Docker ∧ as_projections a = 1.
Proof.
  intros Hbegins Hobserve.
  destruct (cache_mock_total "boot" example_boots 7) as [c0 E0].
  set (s0 := {| sy_cache := c0; sy_tasks := [] |}).
  assert (Hi0 : initial "boot" s0) by (by exists example_boots, 7%N).
  destruct (initial_inv _ _ Hi0) as [Hinv _]. destruct (cache_mock_young _ _ _ _ E0) as [(Yd & Yi & Yr & Yg) _].
  destruct (cache_mock_facts _ _ _ _ E0) as (_ & Hm0 & _).
  set (projection := (λ _ _, None) : Projection).
  pose proof (refresh_read_spec env "boot" example_boots prompt (Connected collector) (Some collector) false projection) as Hr.
  destruct (read_ends _ _ _ _ _ _ _ _) as [[[u docker'] in_flight] running] eqn:E.
  destruct Hr as (read & cache & -> & Hcol & Hmode & Hr). change (rt_moment prompt) with 1%N in Hr. change (rt_now prompt) with 9%N in Hr.
  rewrite Hobserve in Hr. destruct Hr as (_ & Hrun & _ & _ & binding & Hread & _).
  change (running = true) in Hrun. assert (Hu : dc_mode cache = Mode_Docker) by (apply Hmode; eauto).
  assert (Hmax : (1 < u64_max)%N) by done. assert (Hb : boots_ok example_boots) by done.
  destruct (publish_total "boot" c0 example_boots (rt_now prompt) read cache [] [] Hinv) as [c' Hc'];
    [unfold counters_left; split_and!; eapply N.le_lt_trans; eassumption|eapply N.le_lt_trans; eassumption|done|done|by rewrite Hm0|].
  destruct (publish_facts _ _ _ _ _ _ _ _ _ Hb Hcol Hinv Hc') as (_ & _ & _ & Hm').
  exists {| as_allow_mock := false; as_system := {| sy_cache := c'; sy_tasks := after_publish c' ++ [] |};
    as_docker := docker'; as_provider_slot_in_flight := store_projection flights_default in_flight;
    as_refresh := None; as_projections := (if running then 1 else 0) + 0 |}.
  split; [|split; [by rewrite <- Hu|by rewrite Hrun]].
  exists false, s0. split; [exact Hi0|].
  eapply rtc_l; [apply (app_refresh_begins env "boot" false s0 None flights_default 0 None 1 (Connected collector) (Some collector)); [by left|exact Hbegins]|].
  apply rtc_once. eapply app_refresh_ends; [exact Hb| |exact E|exact Hc']. by intros containers collected_at r [=].
Qed.

(** A gateway with one volume and nothing else. *)
#[local] Instance toy_bollard : Bollard.
Proof.
  refine {| Docker := rstr; docker_socket := id; connect_with_unix := λ _ socket, inl socket;
            inventory_at := λ _ _, {| list_containers := λ _, inl []; list_networks := λ _, inl [];
                                      list_volumes := λ _, inl (Some ["data" : rstr]) |} |}.
  by intros _ socket client [= ->].
Defined.

Definition empty_env (_ : rstr) : EnvVar := NotPresent.

Definition toy_client : DockerCollector := {| dcl_client := DEFAULT_DOCKER_GATEWAY_SOCKET; dcl_label_filter := None |}.

Lemma example_refresh : ∃ a, app_reachable empty_env "boot" a ∧ dc_mode (sy_cache (as_system a)) = Mode_Docker ∧
  as_projections a = 1.
Proof. by eapply (first_refresh empty_env toy_client). Qed.

Lemma published_inventory_observed_witness :
  ∃ a, app_reachable empty_env "boot" a ∧ dc_mode (sy_cache (as_system a)) = Mode_Docker ∧
    fl_compose_projection (as_provider_slot_in_flight a) = true ∧
    length (s_volumes (dc_snapshot (sy_cache (as_system a)))) = 1.
Proof.
  destruct example_refresh as (a & Hr & Hm & Hn). exists a. split; [exact Hr|]. split; [exact Hm|].
  destruct (published_inventory_observed empty_env "boot" a Hr) as (_ & Ho & _ & _ & Hf). split; [by apply Hf|].
  destruct (Ho Hm) as (_ & collector & moment & now & observation & _ & Hobs & Hsnap & _).
  change (length (s_volumes (unrevised (dc_snapshot (sy_cache (as_system a))))) = 1). rewrite Hsnap.
  assert (E : ∃ o, observe collector moment now = inl o ∧ length (s_volumes (with_images (do_snapshot o))) = 1)
    by (eexists; split; [reflexivity|]; by vm_compute).
  destruct E as (o & Eo & Hl). rewrite Hobs in Eo. injection Eo as ->. exact Hl.
Defined.
End example.
