(* ===== verification/Wire.v ===== *)
(** * What a client can read of a publication
      (the wire types of [crates/dockermap-core/src/models.rs] and the clock of
      [crates/dockermap-daemon/src/cache_refresh.rs])

    The contract types check what they decode: a reference needs a versioned shape, an edge needs
    references that attest it. A reader that decodes a published map with these types accepts
    it, and the times of the provider states are integers a browser represents exactly. *)

From S2P Require Import Prelude RustStr RustNum Models Serial Identity Evidence Redaction Publication ObservedHistory Graph RuntimeTopology Findings ComposeBinding Scheduler Assembly Fixtures Cache CacheSystem Utf8 Paths Compose Boundary Order DockerCollector ComposeApi HostFiles Providers Processes Cron Systemd NetworkProviders Npm Collection Daemon Refresh.

(** ** The wire types *)

Record RuntimeEvidenceRefWire := {
  vw_version : N;
  vw_id : rstr;
  vw_provider : RuntimeEvidenceProvider;
  vw_kind : RuntimeEvidenceKind;
  vw_assertion_kind : RuntimeEvidenceAssertionKind;
  vw_summary : rstr;
  vw_subject_ref : rstr;
  vw_collected_at : N;
  vw_provider_revision : rstr;
  vw_provider_slot : option ProviderSlot;
  vw_freshness : RuntimeEvidenceFreshness
}.

Definition evidence_of_wire (wire : RuntimeEvidenceRefWire) : RuntimeEvidenceRef := {|
  ev_version := vw_version wire; ev_id := vw_id wire; ev_provider := vw_provider wire; ev_kind := vw_kind wire;
  ev_assertion_kind := vw_assertion_kind wire; ev_summary := vw_summary wire; ev_subject_ref := vw_subject_ref wire;
  ev_collected_at := vw_collected_at wire; ev_provider_revision := vw_provider_revision wire;
  ev_provider_slot := vw_provider_slot wire; ev_freshness := vw_freshness wire |}.

(** [RuntimeEvidenceRef::deserialize], after the fields. *)
Definition evidence_deserialize (wire : RuntimeEvidenceRefWire) : RuntimeEvidenceRef + rstr :=
  let evidence := evidence_of_wire wire in
  if has_valid_versioned_shape evidence then inl evidence
  else inr ("runtime evidence has an invalid versioned shape" : rstr).

(** The references are decoded with the fields of the edge. *)
Record RuntimeMapEdgeWire := {
  ew_source : rstr;
  ew_target : rstr;
  ew_relationship : RuntimeRelationshipKind;
  ew_metadata : gmap rstr rstr;
  ew_evidence_refs : list RuntimeEvidenceRefWire
}.

(** [RuntimeMapEdge::deserialize]. *)
Definition edge_deserialize (wire : RuntimeMapEdgeWire) : RuntimeMapEdge + rstr :=
  match collect_results evidence_deserialize (ew_evidence_refs wire) with
  | inr error => inr error
  | inl evidence_refs =>
      let edge := {| re_source := ew_source wire; re_target := ew_target wire;
                     re_relationship := ew_relationship wire; re_metadata := ew_metadata wire;
                     re_evidence_refs := evidence_refs |} in
      if has_valid_evidence_refs edge then inl edge
      else inr ("runtime evidence does not attest this edge" : rstr)
  end.

(** The derived [Serialize]: every field under its name. *)
Definition evidence_serialize (evidence : RuntimeEvidenceRef) : RuntimeEvidenceRefWire := {|
  vw_version := ev_version evidence; vw_id := ev_id evidence; vw_provider := ev_provider evidence;
  vw_kind := ev_kind evidence; vw_assertion_kind := ev_assertion_kind evidence; vw_summary := ev_summary evidence;
  vw_subject_ref := ev_subject_ref evidence; vw_collected_at := ev_collected_at evidence;
  vw_provider_revision := ev_provider_revision evidence; vw_provider_slot := ev_provider_slot evidence;
  vw_freshness := ev_freshness evidence |}.

Definition edge_serialize (edge : RuntimeMapEdge) : RuntimeMapEdgeWire := {|
  ew_source := re_source edge; ew_target := re_target edge; ew_relationship := re_relationship edge;
  ew_metadata := re_metadata edge; ew_evidence_refs := evidence_serialize <$> re_evidence_refs edge |}.

(** ** Decoding *)

Lemma evidence_wire_roundtrip wire : evidence_serialize (evidence_of_wire wire) = wire.
Proof. by destruct wire. Qed.

Lemma evidence_decodes evidence :
  evidence_deserialize (evidence_serialize evidence)
  = if has_valid_versioned_shape evidence then inl evidence
    else inr ("runtime evidence has an invalid versioned shape" : rstr).
Proof. unfold evidence_deserialize. by destruct evidence. Qed.

Lemma valid_refs_shaped edge :
  has_valid_evidence_refs edge = true → Forall (λ ev, has_valid_versioned_shape ev = true) (re_evidence_refs edge).
Proof.
  unfold has_valid_evidence_refs. rewrite forallb_forall. intros Hv. apply Forall_forall. intros ev Hev%list_elem_of_In%Hv.
  revert Hev. unfold evidence_ref_matches_edge. destruct (_ || _); [done|]. by destruct (has_valid_versioned_shape ev).
Qed.

(** An edge is decoded exactly from its own text, and only when its references attest it. *)
Lemma edge_deserialize_exact wire edge :
  edge_deserialize wire = inl edge ↔ wire = edge_serialize edge ∧ has_valid_evidence_refs edge = true.
Proof.
  unfold edge_deserialize. split.
  - destruct (collect_results _ _) as [refs|] eqn:Er; [|done]. apply collect_results_spec in Er.
    destruct (has_valid_evidence_refs _) eqn:Ev; [|done]. intros [= <-]. split; [|done].
    unfold edge_serialize. cbn [re_source re_target re_relationship re_metadata re_evidence_refs].
    assert (Hw : evidence_serialize <$> refs = ew_evidence_refs wire).
    { clear Ev. induction Er as [|w ev ws refs Hw _ IH]; [done|]. cbn [fmap list_fmap]. rewrite IH. f_equal.
      revert Hw. unfold evidence_deserialize. destruct (has_valid_versioned_shape _); [|done]. intros [= <-].
      apply evidence_wire_roundtrip. }
    rewrite Hw. by destruct wire.
  - intros [-> Hv]. cbn [edge_serialize ew_source ew_target ew_relationship ew_metadata ew_evidence_refs].
    assert (Er : collect_results evidence_deserialize (evidence_serialize <$> re_evidence_refs edge) = inl (re_evidence_refs edge)).
    { apply collect_results_spec. pose proof (valid_refs_shaped edge Hv) as Hs. clear Hv.
      induction Hs as [|ev refs Hev _ IH]; constructor; [|done]. by rewrite evidence_decodes, Hev. }
    rewrite Er. destruct edge as [src tgt rel meta refs]. cbn in Er. unfold has_valid_evidence_refs in *. cbn in Hv |- *. by rewrite Hv.
Qed.

(** ** The times of the slots *)

Definition safe_millis (t : option N) : Prop := ∀ millis, t = Some millis → (millis <= MAX_SAFE_JS_INTEGER)%N.

Definition safe_freshness (f : SlotFreshness) : Prop :=
  safe_millis (sf_last_attempt_ms f) ∧ safe_millis (sf_last_success_ms f) ∧ safe_millis (sf_last_duration_ms f) ∧
  (sf_consecutive_failure_count f <= u32_max)%N.

Definition safe_slots (slots : RuntimeProviderSlots) : Prop :=
  ∀ slot s, slots !! slot = Some s → safe_freshness (ss_freshness s).

Lemma wall_clock_safe clock : safe_millis (wall_clock_millis clock).
Proof.
  unfold wall_clock_millis. intros millis. destruct clock as [m|]; cbn [mbind option_bind]; [|done].
  destruct (m <=? _)%N eqn:E; [|done]. intros [= <-]. by apply N.leb_le.
Qed.

Lemma unavailable_safe : safe_slots unavailable_provider_slots.
Proof.
  intros slot s. assert (E : unavailable_provider_slots !! slot = Some slot_default) by (destruct slot; by vm_compute).
  rewrite E. intros [= <-]. by split_and!.
Qed.

Lemma reset_safe : safe_slots source_reset_provider_slots.
Proof. intros slot s Hs. assert (∃ r, source_reset_provider_slots !! slot = Some r ∧ safe_freshness (ss_freshness r)) as (r & E & Hr).
  { destruct slot; (eexists; split; [vm_compute; reflexivity|by split_and!]). }
  congruence.
Qed.

Lemma insert_safe slots slot s : safe_freshness (ss_freshness s) → safe_slots slots → safe_slots (<[slot := s]> slots).
Proof.
  intros Hs Hall x sx. destruct (decide (slot = x)) as [->|Hx]; [rewrite lookup_insert_eq; by intros [= <-]|].
  rewrite lookup_insert_ne by done. apply Hall.
Qed.

Lemma stale_safe slots slots' : mark_network_observation_stale slots = Some slots' → safe_slots slots → safe_slots slots'.
Proof.
  unfold mark_network_observation_stale. destruct (slots !! NetworkInfrastructure) as [s|] eqn:Es; cbn [mbind option_bind]; [|done].
  intros E Hall. destruct (ss_observation s); injection E as <-; try done. apply insert_safe; [|done]. by apply (Hall _ _ Es).
Qed.

Lemma claim_loop_safe order clock now slots remaining due slots' :
  claim_loop order (λ slot, wall_clock_millis (clock slot)) now slots remaining = Some (due, slots') →
  safe_slots slots → safe_slots slots'.
Proof.
  revert slots remaining due slots'. induction order as [|slot order IH]; intros slots remaining due slots'; cbn [claim_loop];
    [by intros [= _ <-]|].
  destruct (remaining =? 0)%nat; [by intros [= _ <-]|].
  destruct (slots !! slot) as [s|] eqn:Es; cbn [mbind option_bind]; [|done]. destruct (_ || _ || _); [apply IH|].
  destruct (claim_loop _ _ _ _ _) as [[claimed slots2]|] eqn:E; cbn [mbind option_bind]; [|done]. intros [= _ <-] Hall.
  eapply IH; [exact E|]. apply insert_safe; [|done]. destruct (Hall _ _ Es) as (_ & Hsuc & Hdur & Hn).
  split_and!; [apply wall_clock_safe|done..].
Qed.

Section published.
Context `{Sha256} `{Json RuntimeMapNode} `{Json RuntimeMapEdge} `{Json RuntimeEvidenceRef}.
Context `{Json (list RuntimeMapNode * list RuntimeMapEdge * list RuntimeMapDiagnostic * list ProviderState)}.
Context `{Json (DockerSnapshot * HealthResponse * RuntimeMap)} `{Json (RuntimeMode * DockerSnapshot)}.
Context `{Bollard}.
Variable env : rstr → EnvVar.

Lemma outcome_safe boot clock completed_at same outcome s s' :
  slot_outcome boot (wall_clock_millis clock) completed_at same outcome s = Some s' →
  safe_freshness (ss_freshness s) → safe_freshness (ss_freshness s').
Proof.
  intros Ho (Hatt & Hsuc & Hdur & Hn).
  assert (Hfail : ∀ reason, safe_freshness (failed_freshness (ss_freshness s) reason)).
  { intros reason. split_and!; try done. cbn [failed_freshness sf_consecutive_failure_count]. unfold saturating_add, u32_max. lia. }
  destruct outcome as [c| | |]; cbn [slot_outcome] in Ho; [|injection Ho as <-; apply Hfail..].
  revert Ho. unfold collected_state. destruct (update_slot_data_revision _ _ _) as [f|] eqn:Ef; cbn [mbind option_bind]; [|done].
  assert (Hf : sf_last_attempt_ms f = sf_last_attempt_ms (ss_freshness s)).
  { revert Ef. unfold update_slot_data_revision. case_bool_decide; [by intros [= <-]|].
    destruct (match sf_data_revision (ss_freshness s) with Some _ => _ | None => _ end); cbn [mbind option_bind]; [|done]. by intros [= <-]. }
  intros [= <-]. cbn [ss_freshness]. pose proof (wall_clock_safe clock) as Hw.
  split_and!; cbn [sf_last_attempt_ms sf_last_success_ms sf_last_duration_ms sf_consecutive_failure_count]; [by rewrite Hf|done| |lia].
  unfold successful_duration_ms. destruct (wall_clock_millis clock) as [w|]; cbn [mbind option_bind]; [|done].
  destruct (sf_last_attempt_ms f) as [att|]; cbn [mbind option_bind]; [|done]. intros m [= <-].
  specialize (Hw w eq_refl). unfold saturating_sub. lia.
Qed.

(** ** Published maps *)

(** The slots after a publication: those of before, their network observation stale, or reset. *)
Lemma publish_safe process_boot b now read cache u boot epoch c' :
  boots_ok b → collect_snapshot process_boot b now read = Some u → cache_inv process_boot cache →
  publish_docker_snapshot_cache cache u boot epoch = Some c' →
  safe_slots (dc_runtime_providers cache) → safe_slots (dc_runtime_providers c').
Proof.
  intros Hb Hu Hinv. destruct (collect_facts _ _ _ _ _ Hu) as [Hiu _].
  pose proof (new_integrity_ok b Hb) as Hib. rewrite <- Hiu in Hib. unfold publish_docker_snapshot_cache.
  destruct (carried_over cache u boot) as [c1|] eqn:E1; cbn [mbind option_bind]; [|done].
  destruct (carried_facts _ _ _ _ (inv_publishable _ _ Hinv) Hib E1) as (Hp & _).
  destruct (rebuild_runtime_map c1) as [c2|] eqn:E2; cbn [mbind option_bind]; [|done].
  destruct (rebuild_facts _ _ Hp E2) as [_ (_ & _ & Ep2 & _)].
  destruct (assign_revision _) as [c3|] eqn:E3; cbn [mbind option_bind]; [|done].
  apply assign_revision_facts in E3 as [_ (_ & _ & _ & _ & _ & Ep3 & _)].
  cbn [with_revision dc_runtime_providers] in Ep3. rewrite Ep2 in Ep3. intros Hc' Hsafe.
  assert (Hs1 : safe_slots (dc_runtime_providers c1)).
  { revert E1. unfold carried_over. destruct (bool_decide (dc_mode cache = dc_mode u)); cbn [mbind option_bind andb].
    - destruct (negb _); cbn [mbind option_bind]; [|by intros [= <-]].
      destruct (mark_network_observation_stale _) as [slots|] eqn:Em; cbn [mbind option_bind]; [|done].
      intros [= <-]. by eapply stale_safe.
    - destruct (checked_add _ _ _); cbn [mbind option_bind]; [|done]. intros [= <-]. apply reset_safe. }
  rewrite <- Ep3 in Hs1. revert Hc'. case_bool_decide; [|by intros [= <-]].
  destruct (observe_published_snapshot _ _ _); cbn [mbind option_bind]; [|done]. by intros [= <-].
Qed.

Lemma republish_slots c slots c' : republish (with_slots c slots) = Some c' → dc_runtime_providers c' = slots.
Proof.
  unfold republish, rebuild_runtime_map, assign_docker_observation_revision, apply_runtime_identity_collision_fact.
  destruct (docker_observation_assign _ _ _); cbn [mbind option_bind]; [|done].
  destruct (runtime_map_for_snapshot _ _ _ _); cbn [mbind option_bind]; [|done].
  destruct (revision_see _ _); cbn [mbind option_bind]; [|done].
  by intros [_ (_ & _ & _ & _ & _ & -> & _)]%assign_revision_facts.
Qed.

Lemma provider_safe process_boot s s' :
  provider_step process_boot s s' → safe_slots (dc_runtime_providers (sy_cache s)) → safe_slots (dc_runtime_providers (sy_cache s')).
Proof.
  intros [c before snapshot mode generation after clock now active due c' Hc| |
    c before slot snapshot mode generation after outcome completed_at clock taken c' _ Ho] Hs; cbn [sy_cache] in *; [|done|].
  - revert Hc. unfold claim_due_provider_slots, claim_due_slots_with_active_workers.
    destruct (claim_loop _ _ _ _ _) as [[due' slots]|] eqn:E; cbn [mbind option_bind]; [|done].
    pose proof (claim_loop_safe _ _ _ _ _ _ _ E Hs). case_bool_decide; [by intros [= _ <-]|].
    destruct (republish _) as [c1|] eqn:Er; cbn [mbind option_bind]; [|done].
    apply republish_slots in Er. intros [= _ <-]. by rewrite Er.
  - revert Ho. unfold apply_provider_slot_outcome. destruct (_ || _); [by intros [= _ <-]|].
    destruct (_ !! slot) as [st|] eqn:Es; [|by intros [= _ <-]].
    destruct (slot_outcome _ _ _ _ _ _) as [st'|] eqn:Eo; cbn [mbind option_bind]; [|done].
    destruct (republish _) as [c1|] eqn:Er; cbn [mbind option_bind]; [|done]. apply republish_slots in Er. intros [= _ <-].
    rewrite Er. apply insert_safe; [|done]. by eapply outcome_safe, (Hs _ _ Es).
Qed.

Lemma app_safe process_boot a : app_reachable env process_boot a →
  system_inv process_boot (as_system a) ∧ safe_slots (dc_runtime_providers (sy_cache (as_system a))).
Proof.
  intros (allow & s0 & Hi & Hrun). pose proof (initial_inv _ _ Hi) as Hinv.
  assert (Hsafe : safe_slots (dc_runtime_providers (sy_cache s0))).
  { destruct Hi as (b & now & _ & E & _). revert E. unfold cache_mock, assign_docker_observation_revision.
    destruct (docker_observation_assign _ _ _); cbn [mbind option_bind]; [|done].
    intros [_ (_ & _ & _ & _ & _ & -> & _)]%assign_revision_facts. apply unavailable_safe. }
  clear Hi. assert (Hboth : system_inv process_boot (as_system (AppState_new allow s0)) ∧
    safe_slots (dc_runtime_providers (sy_cache (as_system (AppState_new allow s0))))) by done.
  clear Hinv Hsafe. revert Hboth. induction Hrun as [|a1 a2 a3 Hs _ IH]; [done|]. intros [Hinv Hsafe]. apply IH.
  destruct Hs as [|allow' c tasks docker f n begun b t projection u docker' in_flight running boot epoch c' Hb _ Hr Hpub
    | | |allow' s s' docker f f' refresh n Hs _]; cbn [as_system sy_cache] in *; try done.
  - pose proof (refresh_read_spec env process_boot b t begun docker (fl_compose_projection f) projection) as Hspec.
    rewrite Hr in Hspec. destruct Hspec as (read & cache & [= <-] & Hcol & _). split.
    + eapply step_inv; [|exact Hinv]. by eapply step_refresh.
    + destruct Hinv as [Hinv _]. by eapply publish_safe.
  - split; [|by eapply provider_safe]. eapply step_inv; [|exact Hinv]. by apply daemon_step_system, provider_daemon.
Qed.

(** C40: The contract of the published map. The contract types decode an edge exactly from its
    own text, and only when every reference has a versioned shape and attests the edge; every
    edge of every map the daemon can publish is decoded to itself. The times of its provider
    states are integers a browser represents exactly, whatever the clock of the host says, and the
    failure counts fit 32 bits. *)
Theorem published_map_readable process_boot a :
  app_reachable env process_boot a →
  let m := dc_runtime_map (sy_cache (as_system a)) in
  (∀ wire edge, edge_deserialize wire = inl edge ↔ wire = edge_serialize edge ∧ has_valid_evidence_refs edge = true) ∧
  collect_results edge_deserialize (edge_serialize <$> rm_edges m) = inl (rm_edges m) ∧
  ∀ st, st ∈ rm_provider_states m →
    safe_millis (ps_last_attempt_ms st) ∧ safe_millis (ps_last_success_ms st) ∧ safe_millis (ps_last_duration_ms st) ∧
    (ps_consecutive_failure_count st <= u32_max)%N.
Proof.
  intros Hr. destruct (app_safe _ _ Hr) as [[Hinv _] Hsafe]. cbv zeta.
  destruct (inv_map _ _ Hinv) as (_ & Hstates & _ & _ & Hedges). split_and!; [apply edge_deserialize_exact| |].
  - apply collect_results_spec. apply Forall2_fmap_l, Forall_Forall2_diag, Forall_forall. intros e He.
    apply edge_deserialize_exact. split; [done|]. by apply Hedges.
  - intros st Hst. pose proof (inv_publishable _ _ Hinv) as (Hall & _). destruct (provider_states_all _ Hall) as (states & E & Hin).
    rewrite E in Hstates. injection Hstates as ->. destruct (Hin st Hst) as (slot & s & Hs & ->). apply (Hsafe _ _ Hs).
Qed.
End published.

Section example.
#[local] Existing Instances Toy_sha256 CacheSystem.example_node_json CacheSystem.example_edge_json
  CacheSystem.example_evidence_json CacheSystem.example_collection_json CacheSystem.example_model_json
  CacheSystem.example_docker_json Refresh.toy_bollard.

Lemma published_map_readable_witness :
  ∃ a, app_reachable empty_env "boot" a ∧ dc_mode (sy_cache (as_system a)) = Mode_Docker ∧
    collect_results edge_deserialize (edge_serialize <$> rm_edges (dc_runtime_map (sy_cache (as_system a))))
    = inl (rm_edges (dc_runtime_map (sy_cache (as_system a)))).
Proof.
  destruct example_refresh as (a & Hr & Hm & _). exists a. split; [exact Hr|]. split; [exact Hm|].
  exact (proj1 (proj2 (published_map_readable empty_env "boot" a Hr))).
Defined.

(** A reference that does not attest its edge makes the decoder refuse the edge. *)
Example misplaced_evidence_refused :
  edge_deserialize {| ew_source := "a"; ew_target := "b"; ew_relationship := RR_RunsOn; ew_metadata := ∅;
    ew_evidence_refs := [evidence_serialize (collision_evidence "r-1" 5)] |}
  = inr ("runtime evidence does not attest this edge" : rstr).
Proof. vm_compute. reflexivity. Qed.
End example.
