(* ===== verification/EndToEnd.v ===== *)
(** * From Docker to the published map, through the gateway

    The daemon reaches Docker only through the gateway. The client library's requests go
    through [Gateway.handle] here, with the wire form that
    [docs/architecture/DOCKER_AUTHORITY_BOUNDARY.md] measures, and the answers of Docker come
    back verbatim. With one environment for both processes the collector
    reads what Docker answers to the measured targets; with two label filters that
    differ it reads nothing. *)

From S2P Require Import Prelude RustStr RustNum Models Serial Identity Evidence Redaction Publication Logs ObservedHistory Graph RuntimeTopology Findings ComposeBinding Scheduler Assembly Cache CacheSystem Utf8 Paths Compose Boundary Order Gateway DockerCollector LogSources HostFiles Providers Processes Cron Words Systemd NetworkProviders Npm Collection Daemon Refresh GatewayServer.

(** ** The reads of the collector on the wire *)

(** What the collector asks its client for, with the arguments it passes. *)
Inductive ClientRead :=
  | Read_containers (filters : option (list (rstr * list rstr)))
  | Read_networks (filters : option (list (rstr * list rstr)))
  | Read_volumes (filters : option (list (rstr * list rstr)))
  | Read_logs (name : rstr) (tail : nat) (until : option N).

(** A [String] holds Unicode scalar values; [env::var] yields nothing else. *)
Definition unicode (s : rstr) : Prop := Forall (λ c, is_scalar c = true) s.
Definition env_unicode (env : rstr → EnvVar) : Prop := ∀ name value, env name = Present value → unicode value.

Section wire.
Context (json_string : rstr → rstr) (byte_serialize : list N → rstr).

(** The measured inventory target: one label, or no filter. *)
Definition inventory_target (base : rstr) (label : option rstr) : rstr :=
  match label with
  | None => base
  | Some label => base +s+ separator base +s+ "filters=" +s+ byte_serialize (utf8_bytes (filter_json json_string label))
  end.

(** The measured log target. *)
Definition log_target (name : rstr) (tail : nat) (until : option N) : rstr :=
  "/containers/" +s+ name +s+ "/logs?follow=false&stdout=true&stderr=true&since=0&until="
  +s+ dec_str (default 0%N until) +s+ "&timestamps=true&tail=" +s+ dec_str (N.of_nat tail).

(** The client library on a connection: the request it sends for a read, as the boundary document measures it, and what
    it makes of a reply. An encoded filter determines its label and holds no question mark. *)
Class DockerHttp := {
  Reply : Type;
  empty_reply : N → Reply;
  no_reply : Reply;
  request_of : ClientRead → Request;
  containers_of : Reply → list ContainerSummary + rstr;
  networks_of : Reply → list Network + rstr;
  volumes_of : Reply → option (list rstr) + rstr;
  log_stream_of : Reply → list (list N + rstr);
  request_plain read : plain_get (request_of read) = true;
  request_containers label :
    rq_path_and_query (request_of (Read_containers (docker_filters label)))
    = Some (inventory_target "/containers/json?all=true&size=false" label);
  request_networks label :
    rq_path_and_query (request_of (Read_networks (docker_filters label))) = Some (inventory_target "/networks?" label);
  request_volumes label :
    rq_path_and_query (request_of (Read_volumes (docker_filters label))) = Some (inventory_target "/volumes?" label);
  request_logs name tail until : valid_container_name name = true →
    rq_path_and_query (request_of (Read_logs name tail until)) = Some (log_target name tail until);
  status_is_error status : (400 <= status)%N → ∃ error, containers_of (empty_reply status) = inr error;
  no_reply_is_error : ∃ error, containers_of no_reply = inr error;
  byte_serialize_no_query bytes : 63%N ∉ byte_serialize bytes;
  label_encoding_inj label label' : unicode label → unicode label' →
    byte_serialize (utf8_bytes (filter_json json_string label)) = byte_serialize (utf8_bytes (filter_json json_string label')) →
    label = label'
}.

Context `{DockerHttp}.

(** A read through the gateway; [raw] is what Docker replies to a target on its socket. *)
Definition through_gateway (config : GatewayConfig) (connect : rstr → bool) (raw : rstr → Reply) (read : ClientRead) : Reply :=
  match handle json_string byte_serialize config (request_of read) (Some []) connect with
  | Empty_response status => empty_reply status
  | Upstream _ target _ _ => raw target
  | Hyper_error | Handler_panicked => no_reply
  end.

(** The same read on Docker's own socket. *)
Definition on_raw_socket (raw : rstr → Reply) (read : ClientRead) : Reply :=
  match rq_path_and_query (request_of read) with Some target => raw target | None => no_reply end.

Definition client_over (transport : ClientRead → Reply) : DockerClient := {|
  list_containers filters := containers_of (transport (Read_containers filters));
  list_networks filters := networks_of (transport (Read_networks filters));
  list_volumes filters := volumes_of (transport (Read_volumes filters)) |}.

Definition logs_over (transport : ClientRead → Reply) (name : rstr) (tail : nat) (until : option N) : list (list N + rstr) :=
  log_stream_of (transport (Read_logs name tail until)).

(** ** Scope *)

Definition scope (config : GatewayConfig) : option rstr := label_filter (new (gc_label_filter config)).

(** The target of an inventory read is one the policy accepts exactly for the policy's own label. *)
Lemma inventory_target_accepted p base label :
  base ∈ inventory_bases → label = label_filter p → accepted json_string byte_serialize p (inventory_target base label).
Proof. intros Hb ->. unfold inventory_target. destruct (label_filter p) eqn:E; by constructor. Qed.

(** An inventory read whose label is the policy's reaches Docker, and no other does. *)
Lemma handle_inventory config connect base label read :
  base ∈ inventory_bases → rq_path_and_query (request_of read) = Some (inventory_target base label) →
  (∀ l, label = Some l → unicode l) → (∀ l, scope config = Some l → unicode l) →
  connect (gc_docker_socket config) = true →
  handle json_string byte_serialize config (request_of read) (Some []) connect =
    if decide (label = scope config) then Upstream "GET" (inventory_target base label) "docker" [] else Empty_response 403.
Proof.
  intros Hb Ht Hu Hs Hc. unfold handle.
  assert (E : allow json_string byte_serialize (new (gc_label_filter config)) (request_of read) =
    inventory json_string byte_serialize (new (gc_label_filter config)) (inventory_target base label) base).
  { set (t := match label with None => [] | Some label =>
        separator base +s+ "filters=" +s+ byte_serialize (utf8_bytes (filter_json json_string label)) end : rstr).
    assert (Et : inventory_target base label = base ++ t) by (unfold inventory_target, t; destruct label; by rewrite ?app_nil_r).
    rewrite Et in *. apply allow_inventory; [apply request_plain|done..|]. unfold t. destruct label; [|apply not_elem_of_nil].
    unfold rapp. rewrite !not_elem_of_app. split_and!; [|intros Hin; refute Hin|apply byte_serialize_no_query].
    unfold separator. case_if Es; intros Hin; refute Hin. }
  rewrite E. clear E. unfold scope in *. unfold inventory. destruct (label_filter (new _)) as [own|], label as [label|]; cbn [inventory_target].
  - case_bool_decide as E; case_decide as Ed; cbn; rewrite ?Hc; try done.
    + exfalso. apply Ed. f_equal. unfold separator, rapp in E. apply app_inv_head, app_inv_head, app_inv_head in E.
      apply label_encoding_inj; [by apply Hu|by apply Hs|exact E].
    + exfalso. apply E. by injection Ed as ->.
  - rewrite decide_False by done. rewrite bool_decide_eq_false_2; [done|]. unfold rapp. intros E.
    apply (f_equal length) in E. rewrite !length_app in E. change (length (lit "filters=")) with 8 in E. lia.
  - rewrite decide_False by done. rewrite bool_decide_eq_false_2; [done|]. unfold rapp. intros E.
    apply (f_equal length) in E. rewrite !length_app in E. change (length (lit "filters=")) with 8 in E. lia.
  - rewrite decide_True by done. rewrite bool_decide_eq_true_2 by done. cbn. by rewrite Hc.
Qed.

Lemma inventory_bases_known :
  lit "/containers/json?all=true&size=false" ∈ inventory_bases ∧ lit "/networks?" ∈ inventory_bases ∧ lit "/volumes?" ∈ inventory_bases.
Proof. unfold inventory_bases. split_and!; set_solver. Qed.

Lemma inventory_through config connect raw base label read :
  base ∈ inventory_bases → rq_path_and_query (request_of read) = Some (inventory_target base label) →
  (∀ l, label = Some l → unicode l) → (∀ l, scope config = Some l → unicode l) →
  connect (gc_docker_socket config) = true →
  through_gateway config connect raw read =
    if decide (label = scope config) then on_raw_socket raw read else empty_reply 403.
Proof.
  intros Hb Ht Hu Hs Hc. unfold through_gateway, on_raw_socket. rewrite (handle_inventory _ _ base label) by done. rewrite Ht. by case_decide.
Qed.

(** While Docker's socket refuses connections no inventory read has an answer. *)
Lemma containers_unreachable config connect raw filters :
  connect (gc_docker_socket config) = false →
  ∃ error, containers_of (through_gateway config connect raw (Read_containers filters)) = inr error.
Proof.
  intros Hc. unfold through_gateway, handle.
  destruct (allow _ _ _ _) as [t|d|]; cbn; rewrite ?Hc; [by apply status_is_error..|apply no_reply_is_error].
Qed.

(** The daemon's filter and the gateway's, of one variable, once the gateway runs. *)
Lemma one_scope (env genv : rstr → EnvVar) label :
  env "DOCKERMAP_DOCKER_LABEL_FILTER" = genv "DOCKERMAP_DOCKER_LABEL_FILTER" →
  docker_label_filter_from_env env = inl label → serve_accepts (gateway_config genv) = true → label = scope (gateway_config genv).
Proof.
  unfold docker_label_filter_from_env, serve_accepts, scope, gateway_config, new. cbn [gc_label_filter label_filter]. intros ->.
  destruct (genv _) as [| |value]; cbn [env_ok mbind option_bind]; [by intros [= <-]|done|]. unfold parse_docker_label_filter.
  destruct (decide (value = [])) as [->|Hv]; [by intros [= <-]|].
  rewrite !(bool_decide_eq_false_2 (value = [])) by done. cbn [negb option_bind].
  destruct (decide (trim value = [])) as [E|E]; [by rewrite !(bool_decide_eq_true_2 (trim value = []))|].
  rewrite !(bool_decide_eq_false_2 (trim value = [])) by done. cbn [negb orb].
  intros Hp _. revert Hp. do 3 (let Ec := fresh in case_if Ec; [done|]). intros [= <-]. cbn [mbind option_bind].
  by rewrite (bool_decide_eq_false_2 (trim value = [])).
Qed.

Lemma unicode_trim s : unicode s → unicode (trim s).
Proof.
  intros Hs. destruct (trim_split s) as (g & t & E & _). rewrite E in Hs. unfold unicode in *. rewrite !Forall_app in Hs. apply Hs.
Qed.

Lemma daemon_label_unicode env label l :
  env_unicode env → docker_label_filter_from_env env = inl label → label = Some l → unicode l.
Proof.
  intros He Hl ->. revert Hl. unfold docker_label_filter_from_env, parse_docker_label_filter. destruct (env _) as [| |value] eqn:E; [done..|].
  apply He in E. do 4 (let Ec := fresh in case_if Ec; [done|]). intros [= <-]. by apply unicode_trim.
Qed.

Lemma scope_unicode env l : env_unicode env → scope (gateway_config env) = Some l → unicode l.
Proof.
  intros He. unfold scope, gateway_config, new. cbn [gc_label_filter label_filter]. destruct (env _) as [| |value] eqn:E; cbn [env_ok mbind option_bind]; [done..|].
  apply He in E. case_if Ev; cbn [mbind option_bind]; [|done]. case_if Et; [|done]. intros [= <-]. by apply unicode_trim.
Qed.

(** The collector's tail is the gateway's, and its [until] is a number the policy takes. *)
Lemma log_target_accepted p name until :
  valid_container_name name = true → accepted json_string byte_serialize p (log_target name log_tail_count until).
Proof.
  intros Hn. assert (E : log_target name log_tail_count until =
    "/containers/" +s+ name +s+ "/logs?" +s+ logs_prefix +s+ dec_str (default 0%N until) +s+ logs_suffix).
  { unfold log_target. change (dec_str (N.of_nat log_tail_count)) with LOG_TAIL. by unfold rapp; rewrite <- ?app_assoc. }
  rewrite E. apply accepted_logs; [done|]. unfold until_ok. destruct (default 0%N until) as [|u]; [done|].
  destruct (dec_str_cons (N.pos u)) as (c & s & Es & _). rewrite orb_true_iff. right.
  pose proof (dec_str_digits (N.pos u)) as Hd. rewrite Es in Hd |- *. apply andb_true_iff. split.
  - apply negb_true_iff, N.eqb_neq. by eapply dec_str_no_zero; [|exact Es].
  - apply forallb_forall. rewrite Forall_forall in Hd. intros x Hx. by apply Hd, list_elem_of_In.
Qed.

Lemma log_through config connect raw name until :
  valid_container_name name = true → connect (gc_docker_socket config) = true →
  through_gateway config connect raw (Read_logs name log_tail_count until) = on_raw_socket raw (Read_logs name log_tail_count until).
Proof.
  intros Hn Hc. pose proof (request_logs name log_tail_count until Hn) as Ht. unfold through_gateway, on_raw_socket, handle. rewrite Ht.
  rewrite (allow_complete _ _ _ _ (log_target name log_tail_count until) byte_serialize_no_query (request_plain _) Ht);
    [|by apply log_target_accepted]. cbn. by rewrite Hc.
Qed.

(** The collector's lists through the gateway, by the filters of both. *)
Lemma observation_scoped env genv label connect raw :
  env_unicode env → env_unicode genv → docker_label_filter_from_env env = inl label →
  connect (gc_docker_socket (gateway_config genv)) = true →
  ∃ refused, containers_of (empty_reply 403) = inr refused ∧ ∀ now,
    collect_observation (client_over (through_gateway (gateway_config genv) connect raw)) label now =
      if decide (label = scope (gateway_config genv)) then collect_observation (client_over (on_raw_socket raw)) label now
      else inr ("list_containers failed: " +s+ refused).
Proof.
  intros Hu Hgu Hl Hc. set (config := gateway_config genv) in *.
  assert (Hul : ∀ l, label = Some l → unicode l) by (intros l; by apply (daemon_label_unicode env)).
  assert (Hus : ∀ l, scope config = Some l → unicode l) by (intros l; by apply scope_unicode).
  destruct (status_is_error 403) as [refused Hr]; [done|]. exists refused. split; [done|]. intros now.
  destruct inventory_bases_known as (Hb1 & Hb2 & Hb3). unfold collect_observation, client_over.
  cbn [list_containers list_networks list_volumes].
  rewrite !(inventory_through config connect raw _ label _ Hb1 (request_containers label) Hul Hus Hc).
  rewrite !(inventory_through config connect raw _ label _ Hb2 (request_networks label) Hul Hus Hc).
  rewrite !(inventory_through config connect raw _ label _ Hb3 (request_volumes label) Hul Hus Hc).
  case_decide; [done|]. by rewrite Hr.
Qed.

(** C11: With the wire form the boundary document measures, the collector's observation through a running
    gateway whose Docker socket accepts connections is the very observation it would make on
    Docker's own socket when the daemon's label filter is the gateway's, which it is whenever both
    processes read one value of the variable; with any other filter the observation fails on
    the refused container list and no reply of Docker reaches the daemon. The log pages of a well-formed container name are
    always those of Docker's own socket. *)
Theorem observation_through_gateway env genv label connect raw :
  env_unicode env → env_unicode genv →
  docker_label_filter_from_env env = inl label →
  serve_accepts (gateway_config genv) = true →
  connect (gc_docker_socket (gateway_config genv)) = true →
  (env "DOCKERMAP_DOCKER_LABEL_FILTER" = genv "DOCKERMAP_DOCKER_LABEL_FILTER" → label = scope (gateway_config genv)) ∧
  (∃ refused, containers_of (empty_reply 403) = inr refused ∧ ∀ now,
     collect_observation (client_over (through_gateway (gateway_config genv) connect raw)) label now =
       if decide (label = scope (gateway_config genv)) then collect_observation (client_over (on_raw_socket raw)) label now
       else inr ("list_containers failed: " +s+ refused)) ∧
  ∀ service query cursor limit, valid_container_name service = true →
    collect_logs (logs_over (through_gateway (gateway_config genv) connect raw)) service query cursor limit =
    collect_logs (logs_over (on_raw_socket raw)) service query cursor limit.
Proof.
  intros Hu Hgu Hl Ha Hc. split; [intros He; by eapply one_scope|].
  split; [by apply (observation_scoped env genv)|].
  intros service query cursor limit Hn. unfold collect_logs, logs_over. do 2 f_equal.
  by rewrite (log_through (gateway_config genv) connect raw service (log_until_seconds ∘ millis <$> cursor)).
Qed.

End wire.

(** ** The daemon behind the gateway *)

Section daemon.
Context `{Sha256} `{Json RuntimeMapNode} `{Json RuntimeMapEdge} `{Json RuntimeEvidenceRef}.
Context `{Json (list RuntimeMapNode * list RuntimeMapEdge * list RuntimeMapDiagnostic * list ProviderState)}.
Context `{Json (DockerSnapshot * HealthResponse * RuntimeMap)} `{Json (RuntimeMode * DockerSnapshot)}.
Context (json_string : rstr → rstr) (byte_serialize : list N → rstr) `{!DockerHttp json_string byte_serialize}.

(** The host at each moment: whether the client library connects, which sockets the gateway can
    connect to, what Docker replies to a target, and who answers on any other socket. *)
Variable connects : N → rstr → option rstr.
Variable connect_at : N → rstr → bool.
Variable raw_at : N → rstr → Reply json_string byte_serialize.
Variable elsewhere : N → rstr → DockerClient.

(** The client library of a daemon that shares its host, and its environment, with the gateway. *)
Definition behind_gateway (env : rstr → EnvVar) : Bollard.
Proof.
  refine {|
    Docker := rstr; docker_socket := id;
    connect_with_unix moment socket := match connects moment socket with None => inl socket | Some error => inr error end;
    inventory_at socket moment :=
      if socket == gc_listen_socket (gateway_config env)
      then client_over json_string byte_serialize
             (through_gateway json_string byte_serialize (gateway_config env) (connect_at moment) (raw_at moment))
      else elsewhere moment socket |}.
  intros moment socket client. destruct (connects moment socket); [done|]. by intros [= ->].
Defined.

(** The daemon asks at the path the gateway listens on. *)
Lemma one_socket env socket : docker_gateway_socket_from_env env = inl socket → socket = gc_listen_socket (gateway_config env).
Proof.
  unfold docker_gateway_socket_from_env, validate_docker_gateway_socket, gateway_config. cbn [gc_listen_socket].
  change DEFAULT_DOCKER_GATEWAY_SOCKET with DEFAULT_LISTEN_SOCKET. generalize (default DEFAULT_LISTEN_SOCKET (env_ok (env "DOCKERMAP_DOCKER_GATEWAY_SOCKET"))).
  intros path. case_if E; [done|]. case_if E'; [done|]. by intros [= <-].
Qed.

(** An observation on Docker's own socket is made of the replies to the three measured targets. *)
Lemma observation_targets raw label now o :
  collect_observation (client_over json_string byte_serialize (on_raw_socket json_string byte_serialize raw)) label now = inl o →
  ∃ containers networks volumes,
    containers_of _ _ (raw (inventory_target json_string byte_serialize "/containers/json?all=true&size=false" label)) = inl containers ∧
    networks_of _ _ (raw (inventory_target json_string byte_serialize "/networks?" label)) = inl networks ∧
    volumes_of _ _ (raw (inventory_target json_string byte_serialize "/volumes?" label)) = inl volumes ∧
    do_snapshot o = build_snapshot containers networks volumes now.
Proof.
  unfold collect_observation, client_over, on_raw_socket. cbn [list_containers list_networks list_volumes].
  rewrite request_containers, request_networks, request_volumes.
  destruct (containers_of _ _ _) as [containers|]; [|done]. destruct (networks_of _ _ _) as [networks|]; [|done].
  destruct (volumes_of _ _ _) as [volumes|]; [|done]. intros [= <-]. by exists containers, networks, volumes.
Qed.

Lemma observation_scope env label connect raw now o :
  env_unicode env → docker_label_filter_from_env env = inl label → serve_accepts (gateway_config env) = true →
  collect_observation (client_over json_string byte_serialize (through_gateway json_string byte_serialize (gateway_config env) connect raw)) label now = inl o →
  label = scope (gateway_config env) ∧ connect (gc_docker_socket (gateway_config env)) = true ∧
  collect_observation (client_over json_string byte_serialize (on_raw_socket json_string byte_serialize raw)) label now = inl o.
Proof.
  intros Hu Hl Ha Ho. pose proof (one_scope env env label eq_refl Hl Ha) as Hs. split; [done|].
  destruct (connect (gc_docker_socket (gateway_config env))) eqn:Hc.
  - split; [done|]. destruct (observation_scoped json_string byte_serialize env env label connect raw Hu Hu Hl Hc) as (refused & _ & E).
    rewrite E, decide_True in Ho by done. done.
  - exfalso. revert Ho. unfold collect_observation. cbn [client_over list_containers].
    destruct (containers_unreachable json_string byte_serialize _ _ raw (docker_filters label) Hc) as [error ->]. done.
Qed.

(** C9: The daemon and a running gateway under one environment, in every state they can reach:
    an inventory published as Docker's is, up to its revision and images, the snapshot of three
    replies that Docker itself gave at one moment on the gateway's Docker socket to the three
    measured targets under the configured label, and to no other request. *)
Theorem published_inventory_from_docker env process_boot a :
  env_unicode env → serve_accepts (gateway_config env) = true →
  app_reachable (H6 := behind_gateway env) env process_boot a → dc_mode (sy_cache (as_system a)) = Mode_Docker →
  let target base := inventory_target json_string byte_serialize base (scope (gateway_config env)) in
  ∃ moment now containers networks volumes,
    connect_at moment (gc_docker_socket (gateway_config env)) = true ∧
    containers_of _ _ (raw_at moment (target "/containers/json?all=true&size=false")) = inl containers ∧
    networks_of _ _ (raw_at moment (target "/networks?")) = inl networks ∧
    volumes_of _ _ (raw_at moment (target "/volumes?")) = inl volumes ∧
    unrevised (dc_snapshot (sy_cache (as_system a))) = with_images (build_snapshot containers networks volumes now).
Proof.
  intros Hu Ha Hr Hm target. destruct (app_observed _ _ _ (app_reachable_inv _ _ _ Hr) Hm) as (_ & collector & moment & now & o & [Hs Hl] & Ho & E & _).
  apply one_socket in Hs. unfold observe in Ho. cbn [inventory_at behind_gateway] in Ho. cbn [docker_socket behind_gateway id] in Hs.
  rewrite Hs, bool_decide_eq_true_2 in Ho by done. apply observation_scope in Ho as (Hsc & Hc & Ho); [|done..].
  apply observation_targets in Ho as (containers & networks & volumes & Hcs & Hns & Hvs & Eo). rewrite Hsc in Hcs, Hns, Hvs.
  exists moment, now, containers, networks, volumes. by rewrite E, Eo.
Qed.
End daemon.

(** ** A concrete wire *)

(** The chunk of one byte; no chunk starts another. *)
Definition form_byte (b : N) : rstr :=
  if is_ascii_alphanumeric b || one_of b [42; 45; 46; 95]%N then [b]
  else if (b =? 32)%N then [43%N] else [37%N; percent_digit (b / 16); percent_digit (b mod 16)].

Lemma percent_digit_inj d e : percent_digit d = percent_digit e → d = e.
Proof. unfold percent_digit. destruct (N.ltb_spec d 10), (N.ltb_spec e 10); lia. Qed.

Lemma form_byte_cases b :
  (form_byte b = [b] ∧ b ≠ 43%N ∧ b ≠ 37%N) ∨ (form_byte b = [43%N] ∧ b = 32%N) ∨
  form_byte b = [37%N; percent_digit (b / 16); percent_digit (b mod 16)].
Proof.
  unfold form_byte. destruct (_ || _) eqn:E.
  - left. split; [done|]. split; intros ->; by vm_compute in E.
  - right. destruct (N.eqb_spec b 32); auto.
Qed.

Lemma form_byte_inj b c s t : form_byte b ++ s = form_byte c ++ t → b = c ∧ s = t.
Proof.
  destruct (form_byte_cases b) as [(-> & Hb & Hb')|[[-> ->]| ->]], (form_byte_cases c) as [(-> & Hc & Hc')|[[-> ->]| ->]];
    cbn [app]; intros E; try (exfalso; congruence); try (split; congruence).
  injection E as Eq%percent_digit_inj Er%percent_digit_inj Es. split; [|done].
  rewrite (N.Div0.div_mod b 16), (N.Div0.div_mod c 16). congruence.
Qed.

Lemma form_byte_serialize_inj : Inj (=) (=) form_byte_serialize.
Proof.
  change form_byte_serialize with (λ bytes, bytes ≫= form_byte).
  intros s. induction s as [|b s IH]; intros [|c t]; cbn [mbind list_bind]; [done|..].
  - unfold form_byte. by repeat case_match.
  - unfold form_byte. by repeat case_match.
  - intros [-> ?%IH]%form_byte_inj. by subst.
Qed.

Definition echo_target (base : rstr) (filters : option (list (rstr * list rstr))) : rstr :=
  inventory_target json_plain form_byte_serialize base (filters ≫= λ filters, '(_, labels) ← head filters; head labels).

(** A wire on which Docker's answer is the target it was asked: a status, or that target. *)
#[local] Instance echo_http : DockerHttp json_plain form_byte_serialize.
Proof.
  refine {|
    Reply := N + rstr; empty_reply := inl; no_reply := inl 0%N;
    request_of read := get match read with
      | Read_containers filters => echo_target "/containers/json?all=true&size=false" filters
      | Read_networks filters => echo_target "/networks?" filters
      | Read_volumes filters => echo_target "/volumes?" filters
      | Read_logs name tail until => log_target name tail until
      end;
    containers_of reply := match reply with inl status => inr (dec_str status) | inr _ => inl [] end;
    networks_of reply := match reply with inl status => inr (dec_str status) | inr _ => inl [] end;
    volumes_of reply := match reply with inl status => inr (dec_str status) | inr target => inl (Some [target]) end;
    log_stream_of reply := match reply with inl status => [inr (dec_str status)] | inr target => [inl (utf8_bytes target)] end |}.
  - done.
  - by intros [label|].
  - by intros [label|].
  - by intros [label|].
  - done.
  - eauto.
  - eauto.
  - apply form_byte_serialize_no_query.
  - intros l l' Hl Hl' E%form_byte_serialize_inj. unfold filter_json, json_plain, rapp in E. rewrite !utf8_bytes_app in E.
    apply app_inv_head, app_inv_tail, app_inv_head, app_inv_tail in E. by apply utf8_bytes_inj.
Defined.

Definition echo (target : rstr) : Reply json_plain form_byte_serialize := inr target.

Definition label_env (value : rstr) (name : rstr) : EnvVar :=
  if name == ("DOCKERMAP_DOCKER_LABEL_FILTER" : rstr) then Present value else NotPresent.

Lemma label_env_unicode value : unicode value → env_unicode (label_env value).
Proof. intros Hv name v. unfold label_env. case_if E; [|done]. by intros [= <-]. Qed.

(** Two processes with one label read Docker's own lists of it; a daemon without the filter is refused. *)
Lemma observation_through_gateway_witness :
  let config := gateway_config (label_env " stack=web ") in
  let gateway := client_over json_plain form_byte_serialize (through_gateway json_plain form_byte_serialize config (λ _, true) echo) in
  (∃ o, collect_observation gateway (Some ("stack=web" : rstr)) 9 = inl o ∧
     v_name <$> s_volumes (do_snapshot o) = [lit "/volumes?filters=%7B%22label%22%3A%5B%22stack%3Dweb%22%5D%7D"]) ∧
  collect_observation gateway None 9 = inr (lit "list_containers failed: 403").
Proof.
  assert (Hu : env_unicode (label_env " stack=web ")) by (apply label_env_unicode; unfold unicode; by repeat constructor).
  assert (Hn : env_unicode (λ _, NotPresent)) by done.
  destruct (observation_through_gateway json_plain form_byte_serialize (label_env " stack=web ") (label_env " stack=web ")
    (Some (lit "stack=web")) (λ _, true) echo Hu Hu) as (Hl & (refused & _ & Ho) & _); [by vm_compute..|].
  destruct (observation_through_gateway json_plain form_byte_serialize (λ _, NotPresent) (label_env " stack=web ")
    None (λ _, true) echo Hn Hu) as (_ & (refused' & Hr' & Ho') & _); [by vm_compute..|].
  split.
  - rewrite Ho, decide_True by (by apply Hl). eexists. split; [reflexivity|]. by vm_compute.
  - rewrite Ho', decide_False by done. by injection Hr' as <-.
Defined.

(** ** A concrete run of both processes *)

Section example.
#[local] Existing Instances Toy_sha256 CacheSystem.example_node_json CacheSystem.example_edge_json
  CacheSystem.example_evidence_json CacheSystem.example_collection_json CacheSystem.example_model_json
  CacheSystem.example_docker_json.

#[local] Instance example_world : Bollard :=
  behind_gateway json_plain form_byte_serialize (λ _ _, None) (λ _ _, true) (λ _, echo) (λ _ _, example_client) empty_env.

Definition example_collector : DockerCollector := {| dcl_client := DEFAULT_LISTEN_SOCKET : Docker; dcl_label_filter := None |}.

(** The volume that is published is the one Docker named for the third target. *)
Lemma published_inventory_from_docker_witness :
  ∃ a, app_reachable empty_env "boot" a ∧ dc_mode (sy_cache (as_system a)) = Mode_Docker ∧
    v_name <$> s_volumes (dc_snapshot (sy_cache (as_system a))) = [lit "/volumes?"].
Proof.
  assert (Hu : env_unicode empty_env) by done.
  assert (Hbegins : read_begins empty_env 1 None None = (Connected example_collector, Some example_collector)) by (reflexivity).
  assert (Ho : observe example_collector 1 9 = inl {| do_snapshot := build_snapshot [] [] (Some [lit "/volumes?"]) 9; do_compose_containers := Some [] |}) by (vm_compute; reflexivity).
  destruct (first_refresh empty_env example_collector _ Hbegins Ho) as (a & Hr & Hm & _).
  exists a. split; [exact Hr|]. split; [exact Hm|].
  destruct (published_inventory_from_docker json_plain form_byte_serialize (λ _ _, None) (λ _ _, true) (λ _, echo) (λ _ _, example_client)
    empty_env "boot" a Hu eq_refl Hr Hm) as (moment & now & containers & networks & volumes & _ & Hc & Hn & Hv & E).
  apply (f_equal (λ s, v_name <$> s_volumes s)) in E. refine (eq_trans E _).
  vm_compute in Hc, Hn, Hv. injection Hc as <-. injection Hn as <-. injection Hv as <-. by vm_compute.
Defined.
End example.
